(* ===== verification/_CoqProject ===== *)
-Q . S2P
Prelude.v
GoStrings.v
GoRegexp.v
GoCodec.v
GoProg.v
KubeTypes.v
World.v
LangRuntime.v
Memory.v
ApiClients.v
Copies.v
FakeClients.v
K8sUtil.v
Registry.v
Content.v
PodSpec.v
Ensure.v
EnsureSpec.v
Controller.v
Concrete.v
Ownership.v
Reconcile.v
Converge.v
Provision.v
Deletion.v
Scaling.v
Ordering.v
Worker.v
Dispatch.v
Patching.v
MergeServer.v
Deployed.v
Fulfil.v
ImageBuilder.v
Proxy.v
ProxyMain.v
Exec.v
Metrics.v
Flags.v
FunctionCmd.v
FunctionRun.v
FunctionView.v
Autoscale.v
Topic.v
Triggers.v
CommandSafety.v
Cli.v
ViewSafety.v
TriggerSafety.v
CommandTree.v
CommandRuns.v
Sources.v
EndToEnd.v
Redeploy.v
Autoscaling.v
Undeploy.v
