(* ===== verification/Prelude.v ===== *)
(** * Kubeless: a verification development

    Kubeless runs functions on Kubernetes.  The command line
    (cmd/kubeless) turns source files and flags into [Function] resources and
    trigger resources; the controller (pkg/controller, pkg/utils) watches the
    functions and creates for each a config map with the source, a service, a
    deployment whose init containers fetch, verify and unpack the source, and
    when asked for an autoscaler, a service monitor and a build job; the image
    builder (pkg/function-image-builder) runs in that job; the function proxy
    (pkg/function-proxy) stands before a runtime that serves its function on a
    local port.  They interact through the API server only, and so do the models.

    ** How code is modelled

    - [GoProg]: a Go body is a finite tree of requests to the outside ([Do]),
      accesses to process memory ([Get], [Put]) and endings: a value, an error,
      a panic, an exit of the process.  [World.op] lists the requests, [resp]
      the types of their answers.  [run] interprets a body with a handler over
      a world; [runs p s tr Q] quantifies over every answer to every request;
      [asks], [keeps], [ensures] and [yields] are the four predicates derived
      from it that most theorems use.
    - Code outside src/ is a class: YAML, JSON, mergo, url.Parse,
      cron.ParseStandard, the Prometheus parser, the queue, the API server.
      The ones with laws on behaviour are [World.ApiServer],
      [Worker.WorkQueue], [CommandRuns.Clients] and [CommandRuns.Files],
      [EndToEnd.QueueApart], [Undeploy.Finalizers], [Patching.Patching],
      [Patching.FunctionPatching], [Autoscaling.FunctionVersions], and, each
      with an instance beside it, [ApiClients.Typed.RestClients] and
      [ApiClients.Typed.RestRequests] (client-go's clients and requests),
      [Copies.Copied] (the deep copies of the Kubernetes structs),
      [FakeClients.Tracker], [ProxyMain.HttpServer] (net/http) and
      [CommandTree.Cobra].  [World.serve] is a world that satisfies the first
      six; [MergeServer.merging] is [serve] with merge patches applied and new
      versions for updated functions, and satisfies the first five, the two of
      [Patching] and [FunctionVersions].  [Concrete] holds instances to compute
      with.
    - Maps are [gmap]s, nil maps are [None] ([gomap]); the order in which Go
      visits a map is the parameter [MapRange].  Integers are [Z]; conversions
      to int32 and int64 wrap around ([int32], [int64]).  strings, strconv,
      path, regexp (the seven patterns in use), hex, base64 and SHA-256 are
      executable ([GoStrings], [GoRegexp], [GoCodec]).
    - Pointers matter in the controller, which changes the informer's objects
      in place: [Memory.mem] is a heap of function objects and the Ensure
      functions take addresses.

    ** The files

    - [KubeTypes], [World], [Memory]: objects, requests, the reference server,
      the controller's heap.
    - [ApiClients]: pkg/client: the typed client's calls of the server, the
      informer's list and watch, the lister, the factory that shares informers.
      [Copies]: the deep copies of pkg/apis, on a memory in which sharing can be
      seen; a copy shares nothing.  [FakeClients]: the clients of the tests; over
      a tracker they answer as a lawful server does.
    - [LangRuntime]: pkg/langruntime/langruntime.go.  [K8sUtil]:
      pkg/utils/k8sutil.go.  [Registry]: pkg/registry/registry.go.  [Content],
      [PodSpec], [Ensure]: pkg/utils/kubelessutil.go.  [Controller]:
      pkg/controller/function_controller.go.
    - [EnsureSpec], [Converge]: what the Ensure functions write; they refine
      [Converge.create_or_update], converge and report conflicts.
      [Ownership], [Reconcile]: objects of others are never overwritten.
      [Ordering]: finalizer first, deployment last.  [Deletion]: the
      finalizer goes last, and exactly the function's objects are removed.
      [Scaling]: the autoscaler and its service monitor; a custom metric works
      once.
      [Patching]: what a merge patch leaves of a deployment or a function;
      [MergeServer]: a server that applies them.  [Fulfil]: a servable function
      does get its objects, whether its deployment is new or is patched.
      [Provision]: what the shell commands of the prepare container do; a source
      that does not match its checksum is rejected.  [Deployed]: every deployment runs that plan on volumes it
      shares with the function's container.  [Worker]: the queue drains, which
      updates are noticed.  [Dispatch]: cmd/function-controller and
      FunctionController.Run; the goroutines of the process as a transition
      system, no work before the first list, no event lost.
    - [ImageBuilder]: pkg/function-image-builder with its layer-builder;
      adding a layer keeps the image directory consistent.
    - [Proxy]: pkg/function-proxy as a transition system of concurrent
      requests: replies, metrics, absence of blocking.  [ProxyMain]: its main:
      routes, the runtime's process, the shutdown on a signal; why and how the
      proxy ends.  [Exec]:
      pkg/utils/exec.go, the goroutines of a remote command.
    - [Metrics]: pkg/utils/metrics.go, with a reference definition of its rows.
    - [Flags], [FunctionCmd], [FunctionRun], [FunctionView], [Autoscale],
      [Topic], [Triggers]: the commands of cmd/kubeless/function, autoscale,
      topic and trigger with the flags they declare.  [Cli]: version,
      completion and getserverconfig.  [CommandTree]: the tree of all commands,
      main, and what each command may change.
    - [CommandSafety], [ViewSafety], [TriggerSafety]: what the commands may
      write: valid functions, triggers and rules, nothing on a dry run, merged
      or overwritten fields on an update.  [CommandRuns]: [deploy] succeeds on
      a lawful server with local files and stores the function of its flags, and
      samples of every command.  [Sources]: sources of every kind -- texts,
      binaries, archives, addresses -- from the command line through the config
      map into the runtime volume.
    - [EndToEnd]: command line, server, informer's event, queue and controller
      composed: the bytes of a deployed file reach the function's pod.
      [Redeploy]: so do those of every later update, with the function's
      autoscaler kept.  [Autoscaling]: a rule that is created or deleted on the
      command line takes effect.  [Undeploy]: a delete ends with an empty cluster.

    ** Bounds

    Every loop of the source runs over a list and is structural, except the
    worker's: [Controller.runWorker] takes fuel, and [Worker.worker_drains]
    shows that six processings for each key on the queue are enough.  The
    regexp matcher is structural in pattern and text.  The proxy and the remote
    command are transition systems without fuel; a reply takes at most five
    steps once the function returned or the deadline passed.  The controller's
    process is one too; [Dispatch.event_served] bounds the work before a key is
    served by the number of keys that wait before it.

    ** Not modelled

    - Vendored code, the runtime images (docker), examples, tests and their
      helpers (langruntimetestutils.go); how cobra searches the tree of
      commands, parses flags and writes help texts.
    - How an informer lists, watches and stores, how a REST client encodes and
      sends a request, how net/http serves and shuts down, and how the structs
      of Kubernetes are copied: what is known of them are the steps of
      [Dispatch] and the laws of the classes above.
    - Messages of the logger, the layout of tables and the text of JSON and
      YAML output; [logs] copies a stream and is one printed line.
    - Of the trigger repositories only the calls that cmd/kubeless makes: making
      a client is one request.
    - In [top], functions that do not answer within the time-out are left out
      ([FunctionView.TopChoices]) and their requests are not made. *)
From stdpp Require Export prelude gmap strings pretty fin_maps.
From Stdlib Require Export ZArith Lia.
From Stdlib Require Export Ascii.
From Stdlib Require String.

Declare Scope kubeless_scope.
Delimit Scope kubeless_scope with kl.
Open Scope string_scope.
Open Scope list_scope.
Open Scope kubeless_scope.
#[export] Set Default Goal Selector "!".

(** ** Go errors

    A Go [error] value is only ever inspected by the program through
    [k8sErrors.IsNotFound], [k8sErrors.IsAlreadyExists] and [err.Error()]:
    it is a status reason, absent for the errors the program creates itself
    with [fmt.Errorf] or [errors.New], and a message. *)
Inductive reason := NotFound | AlreadyExists | OtherReason.

Record gerror := GError { err_reason : option reason; err_msg : string }.

Definition Errorf (m : string) : gerror := GError None m.

Definition IsNotFound (e : gerror) : bool :=
  match err_reason e with Some NotFound => true | _ => false end.

Definition IsAlreadyExists (e : gerror) : bool :=
  match err_reason e with Some AlreadyExists => true | _ => false end.

(** A Go function that returns [(A, error)] and neither calls out nor
    panics. *)
Inductive result (A : Type) :=
  | Ok (a : A)
  | Error (e : gerror).
Arguments Ok {A} a.
Arguments Error {A} e.

#[export] Instance result_ret : MRet result := fun A a => Ok a.
#[export] Instance result_bind : MBind result := fun A B f r =>
  match r with Ok a => f a | Error e => Error e end.
#[export] Instance result_fmap : FMap result := fun A B f r =>
  match r with Ok a => Ok (f a) | Error e => Error e end.

Definition is_ok {A} (r : result A) : bool :=
  match r with Ok _ => true | Error _ => false end.

(** [err != nil && !IsNotFound(err)] is how every deletion is read. *)
Definition gone {A} (r : result A) : bool :=
  match r with Ok _ => true | Error e => IsNotFound e end.

#[export] Instance reason_eq_dec : EqDecision reason.
Proof. solve_decision. Defined.
#[export] Instance gerror_eq_dec : EqDecision gerror.
Proof. solve_decision. Defined.
#[export] Instance result_eq_dec {A} `{EqDecision A} : EqDecision (result A).
Proof. solve_decision. Defined.

(** ** Go values

    A Go map is [nil] or a finite map: reading a [nil] map finds nothing,
    its length is 0 and writing to it panics.  The difference is visible in
    the program (it tests [labels == nil]), so it is kept. *)
Abbreviation gomap V := (option (gmap string V)).

Definition mget {V} (m : gomap V) (k : string) : option V := m ≫= (.!! k).
Definition mlen {V} (m : gomap V) : nat := match m with Some g => size g | None => 0 end.
(** [m[k]] read as a string: the zero value is the empty string. *)
Definition mstr (m : gomap string) (k : string) : string := default "" (mget m k).
(** The underlying finite map, without the nil distinction. *)
Definition mmap {V} (m : gomap V) : gmap string V := default ∅ m.

(** [range] over a map visits every entry once, in an order the language
    leaves open: the order is a parameter, [map_range_perm] is all that is
    known of it. *)
Class MapRange := {
  map_range {V : Type} : gomap V -> list (string * V);
  map_range_perm {V : Type} (m : gomap V) : map_range m ≡ₚ map_to_list (mmap m) }.

(** One such order, for evaluation. *)
Definition canonical_range : MapRange :=
  {| map_range V m := map_to_list (mmap m); map_range_perm V m := Permutation_refl _ |}.

(** A pointer is compared by address: two allocations of the same value are
    different pointers. *)
Record ptr (A : Type) := Ptr { p_addr : N; p_val : A }.
Arguments Ptr {A} _ _.
Arguments p_addr {A} _.
Arguments p_val {A} _.

Definition ptr_eqb {A} (p q : option (ptr A)) : bool :=
  match p, q with
  | None, None => true
  | Some p, Some q => N.eqb (p_addr p) (p_addr q)
  | _, _ => false
  end.

(** Conversion to Go's [int32] and [int64]: two's complement wrap-around. *)
Definition int32 (z : Z) : Z := (z + 2^31) mod 2^32 - 2^31.
Definition int64 (z : Z) : Z := (z + 2^63) mod 2^64 - 2^63.

(** Boolean test of string equality, the program's [==] on strings. *)
Definition streq (a b : string) : bool := bool_decide (a = b).
Infix "=?s" := streq (at level 70, no associativity) : kubeless_scope.

(** ** Shared automation *)
#[global] Arguments String.append !_ _ / : simpl nomatch.

Create HintDb kubeless.
Create Rewrite HintDb kubeless_rw.

Ltac case_streq :=
  repeat match goal with
  | H : context [?a =?s ?b] |- _ => unfold streq in H
  | |- context [?a =?s ?b] => unfold streq
  end; repeat case_bool_decide.

(** Split every [match] of the goal and of the hypotheses, keeping the
    equations, and drop the absurd cases. *)
Ltac crush_match :=
  repeat first [ progress simplify_eq/= | case_match ]; try done.

(** ** Generic lemmas *)
Section Strings.

Lemma streq_true a b : (a =?s b) = true <-> a = b.
Proof. unfold streq. case_bool_decide; split; congruence. Qed.

Lemma streq_false a b : (a =?s b) = false <-> a <> b.
Proof. unfold streq. case_bool_decide; split; congruence. Qed.

Lemma streq_refl a : (a =?s a) = true.
Proof. by apply streq_true. Qed.

Lemma string_app_assoc (a b c : string) : (a +:+ b) +:+ c = a +:+ (b +:+ c).
Proof. induction a as [|x a IH]; simpl; [done|]. by f_equal. Qed.

Lemma string_app_empty_r (a : string) : a +:+ "" = a.
Proof. induction a as [|x a IH]; simpl; [done|]. by f_equal. Qed.

Lemma string_length_app (a b : string) :
  String.length (a +:+ b) = String.length a + String.length b.
Proof. induction a as [|x a IH]; simpl; [done|]. by rewrite IH. Qed.

Lemma string_app_inj_l (a b c : string) : a +:+ b = a +:+ c -> b = c.
Proof. induction a as [|x a IH]; simpl; [done|]. intros [= H]. auto. Qed.

Lemma string_app_inj_r (a b c : string) : a +:+ c = b +:+ c -> a = b.
Proof.
  revert b. induction a as [|x a IH]; intros [|y b] H; simpl in *.
  - done.
  - apply (f_equal String.length) in H. simpl in H.
    rewrite string_length_app in H. lia.
  - apply (f_equal String.length) in H. simpl in H.
    rewrite string_length_app in H. lia.
  - injection H as -> H. f_equal. auto.
Qed.

End Strings.

Section Results.

Lemma result_bind_ok {A B} (r : result A) (f : A -> result B) b :
  r ≫= f = Ok b <-> exists a, r = Ok a /\ f a = Ok b.
Proof.
  destruct r as [a|e]; simpl; unfold mbind, result_bind; naive_solver.
Qed.

Lemma is_ok_true {A} (r : result A) : is_ok r = true <-> exists a, r = Ok a.
Proof. destruct r; simpl; naive_solver. Qed.

End Results.

Section Int32.

Lemma int32_id z : (- 2^31 <= z < 2^31)%Z -> int32 z = z.
Proof. intros H. unfold int32. rewrite Z.mod_small; lia. Qed.

Lemma int64_id z : (- 2^63 <= z < 2^63)%Z -> int64 z = z.
Proof. intros. unfold int64. rewrite Z.mod_small; lia. Qed.

Lemma int64_range z : (- 2^63 <= int64 z < 2^63)%Z.
Proof. unfold int64. pose proof (Z.mod_pos_bound (z + 2^63) (2^64)). lia. Qed.

Lemma int32_range z : (- 2^31 <= int32 z < 2^31)%Z.
Proof.
  unfold int32. pose proof (Z.mod_pos_bound (z + 2^31) (2^32) ltac:(lia)). lia.
Qed.

End Int32.

Section Lists.
Context {A : Type}.

(** The first element with a given key, as the program's linear searches
    find it. *)
Lemma find_key_Some (f : A -> string) l k x :
  List.find (fun y => f y =?s k) l = Some x -> x ∈ l /\ f x = k.
Proof.
  intros H. apply List.find_some in H as [Hin Hk].
  by rewrite list_elem_of_In, <- streq_true.
Qed.

Lemma find_key_None (f : A -> string) l k :
  List.find (fun y => f y =?s k) l = None -> Forall (fun y => f y <> k) l.
Proof.
  intros H. apply Forall_forall. intros x Hx E.
  rewrite list_elem_of_In in Hx. pose proof (List.find_none _ _ H x Hx) as Hn.
  by apply streq_false in Hn.
Qed.

Lemma find_key_exists (f : A -> string) l x :
  x ∈ l -> exists y, List.find (fun y => f y =?s f x) l = Some y /\ y ∈ l /\ f y = f x.
Proof.
  intros Hx. destruct (List.find _ l) as [y|] eqn:E.
  - apply find_key_Some in E as Hy. eauto.
  - apply find_key_None in E. rewrite Forall_forall in E. by destruct (E x Hx).
Qed.

Lemma find_key_NoDup (f : A -> string) l x :
  NoDup (f <$> l) -> x ∈ l -> List.find (fun y => f y =?s f x) l = Some x.
Proof.
  intros Hnd Hx. destruct (find_key_exists f l x Hx) as (y & -> & Hy & E). f_equal.
  apply list_elem_of_lookup in Hx as [i Hi]. apply list_elem_of_lookup in Hy as [j Hj].
  assert (i = j) as <-; [|congruence].
  apply (NoDup_lookup (f <$> l) i j (f x)); [done| |];
    rewrite list_lookup_fmap; [by rewrite Hi|by rewrite Hj; simpl; rewrite E].
Qed.

Lemma existsb_streq l k : existsb (fun v => k =?s v) l = true <-> k ∈ l.
Proof.
  rewrite existsb_exists, list_elem_of_In. split.
  - intros (x & Hx & E). apply streq_true in E. by subst.
  - intros Hk. exists k. by rewrite streq_refl.
Qed.

End Lists.

#[export] Hint Resolve streq_refl int32_range : kubeless.
#[export] Hint Rewrite streq_refl string_app_assoc string_app_empty_r : kubeless_rw.
