(* ===== verification/GoStrings.v ===== *)
(** * Go's strings, strconv and path packages, as far as the program uses them

    A Go string is a sequence of bytes and so is a [string] here: an index is
    a byte offset, as in Go. *)
From S2P Require Import Prelude.

Local Open Scope Z_scope.

(** ** package strings *)

Fixpoint HasPrefix (s prefix : string) : bool :=
  match prefix, s with
  | "", _ => true
  | String p prefix', String c s' => Ascii.eqb p c && HasPrefix s' prefix'
  | _, _ => false
  end.

Fixpoint string_drop (n : nat) (s : string) : string :=
  match n, s with
  | S n', String _ s' => string_drop n' s'
  | _, _ => s
  end.

Fixpoint string_take (n : nat) (s : string) : string :=
  match n, s with
  | S n', String c s' => String c (string_take n' s')
  | _, _ => ""
  end.

Definition HasSuffix (s suffix : string) : bool :=
  (String.length suffix <=? String.length s)%nat &&
  (string_drop (String.length s - String.length suffix) s =?s suffix).

(** Offset of the first occurrence, [None] for Go's -1. *)
Fixpoint index_from (n : nat) (s sub : string) : option nat :=
  if HasPrefix s sub then Some n
  else match s with "" => None | String _ s' => index_from (S n) s' sub end.

Definition Index (s sub : string) : Z :=
  match index_from 0 s sub with Some n => Z.of_nat n | None => -1 end.

Definition Contains (s sub : string) : bool := 0 <=? Index s sub.

Definition char_in (cs : string) (c : Ascii.ascii) : bool :=
  match String.index 0 (String c "") cs with Some _ => true | None => false end.

(** [strings.IndexAny]: first byte of [s] that is one of [chars] (ASCII). *)
Fixpoint index_any_from (n : nat) (s chars : string) : option nat :=
  match s with
  | "" => None
  | String c s' => if char_in chars c then Some n else index_any_from (S n) s' chars
  end.

Definition IndexAny (s chars : string) : Z :=
  match index_any_from 0 s chars with Some n => Z.of_nat n | None => -1 end.

(** [strings.Split] on a one-byte separator; the program splits on ".", ":",
    "?" and "/" only.  The result always has at least one element. *)
Fixpoint Split (s : string) (sep : Ascii.ascii) : list string :=
  match s with
  | "" => [""]
  | String c s' =>
      if Ascii.eqb c sep then "" :: Split s' sep
      else match Split s' sep with
           | hd :: tl => String c hd :: tl
           | [] => [String c ""]
           end
  end.

Fixpoint Join (elems : list string) (sep : string) : string :=
  match elems with
  | [] => ""
  | [s] => s
  | s :: rest => s +:+ sep +:+ Join rest sep
  end.

(** [strings.Replace(s, old, new, -1)] for a non-empty [old]: occurrences are
    replaced from the left without overlapping; [skip] counts the bytes of
    the occurrence being dropped. *)
Fixpoint replace_from (skip : nat) (s old new : string) : string :=
  match s with
  | "" => ""
  | String c s' =>
      match skip with
      | S k => replace_from k s' old new
      | O => if HasPrefix s old
             then new +:+ replace_from (pred (String.length old)) s' old new
             else String c (replace_from 0 s' old new)
      end
  end.

Definition Replace (s old new : string) : string := replace_from 0 s old new.

(** [strings.ToUpper] on ASCII letters. *)
Definition upper_char (c : Ascii.ascii) : Ascii.ascii :=
  let n := Ascii.nat_of_ascii c in
  if ((97 <=? n) && (n <=? 122))%nat then Ascii.ascii_of_nat (n - 32) else c.

Fixpoint ToUpper (s : string) : string :=
  match s with "" => "" | String c s' => String (upper_char c) (ToUpper s') end.

Fixpoint string_rev_app (s acc : string) : string :=
  match s with "" => acc | String c s' => string_rev_app s' (String c acc) end.

Fixpoint chars (s : string) : list Ascii.ascii :=
  match s with "" => [] | String c s' => c :: chars s' end.

Fixpoint of_chars (l : list Ascii.ascii) : string :=
  match l with [] => "" | c :: l' => String c (of_chars l') end.

(** ** package strconv *)

Definition Itoa (z : Z) : string := pretty z.

Definition is_digit (c : Ascii.ascii) : bool :=
  let n := Ascii.nat_of_ascii c in ((48 <=? n) && (n <=? 57))%nat.

Definition digit_val (c : Ascii.ascii) : Z := Z.of_nat (Ascii.nat_of_ascii c) - 48.

Fixpoint parse_digits (acc : Z) (s : string) : option Z :=
  match s with
  | "" => Some acc
  | String c s' => if is_digit c then parse_digits (acc * 10 + digit_val c) s' else None
  end.

(** The mandatory digits of a decimal numeral. *)
Definition parse_nat (s : string) : option Z :=
  match s with "" => None | _ => parse_digits 0 s end.

Definition parse_signed (s : string) : option Z :=
  match s with
  | String c s' =>
      if Ascii.eqb c "-"%char then Z.opp <$> parse_nat s'
      else if Ascii.eqb c "+"%char then parse_nat s' else parse_nat s
  | "" => None
  end.

(** [strconv.ParseInt(s, 10, bits)]: a syntax or a range error. *)
Definition ParseInt (s : string) (bits : Z) : result Z :=
  match parse_signed s with
  | None => Error (Errorf ("strconv.ParseInt: parsing " +:+ s +:+ ": invalid syntax"))
  | Some v =>
      if (- 2 ^ (bits - 1) <=? v) && (v <? 2 ^ (bits - 1)) then Ok v
      else Error (Errorf ("strconv.ParseInt: parsing " +:+ s +:+ ": value out of range"))
  end.

Definition Atoi (s : string) : result Z := ParseInt s 64.

(** ** package path *)

(** The components a lexically clean path keeps; [rooted] drops ".." at the
    root, a relative path keeps it. [out] is the output so far, reversed. *)
Fixpoint clean_comps (rooted : bool) (out : list string) (comps : list string) : list string :=
  match comps with
  | [] => rev out
  | c :: rest =>
      if (c =?s "") || (c =?s ".") then clean_comps rooted out rest
      else if c =?s ".." then
        match out with
        | o :: out' =>
            if o =?s ".." then clean_comps rooted (c :: out) rest
            else clean_comps rooted out' rest
        | [] => if rooted then clean_comps rooted [] rest
                else clean_comps rooted [c] rest
        end
      else clean_comps rooted (c :: out) rest
  end.

(** [path.Clean]. *)
Definition Clean (p : string) : string :=
  let rooted := HasPrefix p "/" in
  let body := Join (clean_comps rooted [] (Split p "/"%char)) "/" in
  if rooted then "/" +:+ body
  else if body =?s "" then "." else body.

(** [path.Join] and [filepath.Join] (on a Unix system): the leading empty
    elements are dropped. *)
Fixpoint path_Join (elems : list string) : string :=
  match elems with
  | [] => ""
  | e :: rest => if e =?s "" then path_Join rest else Clean (Join elems "/")
  end.

(** [filepath.Ext]: from the last dot of the last path element. *)
Fixpoint ext_rev (l : list Ascii.ascii) (acc : list Ascii.ascii) : list Ascii.ascii :=
  match l with
  | [] => []
  | c :: l' =>
      if Ascii.eqb c "/"%char then []
      else if Ascii.eqb c "."%char then c :: acc else ext_rev l' (c :: acc)
  end.

Definition filepath_Ext (p : string) : string := of_chars (ext_rev (rev (chars p)) []).

(** ** Lemmas *)

Section Lemmas.

Lemma HasPrefix_app s t : HasPrefix (s +:+ t) s = true.
Proof. induction s as [|c s IH]; simpl; [by destruct t|]. by rewrite Ascii.eqb_refl. Qed.

Lemma HasPrefix_spec s p : HasPrefix s p = true <-> exists t, s = p +:+ t.
Proof.
  split.
  - revert s. induction p as [|c p IH]; intros s H; [by exists s|].
    destruct s as [|d s]; [done|]. simpl in H. apply andb_prop in H as [E H].
    apply Ascii.eqb_eq in E as ->. destruct (IH _ H) as [t ->]. by exists t.
  - intros [t ->]. apply HasPrefix_app.
Qed.

Lemma Split_nonempty s sep : Split s sep <> [].
Proof. destruct s as [|c s]; simpl; [done|]. repeat case_match; done. Qed.

(** Joining the pieces gives the string back. *)
Lemma Join_Split s sep : Join (Split s sep) (String sep "") = s.
Proof.
  induction s as [|c s IH]; [done|]. cbn [Split].
  pose proof (Split_nonempty s sep) as Hne.
  destruct (Split s sep) as [|hd tl] eqn:E; [done|].
  destruct (Ascii.eqb c sep) eqn:Ec.
  - apply Ascii.eqb_eq in Ec as ->. simpl in *. by rewrite IH.
  - destruct tl as [|t tl]; simpl in *; by rewrite IH.
Qed.

Lemma Split_app_sep a b sep :
  Split (a +:+ String sep b) sep = Split a sep ++ Split b sep.
Proof.
  induction a as [|c a IH]; simpl.
  - by rewrite Ascii.eqb_refl.
  - rewrite IH. destruct (Ascii.eqb c sep); [done|].
    pose proof (Split_nonempty a sep). by destruct (Split a sep).
Qed.

(** A string without the separator is a single piece. *)
Definition lacks (sep : Ascii.ascii) (s : string) : Prop := sep ∉ chars s.

#[export] Instance lacks_dec sep s : Decision (lacks sep s).
Proof. unfold lacks. apply _. Defined.

Lemma Split_lacks s sep : lacks sep s -> Split s sep = [s].
Proof.
  unfold lacks. induction s as [|c s IH]; [done|]. simpl. intros H.
  rewrite not_elem_of_cons in H. destruct H as [Hc Hs].
  rewrite (IH Hs). by destruct (Ascii.eqb_spec c sep); [subst|].
Qed.

Lemma Split_pieces_lack s sep : Forall (lacks sep) (Split s sep).
Proof.
  induction s as [|c s IH]; simpl.
  - constructor; [|constructor]. unfold lacks; simpl. apply not_elem_of_nil.
  - destruct (Ascii.eqb_spec c sep) as [->|Hne].
    + constructor; [|done]. apply not_elem_of_nil.
    + destruct (Split s sep) as [|hd tl].
      * constructor; [|constructor]. unfold lacks; simpl. set_solver.
      * inversion IH; subst. constructor; [|done].
        unfold lacks in *; simpl. set_solver.
Qed.

Lemma chars_app a b : chars (a +:+ b) = chars a ++ chars b.
Proof. induction a as [|c a IH]; simpl; [done|]. by rewrite IH. Qed.

Lemma chars_of_chars l : chars (of_chars l) = l.
Proof. induction l as [|c l IH]; simpl; [done|]. by rewrite IH. Qed.

Lemma of_chars_chars s : of_chars (chars s) = s.
Proof. induction s as [|c s IH]; simpl; [done|]. by rewrite IH. Qed.

Lemma chars_inj a b : chars a = chars b -> a = b.
Proof. intros H. rewrite <- (of_chars_chars a), <- (of_chars_chars b). by rewrite H. Qed.

Lemma length_chars s : length (chars s) = String.length s.
Proof. induction s as [|c s IH]; simpl; [done|]. by rewrite IH. Qed.

Lemma string_take_drop n s : string_take n s +:+ string_drop n s = s.
Proof.
  revert s. induction n as [|n IH]; intros [|c s]; simpl; try done. by rewrite IH.
Qed.

Lemma string_drop_app a b : string_drop (String.length a) (a +:+ b) = b.
Proof. induction a as [|c a IH]; simpl; [by destruct b|done]. Qed.

Lemma string_take_app a b : string_take (String.length a) (a +:+ b) = a.
Proof. induction a as [|c a IH]; simpl; [by destruct b|]. by rewrite IH. Qed.

Lemma HasSuffix_spec s suf : HasSuffix s suf = true <-> exists p, s = p +:+ suf.
Proof.
  unfold HasSuffix. rewrite andb_true_iff, Nat.leb_le, streq_true. split.
  - intros [_ H]. exists (string_take (String.length s - String.length suf) s).
    rewrite <- H at 2. by rewrite string_take_drop.
  - intros [p ->]. rewrite string_length_app. split; [lia|].
    replace (String.length p + String.length suf - String.length suf)%nat
      with (String.length p) by lia. apply string_drop_app.
Qed.

Lemma index_from_shift n s sub :
  index_from n s sub = Nat.add n <$> index_from 0 s sub.
Proof.
  revert n. induction s as [|c s IH]; intros n; simpl.
  - destruct sub; simpl; [f_equal; lia|done].
  - case_match; simpl; [f_equal; lia|].
    rewrite (IH (S n)), (IH 1%nat).
    destruct (index_from 0 s sub); simpl; [f_equal; lia|done].
Qed.

Lemma Contains_spec s sub : Contains s sub = true <-> exists p q, s = p +:+ sub +:+ q.
Proof.
  unfold Contains, Index. split.
  - intros H. destruct (index_from 0 s sub) as [n|] eqn:E; [clear H|done].
    revert n E. induction s as [|c s IH]; intros n E; cbn [index_from] in E.
    + destruct sub; [by exists "", ""|discriminate E].
    + destruct (HasPrefix (String c s) sub) eqn:Hp.
      * apply HasPrefix_spec in Hp as [t ->]. by exists "", t.
      * rewrite index_from_shift in E.
        destruct (index_from 0 s sub) as [m|]; [|done].
        destruct (IH _ eq_refl) as (p & q & ->). by exists (String c p), q.
  - intros (p & q & ->). enough (exists n, index_from 0 (p +:+ sub +:+ q) sub = Some n) as [n ->].
    { apply Z.leb_le. lia. }
    induction p as [|c p [n IH]].
    + exists 0%nat. change ("" +:+ sub +:+ q) with (sub +:+ q).
      destruct (sub +:+ q) eqn:E; cbn [index_from]; by rewrite <- E, HasPrefix_app.
    + change (String c p +:+ sub +:+ q) with (String c (p +:+ sub +:+ q)). cbn [index_from].
      destruct (HasPrefix _ _); [by eexists|]. rewrite index_from_shift, IH. by eexists.
Qed.

Lemma Contains_false_lacks s sub : ~ (exists p q, s = p +:+ sub +:+ q) -> Contains s sub = false.
Proof. intros H. destruct (Contains s sub) eqn:E; [|done]. by apply Contains_spec in E. Qed.

Lemma Itoa_inj a b : Itoa a = Itoa b -> a = b.
Proof. apply (inj _). Qed.

Lemma Join_cons x l sep : l <> [] -> Join (x :: l) sep = x +:+ sep +:+ Join l sep.
Proof. by destruct l. Qed.

Lemma Join_app a b sep : a <> [] -> b <> [] -> Join (a ++ b) sep = Join a sep +:+ sep +:+ Join b sep.
Proof.
  intros Ha Hb. induction a as [|x a IH]; [done|].
  destruct a as [|y a]; [by apply Join_cons|].
  change ((x :: y :: a) ++ b) with (x :: ((y :: a) ++ b)).
  rewrite !Join_cons, IH by done. by rewrite !string_app_assoc.
Qed.

Lemma Join_nonempty x l sep : x <> "" -> Join (x :: l) sep <> "".
Proof. destruct x, l; simpl; done. Qed.

Lemma Split_single_sep a b sep :
  lacks sep a -> lacks sep b -> Split (a +:+ String sep b) sep = [a; b].
Proof. intros Ha Hb. by rewrite Split_app_sep, (Split_lacks a), (Split_lacks b). Qed.

(** ** File names *)

(** A name of one path element, as the keys of a config map are. *)
Definition plain (n : string) : Prop :=
  lacks "/"%char n /\ n <> "" /\ n <> "." /\ n <> "..".

Lemma clean_comps_keep rooted out c rest :
  c <> "" -> c <> "." -> c <> ".." ->
  clean_comps rooted out (c :: rest) = clean_comps rooted (c :: out) rest.
Proof. intros H0 H1 H2. cbn. by rewrite !(proj2 (streq_false _ _)) by done. Qed.

Lemma clean_comps_snoc rooted out l n :
  plain n -> clean_comps rooted out (l ++ [n]) = clean_comps rooted out l ++ [n].
Proof.
  intros (_ & H0 & H1 & H2). revert out. induction l as [|c l IH]; intros out.
  - cbn [app]. by rewrite clean_comps_keep.
  - cbn. repeat case_match; apply IH.
Qed.

(** In a given directory, path.Join puts a prefix in front of plain names. *)
Lemma path_Join_prefix dir :
  dir <> "" -> exists pre, forall n, plain n -> path_Join [dir; n] = pre +:+ n.
Proof.
  intros Hdir.
  set (C := clean_comps (HasPrefix dir "/") [] (Split dir "/"%char)).
  exists ((if HasPrefix dir "/" then "/" else "") +:+
          match C with [] => "" | _ => Join C "/" +:+ "/" end).
  intros n Hn. cbn [path_Join]. rewrite (proj2 (streq_false _ _) Hdir). cbn [Join].
  assert (Hp : HasPrefix (dir +:+ "/" +:+ n) "/" = HasPrefix dir "/").
  { destruct dir as [|c dir]; [done|]. cbn. by destruct dir, n. }
  assert (Hs : Split (dir +:+ "/" +:+ n) "/"%char = Split dir "/"%char ++ [n]).
  { change ("/" +:+ n) with (String "/"%char n). rewrite Split_app_sep.
    f_equal. apply Split_lacks, Hn. }
  unfold Clean. rewrite Hp, Hs, clean_comps_snoc by done. fold C.
  assert (Hj : Join (C ++ [n]) "/" = match C with [] => "" | _ => Join C "/" +:+ "/" end +:+ n).
  { destruct C as [|x C']; [done|]. rewrite Join_app by done. by rewrite string_app_assoc. }
  rewrite Hj. destruct (HasPrefix dir "/"); [by rewrite string_app_assoc|].
  destruct (_ =?s "") eqn:E; [|done]. apply streq_true in E. destruct Hn as (_ & Hn & _).
  apply (f_equal String.length) in E. rewrite string_length_app in E. destruct n; [done|].
  simpl in E. lia.
Qed.

(** ** Replacement *)

Lemma replace_none s old new c :
  c ∈ chars old -> lacks c s -> replace_from 0 s old new = s.
Proof.
  intros Hc. induction s as [|x s IH]; intros Hs; [done|]. cbn [replace_from].
  destruct (HasPrefix (String x s) old) eqn:E.
  - apply HasPrefix_spec in E as [t E]. exfalso. apply Hs. rewrite E, chars_app, elem_of_app. by left.
  - f_equal. apply IH. unfold lacks in *. simpl in Hs. set_solver.
Qed.

Lemma replace_skip a s old new :
  replace_from (String.length a) (a +:+ s) old new = replace_from 0 s old new.
Proof. induction a as [|x a IH]; [done|]. cbn. apply IH. Qed.

(** Taking a prefix off. *)
Lemma Replace_prefix old s c :
  c ∈ chars old -> lacks c s -> Replace (old +:+ s) old "" = s.
Proof.
  intros Hc Hs. unfold Replace. destruct old as [|x old]; [by apply elem_of_nil in Hc|].
  pose proof (HasPrefix_app (String x old) s) as Hp. cbn in Hp |- *. rewrite Hp. cbn.
  rewrite replace_skip. by apply (replace_none s (String x old) "" c).
Qed.

End Lemmas.

Section Examples.

Example split_handler : Split "module.handler" "."%char = ["module"; "handler"].
Proof. reflexivity. Qed.
Example split_trailing : Split "a." "."%char = ["a"; ""].
Proof. reflexivity. Qed.
Example join_clean : path_Join ["/kubeless"; ""] = "/kubeless".
Proof. reflexivity. Qed.
Example join_dotdot : path_Join ["/src"; "../etc/./x"] = "/etc/x".
Proof. reflexivity. Qed.
Example clean_rel : Clean "a//b/../../../c" = "../c".
Proof. reflexivity. Qed.
Example replace_all : Replace "sha256:ab:sha256:" "sha256:" "" = "ab:".
Proof. reflexivity. Qed.
Example ext_json : filepath_Ext "/tmp/a.b/payload.json" = ".json".
Proof. reflexivity. Qed.
Example ext_none : filepath_Ext "/tmp/a.b/payload" = "".
Proof. reflexivity. Qed.
Example atoi_neg : Atoi "-42" = Ok (-42).
Proof. reflexivity. Qed.
Example parse_int_overflow : is_ok (ParseInt "2147483648" 32) = false.
Proof. reflexivity. Qed.
Example contains_deps : Contains "base64+zip+deps" "deps" = true.
Proof. reflexivity. Qed.

End Examples.

(** [lacks] on a literal. *)
Ltac lacks_done := solve [apply (bool_decide_unpack (lacks _ _)); vm_compute; exact Logic.I].
