(* ===== verification/GoRegexp.v ===== *)
(** * Go's regexp package, for the patterns the program compiles

    The program uses seven patterns, all of them concatenations of character
    classes, greedy repetitions of a class, an optional character, unnested
    capture groups and anchors.  [re] is that fragment; [mt] is the
    leftmost-first (Perl-like) backtracking semantics that package regexp
    documents, and [FindString], [FindStringSubmatch] and [MatchString] are
    the three entry points in use. *)
From S2P Require Import Prelude GoStrings.

Inductive re :=
  | REps
  | RChar (f : ascii -> bool)        (* one character of a class *)
  | RSeq (a b : re)
  | RStar (f : ascii -> bool)        (* greedy repetition of a class *)
  | ROpt (f : ascii -> bool)         (* greedy optional character *)
  | RGroup (r : re)                  (* capture group *)
  | RBol                             (* ^ *)
  | REol.                            (* $ *)

Definition RPlus (f : ascii -> bool) : re := RSeq (RChar f) (RStar f).

Fixpoint RLit (s : string) : re :=
  match s with "" => REps | String c s' => RSeq (RChar (Ascii.eqb c)) (RLit s') end.

(** The part of [s] consumed when [s'] is left. *)
Definition consumed (s s' : string) : string :=
  string_take (String.length s - String.length s') s.

Section Matcher.
Context {A : Type}.

(** A continuation takes whether the position is the beginning of the text,
    the rest of the text and the captures so far. *)
Fixpoint star (f : ascii -> bool) (bol : bool) (s : string) (caps : list string)
    (k : bool -> string -> list string -> option A) : option A :=
  match s with
  | String c s' =>
      if f c then
        match star f false s' caps k with Some x => Some x | None => k bol s caps end
      else k bol s caps
  | "" => k bol s caps
  end.

Fixpoint mt (r : re) (bol : bool) (s : string) (caps : list string)
    (k : bool -> string -> list string -> option A) : option A :=
  match r with
  | REps => k bol s caps
  | RChar f =>
      match s with
      | String c s' => if f c then k false s' caps else None
      | "" => None
      end
  | RSeq a b => mt a bol s caps (fun bol' s' caps' => mt b bol' s' caps' k)
  | RStar f => star f bol s caps k
  | ROpt f =>
      match s with
      | String c s' =>
          if f c then
            match k false s' caps with Some x => Some x | None => k bol s caps end
          else k bol s caps
      | "" => k bol s caps
      end
  | RGroup a =>
      mt a bol s caps (fun bol' s' caps' => k bol' s' (caps' ++ [consumed s s']))
  | RBol => if bol then k bol s caps else None
  | REol => match s with "" => k bol s caps | _ => None end
  end.

End Matcher.

(** Leftmost match: the matched text and the captures. *)
Fixpoint find_from (r : re) (bol : bool) (s : string) : option (string * list string) :=
  match mt r bol s [] (fun _ s' caps => Some (consumed s s', caps)) with
  | Some x => Some x
  | None => match s with "" => None | String _ s' => find_from r false s' end
  end.

Definition FindString (r : re) (s : string) : string :=
  match find_from r true s with Some (m, _) => m | None => "" end.

(** [nil] when there is no match, else the match followed by the groups. *)
Definition FindStringSubmatch (r : re) (s : string) : list string :=
  match find_from r true s with Some (m, caps) => m :: caps | None => [] end.

Definition MatchString (r : re) (s : string) : bool :=
  match find_from r true s with Some _ => true | None => false end.

(** ** Character classes *)

Definition in_range (lo hi : ascii) (c : ascii) : bool :=
  let n := nat_of_ascii c in
  Nat.leb (nat_of_ascii lo) n && Nat.leb n (nat_of_ascii hi).

Definition is_lower := in_range "a" "z".
Definition is_upper := in_range "A" "Z".
Definition is_letter (c : ascii) : bool := is_lower c || is_upper c.
Definition newline : ascii := ascii_of_nat 10.
Definition dquote : ascii := ascii_of_nat 34.

(** ** Lemmas *)

Definition all_chars (f : ascii -> bool) (s : string) : bool := forallb f (chars s).

Section Lemmas.

Lemma consumed_app a b : consumed (a +:+ b) b = a.
Proof.
  unfold consumed. rewrite string_length_app.
  replace (String.length a + String.length b - String.length b) with (String.length a) by lia.
  apply string_take_app.
Qed.

Lemma consumed_self s : consumed s s = "".
Proof. unfold consumed. rewrite Nat.sub_diag. by destruct s. Qed.

(** The greedy repetition takes the whole run of class characters when the
    continuation accepts what follows it. *)
Lemma star_run {A} f bol a b caps (k : bool -> string -> list string -> option A) x :
  all_chars f a = true ->
  (forall c b', b = String c b' -> f c = false) ->
  k (if a =?s "" then bol else false) b caps = Some x ->
  star f bol (a +:+ b) caps k = Some x.
Proof.
  revert bol. induction a as [|c a IH]; intros bol Ha Hb Hk; simpl in *.
  - destruct b as [|c b]; simpl; [done|]. by rewrite (Hb c b eq_refl).
  - unfold all_chars in *. simpl in Ha. apply andb_prop in Ha as [Hc Ha]. rewrite Hc.
    rewrite (IH false); [done|done|done|]. by case_match.
Qed.

Lemma find_skip r bol s t :
  (forall p q c bol', s = p +:+ String c q -> (bol' = bol \/ bol' = false) ->
     mt r bol' (String c q +:+ t) []
       (fun _ s' caps => Some (consumed (String c q +:+ t) s', caps)) = None) ->
  find_from r bol (s +:+ t) = find_from r (if s =?s "" then bol else false) t.
Proof.
  revert bol. induction s as [|c s IH]; intros bol H; [done|].
  pose proof (H "" s c bol eq_refl (or_introl eq_refl)) as H0.
  change (String c s +:+ t) with (String c (s +:+ t)) in *. cbn [find_from].
  rewrite H0.
  rewrite IH; [by case_match|].
  intros p q d bol' -> Hb. apply (H (String c p) q d bol' eq_refl). naive_solver.
Qed.

(** A class repetition anchored at the start finds the leading run. *)
Lemma FindString_leading f a b :
  all_chars f a = true -> a <> "" ->
  (forall c b', b = String c b' -> f c = false) ->
  FindString (RSeq RBol (RPlus f)) (a +:+ b) = a.
Proof.
  intros Ha Hne Hb. unfold FindString. destruct a as [|c a]; [done|].
  unfold all_chars in Ha. simpl in Ha. apply andb_prop in Ha as [Hc Ha].
  assert (Hm : mt (RSeq RBol (RPlus f)) true (String c a +:+ b) []
      (fun _ s' caps => Some (consumed (String c a +:+ b) s', caps)) =
      Some (consumed (String c a +:+ b) b, [])).
  { simpl. rewrite Hc. by apply star_run. }
  change (String c a +:+ b) with (String c (a +:+ b)) in *. cbn [find_from].
  rewrite Hm. change (String c (a +:+ b)) with (String c a +:+ b).
  by rewrite consumed_app.
Qed.

(** Without a leading class character the anchored search finds nothing. *)
Lemma FindString_leading_none f s :
  (forall c s', s = String c s' -> f c = false) ->
  FindString (RSeq RBol (RPlus f)) s = "".
Proof.
  intros H. unfold FindString.
  assert (Hb : forall t, find_from (RSeq RBol (RPlus f)) false t = None).
  { induction t as [|c t IH]; [done|]. cbn [find_from]. exact IH. }
  destruct s as [|c s]; [done|]. cbn [find_from].
  simpl. rewrite (H c s eq_refl). by rewrite Hb.
Qed.

(** A class repetition anchored at the end finds the trailing run. *)
Lemma FindString_trailing f a b :
  all_chars (fun c => negb (f c)) a = true -> all_chars f b = true -> b <> "" ->
  FindString (RSeq (RPlus f) REol) (a +:+ b) = b.
Proof.
  intros Ha Hb Hne. unfold FindString. rewrite find_skip.
  - destruct b as [|c b]; [done|]. unfold all_chars in Hb. simpl in Hb.
    apply andb_prop in Hb as [Hc Hb].
    assert (Hm : forall bol, mt (RSeq (RPlus f) REol) bol (String c b) []
      (fun _ s' caps => Some (consumed (String c b) s', caps)) =
      Some (String c b, [])).
    { intros bol. simpl. rewrite Hc.
      rewrite <- (string_app_empty_r b) at 1. apply star_run; [done|done|].
      pose proof (consumed_app (String c b) "") as E.
      by rewrite string_app_empty_r in E; rewrite E. }
    by destruct (a =?s ""); cbn [find_from]; rewrite Hm.
  - intros p q c bol' -> _. simpl.
    unfold all_chars in Ha. rewrite chars_app, forallb_app in Ha.
    apply andb_prop in Ha as [_ Ha]. simpl in Ha. apply andb_prop in Ha as [Hc _].
    by destruct (f c).
Qed.

(** A literal followed by a continuation. *)
Lemma mt_RLit {A} l bol s caps (k : bool -> string -> list string -> option A) :
  mt (RLit l) bol (l +:+ s) caps k = k (if l =?s "" then bol else false) s caps.
Proof.
  revert bol. induction l as [|c l IH]; intros bol; [done|].
  simpl. rewrite Ascii.eqb_refl, IH. by case_match.
Qed.

Lemma mt_RLit_none {A} l bol s caps (k : bool -> string -> list string -> option A) :
  HasPrefix s l = false -> mt (RLit l) bol s caps k = None.
Proof.
  revert bol s. induction l as [|c l IH]; intros bol s H; [by destruct s|].
  simpl. destruct s as [|d s]; [done|]. simpl in H.
  destruct (Ascii.eqb c d); [|done]. by apply IH.
Qed.

End Lemmas.

Section Examples.

Example find_version :
  FindString (RSeq (RPlus (fun c => is_digit c || Ascii.eqb c ".")) REol) "python2.7" = "2.7".
Proof. reflexivity. Qed.
Example find_leftmost :
  FindString (RSeq (RPlus is_digit) REol) "a12b34" = "34".
Proof. reflexivity. Qed.
Example find_group :
  FindStringSubmatch (RSeq (RLit "k=") (RGroup (RStar is_digit))) "xk=12;k=3" = ["k=12"; "12"].
Proof. reflexivity. Qed.

End Examples.
