(* ===== verification/GoCodec.v ===== *)
(** * Go's encoding/hex, encoding/base64, unicode/utf8 and crypto/sha256

    Executable models of the four codecs the program uses on file contents,
    with the facts the program relies on: a hexadecimal digest has twice as
    many characters as bytes, a SHA-256 digest has 32 bytes, and decoding
    undoes the standard base64 encoding. *)
From S2P Require Import Prelude GoStrings.

Local Open Scope N_scope.

Definition byte_vals (s : string) : list N := Ascii.N_of_ascii <$> chars s.
Definition of_byte_vals (l : list N) : string := of_chars (Ascii.ascii_of_N <$> l).

(** ** encoding/hex *)

Definition hex_digit (n : N) : ascii :=
  Ascii.ascii_of_N (if n <? 10 then 48 + n else 87 + n).

Definition hex_byte (b : N) : list ascii := [hex_digit (b / 16); hex_digit (b mod 16)].

(** [hex.EncodeToString], and [fmt.Sprintf("%x", digest)]. *)
Definition hex_EncodeToString (l : list N) : string := of_chars (l ≫= hex_byte).

(** ** encoding/base64 *)

Definition b64_char (n : N) : ascii :=
  Ascii.ascii_of_N
    (if n <? 26 then 65 + n else if n <? 52 then 71 + n
     else if n <? 62 then n - 4 else if n =? 62 then 43 else 47).

Definition b64_val (c : ascii) : option N :=
  let n := Ascii.N_of_ascii c in
  if (65 <=? n) && (n <=? 90) then Some (n - 65)
  else if (97 <=? n) && (n <=? 122) then Some (n - 71)
  else if (48 <=? n) && (n <=? 57) then Some (n + 4)
  else if n =? 43 then Some 62 else if n =? 47 then Some 63 else None.

Definition b64_pad : ascii := "="%char.

Fixpoint b64_encode (l : list N) : list ascii :=
  match l with
  | a :: b :: c :: rest =>
      b64_char (a / 4) :: b64_char ((a mod 4) * 16 + b / 16) ::
      b64_char ((b mod 16) * 4 + c / 64) :: b64_char (c mod 64) :: b64_encode rest
  | [a; b] =>
      [b64_char (a / 4); b64_char ((a mod 4) * 16 + b / 16);
       b64_char ((b mod 16) * 4); b64_pad]
  | [a] => [b64_char (a / 4); b64_char ((a mod 4) * 16); b64_pad; b64_pad]
  | [] => []
  end.

(** [base64.StdEncoding.EncodeToString]. *)
Definition base64_EncodeToString (s : string) : string := of_chars (b64_encode (byte_vals s)).

(** Standard base64 decoding of padded input, what [base64 -d] does with the
    output of the encoder. *)
Fixpoint b64_decode (l : list ascii) : option (list N) :=
  match l with
  | [] => Some []
  | c0 :: c1 :: c2 :: c3 :: rest =>
      v0 ← b64_val c0; v1 ← b64_val c1;
      if Ascii.eqb c2 b64_pad then
        if Ascii.eqb c3 b64_pad then
          match rest with [] => Some [v0 * 4 + v1 / 16] | _ => None end
        else None
      else
        v2 ← b64_val c2;
        if Ascii.eqb c3 b64_pad then
          match rest with
          | [] => Some [v0 * 4 + v1 / 16; (v1 mod 16) * 16 + v2 / 4]
          | _ => None
          end
        else
          v3 ← b64_val c3; tl ← b64_decode rest;
          Some (v0 * 4 + v1 / 16 :: (v1 mod 16) * 16 + v2 / 4 :: (v2 mod 4) * 64 + v3 :: tl)
  | _ => None
  end.

Definition base64_Decode (s : string) : option string :=
  of_byte_vals <$> b64_decode (chars s).

(** [base64.RawURLEncoding]: the URL alphabet, no padding. *)
Definition url_char (c : ascii) : ascii :=
  if Ascii.eqb c "+" then "-"%char else if Ascii.eqb c "/" then "_"%char else c.

Definition base64_RawURL (l : list N) : string :=
  of_chars (url_char <$> filter (fun c => c <> b64_pad) (b64_encode l)).

(** ** unicode/utf8 *)

Definition is_cont (n : N) : bool := (128 <=? n) && (n <=? 191).
Definition between (lo n hi : N) : bool := (lo <=? n) && (n <=? hi).

(** [utf8.ValidString]: no overlong form, no surrogate, nothing above
    U+10FFFF. *)
Fixpoint utf8_valid (l : list N) : bool :=
  match l with
  | [] => true
  | a :: r1 =>
      if a <? 128 then utf8_valid r1
      else match r1 with
      | [] => false
      | b :: r2 =>
          if between 194 a 223 then is_cont b && utf8_valid r2
          else match r2 with
          | [] => false
          | c :: r3 =>
              if between 224 a 239 then
                (if a =? 224 then between 160 b 191
                 else if a =? 237 then between 128 b 159 else is_cont b)
                && is_cont c && utf8_valid r3
              else match r3 with
              | [] => false
              | d :: r4 =>
                  between 240 a 244 &&
                  (if a =? 240 then between 144 b 191
                   else if a =? 244 then between 128 b 143 else is_cont b)
                  && is_cont c && is_cont d && utf8_valid r4
              end
          end
      end
  end.

Definition utf8_ValidString (s : string) : bool := utf8_valid (byte_vals s).

(** ** crypto/sha256

    Words are [N] below 2^32.  The round constants are the first 32 bits of
    the fractional parts of the cube roots of the first 64 primes, the
    initial state those of the square roots of the first 8. *)

Definition w32 (x : N) : N := x mod 2^32.
Definition add32 (x y : N) : N := w32 (x + y).
Definition rotr (k x : N) : N := N.lor (N.shiftr x k) (w32 (N.shiftl x (32 - k))).
Definition not32 (x : N) : N := N.lxor x (2^32 - 1).

Definition is_prime (n : nat) : bool :=
  forallb (fun d => negb (Nat.eqb (n mod d) 0)%nat) (seq 2 (n - 2)).

Definition primes64 : list N := Eval vm_compute in
  N.of_nat <$> take 64 (List.filter is_prime (seq 2 310)).

(** Integer cube root by bisection on the bits below [2^i]. *)
Fixpoint icbrt (i : nat) (acc n : N) : N :=
  match i with
  | O => acc
  | S i' => let t := acc + 2 ^ N.of_nat i' in
            icbrt i' (if t * t * t <=? n then t else acc) n
  end.

Definition sha_rounds : list N := Eval vm_compute in
  (fun p => icbrt 36 0 (p * 2^96) mod 2^32) <$> primes64.

Definition sha_init : list N := Eval vm_compute in
  (fun p => N.sqrt (p * 2^64) mod 2^32) <$> take 8 primes64.

Fixpoint be_word (l : list N) : N :=
  match l with [] => 0 | b :: l' => b * 256 ^ N.of_nat (length l') + be_word l' end.

Definition be_bytes (k : nat) (x : N) : list N :=
  (fun i => (x / 256 ^ N.of_nat (k - 1 - i)) mod 256) <$> seq 0 k.

(** Split into pieces of [k], dropping an incomplete last one. *)
Fixpoint chunks {A} (fuel k : nat) (l : list A) : list (list A) :=
  match fuel with
  | O => []
  | S fuel' => if (k <=? length l)%nat then take k l :: chunks fuel' k (drop k l) else []
  end.

Definition sha_pad (l : list N) : list N :=
  let n := length l in
  let z := ((119 - n mod 64) mod 64)%nat in
  l ++ [128] ++ replicate z 0 ++ be_bytes 8 (8 * N.of_nat n).

Definition s_sigma0 x := N.lxor (rotr 7 x) (N.lxor (rotr 18 x) (N.shiftr x 3)).
Definition s_sigma1 x := N.lxor (rotr 17 x) (N.lxor (rotr 19 x) (N.shiftr x 10)).
Definition b_sigma0 x := N.lxor (rotr 2 x) (N.lxor (rotr 13 x) (rotr 22 x)).
Definition b_sigma1 x := N.lxor (rotr 6 x) (N.lxor (rotr 11 x) (rotr 25 x)).

(** The message schedule, most recent word first. *)
Fixpoint schedule (n : nat) (w : list N) : list N :=
  match n with
  | O => w
  | S n' =>
      let x i := nth i w 0 in
      schedule n' (add32 (add32 (s_sigma1 (x 1%nat)) (x 6%nat))
                         (add32 (s_sigma0 (x 14%nat)) (x 15%nat)) :: w)
  end.

Record sha_state := Sha { va : N; vb : N; vc : N; vd : N; ve : N; vf : N; vg : N; vh : N }.

Definition sha_round (st : sha_state) (kw : N * N) : sha_state :=
  let ch := N.lxor (N.land (ve st) (vf st)) (N.land (not32 (ve st)) (vg st)) in
  let maj := N.lxor (N.land (va st) (vb st))
               (N.lxor (N.land (va st) (vc st)) (N.land (vb st) (vc st))) in
  let t1 := add32 (add32 (vh st) (b_sigma1 (ve st))) (add32 ch (add32 (fst kw) (snd kw))) in
  let t2 := add32 (b_sigma0 (va st)) maj in
  Sha (add32 t1 t2) (va st) (vb st) (vc st) (add32 (vd st) t1) (ve st) (vf st) (vg st).

Definition sha_add (s t : sha_state) : sha_state :=
  Sha (add32 (va s) (va t)) (add32 (vb s) (vb t)) (add32 (vc s) (vc t)) (add32 (vd s) (vd t))
      (add32 (ve s) (ve t)) (add32 (vf s) (vf t)) (add32 (vg s) (vg t)) (add32 (vh s) (vh t)).

Definition sha_block (st : sha_state) (block : list N) : sha_state :=
  let w := rev (schedule 48 (rev (be_word <$> chunks 16 4 block))) in
  sha_add st (foldl sha_round st (zip sha_rounds w)).

Definition sha_start : sha_state :=
  let h i := nth i sha_init 0 in
  Sha (h 0%nat) (h 1%nat) (h 2%nat) (h 3%nat) (h 4%nat) (h 5%nat) (h 6%nat) (h 7%nat).

(** [sha256.Sum256]: the 32 bytes of the digest. *)
Definition sha256_Sum256 (s : string) : list N :=
  let msg := sha_pad (byte_vals s) in
  let st := foldl sha_block sha_start (chunks (length msg) 64 msg) in
  [va st; vb st; vc st; vd st; ve st; vf st; vg st; vh st] ≫= be_bytes 4.

(** [hex.EncodeToString(h.Sum(nil))]. *)
Definition sha256_hex (s : string) : string := hex_EncodeToString (sha256_Sum256 s).

(** ** Lemmas *)

(** Linear arithmetic with division and remainder by constants. *)
Ltac divmod_lia := zify; Z.to_euclidean_division_equations; lia.

Section Lemmas.

Lemma string_length_of_chars l : String.length (of_chars l) = length l.
Proof. induction l as [|c l IH]; simpl; [done|]. by rewrite IH. Qed.

Lemma hex_length l : String.length (hex_EncodeToString l) = (2 * length l)%nat.
Proof.
  unfold hex_EncodeToString. rewrite string_length_of_chars.
  induction l as [|b l IH]; [done|]. rewrite bind_cons, length_app, IH. simpl. lia.
Qed.

Lemma sha256_length s : length (sha256_Sum256 s) = 32%nat.
Proof. reflexivity. Qed.

(** The image tag and the checksums have 64 characters. *)
Lemma sha256_hex_length s : String.length (sha256_hex s) = 64%nat.
Proof. unfold sha256_hex. by rewrite hex_length, sha256_length. Qed.

Lemma be_bytes_bound k x : Forall (fun b => b < 256) (be_bytes k x).
Proof.
  unfold be_bytes. apply Forall_fmap, Forall_forall. intros i _. simpl. apply N.mod_lt. lia.
Qed.

Lemma sha256_bound s : Forall (fun b => b < 256) (sha256_Sum256 s).
Proof.
  unfold sha256_Sum256. rewrite !bind_cons. cbv zeta.
  repeat (apply Forall_app_2; [apply be_bytes_bound|]). constructor.
Qed.

Definition hex_digits : string := "0123456789abcdef".

Lemma hex_digit_in n : n < 16 -> hex_digit n ∈ chars hex_digits.
Proof.
  intros Hn. assert (n ∈ N.of_nat <$> seq 0 16) as Hin.
  { apply list_elem_of_fmap. exists (N.to_nat n). rewrite elem_of_seq. lia. }
  simpl in Hin. repeat (apply elem_of_cons in Hin as [->|Hin];
    [apply (bool_decide_unpack (_ ∈ _)); vm_compute; exact Logic.I|]).
  by apply elem_of_nil in Hin.
Qed.

(** A digest consists of hexadecimal digits. *)
Lemma sha256_hex_lacks c s : lacks c hex_digits -> lacks c (sha256_hex s).
Proof.
  unfold lacks, sha256_hex, hex_EncodeToString. rewrite chars_of_chars.
  intros Hc (b & Hb & Hin)%list_elem_of_bind. apply Hc.
  pose proof (proj1 (Forall_forall _ _) (sha256_bound s) b Hin) as Hlt. simpl in Hlt.
  unfold hex_byte in Hb. rewrite !elem_of_cons, elem_of_nil in Hb.
  destruct Hb as [->|[->|[]]]; apply hex_digit_in.
  - apply N.Div0.div_lt_upper_bound. lia.
  - apply N.mod_lt. lia.
Qed.

(** A digest is a file name. *)
Lemma sha256_hex_plain s : plain (sha256_hex s).
Proof.
  split; [apply sha256_hex_lacks; lacks_done|].
  pose proof (sha256_hex_length s) as Hl. split_and!; intros E; by rewrite E in Hl.
Qed.

Lemma of_byte_vals_byte_vals s : of_byte_vals (byte_vals s) = s.
Proof.
  unfold of_byte_vals, byte_vals. rewrite <- list_fmap_compose.
  rewrite <- (of_chars_chars s) at 2. f_equal.
  rewrite <- (list_fmap_id (chars s)) at 2. apply list_fmap_ext. intros i c _.
  simpl. apply Ascii.ascii_N_embedding.
Qed.

Lemma byte_vals_bound s : Forall (fun b => b < 256) (byte_vals s).
Proof. apply Forall_fmap, Forall_true. intros c. apply Ascii.N_ascii_bounded. Qed.

Lemma b64_val_char n : n < 64 -> b64_val (b64_char n) = Some n.
Proof.
  intros H.
  assert (Hall : forallb (fun i => bool_decide (b64_val (b64_char (N.of_nat i)) = Some (N.of_nat i)))
            (seq 0 64) = true) by reflexivity.
  rewrite forallb_forall in Hall. specialize (Hall (N.to_nat n)).
  rewrite bool_decide_eq_true, N2Nat.id in Hall. apply Hall. apply in_seq. lia.
Qed.

Lemma b64_char_not_pad n : n < 64 -> Ascii.eqb (b64_char n) b64_pad = false.
Proof.
  intros H. destruct (Ascii.eqb_spec (b64_char n) b64_pad) as [E|]; [|done].
  pose proof (b64_val_char n H) as Hv. rewrite E in Hv. done.
Qed.

Lemma list_ind3 {A} (P : list A -> Prop) :
  P [] -> (forall a, P [a]) -> (forall a b, P [a; b]) ->
  (forall a b c l, P l -> P (a :: b :: c :: l)) -> forall l, P l.
Proof.
  intros H0 H1 H2 H3 l.
  assert (forall n l, (length l < n)%nat -> P l) as H; [|by apply (H (S (length l))); lia].
  clear l. induction n as [|n IH]; intros l Hl; [lia|].
  destruct l as [|a [|b [|c l]]]; [done..|]. apply H3, IH. simpl in Hl. lia.
Qed.

Lemma b64_decode_encode l : Forall (fun b => b < 256) l -> b64_decode (b64_encode l) = Some l.
Proof.
  induction l as [|a|a b|a b c l IH] using list_ind3; intros Hl;
    repeat match goal with H : Forall _ (_ :: _) |- _ => apply Forall_cons in H as [? H] end;
    cbn beta in *; cbn [b64_encode b64_decode].
  - done.
  - rewrite !b64_val_char by divmod_lia. simpl.
    f_equal. f_equal. divmod_lia.
  - rewrite !b64_val_char by divmod_lia. simpl.
    rewrite b64_char_not_pad by divmod_lia. simpl.
    repeat f_equal; divmod_lia.
  - rewrite !b64_val_char by divmod_lia. simpl.
    rewrite !b64_char_not_pad by divmod_lia. simpl.
    rewrite IH by done. simpl. repeat f_equal; divmod_lia.
Qed.

(** Decoding gives the encoded bytes back. *)
Lemma base64_roundtrip s : base64_Decode (base64_EncodeToString s) = Some s.
Proof.
  unfold base64_Decode, base64_EncodeToString.
  rewrite chars_of_chars, b64_decode_encode by apply byte_vals_bound. simpl.
  by rewrite of_byte_vals_byte_vals.
Qed.

End Lemmas.

Section Examples.

Example sha256_empty : sha256_hex "" =
  "e3b0c44298fc1c149afbf4c8996fb92427ae41e4649b934ca495991b7852b855".
Proof. vm_compute. reflexivity. Qed.
Example sha256_abc : sha256_hex "abc" =
  "ba7816bf8f01cfea414140de5dae2223b00361a396177a9cb410ff61f20015ad".
Proof. vm_compute. reflexivity. Qed.
Example sha256_two_blocks :
  sha256_hex "abcdbcdecdefdefgefghfghighijhijkijkljklmklmnlmnomnopnopq" =
  "248d6a61d20638b8e5c026930c3e6039a33ce45964ff2167f6ecedd419db06c1".
Proof. vm_compute. reflexivity. Qed.
Example base64_foobar : base64_EncodeToString "fooba" = "Zm9vYmE=".
Proof. vm_compute. reflexivity. Qed.
Example base64_url : base64_RawURL [255; 239] = "_-8".
Proof. vm_compute. reflexivity. Qed.
Example utf8_bad : utf8_ValidString (String (ascii_of_nat 255) "a") = false.
Proof. reflexivity. Qed.

End Examples.

#[global] Opaque sha256_Sum256 sha256_hex.
