(* ===== verification/GoProg.v ===== *)
(** * Effectful Go code

    [prog S A] is a Go function body with result type [(A, error)] (or [A]):
    a finite tree of steps over a mutable process memory of type [S] and
    requests [Op] to the outside (API server, registry, files, queue).  It
    ends by returning a value, by returning an error, by a run-time panic or
    by [logrus.Fatal], which exits the process.

    A program is run in two ways.  [run] interprets the requests with a
    handler over a world [W]; theorems about final states use it with a
    handler that satisfies the laws of the service called.  [runs p s Q] says
    that [Q] holds at the end of every run of [p], for every possible sequence
    of answers; it collects the requests and answers in a trace, and theorems
    about what the program may ever ask for, and in which order, use it. *)
From S2P Require Import Prelude.

(** What a body ends with. *)
Inductive outcome (A : Type) :=
  | Done (a : A)
  | Failed (e : gerror)
  | Panicked (m : string)
  | Exited (m : string).
Arguments Done {A} a.
Arguments Failed {A} e.
Arguments Panicked {A} m.
Arguments Exited {A} m.

Section Prog.
Context {Op : Type} {Resp : Op -> Type}.

Inductive prog (S A : Type) : Type :=
  | Ret (a : A)
  | Throw (e : gerror)
  | Panic (m : string)
  | Fatal (m : string)
  | Get (k : S -> prog S A)
  | Put (s : S) (k : prog S A)
  | Do (o : Op) (k : Resp o -> prog S A).

(** A request and its answer. *)
Definition event : Type := { o : Op & Resp o }.

Definition handler (W : Type) : Type := forall o : Op, W -> Resp o * W.

End Prog.

Arguments prog {Op} Resp S A.
Arguments Ret {Op Resp S A} a.
Arguments Throw {Op Resp S A} e.
Arguments Panic {Op Resp S A} m.
Arguments Fatal {Op Resp S A} m.
Arguments Get {Op Resp S A} k.
Arguments Put {Op Resp S A} s k.
Arguments Do {Op Resp S A} o k.
Arguments event {Op} Resp.
Arguments handler {Op} Resp W.

Section Ops.
Context {Op : Type} {Resp : Op -> Type} {S : Type}.

(** Sequencing; an error, a panic and an exit skip the rest. *)
Fixpoint prog_bind {A B} (p : prog Resp S A) (f : A -> prog Resp S B) : prog Resp S B :=
  match p with
  | Ret a => f a
  | Throw e => Throw e
  | Panic m => Panic m
  | Fatal m => Fatal m
  | Get k => Get (fun s => prog_bind (k s) f)
  | Put s k => Put s (prog_bind k f)
  | Do o k => Do o (fun r => prog_bind (k r) f)
  end.

#[export] Instance prog_ret : MRet (prog Resp S) := fun A a => Ret a.
#[export] Instance prog_mbind : MBind (prog Resp S) := fun A B f p => prog_bind p f.

(** [v, err := p]: the error becomes a value that the caller inspects. *)
Fixpoint attempt {A} (p : prog Resp S A) : prog Resp S (result A) :=
  match p with
  | Ret a => Ret (Ok a)
  | Throw e => Ret (Error e)
  | Panic m => Panic m
  | Fatal m => Fatal m
  | Get k => Get (fun s => attempt (k s))
  | Put s k => Put s (attempt k)
  | Do o k => Do o (fun r => attempt (k r))
  end.

(** A deferred call: it also runs when the body returns an error or
    panics, but not after [os.Exit]. *)
Fixpoint deferred {A} (d : prog Resp S unit) (p : prog Resp S A) : prog Resp S A :=
  match p with
  | Ret a => prog_bind d (fun _ => Ret a)
  | Throw e => prog_bind d (fun _ => Throw e)
  | Panic m => prog_bind d (fun _ => Panic m)
  | Fatal m => Fatal m
  | Get k => Get (fun s => deferred d (k s))
  | Put s k => Put s (deferred d k)
  | Do o k => Do o (fun r => deferred d (k r))
  end.

Definition get : prog Resp S S := Get Ret.
Definition put (s : S) : prog Resp S unit := Put s (Ret tt).
Definition call (o : Op) : prog Resp S (Resp o) := Do o Ret.

Definition lift {A} (r : result A) : prog Resp S A :=
  match r with Ok a => Ret a | Error e => Throw e end.

(** The usual [x, err := call(); if err != nil { return err }]. *)
Definition must {A} (p : prog Resp S (result A)) : prog Resp S A := prog_bind p lift.

(** [l[i]] on a slice: a run-time panic when the index is out of range. *)
Definition index {A} (l : list A) (i : nat) : prog Resp S A :=
  match l !! i with
  | Some a => Ret a
  | None => Panic "runtime error: index out of range"
  end.

(** [for _, x := range l]. *)
Fixpoint for_each {A} (l : list A) (f : A -> prog Resp S unit) : prog Resp S unit :=
  match l with
  | [] => Ret tt
  | x :: l' => prog_bind (f x) (fun _ => for_each l' f)
  end.

(** A loop that threads the local variables it assigns. *)
Fixpoint fold_prog {A B} (f : B -> A -> prog Resp S B) (b : B) (l : list A) : prog Resp S B :=
  match l with
  | [] => Ret b
  | x :: l' => prog_bind (f b x) (fun b' => fold_prog f b' l')
  end.

Section Run.
Context {W : Type} (H : handler Resp W).

Fixpoint run {A} (p : prog Resp S A) (s : S) (w : W) : outcome A * S * W :=
  match p with
  | Ret a => (Done a, s, w)
  | Throw e => (Failed e, s, w)
  | Panic m => (Panicked m, s, w)
  | Fatal m => (Exited m, s, w)
  | Get k => run (k s) s w
  | Put s' k => run k s' w
  | Do o k => let '(r, w') := H o w in run (k r) s w'
  end.

(** The requests made, with the answers of the handler. *)
Fixpoint run_trace {A} (p : prog Resp S A) (s : S) (w : W) : list (event Resp) :=
  match p with
  | Get k => run_trace (k s) s w
  | Put s' k => run_trace k s' w
  | Do o k => let '(r, w') := H o w in existT o r :: run_trace (k r) s w'
  | _ => []
  end.

End Run.

(** Every run, whatever the answers: [Q] holds of the final memory, the
    trace (extending [tr]) and the outcome. *)
Fixpoint runs {A} (p : prog Resp S A) (s : S) (tr : list (event Resp))
    (Q : S -> list (event Resp) -> outcome A -> Prop) : Prop :=
  match p with
  | Ret a => Q s tr (Done a)
  | Throw e => Q s tr (Failed e)
  | Panic m => Q s tr (Panicked m)
  | Fatal m => Q s tr (Exited m)
  | Get k => runs (k s) s tr Q
  | Put s' k => runs k s' tr Q
  | Do o k => forall r, runs (k r) s (tr ++ [existT o r]) Q
  end.

End Ops.

Arguments runs {Op Resp S A} p s tr Q.
Arguments run {Op Resp S W} H {A} p s w.
Arguments run_trace {Op Resp S W} H {A} p s w.

Definition outcome_map {A B} (f : A -> B) (o : outcome A) : outcome B :=
  match o with
  | Done a => Done (f a) | Failed e => Failed e
  | Panicked m => Panicked m | Exited m => Exited m
  end.

(** ** Laws *)

Section Laws.
Context {Op : Type} {Resp : Op -> Type} {S : Type}.
Implicit Types (s : S) (tr : list (event Resp)).

Lemma runs_mono {A} (p : prog Resp S A) s tr (Q Q' : S -> list (event Resp) -> outcome A -> Prop) :
  (forall s' tr' o, Q s' tr' o -> Q' s' tr' o) -> runs p s tr Q -> runs p s tr Q'.
Proof. intros HQ. revert s tr. induction p; simpl; intros s' tr Hp; eauto. Qed.

Lemma runs_bind {A B} (p : prog Resp S A) (f : A -> prog Resp S B) s tr Q :
  runs (p ≫= f) s tr Q <->
  runs p s tr (fun s' tr' o =>
    match o with
    | Done a => runs (f a) s' tr' Q
    | Failed e => Q s' tr' (Failed e)
    | Panicked m => Q s' tr' (Panicked m)
    | Exited m => Q s' tr' (Exited m)
    end).
Proof.
  unfold mbind, prog_mbind. revert s tr.
  induction p as [| | | |k IH|s0 k IH|o k IH]; simpl; intros s tr; try done; eauto.
  split; intros H r; apply IH, H.
Qed.

Lemma runs_assoc {A B C} (p : prog Resp S A) (f : A -> prog Resp S B) (g : B -> prog Resp S C) s tr Q :
  runs ((p ≫= f) ≫= g) s tr Q -> runs (p ≫= fun a => f a ≫= g) s tr Q.
Proof.
  rewrite !runs_bind. apply runs_mono. intros s' tr' [a|e|m|m]; [|done..]. by rewrite runs_bind.
Qed.

Lemma runs_attempt {A} (p : prog Resp S A) s tr Q :
  runs (attempt p) s tr Q <->
  runs p s tr (fun s' tr' o =>
    match o with
    | Done a => Q s' tr' (Done (Ok a))
    | Failed e => Q s' tr' (Done (Error e))
    | Panicked m => Q s' tr' (Panicked m)
    | Exited m => Q s' tr' (Exited m)
    end).
Proof.
  revert s tr. induction p as [| | | |k IH|s0 k IH|o k IH]; simpl; intros s tr; try done; eauto.
  split; intros H r; apply IH, H.
Qed.

Lemma runs_deferred {A} (d : prog Resp S unit) (p : prog Resp S A) s tr Q :
  runs (deferred d p) s tr Q <->
  runs p s tr (fun s' tr' o =>
    match o with
    | Done a => runs (d ≫= fun _ => Ret a) s' tr' Q
    | Failed e => runs (d ≫= fun _ => Throw e) s' tr' Q
    | Panicked m => runs (d ≫= fun _ => Panic m) s' tr' Q
    | Exited m => Q s' tr' (Exited m)
    end).
Proof.
  revert s tr. induction p as [| | | |k IH|s0 k IH|o k IH]; simpl; intros s tr; try done; eauto.
  split; intros H r; apply IH, H.
Qed.

(** The trace only grows. *)
Lemma runs_frame {A} (p : prog Resp S A) s tr Q :
  runs p s [] (fun s' tr' o => Q s' (tr ++ tr') o) -> runs p s tr Q.
Proof.
  enough (forall tr0, runs p s tr0 (fun s' tr' o => Q s' (tr ++ tr') o) ->
    runs p s (tr ++ tr0) Q) as H.
  { intros Hp. rewrite <- (app_nil_r tr). by apply H. }
  revert s. induction p as [| | | |k IH|s0 k IH|o k IH]; simpl; intros s tr0 Hp; auto.
  intros r. specialize (IH r s (tr0 ++ [existT o r]) (Hp r)). by rewrite app_assoc in IH.
Qed.

Lemma runs_lift {A} (r : result A) s tr Q :
  runs (lift r : prog Resp S A) s tr Q <->
  match r with Ok a => Q s tr (Done a) | Error e => Q s tr (Failed e) end.
Proof. by destruct r. Qed.

Lemma runs_index {A} (l : list A) i s tr Q :
  runs (index l i : prog Resp S A) s tr Q <->
  match l !! i with
  | Some a => Q s tr (Done a)
  | None => Q s tr (Panicked "runtime error: index out of range")
  end.
Proof. unfold index. by destruct (l !! i). Qed.

Section Handler.
Context {W : Type} (H : handler Resp W).

Lemma run_lift {A} (r : result A) s w :
  run H (lift r : prog Resp S A) s w =
  (match r with Ok a => Done a | Error e => Failed e end, s, w).
Proof. by destruct r. Qed.

Lemma run_bind {A B} (p : prog Resp S A) (f : A -> prog Resp S B) s w :
  run H (p ≫= f) s w =
  match run H p s w with
  | (Done a, s', w') => run H (f a) s' w'
  | (Failed e, s', w') => (Failed e, s', w')
  | (Panicked m, s', w') => (Panicked m, s', w')
  | (Exited m, s', w') => (Exited m, s', w')
  end.
Proof.
  unfold mbind, prog_mbind. revert s w.
  induction p as [| | | |k IH|s0 k IH|o k IH]; simpl; intros s w; eauto.
  destruct (H o w) as [r w']. apply IH.
Qed.

Lemma run_then {A B} (p : prog Resp S A) (f : A -> prog Resp S B) a s s1 w w1 R :
  run H p s w = (Done a, s1, w1) -> run H (f a) s1 w1 = R -> run H (p ≫= f) s w = R.
Proof. intros Hp Hf. by rewrite run_bind, Hp. Qed.

Lemma run_attempt {A} (p : prog Resp S A) s w :
  run H (attempt p) s w =
  match run H p s w with
  | (Done a, s', w') => (Done (Ok a), s', w')
  | (Failed e, s', w') => (Done (Error e), s', w')
  | (Panicked m, s', w') => (Panicked m, s', w')
  | (Exited m, s', w') => (Exited m, s', w')
  end.
Proof.
  revert s w. induction p as [| | | |k IH|s0 k IH|o k IH]; simpl; intros s w; eauto.
  destruct (H o w) as [r w']. apply IH.
Qed.

Lemma run_deferred {A} (d : prog Resp S unit) (p : prog Resp S A) s w :
  run H (deferred d p) s w =
  match run H p s w with
  | (Done a, s', w') => run H (d ≫= fun _ => Ret a) s' w'
  | (Failed e, s', w') => run H (d ≫= fun _ => Throw e) s' w'
  | (Panicked m, s', w') => run H (d ≫= fun _ => Panic m) s' w'
  | (Exited m, s', w') => (Exited m, s', w')
  end.
Proof.
  revert s w. induction p as [| | | |k IH|s0 k IH|o k IH]; simpl; intros s w; eauto.
  destruct (H o w) as [r w']. apply IH.
Qed.

(** What holds of every run holds of the run with a given handler. *)
Lemma runs_run {A} (p : prog Resp S A) s w tr Q :
  runs p s tr Q ->
  Q (snd (fst (run H p s w))) (tr ++ run_trace H p s w) (fst (fst (run H p s w))).
Proof.
  revert s w tr. induction p as [| | | |k IH|s0 k IH|o k IH]; simpl; intros s w tr Hp;
    try by rewrite app_nil_r.
  - by apply IH.
  - by apply IH.
  - destruct (H o w) as [r w']. specialize (IH r s w' _ (Hp r)).
    by rewrite <- app_assoc in IH.
Qed.

End Handler.

End Laws.

(** ** What a body asks for, and invariants

    [asks P p]: every request [p] can make satisfies [P].  [keeps I p]: [p]
    preserves the invariant [I] of memory and trace, whatever the answers. *)
Section Invariants.
Context {Op : Type} {Resp : Op -> Type} {S : Type}.
Implicit Types (s : S) (tr : list (event Resp)).

Fixpoint asks {A} (P : Op -> Prop) (p : prog Resp S A) : Prop :=
  match p with
  | Get k => forall s, asks P (k s)
  | Put _ k => asks P k
  | Do o k => P o /\ forall r, asks P (k r)
  | _ => True
  end.

Lemma asks_bind {A B} P (p : prog Resp S A) (f : A -> prog Resp S B) :
  asks P p -> (forall a, asks P (f a)) -> asks P (p ≫= f).
Proof. unfold mbind, prog_mbind. induction p; simpl; naive_solver. Qed.

Lemma asks_attempt {A} P (p : prog Resp S A) : asks P p -> asks P (attempt p).
Proof. induction p; simpl; naive_solver. Qed.

Lemma asks_mono {A} (P P' : Op -> Prop) (p : prog Resp S A) :
  (forall o, P o -> P' o) -> asks P p -> asks P' p.
Proof. intros HP. induction p; simpl; naive_solver. Qed.

Lemma asks_lift {A} P (r : result A) : asks P (lift r : prog Resp S A).
Proof. by destruct r. Qed.

Lemma asks_must {A} P (p : prog Resp S (result A)) : asks P p -> asks P (must p).
Proof. intros Hp. by apply asks_bind; [|intros a; apply asks_lift]. Qed.

Lemma asks_index {A} P (l : list A) i : asks P (index l i : prog Resp S A).
Proof. unfold index. by destruct (l !! i). Qed.

Lemma asks_fold {A B} P (f : B -> A -> prog Resp S B) l b :
  (forall b x, asks P (f b x)) -> asks P (fold_prog f b l).
Proof. intros Hf. revert b. induction l; simpl; [done|]. intros b. by apply asks_bind. Qed.

(** [yields p a]: some answers lead [p] to return [a]. *)
Fixpoint yields {A} (p : prog Resp S A) (a : A) : Prop :=
  match p with
  | Ret b => a = b
  | Get k => exists s, yields (k s) a
  | Put _ k => yields k a
  | Do o k => exists r, yields (k r) a
  | _ => False
  end.

Lemma yields_bind {A B} (p : prog Resp S A) (f : A -> prog Resp S B) b :
  yields (p ≫= f) b <-> exists a, yields p a /\ yields (f a) b.
Proof.
  unfold mbind, prog_mbind.
  induction p as [a| | | |k IH|s0 k IH|o k IH]; simpl; try naive_solver;
    setoid_rewrite IH; naive_solver.
Qed.

Lemma yields_lift {A} (r : result A) a : yields (lift r : prog Resp S A) a <-> r = Ok a.
Proof. destruct r; simpl; naive_solver. Qed.

Lemma yields_attempt {A} (p : prog Resp S A) a : yields (attempt p) (Ok a) <-> yields p a.
Proof.
  induction p as [b| | | |k IH|s0 k IH|o k IH]; simpl; try naive_solver; by setoid_rewrite IH.
Qed.

(** What the second body asks may depend on what the first can return. *)
Lemma asks_bind_yields {A B} P (p : prog Resp S A) (f : A -> prog Resp S B) :
  asks P p -> (forall a, yields p a -> asks P (f a)) -> asks P (p ≫= f).
Proof.
  unfold mbind, prog_mbind. induction p as [| | | |k IH|s0 k IH|o k IH]; simpl; intros Hp Hf; eauto.
  split; [apply Hp|]. intros r. apply IH; [apply Hp|]. eauto.
Qed.

(** A run that returns a value yields it. *)
Lemma yields_runs {A} (p : prog Resp S A) s tr :
  runs p s tr (fun _ _ o => forall a, o = Done a -> yields p a).
Proof.
  revert s tr. induction p as [| | | |k IH|s0 k IH|o k IH]; simpl; intros s tr; try naive_solver.
  - eapply runs_mono; [|apply IH]. intros s' tr' o Hy a Ha. eauto.
  - intros r. eapply runs_mono; [|apply IH]. intros s' tr' o' Hy a Ha. eauto.
Qed.

(** A run makes the requests the body asks for. *)
Lemma asks_runs {A} P (p : prog Resp S A) s tr :
  asks P p -> Forall (fun e : event Resp => P (projT1 e)) tr ->
  runs p s tr (fun _ tr' _ => Forall (fun e : event Resp => P (projT1 e)) tr').
Proof.
  revert s tr. induction p as [| | | |k IH|s0 k IH|o k IH]; simpl; intros s tr Hp Htr; eauto.
  intros r. apply IH; [apply Hp|]. apply Forall_app. split; [done|]. apply Forall_singleton, Hp.
Qed.

Definition keeps {A} (I : S -> list (event Resp) -> Prop) (p : prog Resp S A) : Prop :=
  forall s tr, I s tr -> runs p s tr (fun s' tr' _ => I s' tr').

Lemma keeps_bind {A B} I (p : prog Resp S A) (f : A -> prog Resp S B) :
  keeps I p -> (forall a, keeps I (f a)) -> keeps I (p ≫= f).
Proof.
  intros Hp Hf s tr HI. apply runs_bind. eapply runs_mono; [|by apply Hp].
  intros s' tr' [a|e|m|m] HI'; [by apply Hf|done..].
Qed.

Lemma keeps_attempt {A} I (p : prog Resp S A) : keeps I p -> keeps I (attempt p).
Proof.
  intros Hp s tr HI. apply runs_attempt. eapply runs_mono; [|by apply Hp].
  by intros s' tr' [].
Qed.

Lemma keeps_ret {A} I (a : A) : keeps I (Ret a : prog Resp S A).
Proof. by intros s tr HI. Qed.

Lemma keeps_throw {A} I e : keeps I (Throw e : prog Resp S A).
Proof. by intros s tr HI. Qed.

Lemma keeps_panic {A} I m : keeps I (Panic m : prog Resp S A).
Proof. by intros s tr HI. Qed.

Lemma keeps_lift {A} I (r : result A) : keeps I (lift r : prog Resp S A).
Proof. by destruct r; intros s tr HI. Qed.

Lemma keeps_must {A} I (p : prog Resp S (result A)) : keeps I p -> keeps I (must p).
Proof. intros Hp. by apply keeps_bind; [|intros a; apply keeps_lift]. Qed.

Lemma keeps_fold {A B} I (f : B -> A -> prog Resp S B) l b :
  (forall b x, keeps I (f b x)) -> keeps I (fold_prog f b l).
Proof.
  intros Hf. revert b. induction l; simpl; intros b; [apply keeps_ret|]. by apply keeps_bind.
Qed.

Lemma keeps_index {A} I (l : list A) i : keeps I (index l i : prog Resp S A).
Proof. unfold index. by destruct (l !! i); intros s tr HI. Qed.

Lemma keeps_get I : keeps I (get : prog Resp S S).
Proof. by intros s tr HI. Qed.

Lemma keeps_call I o : (forall s tr r, I s tr -> I s (tr ++ [existT o r])) ->
  keeps I (call o : prog Resp S _).
Proof. intros Ho s tr HI r. by apply Ho. Qed.

(** An invariant of the trace alone survives requests it does not speak of. *)
Lemma keeps_asks {A} (I : list (event Resp) -> Prop) P (p : prog Resp S A) :
  (forall tr o r, P o -> I tr -> I (tr ++ [existT o r])) ->
  asks P p -> keeps (fun _ tr => I tr) p.
Proof.
  intros HP Hp s tr HI. revert s tr HI.
  induction p as [| | | |k IH|s0 k IH|o k IH]; simpl in *; intros s tr HI; auto.
  destruct Hp as [Ho Hk]. intros r. apply IH; auto.
Qed.

(** A body without requests leaves the trace as it is. *)
Lemma runs_silent {A} (p : prog Resp S A) s tr Q :
  asks (fun _ => False) p -> (forall s' o, Q s' tr o) -> runs p s tr Q.
Proof.
  intros Hp HQ. revert s. induction p as [| | | |k IH|s0 k IH|o k IH]; simpl in *; intros s; auto.
  by destruct Hp.
Qed.

Lemma runs_conj {A} (p : prog Resp S A) s tr Q1 Q2 :
  runs p s tr Q1 -> runs p s tr Q2 -> runs p s tr (fun s' tr' o => Q1 s' tr' o /\ Q2 s' tr' o).
Proof. revert s tr. induction p; simpl; intros s' tr H1 H2; auto. Qed.

Lemma runs_true {A} (p : prog Resp S A) s tr : runs p s tr (fun _ _ _ => True).
Proof. revert s tr. induction p; simpl; auto. Qed.

End Invariants.

(** ** Results

    [ensures p s tr R]: if [p] returns a value, [R] holds of it, of the memory
    and of the trace, whatever the answers. *)
Section Ensures.
Context {Op : Type} {Resp : Op -> Type} {S : Type}.
Implicit Types (s : S) (tr : list (event Resp)).

Definition ensures {A} (p : prog Resp S A) s tr (R : S -> list (event Resp) -> A -> Prop) : Prop :=
  runs p s tr (fun s' tr' o => forall a, o = Done a -> R s' tr' a).

Lemma ensures_bind {A B} (p : prog Resp S A) (f : A -> prog Resp S B) s tr M R :
  ensures p s tr M -> (forall s' tr' a, M s' tr' a -> ensures (f a) s' tr' R) ->
  ensures (p ≫= f) s tr R.
Proof.
  intros Hp Hf. apply runs_bind. eapply runs_mono; [|exact Hp].
  intros s' tr' [a|e|m|m] HM; [by apply Hf, HM|done..].
Qed.

Lemma ensures_ret {A} (a : A) s tr (R : _ -> _ -> _ -> Prop) :
  R s tr a -> ensures (Ret a : prog Resp S A) s tr R.
Proof. intros HR b [= <-]. done. Qed.

Lemma ensures_throw {A} e s tr R : ensures (Throw e : prog Resp S A) s tr R.
Proof. intros b [=]. Qed.

Lemma ensures_panic {A} m s tr R : ensures (Panic m : prog Resp S A) s tr R.
Proof. intros b [=]. Qed.

Lemma ensures_lift {A} (r : result A) s tr R :
  (forall a, r = Ok a -> R s tr a) -> ensures (lift r : prog Resp S A) s tr R.
Proof. intros HR. apply runs_lift. destruct r; intros b [=]; subst; auto. Qed.

Lemma ensures_lift_eq {A} (r : result A) s tr :
  ensures (lift r : prog Resp S A) s tr (fun s' tr' a => s' = s /\ tr' = tr /\ r = Ok a).
Proof. by apply ensures_lift. Qed.

Lemma ensures_index {A} (l : list A) i s tr R :
  (forall a, l !! i = Some a -> R s tr a) -> ensures (index l i : prog Resp S A) s tr R.
Proof. intros HR. apply runs_index. destruct (l !! i); intros b [=]; subst; auto. Qed.

Lemma ensures_attempt {A} (p : prog Resp S A) s tr (R : _ -> _ -> _ -> Prop) :
  runs p s tr (fun s' tr' o =>
    match o with Done a => R s' tr' (Ok a) | Failed e => R s' tr' (Error e) | _ => True end) ->
  ensures (attempt p) s tr R.
Proof.
  intros Hp. apply runs_attempt. eapply runs_mono; [|exact Hp].
  intros s' tr' [] HR b [=]; by subst.
Qed.

Lemma ensures_true {A} (p : prog Resp S A) s tr : ensures p s tr (fun _ _ _ => True).
Proof. eapply runs_mono; [|apply runs_true]. done. Qed.

Lemma ensures_mono {A} (p : prog Resp S A) s tr R R' :
  (forall s' tr' a, R s' tr' a -> R' s' tr' a) -> ensures p s tr R -> ensures p s tr R'.
Proof. intros HR. apply runs_mono. naive_solver. Qed.

Lemma ensures_keeps {A} (p : prog Resp S A) (I : S -> list (event Resp) -> Prop) s tr R :
  keeps I p -> I s tr -> ensures p s tr R -> ensures p s tr (fun s' tr' a => I s' tr' /\ R s' tr' a).
Proof.
  intros Hk HI HR. eapply runs_mono; [|apply (runs_conj _ _ _ _ _ (Hk s tr HI) HR)]. naive_solver.
Qed.

Lemma ensures_conj {A} (p : prog Resp S A) s tr R R' :
  ensures p s tr R -> ensures p s tr R' -> ensures p s tr (fun s' tr' a => R s' tr' a /\ R' s' tr' a).
Proof.
  intros HR HR'. eapply runs_mono; [|apply (runs_conj _ _ _ _ _ HR HR')]. naive_solver.
Qed.

(** A sequence keeps [I] when the second body may rely on what the first
    ensures. *)
Lemma runs_seq {A B} (I : S -> list (event Resp) -> Prop) (p : prog Resp S A)
    (f : A -> prog Resp S B) s tr M :
  keeps I p -> I s tr -> ensures p s tr M ->
  (forall s' tr' a, I s' tr' -> M s' tr' a -> runs (f a) s' tr' (fun s tr _ => I s tr)) ->
  runs (p ≫= f) s tr (fun s tr _ => I s tr).
Proof.
  intros Hk HI Hp Hf. apply runs_bind. eapply runs_mono; [|apply (runs_conj _ _ _ _ _ (Hk s tr HI) Hp)].
  intros s' tr' [a|e|m|m] [HI' HM]; [by apply Hf; [|apply HM]|done..].
Qed.

End Ensures.

Create HintDb keeps.
#[export] Hint Resolve keeps_ret keeps_throw keeps_panic keeps_lift keeps_index keeps_get : keeps.

(** Take a [keeps] or [asks] goal apart along the body. *)
Ltac keeps_step :=
  lazymatch goal with
  | |- keeps _ (match ?x with _ => _ end) => destruct x eqn:?
  | |- keeps _ (_ ≫= _) => apply keeps_bind; [|intros ?]
  | |- keeps _ (attempt _) => apply keeps_attempt
  | |- keeps _ (must _) => apply keeps_must
  | |- keeps _ _ => progress cbv beta zeta
  | |- asks _ (match ?x with _ => _ end) => destruct x eqn:?
  | |- asks _ (_ ≫= _) => apply asks_bind; [|intros ?]
  | |- asks _ (attempt _) => apply asks_attempt
  | |- asks _ (must _) => apply asks_must
  | |- asks _ (lift _) => apply asks_lift
  | |- asks _ (index _ _) => apply asks_index
  | |- asks _ _ => first [exact I | progress cbv beta zeta]
  end.
Ltac keeps_auto := repeat first [solve [eauto 4 with keeps] | keeps_step].

(** Take a [runs] goal apart at its binds and requests. *)
Ltac runs_step :=
  match goal with
  | |- runs (_ ≫= _) _ _ _ => apply runs_bind
  | |- runs (prog_bind _ _) _ _ _ => apply runs_bind
  | |- runs (attempt _) _ _ _ => apply runs_attempt
  | |- runs (deferred _ _) _ _ _ => apply runs_deferred
  | |- runs (Ret _) _ _ _ => cbn [runs]
  | |- runs (Throw _) _ _ _ => cbn [runs]
  | |- runs (Panic _) _ _ _ => cbn [runs]
  | |- runs (Fatal _) _ _ _ => cbn [runs]
  | |- runs (call _) _ _ _ => cbn [runs call]; intros ?r
  | |- runs get _ _ _ => cbn [runs get]
  | |- runs (put _) _ _ _ => cbn [runs put]
  end.
