(* ===== verification/KubeTypes.v ===== *)
(** * The Kubernetes and Kubeless API objects

    The API structs of [k8s.io/api] are restricted to the fields that the
    program reads or writes; a field the program only carries along is not
    kept, unless it belongs to a value that the user supplies and the program
    stores as it is ([OtherSource], [OtherHandler]).  The [Function] resource
    of [pkg/apis/kubeless/v1beta1/function.go] is complete. *)
From S2P Require Import Prelude.

(** ** apimachinery *)

Record TypeMeta := { tm_Kind : string; tm_APIVersion : string }.

Record OwnerReference :=
  { or_Kind : string; or_APIVersion : string; or_Name : string; or_UID : string }.

Record ObjectMeta := {
  om_Name : string;
  om_Namespace : string;
  om_Labels : gomap string;
  om_Annotations : gomap string;
  om_OwnerReferences : list OwnerReference;
  om_Finalizers : list string;
  om_UID : string;
  om_ResourceVersion : string;
  om_DeletionTimestamp : option (ptr Z) }.

Definition zero_meta : ObjectMeta :=
  {| om_Name := ""; om_Namespace := ""; om_Labels := None; om_Annotations := None;
     om_OwnerReferences := []; om_Finalizers := []; om_UID := "";
     om_ResourceVersion := ""; om_DeletionTimestamp := None |}.

(** A literal [metav1.ObjectMeta{...}]: the fields left out are zero. *)
Definition mk_meta (name ns : string) (labels : gomap string) (owners : list OwnerReference)
  : ObjectMeta :=
  {| om_Name := name; om_Namespace := ns; om_Labels := labels; om_Annotations := None;
     om_OwnerReferences := owners; om_Finalizers := []; om_UID := "";
     om_ResourceVersion := ""; om_DeletionTimestamp := None |}.

Definition meta_set_labels (m : ObjectMeta) (l : gomap string) : ObjectMeta :=
  {| om_Name := om_Name m; om_Namespace := om_Namespace m; om_Labels := l;
     om_Annotations := om_Annotations m; om_OwnerReferences := om_OwnerReferences m;
     om_Finalizers := om_Finalizers m; om_UID := om_UID m;
     om_ResourceVersion := om_ResourceVersion m;
     om_DeletionTimestamp := om_DeletionTimestamp m |}.

Definition meta_set_annotations (m : ObjectMeta) (a : gomap string) : ObjectMeta :=
  {| om_Name := om_Name m; om_Namespace := om_Namespace m; om_Labels := om_Labels m;
     om_Annotations := a; om_OwnerReferences := om_OwnerReferences m;
     om_Finalizers := om_Finalizers m; om_UID := om_UID m;
     om_ResourceVersion := om_ResourceVersion m;
     om_DeletionTimestamp := om_DeletionTimestamp m |}.

Definition meta_set_owners (m : ObjectMeta) (o : list OwnerReference) : ObjectMeta :=
  {| om_Name := om_Name m; om_Namespace := om_Namespace m; om_Labels := om_Labels m;
     om_Annotations := om_Annotations m; om_OwnerReferences := o;
     om_Finalizers := om_Finalizers m; om_UID := om_UID m;
     om_ResourceVersion := om_ResourceVersion m;
     om_DeletionTimestamp := om_DeletionTimestamp m |}.

Definition meta_set_finalizers (m : ObjectMeta) (f : list string) : ObjectMeta :=
  {| om_Name := om_Name m; om_Namespace := om_Namespace m; om_Labels := om_Labels m;
     om_Annotations := om_Annotations m; om_OwnerReferences := om_OwnerReferences m;
     om_Finalizers := f; om_UID := om_UID m;
     om_ResourceVersion := om_ResourceVersion m;
     om_DeletionTimestamp := om_DeletionTimestamp m |}.

Definition meta_set_deleted (m : ObjectMeta) (t : option (ptr Z)) : ObjectMeta :=
  {| om_Name := om_Name m; om_Namespace := om_Namespace m; om_Labels := om_Labels m;
     om_Annotations := om_Annotations m; om_OwnerReferences := om_OwnerReferences m;
     om_Finalizers := om_Finalizers m; om_UID := om_UID m;
     om_ResourceVersion := om_ResourceVersion m; om_DeletionTimestamp := t |}.

Definition meta_set_uid (m : ObjectMeta) (u : string) : ObjectMeta :=
  {| om_Name := om_Name m; om_Namespace := om_Namespace m; om_Labels := om_Labels m;
     om_Annotations := om_Annotations m; om_OwnerReferences := om_OwnerReferences m;
     om_Finalizers := om_Finalizers m; om_UID := u;
     om_ResourceVersion := om_ResourceVersion m; om_DeletionTimestamp := om_DeletionTimestamp m |}.

Definition meta_set_name (m : ObjectMeta) (n : string) : ObjectMeta :=
  {| om_Name := n; om_Namespace := om_Namespace m; om_Labels := om_Labels m;
     om_Annotations := om_Annotations m; om_OwnerReferences := om_OwnerReferences m;
     om_Finalizers := om_Finalizers m; om_UID := om_UID m;
     om_ResourceVersion := om_ResourceVersion m;
     om_DeletionTimestamp := om_DeletionTimestamp m |}.

(** [metav1.LabelSelector], used with [MatchLabels] only. *)
Record LabelSelector := { MatchLabels : gomap string }.

(** [intstr.IntOrString]. *)
Inductive IntOrString :=
  | FromInt (v : Z)
  | FromString (s : string).

(** A [resource.Quantity] is identified by its canonical string; the zero
    value prints as "0". *)
Definition Quantity := string.
Definition zero_quantity : Quantity := "0".

(** ** core/v1 *)

Record EnvVar := { ev_Name : string; ev_Value : string }.

Record LocalObjectReference := { lor_Name : string }.

Record VolumeMount := { vm_Name : string; vm_ReadOnly : bool; vm_MountPath : string }.

Inductive VolumeSource :=
  | EmptyDir
  | ConfigMapSource (name : string)
  | SecretSource (secretName : string)
  | OtherSource (other : string).

Record Volume := { vol_Name : string; vol_Source : VolumeSource }.

Record ResourceRequirements := { Limits : gomap Quantity; Requests : gomap Quantity }.
Definition zero_resources : ResourceRequirements := {| Limits := None; Requests := None |}.

(** [ResourceList.Memory()]: the entry or a zero quantity. *)
Definition Memory (l : gomap Quantity) : Quantity := default zero_quantity (mget l "memory").

Inductive ProbeHandler :=
  | HTTPGet (path : string) (port : IntOrString)
  | ExecAction (command : list string)
  | OtherHandler (other : string).

Record Probe := {
  InitialDelaySeconds : Z;
  PeriodSeconds : Z;
  probe_Handler : ProbeHandler }.

Record Container := {
  c_Name : string;
  c_Image : string;
  c_Command : list string;
  c_Args : list string;
  c_WorkingDir : string;
  c_Ports : list Z;
  c_Env : list EnvVar;
  c_Resources : ResourceRequirements;
  c_VolumeMounts : list VolumeMount;
  c_LivenessProbe : option Probe;
  c_ImagePullPolicy : string }.

Definition zero_container : Container :=
  {| c_Name := ""; c_Image := ""; c_Command := []; c_Args := []; c_WorkingDir := "";
     c_Ports := []; c_Env := []; c_Resources := zero_resources; c_VolumeMounts := [];
     c_LivenessProbe := None; c_ImagePullPolicy := "" |}.

Definition container_set_name (c : Container) (x : string) : Container :=
  {| c_Name := x; c_Image := c_Image c; c_Command := c_Command c; c_Args := c_Args c;
     c_WorkingDir := c_WorkingDir c; c_Ports := c_Ports c; c_Env := c_Env c;
     c_Resources := c_Resources c; c_VolumeMounts := c_VolumeMounts c;
     c_LivenessProbe := c_LivenessProbe c; c_ImagePullPolicy := c_ImagePullPolicy c |}.

Definition container_set_image (c : Container) (x : string) : Container :=
  {| c_Name := c_Name c; c_Image := x; c_Command := c_Command c; c_Args := c_Args c;
     c_WorkingDir := c_WorkingDir c; c_Ports := c_Ports c; c_Env := c_Env c;
     c_Resources := c_Resources c; c_VolumeMounts := c_VolumeMounts c;
     c_LivenessProbe := c_LivenessProbe c; c_ImagePullPolicy := c_ImagePullPolicy c |}.

Definition container_add_env (c : Container) (x : list EnvVar) : Container :=
  {| c_Name := c_Name c; c_Image := c_Image c; c_Command := c_Command c; c_Args := c_Args c;
     c_WorkingDir := c_WorkingDir c; c_Ports := c_Ports c; c_Env := c_Env c ++ x;
     c_Resources := c_Resources c; c_VolumeMounts := c_VolumeMounts c;
     c_LivenessProbe := c_LivenessProbe c; c_ImagePullPolicy := c_ImagePullPolicy c |}.

Definition container_add_mounts (c : Container) (x : list VolumeMount) : Container :=
  {| c_Name := c_Name c; c_Image := c_Image c; c_Command := c_Command c; c_Args := c_Args c;
     c_WorkingDir := c_WorkingDir c; c_Ports := c_Ports c; c_Env := c_Env c;
     c_Resources := c_Resources c; c_VolumeMounts := c_VolumeMounts c ++ x;
     c_LivenessProbe := c_LivenessProbe c; c_ImagePullPolicy := c_ImagePullPolicy c |}.

Definition container_add_port (c : Container) (x : Z) : Container :=
  {| c_Name := c_Name c; c_Image := c_Image c; c_Command := c_Command c; c_Args := c_Args c;
     c_WorkingDir := c_WorkingDir c; c_Ports := c_Ports c ++ [x]; c_Env := c_Env c;
     c_Resources := c_Resources c; c_VolumeMounts := c_VolumeMounts c;
     c_LivenessProbe := c_LivenessProbe c; c_ImagePullPolicy := c_ImagePullPolicy c |}.

Definition container_set_probe (c : Container) (x : option Probe) : Container :=
  {| c_Name := c_Name c; c_Image := c_Image c; c_Command := c_Command c; c_Args := c_Args c;
     c_WorkingDir := c_WorkingDir c; c_Ports := c_Ports c; c_Env := c_Env c;
     c_Resources := c_Resources c; c_VolumeMounts := c_VolumeMounts c;
     c_LivenessProbe := x; c_ImagePullPolicy := c_ImagePullPolicy c |}.

Record PodSecurityContext := { RunAsUser : option Z; FSGroup : option Z }.

Record WeightedPodAffinityTerm := {
  Weight : Z;
  term_LabelSelector : LabelSelector;
  TopologyKey : string }.

Record Affinity := { PreferredPodAntiAffinity : list WeightedPodAffinityTerm }.

Record PodSpec := {
  ps_Volumes : list Volume;
  ps_InitContainers : list Container;
  ps_Containers : list Container;
  ps_RestartPolicy : string;
  ps_NodeSelector : gomap string;
  ps_ServiceAccountName : string;
  ps_SecurityContext : option PodSecurityContext;
  ps_ImagePullSecrets : list LocalObjectReference;
  ps_Affinity : option Affinity }.

Definition zero_podspec : PodSpec :=
  {| ps_Volumes := []; ps_InitContainers := []; ps_Containers := []; ps_RestartPolicy := "";
     ps_NodeSelector := None; ps_ServiceAccountName := ""; ps_SecurityContext := None;
     ps_ImagePullSecrets := []; ps_Affinity := None |}.

Definition ps_set_volumes (p : PodSpec) (x : list Volume) : PodSpec :=
  {| ps_Volumes := x; ps_InitContainers := ps_InitContainers p;
     ps_Containers := ps_Containers p; ps_RestartPolicy := ps_RestartPolicy p;
     ps_NodeSelector := ps_NodeSelector p; ps_ServiceAccountName := ps_ServiceAccountName p;
     ps_SecurityContext := ps_SecurityContext p; ps_ImagePullSecrets := ps_ImagePullSecrets p;
     ps_Affinity := ps_Affinity p |}.

Definition ps_set_init (p : PodSpec) (x : list Container) : PodSpec :=
  {| ps_Volumes := ps_Volumes p; ps_InitContainers := x;
     ps_Containers := ps_Containers p; ps_RestartPolicy := ps_RestartPolicy p;
     ps_NodeSelector := ps_NodeSelector p; ps_ServiceAccountName := ps_ServiceAccountName p;
     ps_SecurityContext := ps_SecurityContext p; ps_ImagePullSecrets := ps_ImagePullSecrets p;
     ps_Affinity := ps_Affinity p |}.

Definition ps_set_containers (p : PodSpec) (x : list Container) : PodSpec :=
  {| ps_Volumes := ps_Volumes p; ps_InitContainers := ps_InitContainers p;
     ps_Containers := x; ps_RestartPolicy := ps_RestartPolicy p;
     ps_NodeSelector := ps_NodeSelector p; ps_ServiceAccountName := ps_ServiceAccountName p;
     ps_SecurityContext := ps_SecurityContext p; ps_ImagePullSecrets := ps_ImagePullSecrets p;
     ps_Affinity := ps_Affinity p |}.

Definition ps_set_secrets (p : PodSpec) (x : list LocalObjectReference) : PodSpec :=
  {| ps_Volumes := ps_Volumes p; ps_InitContainers := ps_InitContainers p;
     ps_Containers := ps_Containers p; ps_RestartPolicy := ps_RestartPolicy p;
     ps_NodeSelector := ps_NodeSelector p; ps_ServiceAccountName := ps_ServiceAccountName p;
     ps_SecurityContext := ps_SecurityContext p; ps_ImagePullSecrets := x;
     ps_Affinity := ps_Affinity p |}.

Definition ps_set_security (p : PodSpec) (x : option PodSecurityContext) : PodSpec :=
  {| ps_Volumes := ps_Volumes p; ps_InitContainers := ps_InitContainers p;
     ps_Containers := ps_Containers p; ps_RestartPolicy := ps_RestartPolicy p;
     ps_NodeSelector := ps_NodeSelector p; ps_ServiceAccountName := ps_ServiceAccountName p;
     ps_SecurityContext := x; ps_ImagePullSecrets := ps_ImagePullSecrets p;
     ps_Affinity := ps_Affinity p |}.

Definition ps_set_affinity (p : PodSpec) (x : option Affinity) : PodSpec :=
  {| ps_Volumes := ps_Volumes p; ps_InitContainers := ps_InitContainers p;
     ps_Containers := ps_Containers p; ps_RestartPolicy := ps_RestartPolicy p;
     ps_NodeSelector := ps_NodeSelector p; ps_ServiceAccountName := ps_ServiceAccountName p;
     ps_SecurityContext := ps_SecurityContext p; ps_ImagePullSecrets := ps_ImagePullSecrets p;
     ps_Affinity := x |}.

Definition ps_set_node_selector (p : PodSpec) (x : gomap string) : PodSpec :=
  {| ps_Volumes := ps_Volumes p; ps_InitContainers := ps_InitContainers p;
     ps_Containers := ps_Containers p; ps_RestartPolicy := ps_RestartPolicy p;
     ps_NodeSelector := x; ps_ServiceAccountName := ps_ServiceAccountName p;
     ps_SecurityContext := ps_SecurityContext p; ps_ImagePullSecrets := ps_ImagePullSecrets p;
     ps_Affinity := ps_Affinity p |}.

Definition ps_set_service_account (p : PodSpec) (x : string) : PodSpec :=
  {| ps_Volumes := ps_Volumes p; ps_InitContainers := ps_InitContainers p;
     ps_Containers := ps_Containers p; ps_RestartPolicy := ps_RestartPolicy p;
     ps_NodeSelector := ps_NodeSelector p; ps_ServiceAccountName := x;
     ps_SecurityContext := ps_SecurityContext p; ps_ImagePullSecrets := ps_ImagePullSecrets p;
     ps_Affinity := ps_Affinity p |}.

Record PodTemplateSpec := { pt_Meta : ObjectMeta; pt_Spec : PodSpec }.

Record ConfigMap := { cm_Meta : ObjectMeta; cm_Data : gomap string }.

Record Secret := { sec_Meta : ObjectMeta; sec_Data : gomap string }.

Record ServicePort := {
  sp_Name : string;
  sp_Protocol : string;
  sp_Port : Z;
  sp_TargetPort : IntOrString;
  sp_NodePort : Z }.

Record ServiceSpec := {
  ss_Ports : list ServicePort;
  ss_Selector : gomap string;
  ss_ClusterIP : string;
  ss_Type : string }.

Definition zero_service_spec : ServiceSpec :=
  {| ss_Ports := []; ss_Selector := None; ss_ClusterIP := ""; ss_Type := "" |}.

Record Service := { svc_Meta : ObjectMeta; svc_Spec : ServiceSpec }.

(** A pod with the [Ready] flag of each container status. *)
Record Pod := { pod_Meta : ObjectMeta; pod_ContainerReady : list bool }.

(** ** apps/v1, batch/v1 *)

(** [RollingUpdate.MaxUnavailable], when a rolling update is given. *)
Record DeploymentStrategy := { MaxUnavailable : option IntOrString }.

Record DeploymentSpec := {
  ds_Selector : option LabelSelector;
  ds_Template : PodTemplateSpec;
  ds_Strategy : DeploymentStrategy }.

Record DeploymentStatus := { dst_Replicas : Z; dst_ReadyReplicas : Z }.

Record Deployment := {
  dpm_Meta : ObjectMeta;
  dpm_Spec : DeploymentSpec;
  dpm_Status : DeploymentStatus }.

Definition zero_deployment : Deployment :=
  {| dpm_Meta := zero_meta;
     dpm_Spec := {| ds_Selector := None;
                    ds_Template := {| pt_Meta := zero_meta; pt_Spec := zero_podspec |};
                    ds_Strategy := {| MaxUnavailable := None |} |};
     dpm_Status := {| dst_Replicas := 0; dst_ReadyReplicas := 0 |} |}.

(** [dpm.Spec.Template.Spec] and its updates. *)
Definition dpm_podspec (d : Deployment) : PodSpec := pt_Spec (ds_Template (dpm_Spec d)).
Definition dpm_template_meta (d : Deployment) : ObjectMeta := pt_Meta (ds_Template (dpm_Spec d)).

Definition dpm_set_meta (d : Deployment) (m : ObjectMeta) : Deployment :=
  {| dpm_Meta := m; dpm_Spec := dpm_Spec d; dpm_Status := dpm_Status d |}.

Definition dpm_set_podspec (d : Deployment) (p : PodSpec) : Deployment :=
  {| dpm_Meta := dpm_Meta d;
     dpm_Spec := {| ds_Selector := ds_Selector (dpm_Spec d);
                    ds_Template := {| pt_Meta := dpm_template_meta d; pt_Spec := p |};
                    ds_Strategy := ds_Strategy (dpm_Spec d) |};
     dpm_Status := dpm_Status d |}.

Definition dpm_set_template_meta (d : Deployment) (m : ObjectMeta) : Deployment :=
  {| dpm_Meta := dpm_Meta d;
     dpm_Spec := {| ds_Selector := ds_Selector (dpm_Spec d);
                    ds_Template := {| pt_Meta := m; pt_Spec := dpm_podspec d |};
                    ds_Strategy := ds_Strategy (dpm_Spec d) |};
     dpm_Status := dpm_Status d |}.

Definition dpm_set_selector (d : Deployment) (s : option LabelSelector) : Deployment :=
  {| dpm_Meta := dpm_Meta d;
     dpm_Spec := {| ds_Selector := s; ds_Template := ds_Template (dpm_Spec d);
                    ds_Strategy := ds_Strategy (dpm_Spec d) |};
     dpm_Status := dpm_Status d |}.

Definition dpm_set_strategy (d : Deployment) (s : DeploymentStrategy) : Deployment :=
  {| dpm_Meta := dpm_Meta d;
     dpm_Spec := {| ds_Selector := ds_Selector (dpm_Spec d);
                    ds_Template := ds_Template (dpm_Spec d); ds_Strategy := s |};
     dpm_Status := dpm_Status d |}.

Definition dpm_set_spec (d : Deployment) (s : DeploymentSpec) : Deployment :=
  {| dpm_Meta := dpm_Meta d; dpm_Spec := s; dpm_Status := dpm_Status d |}.

Record Job := { job_Meta : ObjectMeta; job_PodSpec : PodSpec }.

(** ** autoscaling/v2beta1, monitoring/v1alpha1, apiextensions/v1beta1 *)

Record CrossVersionObjectReference :=
  { ref_Kind : string; ref_Name : string; ref_APIVersion : string }.

Record ResourceMetricSource :=
  { rm_Name : string; rm_TargetAverageUtilization : option Z }.

Record ObjectMetricSource :=
  { omt_Target : CrossVersionObjectReference;
    omt_MetricName : string;
    omt_TargetValue : Quantity }.

(** [ObjectMetricSourceType] and [ResourceMetricSourceType]. *)
Definition ObjectMetricSourceType : string := "Object".
Definition ResourceMetricSourceType : string := "Resource".

Record MetricSpec := {
  ms_Type : string;
  ms_Object : option ObjectMetricSource;
  ms_Resource : option ResourceMetricSource }.

Record HPASpec := {
  hs_ScaleTargetRef : CrossVersionObjectReference;
  hs_MinReplicas : option Z;
  hs_MaxReplicas : Z;
  hs_Metrics : list MetricSpec }.

Record HPA := { hpa_Type : TypeMeta; hpa_Meta : ObjectMeta; hpa_Spec : HPASpec }.

Definition zero_hpa : HPA :=
  {| hpa_Type := {| tm_Kind := ""; tm_APIVersion := "" |};
     hpa_Meta := zero_meta;
     hpa_Spec := {| hs_ScaleTargetRef := {| ref_Kind := ""; ref_Name := ""; ref_APIVersion := "" |};
                    hs_MinReplicas := None; hs_MaxReplicas := 0; hs_Metrics := [] |} |}.

Record ServiceMonitor := {
  sm_Meta : ObjectMeta;
  sm_Selector : LabelSelector;
  sm_EndpointPorts : list string }.

Record CRD := { crd_Meta : ObjectMeta }.

(** ** The Function resource (pkg/apis/kubeless/v1beta1/function.go) *)

Record FunctionSpec := {
  fs_Handler : string;
  fs_Function : string;
  fs_FunctionContentType : string;
  fs_Checksum : string;
  fs_Runtime : string;
  fs_Timeout : string;
  fs_Deps : string;
  fs_Deployment : Deployment;
  fs_ServiceSpec : ServiceSpec;
  fs_HorizontalPodAutoscaler : HPA }.

Record Function_ := {
  f_Type : TypeMeta;
  f_Meta : ObjectMeta;
  f_Spec : FunctionSpec }.

Definition zero_function_spec : FunctionSpec :=
  {| fs_Handler := ""; fs_Function := ""; fs_FunctionContentType := ""; fs_Checksum := "";
     fs_Runtime := ""; fs_Timeout := ""; fs_Deps := ""; fs_Deployment := zero_deployment;
     fs_ServiceSpec := zero_service_spec; fs_HorizontalPodAutoscaler := zero_hpa |}.

Definition zero_function : Function_ :=
  {| f_Type := {| tm_Kind := ""; tm_APIVersion := "" |}; f_Meta := zero_meta;
     f_Spec := zero_function_spec |}.

Definition f_set_meta (f : Function_) (m : ObjectMeta) : Function_ :=
  {| f_Type := f_Type f; f_Meta := m; f_Spec := f_Spec f |}.

Definition f_set_labels (f : Function_) (l : gomap string) : Function_ :=
  f_set_meta f (meta_set_labels (f_Meta f) l).

Definition f_set_deployment (f : Function_) (d : Deployment) : Function_ :=
  let s := f_Spec f in
  {| f_Type := f_Type f; f_Meta := f_Meta f;
     f_Spec := {| fs_Handler := fs_Handler s; fs_Function := fs_Function s;
       fs_FunctionContentType := fs_FunctionContentType s; fs_Checksum := fs_Checksum s;
       fs_Runtime := fs_Runtime s; fs_Timeout := fs_Timeout s; fs_Deps := fs_Deps s;
       fs_Deployment := d; fs_ServiceSpec := fs_ServiceSpec s;
       fs_HorizontalPodAutoscaler := fs_HorizontalPodAutoscaler s |} |}.

Definition f_set_hpa (f : Function_) (h : HPA) : Function_ :=
  let s := f_Spec f in
  {| f_Type := f_Type f; f_Meta := f_Meta f;
     f_Spec := {| fs_Handler := fs_Handler s; fs_Function := fs_Function s;
       fs_FunctionContentType := fs_FunctionContentType s; fs_Checksum := fs_Checksum s;
       fs_Runtime := fs_Runtime s; fs_Timeout := fs_Timeout s; fs_Deps := fs_Deps s;
       fs_Deployment := fs_Deployment s; fs_ServiceSpec := fs_ServiceSpec s;
       fs_HorizontalPodAutoscaler := h |} |}.

Definition f_name (f : Function_) : string := om_Name (f_Meta f).
Definition f_namespace (f : Function_) : string := om_Namespace (f_Meta f).
Definition f_labels (f : Function_) : gomap string := om_Labels (f_Meta f).

(** ** Trigger resources, of the repositories kubeless/*-trigger *)

(** The fields the [kubeless trigger] commands set. *)
Record HTTPTrigger := {
  ht_Type : TypeMeta; ht_Meta : ObjectMeta;
  ht_FunctionName : string; ht_HostName : string; ht_TLSAcme : bool; ht_TLSSecret : string;
  ht_Path : string; ht_BasicAuthSecret : string; ht_Gateway : string; ht_CorsEnable : bool }.

(** The payload is any JSON value, or the error value of its parsing. *)
Record CronJobTrigger (Payload : Type) := {
  ct_Type : TypeMeta; ct_Meta : ObjectMeta;
  ct_FunctionName : string; ct_Schedule : string; ct_Payload : Payload }.
Arguments ct_Type {Payload} _.
Arguments ct_Meta {Payload} _.
Arguments ct_FunctionName {Payload} _.
Arguments ct_Schedule {Payload} _.
Arguments ct_Payload {Payload} _.

(** Kafka and NATS triggers have the same fields. *)
Record TopicTrigger := {
  tt_Type : TypeMeta; tt_Meta : ObjectMeta;
  tt_FunctionSelector : LabelSelector; tt_Topic : string }.

Record KinesisTrigger := {
  kt_Type : TypeMeta; kt_Meta : ObjectMeta;
  kt_FunctionName : string; kt_Region : string; kt_Stream : string; kt_ShardID : string;
  kt_Secret : string; kt_Endpoint : string }.

(** ** Decidable equality *)
#[export] Instance ptr_eq_dec {A} `{EqDecision A} : EqDecision (ptr A).
Proof. solve_decision. Defined.
#[export] Instance TypeMeta_eq_dec : EqDecision TypeMeta.
Proof. solve_decision. Defined.
#[export] Instance OwnerReference_eq_dec : EqDecision OwnerReference.
Proof. solve_decision. Defined.
#[export] Instance ObjectMeta_eq_dec : EqDecision ObjectMeta.
Proof. solve_decision. Defined.
#[export] Instance LabelSelector_eq_dec : EqDecision LabelSelector.
Proof. solve_decision. Defined.
#[export] Instance IntOrString_eq_dec : EqDecision IntOrString.
Proof. solve_decision. Defined.
#[export] Instance EnvVar_eq_dec : EqDecision EnvVar.
Proof. solve_decision. Defined.
#[export] Instance LocalObjectReference_eq_dec : EqDecision LocalObjectReference.
Proof. solve_decision. Defined.
#[export] Instance VolumeMount_eq_dec : EqDecision VolumeMount.
Proof. solve_decision. Defined.
#[export] Instance VolumeSource_eq_dec : EqDecision VolumeSource.
Proof. solve_decision. Defined.
#[export] Instance Volume_eq_dec : EqDecision Volume.
Proof. solve_decision. Defined.
#[export] Instance ResourceRequirements_eq_dec : EqDecision ResourceRequirements.
Proof. solve_decision. Defined.
#[export] Instance ProbeHandler_eq_dec : EqDecision ProbeHandler.
Proof. solve_decision. Defined.
#[export] Instance Probe_eq_dec : EqDecision Probe.
Proof. solve_decision. Defined.
#[export] Instance Container_eq_dec : EqDecision Container.
Proof. solve_decision. Defined.
#[export] Instance PodSecurityContext_eq_dec : EqDecision PodSecurityContext.
Proof. solve_decision. Defined.
#[export] Instance WeightedPodAffinityTerm_eq_dec : EqDecision WeightedPodAffinityTerm.
Proof. solve_decision. Defined.
#[export] Instance Affinity_eq_dec : EqDecision Affinity.
Proof. solve_decision. Defined.
#[export] Instance PodSpec_eq_dec : EqDecision PodSpec.
Proof. solve_decision. Defined.
#[export] Instance PodTemplateSpec_eq_dec : EqDecision PodTemplateSpec.
Proof. solve_decision. Defined.
#[export] Instance ConfigMap_eq_dec : EqDecision ConfigMap.
Proof. solve_decision. Defined.
#[export] Instance Secret_eq_dec : EqDecision Secret.
Proof. solve_decision. Defined.
#[export] Instance ServicePort_eq_dec : EqDecision ServicePort.
Proof. solve_decision. Defined.
#[export] Instance ServiceSpec_eq_dec : EqDecision ServiceSpec.
Proof. solve_decision. Defined.
#[export] Instance Service_eq_dec : EqDecision Service.
Proof. solve_decision. Defined.
#[export] Instance Pod_eq_dec : EqDecision Pod.
Proof. solve_decision. Defined.
#[export] Instance DeploymentStrategy_eq_dec : EqDecision DeploymentStrategy.
Proof. solve_decision. Defined.
#[export] Instance DeploymentSpec_eq_dec : EqDecision DeploymentSpec.
Proof. solve_decision. Defined.
#[export] Instance DeploymentStatus_eq_dec : EqDecision DeploymentStatus.
Proof. solve_decision. Defined.
#[export] Instance Deployment_eq_dec : EqDecision Deployment.
Proof. solve_decision. Defined.
#[export] Instance Job_eq_dec : EqDecision Job.
Proof. solve_decision. Defined.
#[export] Instance CrossVersionObjectReference_eq_dec : EqDecision CrossVersionObjectReference.
Proof. solve_decision. Defined.
#[export] Instance ResourceMetricSource_eq_dec : EqDecision ResourceMetricSource.
Proof. solve_decision. Defined.
#[export] Instance ObjectMetricSource_eq_dec : EqDecision ObjectMetricSource.
Proof. solve_decision. Defined.
#[export] Instance MetricSpec_eq_dec : EqDecision MetricSpec.
Proof. solve_decision. Defined.
#[export] Instance HPASpec_eq_dec : EqDecision HPASpec.
Proof. solve_decision. Defined.
#[export] Instance HPA_eq_dec : EqDecision HPA.
Proof. solve_decision. Defined.
#[export] Instance ServiceMonitor_eq_dec : EqDecision ServiceMonitor.
Proof. solve_decision. Defined.
#[export] Instance CRD_eq_dec : EqDecision CRD.
Proof. solve_decision. Defined.
#[export] Instance FunctionSpec_eq_dec : EqDecision FunctionSpec.
Proof. solve_decision. Defined.
#[export] Instance Function_eq_dec : EqDecision Function_.
Proof. solve_decision. Defined.
#[export] Instance HTTPTrigger_eq_dec : EqDecision HTTPTrigger.
Proof. solve_decision. Defined.
#[export] Instance CronJobTrigger_eq_dec {P} `{EqDecision P} : EqDecision (CronJobTrigger P).
Proof. solve_decision. Defined.
#[export] Instance TopicTrigger_eq_dec : EqDecision TopicTrigger.
Proof. solve_decision. Defined.
#[export] Instance KinesisTrigger_eq_dec : EqDecision KinesisTrigger.
Proof. solve_decision. Defined.
