(* ===== verification/World.v ===== *)
(** * What the program asks of the outside

    [op] lists every request the modelled code makes: Kubernetes API calls
    through the client-go clientsets (by kind of object), HTTP requests, file
    and process operations, the controller's work queue and the informer's
    store.  [resp] is the type of the answer.  The services themselves are
    third-party: theorems quantify over every sequence of answers ([runs]) or
    over every server that satisfies the laws of [ApiServer].

    [world] with [serve] is one such server, a plain object store with files,
    a queue and an HTTP endpoint, on which concrete runs are evaluated. *)
From S2P Require Import Prelude GoStrings GoProg KubeTypes.

Inductive kind :=
  | KFunction | KConfigMap | KService | KDeployment | KJob | KHPA | KServiceMonitor
  | KSecret | KCRD | KPod
  | KHTTPTrigger | KCronJobTrigger | KKafkaTrigger | KNATSTrigger | KKinesisTrigger.

#[export] Instance kind_eq_dec : EqDecision kind.
Proof. solve_decision. Defined.

(** The payload of a cron job trigger: the canonical text of the JSON value,
    or the error value that parsing it produced. *)
Definition payload := result string.

Definition obj (k : kind) : Type :=
  match k with
  | KFunction => Function_ | KConfigMap => ConfigMap | KService => Service
  | KDeployment => Deployment | KJob => Job | KHPA => HPA | KServiceMonitor => ServiceMonitor
  | KSecret => Secret | KCRD => CRD | KPod => Pod
  | KHTTPTrigger => HTTPTrigger | KCronJobTrigger => CronJobTrigger payload
  | KKafkaTrigger => TopicTrigger | KNATSTrigger => TopicTrigger
  | KKinesisTrigger => KinesisTrigger
  end.

Definition obj_meta (k : kind) : obj k -> ObjectMeta :=
  match k with
  | KFunction => f_Meta | KConfigMap => cm_Meta | KService => svc_Meta
  | KDeployment => dpm_Meta | KJob => job_Meta | KHPA => hpa_Meta | KServiceMonitor => sm_Meta
  | KSecret => sec_Meta | KCRD => crd_Meta | KPod => pod_Meta
  | KHTTPTrigger => ht_Meta | KCronJobTrigger => ct_Meta
  | KKafkaTrigger => tt_Meta | KNATSTrigger => tt_Meta | KKinesisTrigger => kt_Meta
  end.

Definition obj_name (k : kind) (o : obj k) : string := om_Name (obj_meta k o).

(** An HTTP response: status code, Www-Authenticate header and the body as
    [ioutil.ReadAll] returns it. *)
Record http_response := HttpResponse {
  hr_Status : Z; hr_WwwAuthenticate : string; hr_Body : result string }.

(** The client configuration of client-go. *)
Record rest_config := RestConfig { rc_Host : string; rc_BearerToken : string }.

(** The API calls.  [ns] is empty for a cluster-wide resource. *)
Inductive op :=
  | AGet (k : kind) (ns name : string)
  | ACreate (k : kind) (ns : string) (o : obj k)
  | AUpdate (k : kind) (ns : string) (o : obj k)
  | APatch (k : kind) (ns name : string) (data : string)
  | ADelete (k : kind) (ns name : string)
  | ADeleteCollection (k : kind) (ns selector : string)
  | AList (k : kind) (ns selector : string)
  (* client-go: configurations and client sets *)
  | LoadClientConfig (explicitPath : string)
  | InClusterConfig
  | NewForConfig (clientset : string) (c : rest_config)
  | DefaultNamespace
  (* the REST client: method, name of the element, path and body *)
  | RestDo (method elem : string) (path : list string) (body : string)
  (* net/http: GET with an optional Authorization header *)
  | HttpGet (url : string) (authorization : option string)
  (* the service proxy of the API server *)
  | ServiceProxy (verb ns name path body : string) (headers : list (string * string))
  (* the log and the exec subresource of a pod *)
  | PodLogs (ns pod container : string) (follow : bool)
  | PodExec (ns pod container : string) (command : list string) (stdin : option string)
  (* the clients of NATS and of AWS Kinesis *)
  | NatsConnect (url : string)
  | NatsPublish (topic message : string)
  | KinesisPutRecords (region endpoint accessKey secretKey stream : string)
      (records : list (string * string))
  | KinesisCreateStream (region endpoint accessKey secretKey stream : string) (shards : Z)
  (* files, processes, clock, randomness, standard output *)
  | FileRead (path : string)
  | FileOpen (path : string)
  | FileStat (path : string)
  | FileCreate (path : string)
  | FileWrite (path content : string)
  | FileSync (path : string)
  | TempDir
  | RunCommand (command : string) (args : list string)
  | TimeNow
  | RandRead (n : nat)
  | Println (line : string)
  (* client-go workqueue and informer store *)
  | QueueGet
  | QueueDone (key : string)
  | QueueForget (key : string)
  | QueueNumRequeues (key : string)
  | QueueAddRateLimited (key : string)
  | QueueAdd (key : string)
  | IndexerGetByKey (key : string).

Definition resp (o : op) : Type :=
  match o with
  | AGet k _ _ | ACreate k _ _ | AUpdate k _ _ | APatch k _ _ _ => result (obj k)
  | ADelete _ _ _ | ADeleteCollection _ _ _ => result unit
  | AList k _ _ => result (list (obj k))
  | LoadClientConfig _ | InClusterConfig => result rest_config
  | NewForConfig _ _ => result unit
  | DefaultNamespace => result string
  | RestDo _ _ _ _ => result string
  | HttpGet _ _ => result http_response
  | ServiceProxy _ _ _ _ _ _ => result string
  | PodLogs _ _ _ _ => result string
  | PodExec _ _ _ _ _ => result unit
  | NatsConnect _ | NatsPublish _ _ => result unit
  | KinesisPutRecords _ _ _ _ _ _ | KinesisCreateStream _ _ _ _ _ _ => result unit
  | FileRead _ => result string
  | FileStat _ => result Z
  | FileOpen _ | FileCreate _ | FileWrite _ _ | FileSync _ => result unit
  | TempDir => result string
  | RunCommand _ _ => result unit
  | TimeNow => string
  | RandRead _ => result (list N)
  | Println _ => unit
  | QueueGet => option string
  | QueueNumRequeues _ => Z
  | QueueDone _ | QueueForget _ | QueueAddRateLimited _ | QueueAdd _ => unit
  | IndexerGetByKey _ => result (option positive)
  end.

(** A Go function over process memory [S]. *)
Abbreviation go S A := (prog (Op := op) resp S A).
Abbreviation trace := (list (event resp)).

(** The client calls, at the type of their answer. *)
Section Client.
Context {S : Type}.
Implicit Types ns name : string.

Definition kGet (k : kind) ns name : go S (result (obj k)) := call (AGet k ns name).
Definition kCreate (k : kind) ns (o : obj k) : go S (result (obj k)) := call (ACreate k ns o).
Definition kUpdate (k : kind) ns (o : obj k) : go S (result (obj k)) := call (AUpdate k ns o).
Definition kPatch (k : kind) ns name data : go S (result (obj k)) :=
  call (APatch k ns name data).
Definition kDelete (k : kind) ns name : go S (result unit) := call (ADelete k ns name).
Definition kDeleteCollection (k : kind) ns selector : go S (result unit) :=
  call (ADeleteCollection k ns selector).
Definition kList (k : kind) ns selector : go S (result (list (obj k))) :=
  call (AList k ns selector).
Definition load_client_config path : go S (result rest_config) := call (LoadClientConfig path).
Definition in_cluster_config : go S (result rest_config) := call InClusterConfig.
Definition new_for_config clientset c : go S (result unit) := call (NewForConfig clientset c).
Definition default_namespace : go S (result string) := call DefaultNamespace.
Definition rest_do method elem path body : go S (result string) :=
  call (RestDo method elem path body).
Definition http_get url authorization : go S (result http_response) :=
  call (HttpGet url authorization).
Definition service_proxy verb ns name path body headers : go S (result string) :=
  call (ServiceProxy verb ns name path body headers).
Definition pod_logs ns pod container follow : go S (result string) :=
  call (PodLogs ns pod container follow).
Definition pod_exec ns pod container command stdin : go S (result unit) :=
  call (PodExec ns pod container command stdin).
Definition nats_connect url : go S (result unit) := call (NatsConnect url).
Definition nats_publish topic message : go S (result unit) := call (NatsPublish topic message).
Definition kinesis_put_records region endpoint ak sk stream records : go S (result unit) :=
  call (KinesisPutRecords region endpoint ak sk stream records).
Definition kinesis_create_stream region endpoint ak sk stream shards : go S (result unit) :=
  call (KinesisCreateStream region endpoint ak sk stream shards).
Definition file_read path : go S (result string) := call (FileRead path).
Definition file_open path : go S (result unit) := call (FileOpen path).
Definition file_stat path : go S (result Z) := call (FileStat path).
Definition file_create path : go S (result unit) := call (FileCreate path).
Definition file_write path content : go S (result unit) := call (FileWrite path content).
Definition file_sync path : go S (result unit) := call (FileSync path).
Definition temp_dir : go S (result string) := call TempDir.
Definition run_command command args : go S (result unit) := call (RunCommand command args).
Definition time_now : go S string := call TimeNow.
Definition rand_read n : go S (result (list N)) := call (RandRead n).
Definition println line : go S unit := call (Println line).
Definition queue_get : go S (option string) := call QueueGet.
Definition queue_done key : go S unit := call (QueueDone key).
Definition queue_forget key : go S unit := call (QueueForget key).
Definition queue_num_requeues key : go S Z := call (QueueNumRequeues key).
Definition queue_add_rate_limited key : go S unit := call (QueueAddRateLimited key).
Definition queue_add key : go S unit := call (QueueAdd key).
Definition indexer_get key : go S (result (option positive)) := call (IndexerGetByKey key).

End Client.

(** [closed P I]: requests that satisfy [P] preserve [I]. *)
Definition closed {S} (P : op -> Prop) (I : S -> trace -> Prop) : Prop :=
  forall s tr o r, P o -> I s tr -> I s (tr ++ [existT o r]).

(** Every request of the trace satisfies [P], which may speak of the
    requests and answers before it. *)
Definition each (P : trace -> op -> Prop) (tr : trace) : Prop :=
  forall tr1 e tr2, tr = tr1 ++ e :: tr2 -> P tr1 (projT1 e).

Section Each.
Context (P : trace -> op -> Prop).

Lemma each_nil : each P [].
Proof. intros tr1 e tr2 E. by destruct tr1. Qed.

Lemma each_snoc tr (e : event resp) : each P tr -> P tr (projT1 e) -> each P (tr ++ [e]).
Proof.
  intros Htr He tr1 e' tr2 E. destruct tr2 as [|e2 tr2 _] using rev_ind.
  - by apply app_inj_tail in E as [-> ->].
  - rewrite app_comm_cons, app_assoc in E. apply app_inj_tail in E as [-> _]. by eapply Htr.
Qed.

Lemma each_app tr tr' :
  each P tr -> (forall t1 e t2, tr' = t1 ++ e :: t2 -> P (tr ++ t1) (projT1 e)) -> each P (tr ++ tr').
Proof.
  intros Htr. induction tr' as [|e tr' IH] using rev_ind; intros H.
  - by rewrite app_nil_r.
  - rewrite app_assoc. apply each_snoc; [|by apply (H tr' e [])].
    apply IH. intros t1 e' t2 ->. apply (H t1 e' (t2 ++ [e])).
    by rewrite <- app_assoc.
Qed.

(** Requests of which [P] holds whatever came before. *)
Lemma each_closed {S} : closed (fun o => forall tr, P tr o) (fun (_ : S) tr => each P tr).
Proof. intros s tr o r Ho Htr. by apply each_snoc. Qed.

End Each.

Section Closed.
Context {S : Type} (P : op -> Prop) (I : S -> trace -> Prop) (HI : closed P I).

Lemma keeps_closed o : P o -> keeps I (call o).
Proof. intros Ho. apply keeps_call. intros. by apply HI. Qed.

Lemma keeps_kGet k ns n : P (AGet k ns n) -> keeps I (kGet k ns n).
Proof. apply keeps_closed. Qed.
Lemma keeps_kCreate k ns o : P (ACreate k ns o) -> keeps I (kCreate k ns o).
Proof. apply keeps_closed. Qed.
Lemma keeps_kUpdate k ns o : P (AUpdate k ns o) -> keeps I (kUpdate k ns o).
Proof. apply keeps_closed. Qed.
Lemma keeps_kPatch k ns n d : P (APatch k ns n d) -> keeps I (kPatch k ns n d).
Proof. apply keeps_closed. Qed.
Lemma keeps_kDelete k ns n : P (ADelete k ns n) -> keeps I (kDelete k ns n).
Proof. apply keeps_closed. Qed.
Lemma keeps_kDeleteCollection k ns sel :
  P (ADeleteCollection k ns sel) -> keeps I (kDeleteCollection k ns sel).
Proof. apply keeps_closed. Qed.
Lemma keeps_http_get url auth : P (HttpGet url auth) -> keeps I (http_get url auth).
Proof. apply keeps_closed. Qed.
Lemma keeps_indexer_get key : P (IndexerGetByKey key) -> keeps I (indexer_get key).
Proof. apply keeps_closed. Qed.

End Closed.

(** Along a body all of whose requests satisfy the [P] of a closed invariant. *)
Ltac closed_step :=
  first
    [ solve [eauto 4 with keeps]
    | solve [eapply keeps_kGet; [eauto with keeps|done]]
    | solve [eapply keeps_kCreate; [eauto with keeps|done]]
    | solve [eapply keeps_kUpdate; [eauto with keeps|done]]
    | solve [eapply keeps_kPatch; [eauto with keeps|done]]
    | solve [eapply keeps_kDelete; [eauto with keeps|done]]
    | solve [eapply keeps_kDeleteCollection; [eauto with keeps|done]]
    | solve [eapply keeps_http_get; [eauto with keeps|done]]
    | solve [eapply keeps_indexer_get; [eauto with keeps|done]] ].
Ltac closed_auto := repeat first [ closed_step | keeps_step ].

Definition nil_deref : string := "runtime error: invalid memory address or nil pointer dereference".

Definition api_not_found (k : kind) (name : string) : gerror :=
  GError (Some NotFound) (name +:+ " not found").
Definition api_already_exists (k : kind) (name : string) : gerror :=
  GError (Some AlreadyExists) (name +:+ " already exists").

(** [key=value] terms of a label selector, all required. *)
Definition selector_terms (sel : string) : list (string * string) :=
  (fun t => match Split t "="%char with
            | [k; v] => (k, v)
            | k :: _ => (k, "")
            | [] => ("", "")
            end) <$> Split sel ","%char.

Definition selects (sel : string) (labels : gomap string) : bool :=
  (sel =?s "") ||
  forallb (fun kv => bool_decide (mget labels (fst kv) = Some (snd kv))) (selector_terms sel).

(** ** The laws of an API server that accepts what it is sent

    Only documented behaviour.  A read returns what is stored.  A creation
    fails with AlreadyExists when the name is taken, the update of a function and
    a deletion with NotFound when it is not; nothing else changes.  What is stored is the
    object sent, up to the fields the server manages ([accepts]).  An update is
    accepted when it carries the resource version that is stored; it removes
    an object that is marked for deletion once its last finalizer is gone. *)
Definition same_meta (m m' : ObjectMeta) : Prop :=
  om_Name m' = om_Name m /\ om_Labels m' = om_Labels m /\
  om_Annotations m' = om_Annotations m /\ om_OwnerReferences m' = om_OwnerReferences m /\
  om_Finalizers m' = om_Finalizers m /\
  p_val <$> om_DeletionTimestamp m' = p_val <$> om_DeletionTimestamp m /\
  (om_Namespace m <> "" -> om_Namespace m' = om_Namespace m).

(** A container as stored: the server fills in what is not given. *)
Definition same_container (c c' : Container) : Prop :=
  c_Name c' = c_Name c /\ c_Image c' = c_Image c /\ c_Command c' = c_Command c /\
  c_Args c' = c_Args c /\ c_Env c' = c_Env c /\ c_Ports c' = c_Ports c /\
  c_VolumeMounts c' = c_VolumeMounts c /\ (c_LivenessProbe c' = None <-> c_LivenessProbe c = None).

(** The contents of an object that the server stores as they are sent. *)
Definition same_contents (k : kind) : obj k -> obj k -> Prop :=
  match k with
  | KConfigMap => fun o o' => cm_Data o' = cm_Data o
  | KService => fun o o' => ss_Ports (svc_Spec o') = ss_Ports (svc_Spec o) /\
                            ss_Selector (svc_Spec o') = ss_Selector (svc_Spec o)
  | KHPA => fun o o' => hpa_Spec o' = hpa_Spec o
  | KFunction => fun o o' => f_Spec o' = f_Spec o
  | KDeployment => fun o o' =>
      ds_Selector (dpm_Spec o') = ds_Selector (dpm_Spec o) /\
      om_Labels (dpm_template_meta o') = om_Labels (dpm_template_meta o) /\
      Forall2 same_container (ps_Containers (dpm_podspec o)) (ps_Containers (dpm_podspec o')) /\
      Forall2 same_container (ps_InitContainers (dpm_podspec o)) (ps_InitContainers (dpm_podspec o')) /\
      ps_Volumes (dpm_podspec o') = ps_Volumes (dpm_podspec o)
  | _ => fun _ _ => True
  end.

Definition accepts (k : kind) (o o' : obj k) : Prop :=
  same_meta (obj_meta k o) (obj_meta k o') /\ same_contents k o o'.

(** The update [o] of [old] does not conflict with another writer. *)
Definition fresh (k : kind) (old o : obj k) : Prop :=
  (om_ResourceVersion (obj_meta k o) = "" \/
   om_ResourceVersion (obj_meta k o) = om_ResourceVersion (obj_meta k old)) /\
  p_val <$> om_DeletionTimestamp (obj_meta k o) = p_val <$> om_DeletionTimestamp (obj_meta k old).

(** Marked for deletion, and nothing holds it back. *)
Definition finalized (k : kind) (o : obj k) : bool :=
  match om_DeletionTimestamp (obj_meta k o), om_Finalizers (obj_meta k o) with
  | Some _, [] => true
  | _, _ => false
  end.

(** [w'] is [w] outside one object. *)
Definition same_but {W} (stored : W -> forall k : kind, string -> string -> option (obj k))
    (k : kind) (ns n : string) (w w' : W) : Prop :=
  forall k' ns' n', (k', ns', n') <> (k, ns, n) -> stored w' k' ns' n' = stored w k' ns' n'.

Class ApiServer {W : Type} (H : handler resp W) := {
  stored : W -> forall k : kind, string -> string -> option (obj k);
  api_get w k ns n :
    H (AGet k ns n) w =
    (match stored w k ns n with Some o => Ok o | None => Error (api_not_found k n) end, w);
  api_create_taken w k ns (o : obj k) o' :
    stored w k ns (obj_name k o) = Some o' ->
    H (ACreate k ns o) w = (Error (api_already_exists k (obj_name k o)), w);
  api_create_new w k ns (o : obj k) :
    stored w k ns (obj_name k o) = None ->
    exists o' w', H (ACreate k ns o) w = (Ok o', w') /\ accepts k o o' /\
      stored w' k ns (obj_name k o) = Some o' /\ same_but stored k ns (obj_name k o) w w';
  api_update w k ns (o old : obj k) :
    stored w k ns (obj_name k o) = Some old -> fresh k old o ->
    exists o' w', H (AUpdate k ns o) w = (Ok o', w') /\ accepts k o o' /\
      stored w' k ns (obj_name k o) = (if finalized k o then None else Some o') /\
      same_but stored k ns (obj_name k o) w w';
  api_update_missing w ns (f : Function_) :
    stored w KFunction ns (f_name f) = None ->
    H (AUpdate KFunction ns f) w = (Error (api_not_found KFunction (f_name f)), w);
  api_delete_missing w k ns n :
    stored w k ns n = None ->
    H (ADelete k ns n) w = (Error (api_not_found k n), w);
  api_delete w k ns n o :
    stored w k ns n = Some o -> om_Finalizers (obj_meta k o) = [] ->
    exists w', H (ADelete k ns n) w = (Ok tt, w') /\
      stored w' k ns n = None /\ same_but stored k ns n w w';
  api_delete_collection w k ns sel :
    (forall n o, stored w k ns n = Some o -> om_Finalizers (obj_meta k o) = []) ->
    exists w', H (ADeleteCollection k ns sel) w = (Ok tt, w') /\
      (forall n, stored w' k ns n =
         match stored w k ns n with
         | Some o => if selects sel (om_Labels (obj_meta k o)) then None else Some o
         | None => None
         end) /\
      (forall k' ns' n', (k', ns') <> (k, ns) -> stored w' k' ns' n' = stored w k' ns' n')
}.

(** ** A reference server *)

Definition objstore : Type := forall k : kind, gmap (string * string) (obj k).

Definition store_set (s : objstore) (k : kind) (m : gmap (string * string) (obj k)) : objstore :=
  fun k' => match decide (k = k') with
            | left e => eq_rect k (fun x => gmap (string * string) (obj x)) m k' e
            | right _ => s k'
            end.

Definition empty_store : objstore := fun _ => ∅.

(** A queue entry counts the rate-limited additions since it was last
    forgotten. *)
Record queue := Queue { q_items : list string; q_requeues : gmap string Z }.

Record world := World {
  w_store : objstore;
  w_files : gmap string string;
  w_http : string -> option string -> result http_response;
  w_proxy : string -> string -> result string;
  w_commands : list (string * list string);
  w_patch : forall k : kind, obj k -> string -> result (obj k);
  w_indexer : gmap string positive;
  w_queue : queue;
  w_out : list string }.

Definition empty_world : world :=
  {| w_store := empty_store; w_files := ∅;
     w_http := fun _ _ => Error (Errorf "no route to host");
     w_proxy := fun _ _ => Error (Errorf "no endpoints available");
     w_commands := [];
     w_patch := fun _ o _ => Ok o; w_indexer := ∅;
     w_queue := {| q_items := []; q_requeues := ∅ |}; w_out := [] |}.

Definition w_set_store (w : world) (s : objstore) : world :=
  {| w_store := s; w_files := w_files w; w_http := w_http w; w_proxy := w_proxy w;
     w_commands := w_commands w;
     w_patch := w_patch w; w_indexer := w_indexer w; w_queue := w_queue w; w_out := w_out w |}.

Definition w_set_files (w : world) (f : gmap string string) : world :=
  {| w_store := w_store w; w_files := f; w_http := w_http w; w_proxy := w_proxy w;
     w_commands := w_commands w;
     w_patch := w_patch w; w_indexer := w_indexer w; w_queue := w_queue w; w_out := w_out w |}.

Definition w_set_http (w : world) (h : string -> option string -> result http_response) : world :=
  {| w_store := w_store w; w_files := w_files w; w_http := h; w_proxy := w_proxy w;
     w_commands := w_commands w;
     w_patch := w_patch w; w_indexer := w_indexer w; w_queue := w_queue w; w_out := w_out w |}.

Definition w_set_indexer (w : world) (i : gmap string positive) : world :=
  {| w_store := w_store w; w_files := w_files w; w_http := w_http w; w_proxy := w_proxy w;
     w_commands := w_commands w;
     w_patch := w_patch w; w_indexer := i; w_queue := w_queue w; w_out := w_out w |}.

Definition w_set_queue (w : world) (q : queue) : world :=
  {| w_store := w_store w; w_files := w_files w; w_http := w_http w; w_proxy := w_proxy w;
     w_commands := w_commands w;
     w_patch := w_patch w; w_indexer := w_indexer w; w_queue := q; w_out := w_out w |}.

Definition w_add_command (w : world) (c : string * list string) : world :=
  {| w_store := w_store w; w_files := w_files w; w_http := w_http w; w_proxy := w_proxy w;
     w_commands := w_commands w ++ [c];
     w_patch := w_patch w; w_indexer := w_indexer w; w_queue := w_queue w; w_out := w_out w |}.

Definition w_add_out (w : world) (l : string) : world :=
  {| w_store := w_store w; w_files := w_files w; w_http := w_http w; w_proxy := w_proxy w;
     w_commands := w_commands w;
     w_patch := w_patch w; w_indexer := w_indexer w; w_queue := w_queue w;
     w_out := w_out w ++ [l] |}.

Definition w_put (w : world) (k : kind) (ns name : string) (o : obj k) : world :=
  w_set_store w (store_set (w_store w) k (<[(ns, name) := o]> (w_store w k))).

Definition w_remove (w : world) (k : kind) (ns name : string) : world :=
  w_set_store w (store_set (w_store w) k (delete (ns, name) (w_store w k))).

Definition stale (k : kind) (old o : obj k) : bool :=
  negb (om_ResourceVersion (obj_meta k o) =?s "") &&
  negb (om_ResourceVersion (obj_meta k o) =?s om_ResourceVersion (obj_meta k old)).

(** A key that waits already is not added again. *)
Definition enqueue (key : string) (items : list string) : list string :=
  if bool_decide (key ∈ items) then items else items ++ [key].

(** A function with finalizers is only marked for deletion. *)
Definition mark_deleted (k : kind) : obj k -> option (obj k) :=
  match k with
  | KFunction => fun f =>
      match om_Finalizers (f_Meta f) with
      | [] => None
      | _ => Some (f_set_meta f (meta_set_deleted (f_Meta f) (Some (Ptr 0 1%Z))))
      end
  | _ => fun _ => None
  end.

(** A new function gets an identifier of its own. *)
Definition assign_uid (k : kind) : obj k -> obj k :=
  match k with
  | KFunction => fun f =>
      if om_UID (f_Meta f) =?s "" then f_set_meta f (meta_set_uid (f_Meta f) (f_name f +:+ "-uid")) else f
  | _ => fun o => o
  end.

Definition no_file (p : string) : gerror := Errorf ("open " +:+ p +:+ ": no such file or directory").

Definition serve : handler resp world := fun o w =>
  match o return resp o * world with
  | AGet k ns n =>
      (match w_store w k !! (ns, n) with Some o => Ok o | None => Error (api_not_found k n) end, w)
  | ACreate k ns o =>
      match w_store w k !! (ns, obj_name k o) with
      | Some _ => (Error (api_already_exists k (obj_name k o)), w)
      | None => (Ok (assign_uid k o), w_put w k ns (obj_name k o) (assign_uid k o))
      end
  | AUpdate k ns o =>
      match w_store w k !! (ns, obj_name k o) with
      | Some old =>
          if stale k old o then
            (Error (GError (Some OtherReason) "the object has been modified"), w)
          else if finalized k o then (Ok o, w_remove w k ns (obj_name k o))
          else (Ok o, w_put w k ns (obj_name k o) o)
      | None => (Error (api_not_found k (obj_name k o)), w)
      end
  | APatch k ns n data =>
      match w_store w k !! (ns, n) with
      | Some o => match w_patch w k o data with
                  | Ok o' => (Ok o', w_put w k ns n o')
                  | Error e => (Error e, w)
                  end
      | None => (Error (api_not_found k n), w)
      end
  | ADelete k ns n =>
      match w_store w k !! (ns, n) with
      | Some o =>
          match mark_deleted k o with
          | Some o' => (Ok tt, w_put w k ns n o')
          | None => (Ok tt, w_remove w k ns n)
          end
      | None => (Error (api_not_found k n), w)
      end
  | ADeleteCollection k ns sel =>
      (Ok tt, w_set_store w (store_set (w_store w) k
         (filter (fun p => ~ (p.1.1 = ns /\ selects sel (om_Labels (obj_meta k p.2)) = true))
            (w_store w k))))
  | AList k ns sel =>
      (Ok (snd <$> filter (fun p => p.1.1 = ns /\ selects sel (om_Labels (obj_meta k p.2)) = true)
                     (map_to_list (w_store w k))), w)
  | LoadClientConfig _ | InClusterConfig =>
      (Ok (RestConfig "https://10.0.0.1:6443" ""), w)
  | NewForConfig _ _ => (Ok tt, w)
  | DefaultNamespace => (Ok "default", w)
  | RestDo _ _ _ _ => (Error (Errorf "the server could not find the requested resource"), w)
  | HttpGet url auth => (w_http w url auth, w)
  | ServiceProxy verb ns name path body headers => (w_proxy w name body, w)
  | PodLogs _ _ _ _ => (Ok "", w)
  | PodExec _ _ _ _ _ => (Ok tt, w)
  | NatsConnect _ | NatsPublish _ _ => (Ok tt, w)
  | KinesisPutRecords _ _ _ _ _ _ | KinesisCreateStream _ _ _ _ _ _ => (Ok tt, w)
  | FileRead p =>
      (match w_files w !! p with Some c => Ok c | None => Error (no_file p) end, w)
  | FileOpen p =>
      (match w_files w !! p with Some _ => Ok tt | None => Error (no_file p) end, w)
  | FileStat p =>
      (match w_files w !! p with
       | Some c => Ok (int64 (Z.of_nat (String.length c))) | None => Error (no_file p) end, w)
  | FileCreate p => (Ok tt, w_set_files w (<[p := ""]> (w_files w)))
  | FileWrite p c => (Ok tt, w_set_files w (<[p := c]> (w_files w)))
  | FileSync p => (Ok tt, w)
  | TempDir => (Ok "/tmp/build0", w)
  | RunCommand c args => (Ok tt, w_add_command w (c, args))
  | TimeNow => ("2019-01-01T00:00:00Z", w)
  | RandRead n => (Ok (replicate n 0%N), w)
  | Println l => (tt, w_add_out w l)
  | QueueGet =>
      match q_items (w_queue w) with
      | [] => (None, w)
      | k :: rest => (Some k, w_set_queue w (Queue rest (q_requeues (w_queue w))))
      end
  | QueueDone key => (tt, w)
  | QueueForget key =>
      (tt, w_set_queue w (Queue (q_items (w_queue w)) (delete key (q_requeues (w_queue w)))))
  | QueueNumRequeues key => (default 0%Z (q_requeues (w_queue w) !! key), w)
  | QueueAddRateLimited key =>
      (tt, w_set_queue w (Queue (enqueue key (q_items (w_queue w)))
             (<[key := (default 0 (q_requeues (w_queue w) !! key) + 1)%Z]> (q_requeues (w_queue w)))))
  | QueueAdd key =>
      (tt, w_set_queue w (Queue (enqueue key (q_items (w_queue w))) (q_requeues (w_queue w))))
  | IndexerGetByKey key => (Ok (w_indexer w !! key), w)
  end.

(** ** The reference server satisfies the laws *)

Section Store.

Lemma store_set_same s k m : store_set s k m k = m.
Proof.
  unfold store_set. destruct (decide (k = k)) as [e|n]; [|done].
  by rewrite (proof_irrel e eq_refl).
Qed.

Lemma store_set_other s k m k' : k <> k' -> store_set s k m k' = s k'.
Proof. intros H. unfold store_set. by destruct (decide (k = k')). Qed.

Lemma w_put_same w k ns n o : w_store (w_put w k ns n o) k !! (ns, n) = Some o.
Proof. simpl. rewrite store_set_same. apply lookup_insert_eq. Qed.

Lemma w_put_other w k ns n o k' ns' n' :
  (k', ns', n') <> (k, ns, n) ->
  w_store (w_put w k ns n o) k' !! (ns', n') = w_store w k' !! (ns', n').
Proof.
  intros Hne. simpl. destruct (decide (k = k')) as [<-|Hk].
  - rewrite store_set_same, lookup_insert_ne; [done|]. congruence.
  - by rewrite store_set_other.
Qed.

Lemma w_remove_same w k ns n : w_store (w_remove w k ns n) k !! (ns, n) = None.
Proof. simpl. rewrite store_set_same. apply lookup_delete_eq. Qed.

Lemma w_remove_other w k ns n k' ns' n' :
  (k', ns', n') <> (k, ns, n) ->
  w_store (w_remove w k ns n) k' !! (ns', n') = w_store w k' !! (ns', n').
Proof.
  intros Hne. simpl. destruct (decide (k = k')) as [<-|Hk].
  - rewrite store_set_same, lookup_delete_ne; [done|]. congruence.
  - by rewrite store_set_other.
Qed.

Lemma accepts_refl k o : accepts k o o.
Proof.
  split; [by split_and!|]. destruct k; simpl; try done.
  split_and!; try done; by apply Forall_Forall2_diag, Forall_true.
Qed.

Lemma accepts_uid k o : accepts k o (assign_uid k o).
Proof.
  destruct k; try apply accepts_refl. simpl. case_match; [|apply accepts_refl].
  split; [by split_and!|done].
Qed.

Lemma fresh_not_stale k old o : fresh k old o -> stale k old o = false.
Proof.
  unfold stale. intros [[->| ->] _]; [by rewrite streq_refl|].
  by rewrite streq_refl, andb_false_r.
Qed.

Lemma mark_deleted_unpinned k o : om_Finalizers (obj_meta k o) = [] -> mark_deleted k o = None.
Proof. destruct k; simpl; try done. by intros ->. Qed.

End Store.

#[export] Program Instance serve_laws : ApiServer serve := {|
  stored := fun w k ns n => w_store w k !! (ns, n)
|}.
Next Obligation. done. Qed.
Next Obligation. intros w k ns o o' H. simpl. by rewrite H. Qed.
Next Obligation.
  intros w k ns o H. cbn [serve]. rewrite H. exists (assign_uid k o). eexists. split; [done|].
  split; [apply accepts_uid|]. split; [apply w_put_same|]. intros k' ns' n'. apply w_put_other.
Qed.
Next Obligation.
  intros w k ns o old H Hf. cbn [serve]. rewrite H, fresh_not_stale by done. exists o.
  destruct (finalized k o); (eexists; split; [done|]; split; [apply accepts_refl|]).
  - split; [apply w_remove_same|]. intros k' ns' n'. apply w_remove_other.
  - split; [apply w_put_same|]. intros k' ns' n'. apply w_put_other.
Qed.
Next Obligation.
  intros w ns f H. change (w_store w KFunction !! (ns, obj_name KFunction f) = None) in H. cbn [serve]. by rewrite H.
Qed.
Next Obligation. intros w k ns n H. simpl. by rewrite H. Qed.
Next Obligation.
  intros w k ns n o H Hf. cbn [serve]. rewrite H, mark_deleted_unpinned by done.
  eexists. split; [done|]. split; [apply w_remove_same|]. intros k' ns' n'. apply w_remove_other.
Qed.
Next Obligation.
  intros w k ns sel _. cbn [serve]. eexists. split; [done|]. cbn [w_store w_set_store]. split.
  - intros n. rewrite store_set_same, map_lookup_filter.
    destruct (w_store w k !! (ns, n)) as [o|]; simpl; [|done].
    case_guard as Hg; simpl; destruct (selects _ _); naive_solver.
  - intros k' ns' n' Hne. destruct (decide (k = k')) as [<-|Hk].
    + rewrite store_set_same, map_lookup_filter.
      destruct (w_store w k !! (ns', n')) as [o|]; simpl; [|done].
      case_guard as Hg; simpl; naive_solver.
    + by rewrite store_set_other.
Qed.
