(* ===== verification/LangRuntime.v ===== *)
(** * Language runtimes (pkg/langruntime/langruntime.go)

    The runtimes a Kubeless installation offers are read from the
    "runtime-images" entry of its configuration; the functions here look a
    runtime name such as "python2.7" up in them and build the containers that
    install dependencies and compile. *)
From S2P Require Import Prelude GoStrings GoRegexp GoProg KubeTypes World.

Definition PhaseInstallation : string := "installation".
Definition PhaseCompilation : string := "compilation".
Definition PhaseRuntime : string := "runtime".

(** ** Data *)

Record Image := {
  img_Phase : string;
  img_Image : string;
  img_Command : string;
  img_Env : gomap string;
  img_Secrets : list string }.

Record RuntimeVersion := {
  rv_Name : string;
  rv_Version : string;
  rv_Images : list Image;
  rv_ImagePullSecrets : list string }.

Record RuntimeInfo := {
  ri_ID : string;
  ri_Versions : list RuntimeVersion;
  ri_LivenessProbeInfo : option Probe;
  ri_DepName : string;
  ri_FileNameSuffix : string }.

Definition zero_runtime_info : RuntimeInfo :=
  {| ri_ID := ""; ri_Versions := []; ri_LivenessProbeInfo := None; ri_DepName := "";
     ri_FileNameSuffix := "" |}.

(** [Langruntimes]: the data of the config map it was created from and the
    runtimes read so far. *)
Record Langruntimes := {
  kubelessConfig : gomap string;
  AvailableRuntimes : list RuntimeInfo }.

(** The environment of the process. *)
Class OsEnv := os_Getenv : string -> string.

(** [yaml.Unmarshal] of package ghodss/yaml into the list of runtimes; the
    second argument is the value before the call. *)
Class YamlRuntimes :=
  yaml_Unmarshal_runtimes : string -> list RuntimeInfo -> result (list RuntimeInfo).

(** ** Operations *)

Definition New (config : gomap string) : Langruntimes :=
  {| kubelessConfig := config; AvailableRuntimes := [] |}.

Section WithYaml.
Context {S : Type} `{YamlRuntimes}.

Definition ReadConfigMap (l : Langruntimes) : go S Langruntimes :=
  match mget (kubelessConfig l) "runtime-images" with
  | Some runtimeImages =>
      match yaml_Unmarshal_runtimes runtimeImages (AvailableRuntimes l) with
      | Ok rs => mret {| kubelessConfig := kubelessConfig l; AvailableRuntimes := rs |}
      | Error e => Fatal ("Unable to get the runtime images: " +:+ err_msg e)
      end
  | None => mret l
  end.

End WithYaml.

Definition GetRuntimes (l : Langruntimes) : list string :=
  runtimeInf ← AvailableRuntimes l;
  runtime ← ri_Versions runtimeInf;
  [ri_ID runtimeInf +:+ rv_Version runtime].

Definition IsValidRuntime (l : Langruntimes) (runtime : string) : bool :=
  existsb (fun validRuntime => runtime =?s validRuntime) (GetRuntimes l).

(** The image information of a phase, [None] for nil. *)
Definition findImage (phase : string) (runtime : RuntimeVersion) : option Image :=
  List.find (fun imageInf => img_Phase imageInf =?s phase) (rv_Images runtime).

(** The argument of the source is not used. *)
Definition getAvailableRuntimesPerTrigger (l : Langruntimes) (imageType : string) : list string :=
  runtimeInf ← AvailableRuntimes l;
  runtime ← ri_Versions runtimeInf;
  if findImage PhaseRuntime runtime is Some _
  then [ri_ID runtimeInf +:+ rv_Version runtime] else [].

Definition version_char (c : ascii) : bool := is_digit c || Ascii.eqb c "."%char.
Definition id_char (c : ascii) : bool :=
  is_letter c || Ascii.eqb c "_"%char || Ascii.eqb c "-"%char.

Definition re_version : re := RSeq (RPlus version_char) REol.
Definition re_id : re := RSeq RBol (RPlus id_char).
Definition re_probe_id : re := RSeq RBol (RPlus is_letter).

Definition getVersionFromRuntime (runtime : string) : string := FindString re_version runtime.

Definition GetRuntimeInfo (l : Langruntimes) (runtime : string) : result RuntimeInfo :=
  let runtimeID := FindString re_id runtime in
  match List.find (fun runtimeInf => ri_ID runtimeInf =?s runtimeID) (AvailableRuntimes l) with
  | Some runtimeInf => Ok runtimeInf
  | None => Error (Errorf ("Unable to find " +:+ runtime +:+ " as runtime"))
  end.

Definition default_probe (port : Z) : Probe :=
  {| InitialDelaySeconds := 3; PeriodSeconds := 30;
     probe_Handler := HTTPGet "/healthz" (FromInt (int32 port)) |}.

Definition GetLivenessProbeInfo (l : Langruntimes) (runtime : string) (port : Z) : Probe :=
  let livenessProbe := default_probe port in
  let runtimeID := FindString re_probe_id runtime in
  match List.find (fun runtimeInf => ri_ID runtimeInf =?s runtimeID) (AvailableRuntimes l) with
  | Some runtimeInf =>
      match ri_LivenessProbeInfo runtimeInf with Some p => p | None => livenessProbe end
  | None => livenessProbe
  end.

Definition findRuntimeVersion (l : Langruntimes) (runtimeWithVersion : string)
  : result RuntimeVersion :=
  let version := getVersionFromRuntime runtimeWithVersion in
  runtimeInf ← GetRuntimeInfo l runtimeWithVersion;
  match List.find (fun versionInf => rv_Version versionInf =?s version)
          (ri_Versions runtimeInf) with
  | Some versionInf => Ok versionInf
  | None => Error (Errorf ("The given runtime and version " +:+ runtimeWithVersion
                           +:+ " is not valid"))
  end.

(** When the version has no runtime image the error is built and dropped: the
    source ends with [return imageName, nil]. *)
Definition GetFunctionImage `{OsEnv} (l : Langruntimes) (runtime : string) : result string :=
  runtimeInf ← GetRuntimeInfo l runtime;
  let imageNameEnvVar :=
    ToUpper (ri_ID runtimeInf) +:+ getVersionFromRuntime runtime +:+ "_RUNTIME" in
  let imageName := os_Getenv imageNameEnvVar in
  if imageName =?s "" then
    versionInf ← findRuntimeVersion l runtime;
    match findImage PhaseRuntime versionInf with
    | None => Ok imageName
    | Some runtimeImage => Ok (img_Image runtimeImage)
    end
  else Ok imageName.

Definition GetImageSecrets (l : Langruntimes) (runtime : string)
  : result (list LocalObjectReference) :=
  runtimeInf ← findRuntimeVersion l runtime;
  Ok ((fun s => {| lor_Name := s |}) <$> rv_ImagePullSecrets runtimeInf).

(** The phase of an init container. *)
Definition name2phase (name : string) : string :=
  if name =?s "compile" then PhaseCompilation
  else if name =?s "install" then PhaseInstallation else name.

Definition GetInitContainerSecrets (l : Langruntimes) (runtime name : string)
  : result (list LocalObjectReference) :=
  runtimeInf ← findRuntimeVersion l runtime;
  match findImage (name2phase name) runtimeInf with
  | Some i => Ok ((fun s => {| lor_Name := s |}) <$> img_Secrets i)
  | None => Ok []
  end.

(** [appendToCommand] of this package and, word for word, of pkg/utils. *)
Definition appendToCommand (orig : string) (command : list string) : string :=
  if negb (String.length orig =? 0)%nat then orig +:+ " && " +:+ Join command " && "
  else Join command " && ".

Definition parseEnv `{MapRange} (env : gomap string) : list EnvVar :=
  (fun kv => {| ev_Name := kv.1; ev_Value := kv.2 |}) <$> map_range env.

Definition shell : list string := ["sh"; "-c"].
Definition PullIfNotPresent : string := "IfNotPresent".

Definition sha256_check (checksum file shaFile : string) : list string :=
  ["echo '" +:+ checksum +:+ "  " +:+ file +:+ "' > " +:+ shaFile; "sha256sum -c " +:+ shaFile].

Definition GetBuildContainer `{MapRange} (l : Langruntimes) (runtime depsChecksum : string)
    (env : list EnvVar) (installVolume : VolumeMount) (resources : ResourceRequirements)
  : result Container :=
  runtimeInf ← GetRuntimeInfo l runtime;
  let depsFile := path_Join [vm_MountPath installVolume; ri_DepName runtimeInf] in
  versionInf ← findRuntimeVersion l runtime;
  match findImage PhaseInstallation versionInf with
  | None => Ok zero_container
  | Some imageInf =>
      let shaFile := "/tmp/deps.sha256" in
      let command :=
        if negb (depsChecksum =?s "")
        then appendToCommand "" (sha256_check depsChecksum depsFile shaFile
                                 ++ [img_Command imageInf])
        else appendToCommand "" [img_Command imageInf] in
      let env := env ++ [{| ev_Name := "KUBELESS_INSTALL_VOLUME";
                            ev_Value := vm_MountPath installVolume |};
                         {| ev_Name := "KUBELESS_DEPS_FILE"; ev_Value := depsFile |}]
                     ++ parseEnv (img_Env imageInf) in
      Ok {| c_Name := "install"; c_Image := img_Image imageInf; c_Command := shell;
            c_Args := [command]; c_WorkingDir := vm_MountPath installVolume; c_Ports := [];
            c_Env := env; c_Resources := resources; c_VolumeMounts := [installVolume];
            c_LivenessProbe := None; c_ImagePullPolicy := PullIfNotPresent |}
  end.

(** [dpm.Spec.Template.Spec.Containers[0]] is read: a deployment without
    containers makes the code panic. *)
Definition UpdateDeployment `{MapRange} {S} (l : Langruntimes) (dpm : Deployment)
    (volPath runtime : string) : go S Deployment :=
  match findRuntimeVersion l runtime with
  | Error _ => mret dpm
  | Ok versionInf =>
      c0 ← index (ps_Containers (dpm_podspec dpm)) 0;
      let set c := dpm_set_podspec dpm
        (ps_set_containers (dpm_podspec dpm) (<[0%nat := c]> (ps_Containers (dpm_podspec dpm)))) in
      let c1 := container_add_env c0
        [{| ev_Name := "KUBELESS_INSTALL_VOLUME"; ev_Value := volPath |}] in
      match findImage PhaseRuntime versionInf with
      | None => mret (set c1)
      | Some imageInf => mret (set (container_add_env c1 (parseEnv (img_Env imageInf))))
      end
  end.

(** [None] for the nil pointer of a runtime without compilation phase. *)
Definition GetCompilationContainer `{MapRange} (l : Langruntimes) (runtime funcName : string)
    (env : list EnvVar) (installVolume : VolumeMount) (resources : ResourceRequirements)
  : result (option Container) :=
  versionInf ← findRuntimeVersion l runtime;
  match findImage PhaseCompilation versionInf with
  | None => Ok None
  | Some imageInf =>
      let env := env ++ [{| ev_Name := "KUBELESS_INSTALL_VOLUME";
                            ev_Value := vm_MountPath installVolume |};
                         {| ev_Name := "KUBELESS_FUNC_NAME"; ev_Value := funcName |}]
                     ++ parseEnv (img_Env imageInf) in
      Ok (Some {| c_Name := "compile"; c_Image := img_Image imageInf; c_Command := shell;
            c_Args := [img_Command imageInf]; c_WorkingDir := vm_MountPath installVolume;
            c_Ports := []; c_Env := env; c_Resources := resources;
            c_VolumeMounts := [installVolume]; c_LivenessProbe := None;
            c_ImagePullPolicy := PullIfNotPresent |})
  end.

(** ** Properties *)

(** A configuration as Kubeless ships it: IDs are distinct, not empty and
    made of letters, "_" and "-"; versions are not empty and made of digits
    and dots. *)
Definition wf_version (v : string) : bool := negb (v =?s "") && all_chars version_char v.
Definition wf_id (i : string) : bool := negb (i =?s "") && all_chars id_char i.
Definition wf_runtimes (l : Langruntimes) : bool :=
  bool_decide (NoDup (ri_ID <$> AvailableRuntimes l)) &&
  forallb (fun ri => wf_id (ri_ID ri) &&
                     forallb (fun rv => wf_version (rv_Version rv)) (ri_Versions ri))
    (AvailableRuntimes l).

Section Commands.

(** Commands are chained in order; the first of a chain is not empty. *)
Definition chain (l : list string) : string := Join l " && ".

Lemma appendToCommand_nil l : appendToCommand "" l = chain l.
Proof. done. Qed.

Lemma appendToCommand_chain a l :
  hd "x" a <> "" -> l <> [] -> appendToCommand (chain a) l = chain (a ++ l).
Proof.
  intros Ha Hl. unfold appendToCommand, chain. destruct a as [|x a]; [done|].
  pose proof (Join_nonempty x a " && " Ha) as Hne.
  destruct (Join (x :: a) " && ") as [|c s] eqn:E; [done|].
  rewrite Join_app by done. by rewrite E.
Qed.

End Commands.

Section Lookup.

Lemma version_not_id c : version_char c = true -> id_char c = false.
Proof. destruct c as [[] [] [] [] [] [] [] []]; vm_compute; congruence. Qed.

Lemma id_not_version c : id_char c = true -> version_char c = false.
Proof. destruct c as [[] [] [] [] [] [] [] []]; vm_compute; congruence. Qed.

Lemma wf_version_spec v : wf_version v = true -> v <> "" /\ all_chars version_char v = true.
Proof. unfold wf_version. rewrite andb_true_iff, negb_true_iff, streq_false. done. Qed.

Lemma wf_id_spec i : wf_id i = true -> i <> "" /\ all_chars id_char i = true.
Proof. unfold wf_id. rewrite andb_true_iff, negb_true_iff, streq_false. done. Qed.

Lemma runtime_id_split i v :
  wf_id i = true -> wf_version v = true -> FindString re_id (i +:+ v) = i.
Proof.
  intros [Hi Hic]%wf_id_spec [Hv Hvc]%wf_version_spec.
  apply FindString_leading; [done|done|]. intros c b' ->.
  apply version_not_id. unfold all_chars in Hvc. simpl in Hvc. by apply andb_prop in Hvc as [??].
Qed.

Lemma runtime_version_split i v :
  wf_id i = true -> wf_version v = true -> getVersionFromRuntime (i +:+ v) = v.
Proof.
  intros [Hi Hic]%wf_id_spec [Hv Hvc]%wf_version_spec.
  apply FindString_trailing; [|done|done].
  unfold all_chars in *. rewrite forallb_forall in *. intros c Hc.
  by rewrite (id_not_version c) by auto.
Qed.

Lemma wf_runtimes_spec l :
  wf_runtimes l = true ->
  NoDup (ri_ID <$> AvailableRuntimes l) /\
  (forall ri, ri ∈ AvailableRuntimes l -> wf_id (ri_ID ri) = true /\
     forall rv, rv ∈ ri_Versions ri -> wf_version (rv_Version rv) = true).
Proof.
  unfold wf_runtimes. rewrite andb_true_iff, bool_decide_eq_true, forallb_forall.
  intros [Hnd Hall]. split; [done|]. intros ri Hri. rewrite list_elem_of_In in Hri.
  apply Hall in Hri. rewrite andb_true_iff, forallb_forall in Hri. destruct Hri as [? Hv].
  split; [done|]. intros rv Hrv. rewrite list_elem_of_In in Hrv. auto.
Qed.

Lemma elem_of_GetRuntimes l r :
  r ∈ GetRuntimes l <->
  exists ri rv, ri ∈ AvailableRuntimes l /\ rv ∈ ri_Versions ri /\ r = ri_ID ri +:+ rv_Version rv.
Proof.
  unfold GetRuntimes. rewrite list_elem_of_bind. setoid_rewrite list_elem_of_bind.
  setoid_rewrite list_elem_of_singleton. naive_solver.
Qed.

(** Looking up a listed runtime name finds its entry. *)
Lemma GetRuntimeInfo_listed l ri rv :
  wf_runtimes l = true -> ri ∈ AvailableRuntimes l -> rv ∈ ri_Versions ri ->
  GetRuntimeInfo l (ri_ID ri +:+ rv_Version rv) = Ok ri.
Proof.
  intros [Hnd Hwf]%wf_runtimes_spec Hri Hrv. destruct (Hwf ri Hri) as [Hid Hver].
  unfold GetRuntimeInfo. rewrite runtime_id_split by auto.
  by rewrite find_key_NoDup.
Qed.

(** C28.  With runtimes whose IDs are distinct and made of letters, '_' and '-'
    and whose versions are made of digits and dots, every runtime name the
    command line accepts ([IsValidRuntime]) is one the controller resolves
    ([findRuntimeVersion]), to an entry with the same ID and version. *)
Theorem valid_runtime_resolves l r (Hwf : wf_runtimes l = true) (Hr : IsValidRuntime l r = true) :
  exists ri rv, GetRuntimeInfo l r = Ok ri /\ findRuntimeVersion l r = Ok rv /\
    rv ∈ ri_Versions ri /\ r = ri_ID ri +:+ rv_Version rv.
Proof.
  apply existsb_streq, elem_of_GetRuntimes in Hr as (ri & rv & Hri & Hrv & ->).
  pose proof (GetRuntimeInfo_listed l ri rv Hwf Hri Hrv) as Hinfo.
  apply wf_runtimes_spec in Hwf as [_ Hwf]. destruct (Hwf ri Hri) as [Hid Hver].
  unfold findRuntimeVersion. rewrite Hinfo. cbn.
  rewrite runtime_version_split by auto.
  destruct (find_key_exists rv_Version (ri_Versions ri) rv Hrv) as (rv' & -> & Hin & E).
  exists ri, rv'. by rewrite E.
Qed.

End Lookup.

(** An ID that ends in a digit is accepted and not resolved. *)
Example odd_id_not_resolved :
  let l := {| kubelessConfig := None; AvailableRuntimes :=
    [{| ri_ID := "py3"; ri_Versions :=
          [{| rv_Name := "py37"; rv_Version := "7"; rv_Images := []; rv_ImagePullSecrets := [] |}];
        ri_LivenessProbeInfo := None; ri_DepName := ""; ri_FileNameSuffix := "" |}] |} in
  IsValidRuntime l "py37" = true /\ is_ok (GetRuntimeInfo l "py37") = false.
Proof. split; vm_compute; reflexivity. Qed.

(** ** A concrete configuration, for evaluation *)
Definition python_probe : Probe :=
  {| InitialDelaySeconds := 5; PeriodSeconds := 10;
     probe_Handler := ExecAction ["curl"; "-f"; "http://localhost:8080/healthz"] |}.

Definition python27 : RuntimeVersion :=
  {| rv_Name := "python27"; rv_Version := "2.7";
     rv_Images :=
       [{| img_Phase := "installation"; img_Image := "python:2.7"; img_Command := "foo";
           img_Env := None; img_Secrets := ["my-secret"] |};
        {| img_Phase := "runtime"; img_Image := "bar"; img_Command := "";
           img_Env := Some {[ "PYTHONPATH" := "/kubeless/lib/python2.7/site-packages:/kubeless" ]};
           img_Secrets := [] |}];
     rv_ImagePullSecrets := ["p1"; "p2"] |}.

(** The configuration of [langruntimetestutils.go]. *)
Definition test_runtimes : Langruntimes :=
  {| kubelessConfig := None;
     AvailableRuntimes :=
       [{| ri_ID := "python"; ri_Versions := [python27];
           ri_LivenessProbeInfo := Some python_probe;
           ri_DepName := "requirements.txt"; ri_FileNameSuffix := ".py" |}] |}.

Example valid_runtime_resolves_witness :
  exists ri rv, GetRuntimeInfo test_runtimes "python2.7" = Ok ri /\
    findRuntimeVersion test_runtimes "python2.7" = Ok rv /\
    rv ∈ ri_Versions ri /\ "python2.7" = ri_ID ri +:+ rv_Version rv.
Proof. apply (valid_runtime_resolves test_runtimes "python2.7"); reflexivity. Defined.

(** The converse fails: the controller ignores what stands between the ID and
    the version. *)
Example resolves_but_not_listed :
  findRuntimeVersion test_runtimes "python (beta) 2.7" = Ok python27 /\
  IsValidRuntime test_runtimes "python (beta) 2.7" = false.
Proof. split; reflexivity. Qed.
