(* ===== verification/Memory.v ===== *)
(** * The controller's memory

    [mem] is the memory the controller's functions work on: the [Function]
    objects they hold pointers to, which belong to the informer's store and
    are changed in place, and the runtimes. *)
From S2P Require Import Prelude GoProg KubeTypes World LangRuntime.

(** The function objects reachable through pointers, and the runtimes. *)
Record mem := Mem { m_heap : gmap positive Function_; m_lr : Langruntimes }.



Definition load (p : positive) : go mem Function_ :=
  m ← get;
  match m_heap m !! p with Some f => mret f | None => Panic nil_deref end.

Definition store (p : positive) (f : Function_) : go mem unit :=
  m ← get; put (Mem (<[p := f]> (m_heap m)) (m_lr m)).

Definition get_lr : go mem Langruntimes := m ← get; mret (m_lr m).

Definition put_lr (l : Langruntimes) : go mem unit :=
  m ← get; put (Mem (m_heap m) l).

(** ** Laws *)
Section Laws.
Implicit Types (s : mem) (tr : trace) (p : positive).

Lemma runs_load p s tr Q :
  runs (load p) s tr Q <->
  match m_heap s !! p with
  | Some f => Q s tr (Done f)
  | None => Q s tr (Panicked nil_deref)
  end.
Proof. unfold load. cbn. by destruct (m_heap s !! p). Qed.

Lemma runs_store p f s tr Q :
  runs (store p f) s tr Q <-> Q (Mem (<[p := f]> (m_heap s)) (m_lr s)) tr (Done tt).
Proof. done. Qed.

Section Run.
Context {W : Type} (H : handler resp W).

Lemma run_load p s w :
  run H (load p) s w =
  match m_heap s !! p with
  | Some f => (Done f, s, w)
  | None => (Panicked nil_deref, s, w)
  end.
Proof. unfold load. cbn. by destruct (m_heap s !! p). Qed.

Lemma run_store p f s w :
  run H (store p f) s w = (Done tt, Mem (<[p := f]> (m_heap s)) (m_lr s), w).
Proof. done. Qed.

End Run.

(** Invariants that do not speak of the runtimes. *)
Definition heap_inv (I : mem -> trace -> Prop) : Prop :=
  forall s l tr, I s tr -> I (Mem (m_heap s) l) tr.

Lemma keeps_load I p : keeps I (load p).
Proof. intros s tr HI. apply runs_load. by destruct (m_heap s !! p). Qed.

Lemma keeps_get_lr I : keeps I get_lr.
Proof. by intros s tr HI. Qed.

Lemma keeps_put_lr I l : heap_inv I -> keeps I (put_lr l).
Proof. intros HI s tr Hs. cbn. by apply HI. Qed.

Lemma keeps_store (I : mem -> trace -> Prop) p f :
  (forall s tr, I s tr -> I (Mem (<[p := f]> (m_heap s)) (m_lr s)) tr) -> keeps I (store p f).
Proof. intros HI s tr Hs. cbn. by apply HI. Qed.

Lemma keeps_ReadConfigMap `{YamlRuntimes} I l : keeps I (ReadConfigMap l : go mem _).
Proof. unfold ReadConfigMap. intros s tr HI. destruct (mget _ _); [destruct (yaml_Unmarshal_runtimes _ _)|]; done. Qed.

End Laws.

#[export] Hint Resolve keeps_load keeps_get_lr keeps_put_lr keeps_ReadConfigMap : keeps.
