(* ===== verification/ApiClients.v ===== *)
(** * The API machinery of the Function resource (pkg/client)

    The typed client, which turns calls into REST requests, the lister, which
    reads an informer's store, and the factory that shares informers.  The
    clients, requests and server of client-go are parameters with laws; a store
    is a map of keys to objects, an informer is its number. *)
From Stdlib Require Import SpecFloat.
From S2P Require Import Prelude GoStrings GoProg KubeTypes World LangRuntime Memory.

(** ** The typed client (typed/kubeless/v1beta1/function.go, kubeless_client.go,
    clientset.go) *)
Module Typed.

Inductive method := GET | POST | PUT | DELETE | PATCH (patchType : string).

Record GetOptions := { ResourceVersion : string; IncludeUninitialized : bool }.
Record ListOptions := { LabelSelector : string; FieldSelector : string; Watch : bool }.
Record DeleteOptions := { GracePeriodSeconds : option Z; PropagationPolicy : option string }.

(** [rest.Config], as far as the clients look at it; the rate is a float32.  A
    rate limiter is the bucket that was made for it, or the caller's own. *)
Inductive RateLimiter := TokenBucket (qps : spec_float) (burst : Z) | OwnLimiter.
Record Config := {
  c_Host : string; c_APIPath : string; c_GroupVersion : option (string * string); c_UserAgent : string;
  c_QPS : spec_float; c_Burst : Z; c_RateLimiter : option RateLimiter }.

(** The constructors of client-go: a REST client serves the versioned path of
    its configuration, "an API path, a group and a version". *)
Class RestClients := {
  RESTClient : Type;
  DiscoveryClient : Type;
  DefaultKubernetesUserAgent : string;
  RESTClientFor : Config -> result RESTClient;
  NewDiscoveryClientForConfig : Config -> result DiscoveryClient;
  NewDiscoveryClient : RESTClient -> DiscoveryClient;
  versionedAPIPath : RESTClient -> string;
  versioned_path cfg r g v :
    RESTClientFor cfg = Ok r -> c_GroupVersion cfg = Some (g, v) ->
    versionedAPIPath r = c_APIPath cfg +:+ "/" +:+ g +:+ "/" +:+ v }.

Section Client.
Context `{RestClients}.

(** [v1beta1.SchemeGroupVersion]. *)
Definition SchemeGroupVersion : string * string := ("kubeless.io", "v1beta1").

(** [setConfigDefaults], which cannot fail; the serializer is left out. *)
Definition setConfigDefaults (config : Config) : Config :=
  {| c_Host := c_Host config; c_APIPath := "/apis"; c_GroupVersion := Some SchemeGroupVersion;
     c_UserAgent := if c_UserAgent config =?s "" then DefaultKubernetesUserAgent else c_UserAgent config;
     c_QPS := c_QPS config; c_Burst := c_Burst config; c_RateLimiter := c_RateLimiter config |}.

(** [KubelessV1beta1Client] and its constructor. *)
Record KubelessV1beta1Client := { restClient : RESTClient }.

Definition client_NewForConfig (c : Config) : result KubelessV1beta1Client :=
  match RESTClientFor (setConfigDefaults c) with
  | Error err => Error err
  | Ok client => Ok {| restClient := client |}
  end.

(** [Clientset]: both clients share one rate limiter. *)
Record Clientset := { discoveryClient : DiscoveryClient; kubelessV1beta1 : KubelessV1beta1Client }.

Definition limited (c : Config) : Config :=
  match c_RateLimiter c with
  | None =>
      if SFltb (S754_zero false) (c_QPS c) then
        {| c_Host := c_Host c; c_APIPath := c_APIPath c; c_GroupVersion := c_GroupVersion c;
           c_UserAgent := c_UserAgent c; c_QPS := c_QPS c; c_Burst := c_Burst c;
           c_RateLimiter := Some (TokenBucket (c_QPS c) (c_Burst c)) |}
      else c
  | Some _ => c
  end.

Definition NewForConfig (c : Config) : result Clientset :=
  match client_NewForConfig (limited c) with
  | Error err => Error err
  | Ok k =>
      match NewDiscoveryClientForConfig (limited c) with
      | Error err => Error err
      | Ok d => Ok {| discoveryClient := d; kubelessV1beta1 := k |}
      end
  end.

(** The variants that panic give each client the configuration as it is; those
    for a REST client share it. *)
Definition or_die {A} (r : result A) : outcome A :=
  match r with Ok a => Done a | Error err => Panicked (err_msg err) end.

Definition client_NewForConfigOrDie (c : Config) : outcome KubelessV1beta1Client := or_die (client_NewForConfig c).
Definition client_New (c : RESTClient) : KubelessV1beta1Client := {| restClient := c |}.

Definition NewForConfigOrDie (c : Config) : outcome Clientset :=
  match client_NewForConfigOrDie c with
  | Done k =>
      match or_die (NewDiscoveryClientForConfig c) with
      | Done d => Done {| discoveryClient := d; kubelessV1beta1 := k |}
      | Failed e => Failed e | Panicked m => Panicked m | Exited m => Exited m
      end
  | Failed e => Failed e | Panicked m => Panicked m | Exited m => Exited m
  end.

Definition New (c : RESTClient) : Clientset :=
  {| discoveryClient := NewDiscoveryClient c; kubelessV1beta1 := client_New c |}.

(** The accessors; two of them allow a nil receiver. *)
Definition KubelessV1beta1 (c : Clientset) : KubelessV1beta1Client := kubelessV1beta1 c.
Definition Kubeless (c : Clientset) : KubelessV1beta1Client := kubelessV1beta1 c.
Definition Discovery (c : option Clientset) : option DiscoveryClient := discoveryClient <$> c.
Definition client_RESTClient (c : option KubelessV1beta1Client) : option RESTClient := restClient <$> c.

(** A limiter made from the rate is shared by the clients of [NewForConfig]
    only: [NewForConfigOrDie] leaves it to each client to make its own. *)
Lemma limiter_shared cfg cs :
  NewForConfig cfg = Ok cs -> c_RateLimiter cfg = None -> SFltb (S754_zero false) (c_QPS cfg) = true ->
  exists shared, c_RateLimiter shared = Some (TokenBucket (c_QPS cfg) (c_Burst cfg)) /\
    RESTClientFor (setConfigDefaults shared) = Ok (restClient (KubelessV1beta1 cs)) /\
    NewDiscoveryClientForConfig shared = Ok (discoveryClient cs).
Proof.
  unfold NewForConfig, client_NewForConfig. intros E Hr Hq. exists (limited cfg). split.
  - unfold limited. by rewrite Hr, Hq.
  - destruct (RESTClientFor _); [|done]. destruct (NewDiscoveryClientForConfig _); [|done]. by injection E as <-.
Qed.

Lemma limiter_not_shared cfg cs :
  NewForConfigOrDie cfg = Done cs ->
  RESTClientFor (setConfigDefaults cfg) = Ok (restClient (KubelessV1beta1 cs)) /\
  NewDiscoveryClientForConfig cfg = Ok (discoveryClient cs).
Proof.
  unfold NewForConfigOrDie, client_NewForConfigOrDie, client_NewForConfig.
  destruct (RESTClientFor _); [|done]. simpl. destruct (NewDiscoveryClientForConfig cfg); [|done]. by intros [= <-].
Qed.

End Client.

(** ** Requests of client-go *)

Inductive params := ParamsGet (o : GetOptions) | ParamsList (o : ListOptions).
Inductive body := Object (f : Function_) | Options (o : option DeleteOptions) | Data (data : string).

(** "IsValidPathSegmentName validates the name can be safely encoded as a path
    segment." *)
Definition path_segment (s : string) : bool :=
  negb ((s =?s ".") || (s =?s "..") || Contains s "/" || Contains s "%").

(** "Name sets the name of a resource to access": it may not be empty. *)
Definition resource_name (s : string) : bool := negb (s =?s "") && path_segment s.

(** What a request has been told to ask. *)
Record ask {client : Type} := Ask {
  k_client : client; k_method : method; k_namespace : option string; k_resource : option string;
  k_name : option string; k_sub : list string; k_params : list params; k_body : option body }.
Arguments ask : clear implicits.
Arguments Ask {_}.

Section Ask.
Context {client : Type}.
Abbreviation ask := (ask client).

Definition nothing (c : client) (m : method) : ask := Ask c m None None None [] [] None.
Definition ask_namespace (ns : string) (a : ask) : option ask :=
  match k_namespace a with
  | None => if path_segment ns
      then Some (Ask (k_client a) (k_method a) (Some ns) (k_resource a) (k_name a) (k_sub a) (k_params a) (k_body a))
      else None
  | Some _ => None
  end.
Definition ask_resource (resource : string) (a : ask) : option ask :=
  match k_resource a with
  | None => if path_segment resource
      then Some (Ask (k_client a) (k_method a) (k_namespace a) (Some resource) (k_name a) (k_sub a) (k_params a) (k_body a))
      else None
  | Some _ => None
  end.
Definition ask_name (name : string) (a : ask) : option ask :=
  match k_name a with
  | None => if resource_name name
      then Some (Ask (k_client a) (k_method a) (k_namespace a) (k_resource a) (Some name) (k_sub a) (k_params a) (k_body a))
      else None
  | Some _ => None
  end.
Definition ask_sub (sub : list string) (a : ask) : option ask :=
  match k_sub a with
  | [] => if forallb path_segment sub
      then Some (Ask (k_client a) (k_method a) (k_namespace a) (k_resource a) (k_name a) sub (k_params a) (k_body a))
      else None
  | _ => None
  end.
Definition ask_params (p : params) (a : ask) : option ask :=
  Some (Ask (k_client a) (k_method a) (k_namespace a) (k_resource a) (k_name a) (k_sub a) (k_params a ++ [p]) (k_body a)).
(** No options are no body. *)
Definition ask_body (b : body) (a : ask) : option ask :=
  match b with
  | Options None => Some a
  | _ => Some (Ask (k_client a) (k_method a) (k_namespace a) (k_resource a) (k_name a) (k_sub a) (k_params a) (Some b))
  end.

(** The call of the server, at <versioned path>/[namespaces/<namespace>/]<resource>/<name>/<subresource>. *)
Record http_call := HttpCall {
  h_client : client; h_method : method; h_path : string; h_params : list params; h_body : option body }.

Definition call_of (versioned : client -> string) (a : ask) : http_call :=
  let scope := match k_namespace a with Some ns => if ns =?s "" then [] else ["namespaces"; ns] | None => [] end in
  let some o := match o with Some x => [x] | None => [] end in
  HttpCall (k_client a) (k_method a)
    (versioned (k_client a) +:+ "/" +:+
     Join (scope ++ some (k_resource a) ++ some (k_name a) ++ filter (fun x => x <> "") (k_sub a)) "/")
    (k_params a) (k_body a).

(** What a step of the builder does to what has been asked: the first error
    stays. *)
Definition told (upd : ask -> option ask) (r r' : result ask) : Prop :=
  match r with
  | Error e => r' = Error e
  | Ok a => match upd a with Some a' => r' = Ok a' | None => exists e, r' = Error e end
  end.



End Ask.

(** [rest.Request] as documented: its methods are told one thing each, a request
    that was told something invalid reports the error instead of calling the
    server ("Returns a Result object ... if an error happened earlier while
    building its arguments"), every other calls it once with what it was told.
    The server, its results and their decoding are parameters. *)
Class RestRequests `{RestClients} (W : Type) := {
  Request : Type;
  Result : Type;
  Watcher : Type;
  Verb : RESTClient -> method -> Request;
  Namespace : string -> Request -> Request;
  Resource : string -> Request -> Request;
  Name : string -> Request -> Request;
  SubResource : list string -> Request -> Request;
  VersionedParams : params -> Request -> Request;
  Body : body -> Request -> Request;
  Do : Request -> W -> Result * W;
  WatchRequest : Request -> W -> result Watcher * W;
  ResultError : Result -> option gerror;
  Into : forall {A : Type}, Result -> A -> A * option gerror;
  asked : Request -> result (ask RESTClient);
  serves : http_call (client := RESTClient) -> W -> Result * W;
  watches : http_call (client := RESTClient) -> W -> result Watcher * W;
  Verb_law c m : asked (Verb c m) = Ok (nothing c m);
  Namespace_law ns r : told (ask_namespace ns) (asked r) (asked (Namespace ns r));
  Resource_law s r : told (ask_resource s) (asked r) (asked (Resource s r));
  Name_law n r : told (ask_name n) (asked r) (asked (Name n r));
  SubResource_law l r : told (ask_sub l) (asked r) (asked (SubResource l r));
  VersionedParams_law p r : told (ask_params p) (asked r) (asked (VersionedParams p r));
  Body_law b r : told (ask_body b) (asked r) (asked (Body b r));
  Do_law r w : match asked r with
    | Ok a => Do r w = serves (call_of versionedAPIPath a) w
    | Error e => exists res, Do r w = (res, w) /\ ResultError res = Some e /\ forall A (o : A), Into res o = (o, Some e)
    end;
  Watch_law r w : match asked r with
    | Ok a => WatchRequest r w = watches (call_of versionedAPIPath a) w
    | Error e => WatchRequest r w = (Error e, w)
    end }.


(** ** The methods of the client of a namespace *)
Section Requests.
Context `{RestRequests}.
Abbreviation server_call := (http_call (client := RESTClient)).



(** An object that the client returns, and the error. *)
Abbreviation answered A := (A * option gerror)%type.




















End Requests.
End Typed.

(** A REST client that is its configuration, and requests that are what they
    have been told; the server writes down its calls. *)
Module TypedSample.
Import Typed.

#[local] Program Instance clients : RestClients :=
  {| RESTClient := Config; DiscoveryClient := Config; DefaultKubernetesUserAgent := "kubeless";
     RESTClientFor := Ok; NewDiscoveryClientForConfig := Ok; NewDiscoveryClient cfg := cfg;
     versionedAPIPath cfg := c_APIPath cfg +:+ "/" +:+
       match c_GroupVersion cfg with Some (g, v) => g +:+ "/" +:+ v | None => "" end |}.
Next Obligation. intros cfg r g v [= ->] ->. done. Qed.

Definition invalid : gerror := Errorf "invalid request".
Definition tell (upd : ask Config -> option (ask Config)) (r : result (ask Config)) : result (ask Config) :=
  match r with Ok a => match upd a with Some a' => Ok a' | None => Error invalid end | Error e => Error e end.

Lemma tell_told upd r : told upd r (tell upd r).
Proof. destruct r as [a|]; simpl; [|done]. destruct (upd a); [done|by eexists]. Qed.

Definition log := list (http_call (client := Config)).
Definition write_down (call : http_call) (w : log) : option gerror * log := (None, w ++ [call]).

#[local] Program Instance requests : RestRequests log :=
  {| Request := result (ask Config); Result := option gerror; Watcher := unit;
     Verb c m := Ok (nothing c m); Namespace ns := tell (ask_namespace ns); Resource s := tell (ask_resource s);
     Name n := tell (ask_name n); SubResource l := tell (ask_sub l); VersionedParams p := tell (ask_params p);
     Body b := tell (ask_body b);
     Do r w := match r with Ok a => write_down (call_of versionedAPIPath a) w | Error e => (Some e, w) end;
     WatchRequest r w := match r with Ok a => (Ok tt, w ++ [call_of versionedAPIPath a]) | Error e => (Error e, w) end;
     ResultError r := r; Into _ r o := (o, r); asked r := r; serves := write_down;
     watches call w := (Ok tt, w ++ [call]) |}.
Next Obligation. done. Qed.
Next Obligation. intros. apply tell_told. Qed.
Next Obligation. intros. apply tell_told. Qed.
Next Obligation. intros. apply tell_told. Qed.
Next Obligation. intros. apply tell_told. Qed.
Next Obligation. intros. apply tell_told. Qed.
Next Obligation. intros. apply tell_told. Qed.
Next Obligation. intros [a|e] w; [done|]. by exists (Some e). Qed.
Next Obligation. by intros [a|e] w. Qed.

(** Five requests a second, 1.25 * 2^2. *)
Definition five : spec_float := S754_finite false 10485760 (-21).
Definition config : Config :=
  {| c_Host := "https://cluster"; c_APIPath := ""; c_GroupVersion := None; c_UserAgent := ""; c_QPS := five; c_Burst := 10;
     c_RateLimiter := None |}.


End TypedSample.

(** ** The lister (listers/kubeless/v1beta1/function.go)

    It hands out the pointers of the informer's store, not copies. *)
Module Lister.
Section Lister.
Context `{MapRange}.

(** [cache.Indexer]: keys and objects. *)
Abbreviation indexer := (gmap string positive).

(** [cache.ListAll]: the objects whose labels the selector matches. *)
Definition ListAll (ix : indexer) (keep : Function_ -> bool) : go mem (list positive) :=
  fold_prog (fun ret kv =>
    f ← load kv.2;
    mret (if keep f then ret ++ [kv.2] else ret)) [] (map_range (Some ix)).

Definition lister_List (ix : indexer) (selector : string) : go mem (list positive) :=
  ListAll ix (fun f => selects selector (f_labels f)).

(** [cache.ListAllByNamespace] of the namespace of the lister. *)
Definition NamespaceList (ix : indexer) (namespace selector : string) : go mem (list positive) :=
  if namespace =?s "" then lister_List ix selector
  else ListAll ix (fun f => (f_namespace f =?s namespace) && selects selector (f_labels f)).

Definition lister_Get (ix : indexer) (namespace name : string) : result positive :=
  match ix !! (namespace +:+ "/" +:+ name) with
  | Some p => Ok p
  | None => Error (GError (Some NotFound) ("function.kubeless.io " +:+ name +:+ " not found"))
  end.

(** Every object is stored under its own key. *)
Record keyed (ix : indexer) (s : mem) : Prop := {
  k_stored p k : ix !! k = Some p -> exists f, m_heap s !! p = Some f /\
    k = f_namespace f +:+ "/" +:+ f_name f /\ lacks "/"%char (f_namespace f);
  k_once k k' p : ix !! k = Some p -> ix !! k' = Some p -> k = k' }.

Definition kept (s : mem) (keep : Function_ -> bool) (p : positive) : bool :=
  match m_heap s !! p with Some f => keep f | None => false end.

Lemma runs_list_fold (keep : Function_ -> bool) s tr (l : list (string * positive)) ret :
  (forall k p, (k, p) ∈ l -> exists f, m_heap s !! p = Some f) ->
  runs (fold_prog (fun (ret : list positive) (kv : string * positive) =>
      f ← load kv.2; mret (if keep f then ret ++ [kv.2] else ret)) ret l) s tr
    (fun s' tr' o => s' = s /\ tr' = tr /\
       o = Done (ret ++ filter (fun p : positive => kept s keep p = true) l.*2)).
Proof.
  revert ret. induction l as [|[k p] l IH]; intros ret Hl; simpl.
  { by rewrite filter_nil, app_nil_r. }
  destruct (Hl k p) as [f Hf]; [by left|]. apply runs_bind, runs_bind, runs_load. simpl. rewrite Hf. cbn.
  eapply runs_mono; [|apply IH; intros k' p' Hin; apply (Hl k' p'); by right].
  intros s' tr' o (-> & -> & ->). split_and!; [done..|]. f_equal.
  assert (kept s keep p = keep f) as Hk by (unfold kept; by rewrite Hf). rewrite <- Hk.
  destruct (kept s keep p) eqn:E.
  - rewrite <- app_assoc. by case_decide.
  - by case_decide.
Qed.

Lemma ListAll_runs ix keep s tr :
  keyed ix s ->
  runs (ListAll ix keep) s tr (fun s' tr' o => s' = s /\ tr' = tr /\ exists l, o = Done l /\
    NoDup l /\ forall p, p ∈ l <-> exists k f, ix !! k = Some p /\ m_heap s !! p = Some f /\ keep f = true).
Proof.
  intros [Hk Ho]. pose proof (map_range_perm (Some ix)) as Hperm. simpl in Hperm.
  eapply runs_mono; [|apply runs_list_fold].
  - intros s' tr' o (-> & -> & ->). split_and!; [done..|]. eexists. split; [reflexivity|]. simpl. split.
    + apply NoDup_filter. rewrite Hperm. apply NoDup_fmap_2_strong; [|apply NoDup_map_to_list].
      intros [k p] [k' p'] Hin Hin' E. apply elem_of_map_to_list in Hin, Hin'. simpl in E. subst.
      f_equal. by eapply Ho.
    + intros p. rewrite list_elem_of_filter, Hperm, list_elem_of_fmap. unfold kept. split.
      * intros (Hkeep & [k p'] & -> & Hin%elem_of_map_to_list). simpl in *.
        destruct (m_heap s !! p') as [f|] eqn:E; [|done]. eauto.
      * intros (k & f & Hix & Hf & Hkeep). rewrite Hf. split; [done|]. exists (k, p).
        by rewrite elem_of_map_to_list.
  - intros k p Hin. rewrite Hperm, elem_of_map_to_list in Hin. destruct (Hk p k Hin) as (f & ? & _). by exists f.
Qed.

Lemma slash_inj a b c d :
  lacks "/"%char a -> lacks "/"%char c -> a +:+ "/" +:+ b = c +:+ "/" +:+ d -> a = c /\ b = d.
Proof.
  intros Ha Hc E. pose proof (f_equal (fun s => Split s "/"%char) E) as Hs. cbv beta in Hs.
  change ("/" +:+ b) with (String "/"%char b) in Hs. change ("/" +:+ d) with (String "/"%char d) in Hs.
  rewrite !Split_app_sep, (Split_lacks a), (Split_lacks c) in Hs by done. simpl in Hs. injection Hs as -> _.
  split; [done|]. apply string_app_inj_l in E. by injection E.
Qed.

(** The lister's two ways to an object agree: what a list of a namespace
    contains is exactly what [lister_Get] finds there by name and the selector
    matches, each object once; both give the pointers of the store. *)
Lemma lister_consistent ix namespace selector s tr (Hix : keyed ix s)
    (Hns : namespace <> "") (Hl : lacks "/"%char namespace) :
  runs (NamespaceList ix namespace selector) s tr (fun s' tr' o => s' = s /\ tr' = tr /\
    exists l, o = Done l /\ NoDup l /\
      forall p, p ∈ l <-> exists name f, lister_Get ix namespace name = Ok p /\ m_heap s !! p = Some f /\
        f_name f = name /\ selects selector (f_labels f) = true).
Proof.
  unfold NamespaceList. rewrite (proj2 (streq_false _ _) Hns).
  eapply runs_mono; [|by apply ListAll_runs]. intros s' tr' o (-> & -> & l & -> & Hnd & Hin).
  split_and!; [done..|]. exists l. split_and!; [done|done|]. intros p. rewrite Hin. unfold lister_Get. split.
  - intros (k & f & Hk & Hf & Hkeep). apply andb_true_iff in Hkeep as [Hn%streq_true Hsel].
    destruct (k_stored ix s Hix p k Hk) as (f' & Hf' & -> & _). simplify_eq.
    exists (f_name f), f. rewrite Hk. done.
  - intros (name & f & Hget & Hf & <- & Hsel).
    destruct (ix !! (namespace +:+ "/" +:+ f_name f)) as [p'|] eqn:E; simplify_eq.
    destruct (k_stored ix s Hix p _ E) as (f' & Hf' & Hkey & Hl'). simplify_eq.
    apply slash_inj in Hkey as [-> _]; [|done..]. eexists _, f. split; [exact E|]. split; [done|].
    by rewrite streq_refl, Hsel.
Qed.

End Lister.
End Lister.

(** ** The factory of informers (informers/externalversions/factory.go, generic.go) *)
Module Factory.
Section Factory.
Context `{MapRange}.

(** The informers by type of object, an informer being the number of its
    creation; those that have been started; and every [go informer.Run] so far.
    The lock makes each method one step. *)
Record sharedInformerFactory := {
  namespace : string; informers : gmap string nat; startedInformers : gmap string bool;
  made : nat; running : list nat }.

Definition NewFilteredSharedInformerFactory (namespace : string) : sharedInformerFactory :=
  {| namespace := namespace; informers := ∅; startedInformers := ∅; made := 0; running := [] |}.
Definition NewSharedInformerFactory : sharedInformerFactory := NewFilteredSharedInformerFactory "".

(** [newFunc] makes the next informer. *)
Definition InformerFor (f : sharedInformerFactory) (informerType : string) : nat * sharedInformerFactory :=
  match informers f !! informerType with
  | Some informer => (informer, f)
  | None =>
      (made f, {| namespace := namespace f; informers := <[informerType := made f]> (informers f);
                  startedInformers := startedInformers f; made := S (made f); running := running f |})
  end.

Definition start_one (f : sharedInformerFactory) (kv : string * nat) : sharedInformerFactory :=
  if default false (startedInformers f !! kv.1) then f
  else {| namespace := namespace f; informers := informers f;
          startedInformers := <[kv.1 := true]> (startedInformers f);
          made := made f; running := running f ++ [kv.2] |}.

Definition Start (f : sharedInformerFactory) : sharedInformerFactory :=
  foldl start_one f (map_range (Some (informers f))).

(** The informers waited for, and for each whether its first list arrived
    before the stop channel was closed. *)
Definition WaitForCacheSync (f : sharedInformerFactory) (synced : nat -> bool) : gmap string bool :=
  foldl (fun res kv => if default false (startedInformers f !! kv.1) then <[kv.1 := synced kv.2]> res else res)
    ∅ (map_range (Some (informers f))).

(** [ForResource]: the functions of this version only. *)
Definition ForResource (f : sharedInformerFactory) (group version resource : string) :
    result (nat * sharedInformerFactory) :=
  if (group =?s "kubeless.io") && (version =?s "v1beta1") && (resource =?s "functions")
  then Ok (InformerFor f "*v1beta1.Function")
  else Error (Errorf ("no informer found for " +:+ group +:+ "/" +:+ version +:+ ", Resource=" +:+ resource)).

(** What clients do with a factory. *)
Inductive use := Ask (informerType : string) | Go.

Definition use_factory (f : sharedInformerFactory) (u : use) : sharedInformerFactory :=
  match u with Ask t => snd (InformerFor f t) | Go => Start f end.

Definition is_started (f : sharedInformerFactory) (t : string) : bool := default false (startedInformers f !! t).

(** Informers are distinct, and exactly those of started types run, once. *)
Record factory_inv (f : sharedInformerFactory) : Prop := {
  fi_made t n : informers f !! t = Some n -> (n < made f)%nat;
  fi_distinct t t' n : informers f !! t = Some n -> informers f !! t' = Some n -> t = t';
  fi_once : NoDup (running f);
  fi_running n : n ∈ running f <-> exists t, informers f !! t = Some n /\ is_started f t = true;
  fi_started t : is_started f t = true -> is_Some (informers f !! t) }.

Lemma InformerFor_inv f t : factory_inv f -> factory_inv (snd (InformerFor f t)).
Proof.
  intros [Hm Hd Ho Hr Hs]. unfold InformerFor. destruct (informers f !! t) as [n|] eqn:E; [by split|]. simpl.
  assert (is_started f t = false) as Hnot.
  { destruct (is_started f t) eqn:Es; [|done]. destruct (Hs t Es) as [x Hx]. congruence. }
  split; simpl.
  - intros t' n. rewrite lookup_insert_Some. intros [[<- <-]|[_ Hn]]; [lia|]. specialize (Hm _ _ Hn). lia.
  - intros t1 t2 n. rewrite !lookup_insert_Some. intros [[<- <-]|[Hn1 H1]] [[<- Hn]|[Hn2 H2]]; try done.
    + apply Hm in H2. lia.
    + subst. apply Hm in H1. lia.
    + by eapply Hd.
  - done.
  - intros n. rewrite Hr. split; intros (t' & Hi & Hst); exists t'.
    + rewrite lookup_insert_ne; [done|]. congruence.
    + destruct (decide (t = t')) as [<-|Hne]; [unfold is_started in *; simpl in Hst; congruence|].
      by rewrite lookup_insert_ne in Hi.
  - intros t' Hst. destruct (decide (t = t')) as [<-|Hne]; [rewrite lookup_insert_eq; by eexists|].
    rewrite lookup_insert_ne by done. by apply Hs.
Qed.

Lemma start_one_inv f t n :
  factory_inv f -> informers f !! t = Some n -> let f' := start_one f (t, n) in
  factory_inv f' /\ informers f' = informers f /\ is_started f' t = true /\
  (forall t', is_started f t' = true -> is_started f' t' = true).
Proof.
  intros [Hm Hd Ho Hr Hs] Hi. unfold start_one. cbn [fst snd]. fold (is_started f t).
  destruct (is_started f t) eqn:E; cbv zeta; [by split_and!|].
  assert (forall t', is_started {| namespace := namespace f; informers := informers f;
      startedInformers := <[t := true]> (startedInformers f); made := made f; running := running f ++ [n] |} t' =
    if decide (t = t') then true else is_started f t') as Hst.
  { intros t'. unfold is_started. simpl. case_decide as Ht; [subst; by rewrite lookup_insert_eq|by rewrite lookup_insert_ne]. }
  split_and!; [|done|rewrite Hst; by case_decide|intros t' Ht'; rewrite Hst; by case_decide].
  split; simpl; [done|done| | |].
  - apply NoDup_app. split_and!; [done| |apply NoDup_singleton]. intros x Hx ->%list_elem_of_singleton.
    apply Hr in Hx as (t' & Hi' & Hst'). assert (t' = t) as -> by (by eapply Hd). congruence.
  - intros x. rewrite elem_of_app, Hr, list_elem_of_singleton. split.
    + intros [(t' & Hi' & Hst')| ->]; [exists t'|exists t]; rewrite Hst; by case_decide.
    + intros (t' & Hi' & Hst'). rewrite Hst in Hst'. case_decide; [right; congruence|left; eauto].
  - intros t' Hst'. rewrite Hst in Hst'. case_decide; [subst; by eexists|by apply Hs].
Qed.

Lemma start_all_inv l f :
  (forall t n, (t, n) ∈ l -> informers f !! t = Some n) -> factory_inv f ->
  let f' := foldl start_one f l in
  factory_inv f' /\ informers f' = informers f /\ (forall t n, (t, n) ∈ l -> is_started f' t = true) /\
  (forall t, is_started f t = true -> is_started f' t = true).
Proof.
  revert f. induction l as [|[t n] l IH]; intros f Hl Hf; simpl; [by split_and!; [done|done|intros ?? ?%elem_of_nil|]|].
  destruct (start_one_inv f t n Hf) as (Hf1 & Hi1 & Ht & Hmono); [apply Hl; by left|].
  destruct (IH (start_one f (t, n))) as (Hf' & Hi' & Hall & Hmono'); [|done|].
  { intros t' n' Hin. rewrite Hi1. apply Hl. by right. }
  split_and!; [done|congruence| |auto]. intros t' n' [[= -> ->]|Hin]%elem_of_cons; [by apply Hmono'|by eapply Hall].
Qed.

Lemma Start_inv f : factory_inv f -> factory_inv (Start f) /\ informers (Start f) = informers f /\
  forall t, is_Some (informers f !! t) -> is_started (Start f) t = true.
Proof.
  intros Hf. pose proof (map_range_perm (Some (informers f))) as Hp. simpl in Hp.
  destruct (start_all_inv (map_range (Some (informers f))) f) as (Hf' & Hi & Hall & _); [|done|].
  { intros t n. by rewrite Hp, elem_of_map_to_list. }
  split_and!; [done|done|]. intros t [n Hn]. apply (Hall t n). by rewrite Hp, elem_of_map_to_list.
Qed.

Lemma uses_inv l f : factory_inv f -> factory_inv (foldl use_factory f l) /\
  forall t n, informers f !! t = Some n -> informers (foldl use_factory f l) !! t = Some n.
Proof.
  revert f. induction l as [|u l IH]; intros f Hf; simpl; [done|].
  assert (factory_inv (use_factory f u) /\
    forall t n, informers f !! t = Some n -> informers (use_factory f u) !! t = Some n) as [Hu Hk].
  { destruct u as [t|]; simpl.
    - split; [by apply InformerFor_inv|]. intros t' n Hn. unfold InformerFor.
      destruct (informers f !! t) eqn:E; simpl; [done|]. rewrite lookup_insert_ne; [done|]. congruence.
    - destruct (Start_inv f Hf) as (? & -> & _). done. }
  destruct (IH _ Hu) as [Hf' Hk']. split; [done|]. eauto.
Qed.

Lemma new_factory_inv ns : factory_inv (NewFilteredSharedInformerFactory ns).
Proof.
  split; simpl.
  - intros t n. by rewrite lookup_empty.
  - intros t t' n. by rewrite lookup_empty.
  - constructor.
  - intros n. rewrite elem_of_nil. split; [done|]. by intros (x & Hx & _).
  - intros x. unfold is_started. simpl. by rewrite lookup_empty.
Qed.

(** A loop that assigns distinct keys. *)
Lemma assign_all (g : nat -> bool) t (l : list (string * nat)) (res : gmap string bool) :
  NoDup l.*1 ->
  foldl (fun res (kv : string * nat) => <[kv.1 := g kv.2]> res) res l !! t =
  match list_to_map (M := gmap string nat) l !! t with Some n => Some (g n) | None => res !! t end.
Proof.
  revert res. induction l as [|[k n] l IH]; intros res Hnd; simpl; [by rewrite lookup_empty|].
  apply NoDup_cons in Hnd as [Hk Hnd]. rewrite IH by done. simpl.
  destruct (decide (k = t)) as [->|Hne].
  - rewrite lookup_insert_eq, (not_elem_of_list_to_map_1 _ _ Hk). by rewrite lookup_insert_eq.
  - by rewrite !lookup_insert_ne.
Qed.

Lemma WaitForCacheSync_all f synced :
  (forall t, is_Some (informers f !! t) -> is_started f t = true) ->
  WaitForCacheSync f synced = synced <$> informers f.
Proof.
  intros Hall. unfold WaitForCacheSync. pose proof (map_range_perm (Some (informers f))) as Hp. simpl in Hp.
  assert (forall (l : list (string * nat)) res, (forall kv, kv ∈ l -> is_Some (informers f !! kv.1)) ->
    foldl (fun (res : gmap string bool) (kv : string * nat) =>
      if default false (startedInformers f !! kv.1) then <[kv.1 := synced kv.2]> res else res) res l = foldl (fun res (kv : string * nat) => <[kv.1 := synced kv.2]> res) res l) as Hfold.
  { induction l as [|kv l IH]; intros res Hl; simpl; [done|].
    assert (default false (startedInformers f !! kv.1) = true) as -> by (apply Hall, Hl; by left).
    apply IH. intros kv' Hin. apply Hl. by right. }
  rewrite Hfold; [|intros [t n]; rewrite Hp, elem_of_map_to_list; simpl; intros ->; by eexists].
  apply map_eq. intros t. rewrite lookup_fmap.
  assert (NoDup (map_range (Some (informers f))).*1) as Hnd by (rewrite Hp; apply NoDup_fst_map_to_list).
  rewrite assign_all, (list_to_map_proper _ (map_to_list (informers f))) by done.
  rewrite list_to_map_to_list, lookup_empty. by destruct (informers f !! t).
Qed.

(** C32. Informers are shared: however often and in whatever order clients ask
    a factory for informers and start it, a type has one informer for ever, no
    informer is run twice, and after a [Start] every informer asked for so far
    runs and is waited for. *)
Theorem informers_shared ns (l l' : list use) (t : string) (synced : nat -> bool) :
  let f := foldl use_factory (NewFilteredSharedInformerFactory ns) l in
  let f' := foldl use_factory (snd (InformerFor f t)) l' in
  fst (InformerFor f' t) = fst (InformerFor f t) /\ NoDup (running f') /\
  (forall t' n, informers f' !! t' = Some n -> n ∈ running (Start f')) /\
  NoDup (running (Start f')) /\
  WaitForCacheSync (Start f') synced = synced <$> informers f'.
Proof.
  intros f f'. assert (factory_inv f) as Hf by apply uses_inv, new_factory_inv.
  destruct (uses_inv l' _ (InformerFor_inv f t Hf)) as [Hf' Hk].
  destruct (Start_inv f' Hf') as ([_ _ Hnd Hrun _] & Hsi & Hall). split_and!.
  - unfold InformerFor at 1. fold f' in Hk. assert (informers (snd (InformerFor f t)) !! t = Some (fst (InformerFor f t))) as Ht.
    { unfold InformerFor. destruct (informers f !! t) eqn:E; simpl; [done|]. apply lookup_insert_eq. }
    by rewrite (Hk _ _ Ht).
  - apply Hf'.
  - intros t' n Hn. apply Hrun. exists t'. rewrite Hsi. split; [done|]. apply Hall. by eexists.
  - done.
  - rewrite WaitForCacheSync_all, Hsi; [done|]. intros t' Ht'. apply Hall. by rewrite <- Hsi.
Qed.

End Factory.
End Factory.
