(* ===== verification/Copies.v ===== *)
(** * Deep copies of Functions (apis/kubeless/v1beta1/zz_generated.deepcopy.go)

    The copies as they work on memory: Functions, FunctionSpecs, FunctionLists
    and the arrays of their items at addresses, and what the structs of
    Kubernetes refer to -- the maps, slices and pointers inside a Deployment --
    in cells of a type that is a parameter, as are those structs and their own
    DeepCopyInto. *)
From S2P Require Import Prelude GoProg World.
From S2P Require KubeTypes.
Import KubeTypes(TypeMeta, Build_TypeMeta, tm_Kind, tm_APIVersion).

(** ** Structs of Kubernetes

    [reach h a] are the cells that [a] refers to, directly or through other
    cells; [value h a] is what one sees by following it.  "DeepCopyInto is a
    deepcopy function, copying the receiver, writing into out": the result has
    the same value and refers to new cells only; the cells there were are left
    alone. *)
Class Copied (cell A : Type) := {
  Value : Type;
  reach : gmap positive cell -> A -> gset positive;
  value : gmap positive cell -> A -> Value;
  copy : gmap positive cell -> A -> A * gmap positive cell;
  value_frame h h' a : (forall p, p ∈ reach h a -> h' !! p = h !! p) -> reach h' a = reach h a /\ value h' a = value h a;
  copy_grows h a : h ⊆ snd (copy h a);
  copy_value h a : reach h a ⊆ dom h -> value (snd (copy h a)) (fst (copy h a)) = value h a;
  copy_fresh h a p : reach h a ⊆ dom h -> p ∈ reach (snd (copy h a)) (fst (copy h a)) ->
    p ∈ dom (snd (copy h a)) /\ p ∉ dom h }.
Arguments Value _ {_ _}.

Class KubernetesStructs := {
  cell : Type; ObjectMeta : Type; Deployment : Type; ServiceSpec : Type; HorizontalPodAutoscaler : Type;
  #[global] meta_copied :: Copied cell ObjectMeta;
  #[global] deployment_copied :: Copied cell Deployment;
  #[global] service_copied :: Copied cell ServiceSpec;
  #[global] hpa_copied :: Copied cell HorizontalPodAutoscaler;
  zero_meta : ObjectMeta; zero_deployment : Deployment; zero_service : ServiceSpec; zero_hpa : HorizontalPodAutoscaler;
  (** Strings only. *)
  ListMeta : Type; zero_list_meta : ListMeta }.

Section Copies.
Context `{KubernetesStructs}.

(** ** The types (function.go) *)

Record FunctionSpec := {
  s_Handler : string; s_Function : string; s_FunctionContentType : string; s_Checksum : string;
  s_Runtime : string; s_Timeout : string; s_Deps : string;
  s_Deployment : Deployment; s_ServiceSpec : ServiceSpec; s_HorizontalPodAutoscaler : HorizontalPodAutoscaler }.
Record Function_ := { f_Type : TypeMeta; f_Meta : ObjectMeta; f_Spec : FunctionSpec }.
(** [Items] is nil or the array of the slice. *)
Record FunctionList := { l_Type : TypeMeta; l_Meta : ListMeta; l_Items : option positive }.

Record mem := Mem {
  functions : gmap positive Function_; specs : gmap positive FunctionSpec; lists : gmap positive FunctionList;
  arrays : gmap positive (list (option positive)); cells : gmap positive cell }.

Definition zero_spec : FunctionSpec :=
  {| s_Handler := ""; s_Function := ""; s_FunctionContentType := ""; s_Checksum := ""; s_Runtime := ""; s_Timeout := "";
     s_Deps := ""; s_Deployment := zero_deployment; s_ServiceSpec := zero_service; s_HorizontalPodAutoscaler := zero_hpa |}.
Definition zero_type : TypeMeta := {| tm_Kind := ""; tm_APIVersion := "" |}.
Definition zero_function : Function_ := {| f_Type := zero_type; f_Meta := zero_meta; f_Spec := zero_spec |}.
Definition zero_list : FunctionList := {| l_Type := zero_type; l_Meta := zero_list_meta; l_Items := None |}.

(** ** Memory *)

Definition load {T} (sel : mem -> gmap positive T) (p : positive) : go mem T :=
  m ← get;
  match sel m !! p with Some x => mret x | None => Panic nil_deref end.

Definition store_function (p : positive) (f : Function_) : go mem unit :=
  m ← get; put (Mem (<[p := f]> (functions m)) (specs m) (lists m) (arrays m) (cells m)).
Definition store_alone (p : positive) (s : FunctionSpec) : go mem unit :=
  m ← get; put (Mem (functions m) (<[p := s]> (specs m)) (lists m) (arrays m) (cells m)).
Definition store_list (p : positive) (l : FunctionList) : go mem unit :=
  m ← get; put (Mem (functions m) (specs m) (<[p := l]> (lists m)) (arrays m) (cells m)).
Definition store_array (p : positive) (a : list (option positive)) : go mem unit :=
  m ← get; put (Mem (functions m) (specs m) (lists m) (<[p := a]> (arrays m)) (cells m)).

(** An address for a new object, [new] and [make]. *)
Definition fresh_in {T} (sel : mem -> gmap positive T) : go mem positive :=
  m ← get; mret (base.fresh (dom (sel m))).
Definition new_function : go mem positive := p ← fresh_in functions; store_function p zero_function;; mret p.
Definition new_spec : go mem positive := p ← fresh_in specs; store_alone p zero_spec;; mret p.
Definition new_list : go mem positive := p ← fresh_in lists; store_list p zero_list;; mret p.
Definition make_array (n : nat) : go mem positive :=
  p ← fresh_in arrays; store_array p (replicate n None);; mret p.

(** [in.X.DeepCopyInto(&out.X)] of a struct of Kubernetes: what is written into
    [out.X]. *)
Definition copying {A} `{Copied cell A} (a : A) : go mem A :=
  m ← get;
  put (Mem (functions m) (specs m) (lists m) (arrays m) (snd (copy (cells m) a)));;
  mret (fst (copy (cells m) a)).

(** ** The copies *)

(** A pointer to a FunctionSpec: to the field of a Function, or to one of its
    own. *)
Inductive spec_at := InFunction (p : positive) | Alone (p : positive).

Definition load_spec (a : spec_at) : go mem FunctionSpec :=
  match a with
  | InFunction p => f ← load functions p; mret (f_Spec f)
  | Alone p => load specs p
  end.
Definition store_spec (a : spec_at) (s : FunctionSpec) : go mem unit :=
  match a with
  | InFunction p => f ← load functions p; store_function p {| f_Type := f_Type f; f_Meta := f_Meta f; f_Spec := s |}
  | Alone p => store_alone p s
  end.

Definition s_set_Deployment (s : FunctionSpec) (d : Deployment) : FunctionSpec :=
  {| s_Handler := s_Handler s; s_Function := s_Function s; s_FunctionContentType := s_FunctionContentType s;
     s_Checksum := s_Checksum s; s_Runtime := s_Runtime s; s_Timeout := s_Timeout s; s_Deps := s_Deps s;
     s_Deployment := d; s_ServiceSpec := s_ServiceSpec s; s_HorizontalPodAutoscaler := s_HorizontalPodAutoscaler s |}.
Definition s_set_ServiceSpec (s : FunctionSpec) (v : ServiceSpec) : FunctionSpec :=
  {| s_Handler := s_Handler s; s_Function := s_Function s; s_FunctionContentType := s_FunctionContentType s;
     s_Checksum := s_Checksum s; s_Runtime := s_Runtime s; s_Timeout := s_Timeout s; s_Deps := s_Deps s;
     s_Deployment := s_Deployment s; s_ServiceSpec := v; s_HorizontalPodAutoscaler := s_HorizontalPodAutoscaler s |}.
Definition s_set_HPA (s : FunctionSpec) (h : HorizontalPodAutoscaler) : FunctionSpec :=
  {| s_Handler := s_Handler s; s_Function := s_Function s; s_FunctionContentType := s_FunctionContentType s;
     s_Checksum := s_Checksum s; s_Runtime := s_Runtime s; s_Timeout := s_Timeout s; s_Deps := s_Deps s;
     s_Deployment := s_Deployment s; s_ServiceSpec := s_ServiceSpec s; s_HorizontalPodAutoscaler := h |}.

Definition FunctionSpec_DeepCopyInto (in_ out : spec_at) : go mem unit :=
  s ← load_spec in_; store_spec out s;;
  s ← load_spec in_; d ← copying (s_Deployment s); o ← load_spec out; store_spec out (s_set_Deployment o d);;
  s ← load_spec in_; v ← copying (s_ServiceSpec s); o ← load_spec out; store_spec out (s_set_ServiceSpec o v);;
  s ← load_spec in_; h ← copying (s_HorizontalPodAutoscaler s); o ← load_spec out; store_spec out (s_set_HPA o h).

Definition FunctionSpec_DeepCopy (in_ : option positive) : go mem (option positive) :=
  match in_ with
  | None => mret None
  | Some in_ => out ← new_spec; FunctionSpec_DeepCopyInto (Alone in_) (Alone out);; mret (Some out)
  end.

Definition Function_DeepCopyInto (in_ out : positive) : go mem unit :=
  f ← load functions in_; store_function out f;;
  f ← load functions in_; o ← load functions out;
  store_function out {| f_Type := f_Type f; f_Meta := f_Meta o; f_Spec := f_Spec o |};;
  f ← load functions in_; m ← copying (f_Meta f); o ← load functions out;
  store_function out {| f_Type := f_Type o; f_Meta := m; f_Spec := f_Spec o |};;
  FunctionSpec_DeepCopyInto (InFunction in_) (InFunction out).

Definition Function_DeepCopy (in_ : option positive) : go mem (option positive) :=
  match in_ with
  | None => mret None
  | Some in_ => out ← new_function; Function_DeepCopyInto in_ out;; mret (Some out)
  end.

(** An assignment to the item at [i]. *)
Definition set_item (a : positive) (i : nat) (x : option positive) : go mem unit :=
  items ← load arrays a;
  if bool_decide (i < length items)%nat then store_array a (<[i := x]> items) else Panic "runtime error: index out of range".

Definition copy_item (in_ out : positive) (i : nat) : go mem unit :=
  items ← load arrays in_;
  x ← index items i;
  match x with
  | None => set_item out i None
  | Some p => q ← new_function; set_item out i (Some q);; Function_DeepCopyInto p q
  end.

Definition FunctionList_DeepCopyInto (in_ out : positive) : go mem unit :=
  l ← load lists in_; store_list out l;;
  l ← load lists in_; o ← load lists out;
  store_list out {| l_Type := l_Type l; l_Meta := l_Meta o; l_Items := l_Items o |};;
  l ← load lists in_; o ← load lists out;
  store_list out {| l_Type := l_Type o; l_Meta := l_Meta l; l_Items := l_Items o |};;
  match l_Items l with
  | None => mret tt
  | Some a =>
      items ← load arrays a;
      a' ← make_array (length items);
      o ← load lists out;
      store_list out {| l_Type := l_Type o; l_Meta := l_Meta o; l_Items := Some a' |};;
      for_each (seq 0 (length items)) (copy_item a a')
  end.

Definition FunctionList_DeepCopy (in_ : option positive) : go mem (option positive) :=
  match in_ with
  | None => mret None
  | Some in_ => out ← new_list; FunctionList_DeepCopyInto in_ out;; mret (Some out)
  end.

(** [DeepCopyObject] of both: the object of an interface, nil for a nil copy. *)
Inductive runtime_object := OFunction (p : positive) | OFunctionList (p : positive).
Definition Function_DeepCopyObject (in_ : option positive) : go mem (option runtime_object) :=
  c ← Function_DeepCopy in_; mret (match c with Some p => Some (OFunction p) | None => None end).
Definition FunctionList_DeepCopyObject (in_ : option positive) : go mem (option runtime_object) :=
  c ← FunctionList_DeepCopy in_; mret (match c with Some p => Some (OFunctionList p) | None => None end).

(** ** What a copy is *)

Abbreviation heap := (gmap positive cell).

(** Two structs in one; specs and Functions are made up like that. *)
Definition pair_reach {A B} (r1 : heap -> A -> gset positive) (r2 : heap -> B -> gset positive) (h : heap) (x : A * B) :
    gset positive := r1 h x.1 ∪ r2 h x.2.
Definition pair_value {A B V1 V2} (v1 : heap -> A -> V1) (v2 : heap -> B -> V2) (h : heap) (x : A * B) : V1 * V2 :=
  (v1 h x.1, v2 h x.2).

Definition spec_parts (s : FunctionSpec) := (s_Deployment s, (s_ServiceSpec s, s_HorizontalPodAutoscaler s)).
Definition spec_reach (h : heap) (s : FunctionSpec) : gset positive :=
  pair_reach reach (pair_reach reach reach) h (spec_parts s).
Definition spec_value (h : heap) (s : FunctionSpec) :=
  ([s_Handler s; s_Function s; s_FunctionContentType s; s_Checksum s; s_Runtime s; s_Timeout s; s_Deps s],
   pair_value value (pair_value value value) h (spec_parts s)).
Definition function_reach (h : heap) (f : Function_) : gset positive :=
  pair_reach reach spec_reach h (f_Meta f, f_Spec f).
Definition function_value (h : heap) (f : Function_) :=
  (f_Type f, pair_value value spec_value h (f_Meta f, f_Spec f)).

(** What is seen through a pointer to a list: its types and items, nil or the
    values of its Functions. *)
Definition item_value (m : mem) (i : option positive) :=
  match i with
  | Some p => f ← functions m !! p; Some (Some (function_value (cells m) f))
  | None => Some None
  end.
Definition list_value (m : mem) (p : positive) :=
  l ← lists m !! p;
  match l_Items l with
  | None => Some (l_Type l, l_Meta l, None)
  | Some a => items ← arrays m !! a; vs ← mapM (item_value m) items; Some (l_Type l, l_Meta l, Some vs)
  end.

(** The memory a list stands on: nothing dangles. *)
Definition live_item (m : mem) (i : option positive) : Prop :=
  match i with
  | Some p => exists f, functions m !! p = Some f /\ function_reach (cells m) f ⊆ dom (cells m)
  | None => True
  end.
Definition live_list (m : mem) (p : positive) : Prop :=
  exists l, lists m !! p = Some l /\
    match l_Items l with
    | None => True
    | Some a => exists items, arrays m !! a = Some items /\ Forall (live_item m) items
    end.

(** [m'] has everything [m] has, as it was. *)
Record preserves (m m' : mem) : Prop := {
  ps_functions : functions m ⊆ functions m'; ps_specs : specs m ⊆ specs m'; ps_lists : lists m ⊆ lists m';
  ps_arrays : arrays m ⊆ arrays m'; ps_cells : cells m ⊆ cells m' }.

(** A struct, at [h], and its copy, at [h']. *)
Record struct_copied {A V} (r : heap -> A -> gset positive) (v : heap -> A -> V) (h h' : heap) (a a' : A) : Prop := {
  sc_grows : h ⊆ h';
  sc_value : v h' a' = v h a;
  sc_inside : r h' a' ⊆ dom h';
  sc_fresh : r h' a' ## dom h }.

Definition framed {A V} (r : heap -> A -> gset positive) (v : heap -> A -> V) : Prop :=
  forall h h' a, (forall p, p ∈ r h a -> h' !! p = h !! p) -> r h' a = r h a /\ v h' a = v h a.

Lemma framed_copied {A} `{!Copied cell A} : framed (A := A) reach value.
Proof. intros h h' a. apply value_frame. Qed.

Lemma framed_pair {A B V1 V2} (r1 : heap -> A -> gset positive) (v1 : heap -> A -> V1) (r2 : heap -> B -> gset positive)
    (v2 : heap -> B -> V2) :
  framed r1 v1 -> framed r2 v2 -> framed (pair_reach r1 r2) (pair_value v1 v2).
Proof.
  intros H1 H2 h h' [a b] Hag. unfold pair_reach, pair_value in *. simpl in *.
  destruct (H1 h h' a) as [-> ->]; [set_solver|]. destruct (H2 h h' b) as [-> ->]; [set_solver|]. done.
Qed.

Lemma framed_spec : framed spec_reach spec_value.
Proof.
  intros h h' s Hag. unfold spec_reach, spec_value in *.
  destruct (framed_pair _ _ _ _ framed_copied (framed_pair _ _ _ _ framed_copied framed_copied) h h' (spec_parts s)) as [-> ->];
    done.
Qed.

Lemma framed_function : framed function_reach function_value.
Proof.
  intros h h' f Hag. unfold function_reach, function_value in *.
  destruct (framed_pair _ _ _ _ framed_copied framed_spec h h' (f_Meta f, f_Spec f)) as [-> ->]; done.
Qed.

(** What does not dangle is the same in a larger heap. *)
Lemma framed_grows {A V} (r : heap -> A -> gset positive) (v : heap -> A -> V) h h' a :
  framed r v -> h ⊆ h' -> r h a ⊆ dom h -> r h' a = r h a /\ v h' a = v h a.
Proof.
  intros Hf Hsub Hin. apply Hf. intros p Hp. apply Hin, elem_of_dom in Hp as [x Hx]. rewrite Hx.
  by eapply lookup_weaken.
Qed.

Lemma copied_struct {A} `{!Copied cell A} h (a : A) :
  reach h a ⊆ dom h -> struct_copied reach value h (snd (copy h a)) a (fst (copy h a)).
Proof.
  intros Hin. split; [apply copy_grows|by apply copy_value| |].
  - intros p Hp. by apply (copy_fresh h a p).
  - intros p Hp. by apply (copy_fresh h a p).
Qed.

(** Copies made one after the other are a copy of both, *)
Lemma copied_pair {A B V1 V2} (r1 : heap -> A -> gset positive) (v1 : heap -> A -> V1) (r2 : heap -> B -> gset positive)
    (v2 : heap -> B -> V2) h h1 h2 a a' b b' :
  framed r1 v1 -> framed r2 v2 ->
  struct_copied r1 v1 h h1 a a' -> struct_copied r2 v2 h1 h2 b b' -> r2 h b ⊆ dom h ->
  struct_copied (pair_reach r1 r2) (pair_value v1 v2) h h2 (a, b) (a', b').
Proof.
  intros H1 H2 [G1 V1' I1 F1] [G2 V2' I2 F2] Hb. pose proof (subseteq_dom _ _ G1). pose proof (subseteq_dom _ _ G2).
  destruct (framed_grows r1 v1 h1 h2 a' H1 G2 I1) as [Er Ev]. destruct (framed_grows r2 v2 h h1 b H2 G1 Hb) as [Er' Ev'].
  split; unfold pair_reach, pair_value; simpl.
  - by etrans.
  - congruence.
  - rewrite Er. set_solver.
  - rewrite Er. set_solver.
Qed.

(** and a copy stays one while the memory grows. *)
Lemma copied_later {A V} (r : heap -> A -> gset positive) (v : heap -> A -> V) h0 h h' h'' a a' :
  framed r v -> h0 ⊆ h -> r h0 a ⊆ dom h0 -> h' ⊆ h'' -> struct_copied r v h h' a a' -> struct_copied r v h0 h'' a a'.
Proof.
  intros Hf H0 Ha H1 [G E I F]. destruct (framed_grows r v h' h'' a' Hf H1 I) as [Er Ev].
  destruct (framed_grows r v h0 h a Hf H0 Ha) as [Er' Ev'].
  pose proof (subseteq_dom _ _ H0). pose proof (subseteq_dom _ _ H1).
  split; [by etrans; [|etrans]|congruence|rewrite Er; set_solver|rewrite Er; set_solver].
Qed.

(** ** What the copies compute *)

Definition copied_spec (h : heap) (s : FunctionSpec) : FunctionSpec * heap :=
  let (d, h1) := copy h (s_Deployment s) in
  let (v, h2) := copy h1 (s_ServiceSpec s) in
  let (a, h3) := copy h2 (s_HorizontalPodAutoscaler s) in
  (s_set_HPA (s_set_ServiceSpec (s_set_Deployment s d) v) a, h3).
Definition copied_function (h : heap) (f : Function_) : Function_ * heap :=
  let (m, h1) := copy h (f_Meta f) in
  let (s, h2) := copied_spec h1 (f_Spec f) in
  ({| f_Type := f_Type f; f_Meta := m; f_Spec := s |}, h2).

Lemma copied_spec_ok h s : spec_reach h s ⊆ dom h ->
  struct_copied spec_reach spec_value h (snd (copied_spec h s)) s (fst (copied_spec h s)).
Proof.
  unfold spec_reach, pair_reach. simpl. intros Hin. unfold copied_spec.
  pose proof (copied_struct h (s_Deployment s) ltac:(set_solver)) as Hd.
  destruct (copy h (s_Deployment s)) as [d h1]. simpl in Hd.
  pose proof (subseteq_dom _ _ (sc_grows _ _ _ _ _ _ Hd)) as Hg1.
  destruct (framed_grows reach value h h1 (s_ServiceSpec s) framed_copied (sc_grows _ _ _ _ _ _ Hd)) as [Er1 _]; [set_solver|].
  destruct (framed_grows reach value h h1 (s_HorizontalPodAutoscaler s) framed_copied (sc_grows _ _ _ _ _ _ Hd))
    as [Er2 _]; [set_solver|].
  pose proof (copied_struct h1 (s_ServiceSpec s) ltac:(set_solver)) as Hv.
  destruct (copy h1 (s_ServiceSpec s)) as [v h2]. simpl in Hv.
  pose proof (subseteq_dom _ _ (sc_grows _ _ _ _ _ _ Hv)) as Hg2.
  destruct (framed_grows reach value h1 h2 (s_HorizontalPodAutoscaler s) framed_copied (sc_grows _ _ _ _ _ _ Hv))
    as [Er3 _]; [set_solver|].
  pose proof (copied_struct h2 (s_HorizontalPodAutoscaler s) ltac:(set_solver)) as Ha.
  destruct (copy h2 (s_HorizontalPodAutoscaler s)) as [a h3]. simpl in *.
  pose proof (copied_pair _ _ _ _ _ _ _ _ _ _ _ framed_copied framed_copied Hv Ha ltac:(set_solver)) as Hva.
  pose proof (copied_pair _ _ _ _ _ _ _ _ _ _ _ framed_copied (framed_pair _ _ _ _ framed_copied framed_copied)
    Hd Hva ltac:(unfold pair_reach; set_solver)) as [G E I F].
  split; [done| |done|done]. unfold spec_value. by f_equal.
Qed.

Lemma copied_function_ok h f : function_reach h f ⊆ dom h ->
  struct_copied function_reach function_value h (snd (copied_function h f)) f (fst (copied_function h f)).
Proof.
  unfold function_reach, pair_reach. simpl. intros Hin. unfold copied_function.
  pose proof (copied_struct h (f_Meta f) ltac:(set_solver)) as Hm.
  destruct (copy h (f_Meta f)) as [m h1]. simpl in Hm.
  pose proof (subseteq_dom _ _ (sc_grows _ _ _ _ _ _ Hm)) as Hg.
  destruct (framed_grows spec_reach spec_value h h1 (f_Spec f) framed_spec (sc_grows _ _ _ _ _ _ Hm)) as [Er _]; [set_solver|].
  pose proof (copied_spec_ok h1 (f_Spec f) ltac:(set_solver)) as Hs.
  destruct (copied_spec h1 (f_Spec f)) as [s h2]. simpl in *.
  pose proof (copied_pair _ _ _ _ _ _ _ _ _ _ _ framed_copied framed_spec Hm Hs ltac:(set_solver)) as [G E I F].
  split; [done| |done|done]. unfold function_value. simpl. by f_equal.
Qed.

Implicit Types (m s : mem) (tr : trace).

(** Running the copies: lookups of what has just been stored. *)
Ltac at_memory :=
  repeat (cbn; rewrite ?lookup_insert_eq; repeat match goal with
    | Hl : ?m !! ?p = Some _ |- context [?m !! ?p] => rewrite Hl
    | Hne : ?p <> ?q |- context [<[?q := _]> _ !! ?p] => rewrite (lookup_insert_ne _ q p) by (exact (not_eq_sym Hne))
    end); rewrite ?insert_insert_eq.

Lemma FunctionSpec_DeepCopyInto_runs p q f o s tr Q :
  functions s !! p = Some f -> functions s !! q = Some o -> p <> q ->
  Q (Mem (<[q := {| f_Type := f_Type o; f_Meta := f_Meta o; f_Spec := fst (copied_spec (cells s) (f_Spec f)) |}]> (functions s))
      (specs s) (lists s) (arrays s) (snd (copied_spec (cells s) (f_Spec f)))) tr (Done tt) ->
  runs (FunctionSpec_DeepCopyInto (InFunction p) (InFunction q)) s tr Q.
Proof.
  intros Hp Hq Hne. unfold copied_spec.
  destruct (copy (cells s) (s_Deployment (f_Spec f))) as [d h1] eqn:E1.
  destruct (copy h1 (s_ServiceSpec (f_Spec f))) as [v h2] eqn:E2.
  destruct (copy h2 (s_HorizontalPodAutoscaler (f_Spec f))) as [a h3] eqn:E3. simpl. intros HQ.
  unfold FunctionSpec_DeepCopyInto, load_spec, store_spec, load, store_function, copying.
  at_memory. rewrite E1. at_memory. rewrite E2. at_memory. rewrite E3. at_memory. exact HQ.
Qed.

#[local] Arguments FunctionSpec_DeepCopyInto : simpl never.
#[local] Arguments Function_DeepCopyInto : simpl never.

Lemma Function_DeepCopyInto_runs p q f o s tr Q :
  functions s !! p = Some f -> functions s !! q = Some o -> p <> q ->
  Q (Mem (<[q := fst (copied_function (cells s) f)]> (functions s)) (specs s) (lists s) (arrays s)
      (snd (copied_function (cells s) f))) tr (Done tt) ->
  runs (Function_DeepCopyInto p q) s tr Q.
Proof.
  intros Hp Hq Hne. unfold copied_function. destruct (copy (cells s) (f_Meta f)) as [m h1] eqn:E1.
  intros HQ. unfold Function_DeepCopyInto, load, store_function, copying. at_memory. rewrite E1. at_memory.
  eapply FunctionSpec_DeepCopyInto_runs; [|apply lookup_insert_eq|done|].
  - simpl. by rewrite lookup_insert_ne.
  - simpl. rewrite insert_insert_eq. by destruct (copied_spec h1 (f_Spec f)).
Qed.

(** An item and its copy. *)
Definition copied_item (s s' : mem) (i i' : option positive) : Prop :=
  match i, i' with
  | None, None => True
  | Some p, Some q => q ∉ dom (functions s) /\ exists f f',
      functions s !! p = Some f /\ functions s' !! q = Some f' /\
      struct_copied function_reach function_value (cells s) (cells s') f f'
  | _, _ => False
  end.

(** Only Functions, their contents and one array were written. *)
Record adds (s s' : mem) (arr : gmap positive (list (option positive))) : Prop := {
  ad_functions : functions s ⊆ functions s'; ad_cells : cells s ⊆ cells s';
  ad_specs : specs s' = specs s; ad_lists : lists s' = lists s; ad_arrays : arrays s' = arr }.

Lemma live_item_later s s' i :
  functions s ⊆ functions s' -> cells s ⊆ cells s' -> live_item s i -> live_item s' i.
Proof.
  intros Hf Hc. destruct i as [p|]; [|done]. simpl. intros (f & Hp & Hr). exists f.
  split; [by eapply lookup_weaken|]. destruct (framed_grows _ _ _ _ f framed_function Hc Hr) as [-> _].
  etrans; [exact Hr|]. by apply subseteq_dom.
Qed.

Lemma copied_item_later s0 s s' s'' i i' :
  functions s0 ⊆ functions s -> cells s0 ⊆ cells s -> live_item s0 i ->
  functions s' ⊆ functions s'' -> cells s' ⊆ cells s'' -> copied_item s s' i i' -> copied_item s0 s'' i i'.
Proof.
  intros Hf0 Hc0 Hl Hf Hc. destruct i as [p|], i' as [q|]; simpl; try done.
  intros (Hq & f & f' & Hp & Hq' & Hs). destruct Hl as (f0 & Hp0 & Hr).
  pose proof (lookup_weaken _ _ _ _ Hp0 Hf0) as E. rewrite Hp in E. injection E as <-.
  split; [intros Hin; apply Hq; by apply (subseteq_dom _ _ Hf0)|].
  exists f, f'. split_and!; [done|by eapply lookup_weaken|].
  eapply copied_later; [apply framed_function|exact Hc0|exact Hr|exact Hc|exact Hs].
Qed.

(** One round of the loop. *)
Lemma copy_item_runs a a' k i items done n s tr :
  arrays s !! a = Some items -> items !! k = Some i -> a <> a' -> live_item s i ->
  arrays s !! a' = Some (done ++ replicate (S n) None) -> length done = k ->
  runs (copy_item a a' k) s tr (fun s' tr' o => tr' = tr /\ o = Done tt /\ exists i',
    adds s s' (<[a' := (done ++ [i']) ++ replicate n None]> (arrays s)) /\ copied_item s s' i i' /\ live_item s' i').
Proof.
  intros Ha Hi Hne Hl Ha' Hk.
  simpl in Ha'. assert (forall x, <[k := x]> (done ++ None :: replicate n None) = (done ++ [x]) ++ replicate n None) as Hset.
  { intros x. rewrite <- app_assoc, <- Hk. by rewrite <- (Nat.add_0_r (length done)), insert_app_r. }
  assert (k < length (done ++ None :: replicate n (@None positive)))%nat as Hlt by (rewrite length_app; simpl; lia).
  unfold copy_item, load, index. at_memory. destruct i as [p|].
  - destruct Hl as (f & Hp & Hr). unfold new_function, fresh_in, store_function, set_item, load, store_array.
    cbn. rewrite Ha'. cbn. rewrite bool_decide_true by exact Hlt. cbn. set (q := base.fresh (dom (functions s))).
    assert (q ∉ dom (functions s)) as Hq by apply is_fresh.
    assert (functions s !! q = None) as Hq' by (by apply not_elem_of_dom).
    assert (p <> q) as Hpq by congruence.
    eapply Function_DeepCopyInto_runs; [simpl; by rewrite lookup_insert_ne|apply lookup_insert_eq|done|].
    cbn. split_and!; [done|done|]. exists (Some q). rewrite insert_insert_eq, Hset.
    pose proof (copied_function_ok (cells s) f Hr) as [G E I F]. split; [|split].
    + split; simpl; [by apply insert_subseteq|done|done|done|done].
    + split; [done|]. exists f, (fst (copied_function (cells s) f)). simpl. rewrite lookup_insert_eq.
      split_and!; [done|done|by split].
    + exists (fst (copied_function (cells s) f)). simpl. by rewrite lookup_insert_eq.
  - unfold set_item, load, store_array. at_memory. rewrite bool_decide_true by exact Hlt. cbn.
    split_and!; [done|done|]. exists None.
    rewrite Hset. split_and!; [by split|done|done].
Qed.

Lemma fresh_items s s' l l' p :
  Forall2 (copied_item s s') l l' -> Some p ∈ l' -> p ∉ dom (functions s).
Proof.
  intros Hc Hin. induction Hc as [|i i' l l' Hi _ IH]; [by apply elem_of_nil in Hin|].
  apply elem_of_cons in Hin as [<-|Hin]; [|by apply IH]. destruct i; [apply Hi|done].
Qed.

Lemma copy_items_run a a' items k rest done s tr :
  arrays s !! a = Some items -> drop k items = rest -> a <> a' -> Forall (live_item s) rest ->
  arrays s !! a' = Some (done ++ replicate (length rest) None) -> length done = k ->
  runs (for_each (seq k (length rest)) (copy_item a a')) s tr (fun s' tr' o => tr' = tr /\ o = Done tt /\ exists rest',
    adds s s' (<[a' := done ++ rest']> (arrays s)) /\ Forall2 (copied_item s s') rest rest' /\
    NoDup (omap id rest') /\ Forall (live_item s') rest').
Proof.
  revert k done s tr. induction rest as [|i rest IH]; intros k done s tr Ha Hd Hne Hl Ha' Hk; cbn [length seq for_each].
  - cbn. split_and!; [done|done|]. exists []. split_and!; [|constructor|constructor|constructor].
    split; try done. symmetry. by apply insert_id.
  - apply Forall_cons in Hl as [Hi Hl].
    assert (items !! k = Some i) as Hit.
    { rewrite <- (Nat.add_0_r k), <- lookup_drop, Hd. done. }
    apply runs_bind. eapply runs_mono; [|by eapply copy_item_runs].
    intros s1 tr1 o (-> & -> & i' & [F1 C1 S1 L1 A1] & Hc & Hi'). cbv beta iota.
    eapply runs_mono; [|apply (IH (S k) (done ++ [i']) s1)].
    + intros s2 tr2 o (-> & -> & rest' & [F2 C2 S2 L2 A2] & Hc2 & Hnd & Hl2). split_and!; [done|done|].
      exists (i' :: rest'). split_and!.
      * split; [by etrans|by etrans|congruence|congruence|]. rewrite A2, A1, insert_insert_eq. by rewrite <- app_assoc.
      * constructor; [eapply copied_item_later; [reflexivity|reflexivity|exact Hi|exact F2|exact C2|exact Hc]|].
        apply Forall2_same_length_lookup_2; [by eapply Forall2_length|].
        intros j x y Hx Hy. eapply copied_item_later; [exact F1|exact C1|exact (Forall_lookup_1 _ _ _ _ Hl Hx)|reflexivity|reflexivity|].
        exact (Forall2_lookup_lr _ _ _ _ _ _ Hc2 Hx Hy).
      * destruct i' as [q|]; simpl; [|done]. constructor; [|done]. intros (x & Hin & Hx)%list_elem_of_omap.
        simpl in Hx. subst x. apply (fresh_items _ _ _ _ _ Hc2 Hin). destruct Hi' as (f & Hf & _).
        apply elem_of_dom. by exists f.
      * constructor; [by eapply live_item_later|done].
    + rewrite A1. by rewrite lookup_insert_ne.
    + rewrite <- (Nat.add_1_r k), <- drop_drop, Hd. done.
    + done.
    + eapply Forall_impl; [exact Hl|]. intros x. by apply live_item_later.
    + rewrite A1. by rewrite lookup_insert_eq.
    + rewrite length_app. simpl. lia.
Qed.

(** ** Lists and what they stand on *)

Inductive address := AFunction (p : positive) | AList (p : positive) | AArray (p : positive) | ACell (p : positive).

Definition allocated (m : mem) (a : address) : Prop :=
  match a with
  | AFunction p => p ∈ dom (functions m) | AList p => p ∈ dom (lists m) | AArray p => p ∈ dom (arrays m)
  | ACell p => p ∈ dom (cells m)
  end.
Definition same_at (m m' : mem) (a : address) : Prop :=
  match a with
  | AFunction p => functions m' !! p = functions m !! p | AList p => lists m' !! p = lists m !! p
  | AArray p => arrays m' !! p = arrays m !! p | ACell p => cells m' !! p = cells m !! p
  end.

(** What can be reached -- and written -- through a pointer to a list. *)
Inductive reached (m : mem) (q : positive) : address -> Prop :=
  | at_list : reached m q (AList q)
  | at_array l a : lists m !! q = Some l -> l_Items l = Some a -> reached m q (AArray a)
  | at_function l a items p : lists m !! q = Some l -> l_Items l = Some a -> arrays m !! a = Some items ->
      Some p ∈ items -> reached m q (AFunction p)
  | at_cell l a items p f c : lists m !! q = Some l -> l_Items l = Some a -> arrays m !! a = Some items ->
      Some p ∈ items -> functions m !! p = Some f -> c ∈ function_reach (cells m) f -> reached m q (ACell c).

Lemma mapM_same {A B} (f g : A -> option B) l : (forall x, x ∈ l -> f x = g x) -> mapM f l = mapM g l.
Proof.
  induction l as [|x l IH]; intros Hl; [done|]. simpl. rewrite (Hl x) by by left.
  by rewrite IH by (intros y Hy; apply Hl; by right).
Qed.

(** Whatever changes elsewhere, the list is the same. *)
Lemma list_value_frame m m' q : (forall a, reached m q a -> same_at m m' a) -> list_value m' q = list_value m q.
Proof.
  intros Hs. unfold list_value. rewrite (Hs _ (at_list _ _)). destruct (lists m !! q) as [l|] eqn:El; [|done]. simpl.
  destruct (l_Items l) as [a|] eqn:Ea; [|done]. rewrite (Hs _ (at_array _ _ _ _ El Ea)).
  destruct (arrays m !! a) as [items|] eqn:Ei; [|done]. simpl. erewrite mapM_same; [done|].
  intros [p|] Hin; [|done]. simpl. rewrite (Hs _ (at_function _ _ _ _ _ _ El Ea Ei Hin)).
  destruct (functions m !! p) as [f|] eqn:Ef; [|done]. simpl. do 2 f_equal.
  apply framed_function. intros c Hc. exact (Hs _ (at_cell _ _ _ _ _ _ _ _ El Ea Ei Hin Ef Hc)).
Qed.

Lemma live_reached m p a : live_list m p -> reached m p a -> allocated m a.
Proof.
  intros (l & Hl & Hitems) Hr.
  destruct Hr as [|l' a El Ea|l' a items x El Ea Ei Hin|l' a items x f c El Ea Ei Hin Ef Hc]; simpl; [by eapply elem_of_dom_2|..].
  all: rewrite Hl in El; injection El as <-; rewrite Ea in Hitems; destruct Hitems as (items' & Hi & Hall).
  - by eapply elem_of_dom_2.
  - rewrite Hi in Ei. injection Ei as <-. rewrite Forall_forall in Hall. destruct (Hall _ Hin) as (f & Hf & _).
    by eapply elem_of_dom_2.
  - rewrite Hi in Ei. injection Ei as <-. rewrite Forall_forall in Hall. destruct (Hall _ Hin) as (f' & Hf & Hr).
    rewrite Ef in Hf. injection Hf as <-. by apply Hr.
Qed.

Lemma preserves_same m m' a : preserves m m' -> allocated m a -> same_at m m' a.
Proof.
  intros [Hf _ Hl Ha Hc]. destruct a; simpl; intros [x Hx]%elem_of_dom; rewrite Hx; by eapply lookup_weaken.
Qed.

Lemma same_at_trans m1 m2 m3 a : same_at m1 m2 a -> same_at m2 m3 a -> same_at m1 m3 a.
Proof. destruct a; simpl; congruence. Qed.

(** A list at [p], and a copy of it at [q]. *)
Definition list_copied (s s' : mem) (p q : positive) : Prop :=
  q ∉ dom (lists s) /\ exists l, lists s !! p = Some l /\
    match l_Items l with
    | None => lists s' !! q = Some l
    | Some a => exists items items' a', arrays s !! a = Some items /\ a' ∉ dom (arrays s) /\
        lists s' !! q = Some {| l_Type := l_Type l; l_Meta := l_Meta l; l_Items := Some a' |} /\
        arrays s' !! a' = Some items' /\ Forall2 (copied_item s s') items items' /\ NoDup (omap id items')
    end.

Lemma list_copied_value s s' p q : list_copied s s' p q -> is_Some (list_value s p) /\ list_value s' q = list_value s p.
Proof.
  intros (_ & l & Hl & Hitems). unfold list_value. rewrite Hl. simpl. destruct (l_Items l) as [a|] eqn:Ea.
  - destruct Hitems as (items & items' & a' & Hi & _ & Hq & Hi' & Hc & _). rewrite Hi, Hq. simpl. rewrite Hi'. simpl.
    assert (exists vs, mapM (item_value s) items = Some vs /\ mapM (item_value s') items' = Some vs) as (vs & -> & ->).
    { clear -Hc. induction Hc as [|i i' items items' Hi _ (vs & E & E')]; [by exists []|]. simpl. rewrite E, E'.
      destruct i as [x|], i' as [y|]; simpl in Hi; try done; [|by exists (None :: vs)].
      destruct Hi as (_ & f & f' & Hf & Hf' & [_ Hv _ _]). exists (Some (function_value (cells s) f) :: vs).
      simpl. rewrite Hf, Hf'. simpl. by rewrite Hv. }
    by split.
  - rewrite Hitems. simpl. rewrite Ea. by split.
Qed.

Lemma list_copied_fresh s s' p q a : list_copied s s' p q -> reached s' q a -> allocated s' a /\ ~ allocated s a.
Proof.
  intros (Hq & l & Hl & Hitems) Hr. destruct (l_Items l) as [arr|] eqn:Ea.
  - destruct Hitems as (items & items' & arr' & Hi & Harr & Hq' & Hi' & Hc & _).
    assert (forall x, Some x ∈ items' -> x ∉ dom (functions s) /\ exists f f', functions s' !! x = Some f' /\
      struct_copied function_reach function_value (cells s) (cells s') f f') as Hin'.
    { intros x Hx. apply list_elem_of_lookup in Hx as [j Hj]. destruct (Forall2_lookup_r _ _ _ _ _ Hc Hj) as ([y|] & _ & Hi2);
        simpl in Hi2; [|done]. destruct Hi2 as (? & f & f' & _ & ? & ?). split; [done|]. by exists f, f'. }
    destruct Hr as [|l' a El Ea'|l' a is' x El Ea' Ei Hin|l' a is' x f c El Ea' Ei Hin Ef Hx]; simpl;
      [by split; [eapply elem_of_dom_2|]|..];
      rewrite Hq' in El; injection El as <-; simpl in Ea'; injection Ea' as <-.
    + split; [by eapply elem_of_dom_2|done].
    + rewrite Hi' in Ei. injection Ei as <-. destruct (Hin' x Hin) as (? & f & f' & Hf & _).
      split; [by eapply elem_of_dom_2|done].
    + rewrite Hi' in Ei. injection Ei as <-. destruct (Hin' x Hin) as (_ & f0 & f' & Hf & [_ _ Hins Hfr]).
      rewrite Ef in Hf. injection Hf as <-. split; [by apply Hins|].
      intros Hd. exact (Hfr c Hx Hd).
  - destruct Hr as [|l' a El Ea'|l' a is' x El Ea' Ei Hin|l' a is' x f c El Ea' Ei Hin Ef Hx]; simpl;
      [by split; [eapply elem_of_dom_2|]|..]; congruence.
Qed.

#[local] Arguments copy_item : simpl never.

Lemma FunctionList_DeepCopy_runs p s tr : live_list s p ->
  runs (FunctionList_DeepCopy (Some p)) s tr (fun s' tr' o => tr' = tr /\ preserves s s' /\
    exists q, o = Done (Some q) /\ list_copied s s' p q).
Proof.
  intros (l & Hl & Hitems). unfold FunctionList_DeepCopy, new_list, fresh_in, FunctionList_DeepCopyInto, store_list, load.
  cbn. set (q := base.fresh (dom (lists s))).
  assert (q ∉ dom (lists s)) as Hq by apply is_fresh.
  assert (lists s !! q = None) as Hq' by (by apply not_elem_of_dom).
  assert (p <> q) as Hne by congruence.
  at_memory. destruct (l_Items l) as [a|] eqn:Ea.
  - destruct Hitems as (items & Hi & Hlive). unfold make_array, fresh_in, store_array, load. at_memory.
    set (a' := base.fresh (dom (arrays s))).
    assert (a' ∉ dom (arrays s)) as Ha by apply is_fresh.
    assert (arrays s !! a' = None) as Ha' by (by apply not_elem_of_dom).
    assert (a <> a') as Hnea by congruence.
    apply runs_bind. eapply runs_mono; [|eapply (copy_items_run a a' items 0 items [])].
    + intros s' tr' o (-> & -> & items' & [F C S L A] & Hc & Hnd & _). cbn in *.
      split; [done|]. split.
      { split; rewrite ?S, ?L, ?A, ?insert_insert_eq; [done|done| | |done]; by apply insert_subseteq. }
      exists q. split; [done|]. split; [done|]. exists l. rewrite Ea. split; [done|].
      exists items, items', a'. rewrite L, A, !lookup_insert_eq. by split_and!.
    + simpl. by rewrite lookup_insert_ne.
    + done.
    + done.
    + eapply Forall_impl; [exact Hlive|]. by intros [x|].
    + simpl. by rewrite lookup_insert_eq.
    + done.
  - split; [done|]. split; [split; try done; by apply insert_subseteq|].
    exists q. split; [done|]. split; [done|]. exists l. rewrite Ea. split; [done|]. simpl.
    rewrite lookup_insert_eq. by destruct l; simpl in *; subst.
Qed.

(** C33. A deep copy shares nothing: for any structs of Kubernetes whose own
    deep copies do what is documented, the copy of a list of Functions -- whose
    items may be nil or repeat a Function -- has the value of the original and
    leaves everything in memory as it is; everything that can be reached
    through it, down to the maps and slices in the metadata, the deployment,
    the service and the autoscaler of each Function, is new; no two of its
    items are the same Function.  So whatever is written through the copy is
    invisible through the original, and the other way round. *)
Theorem list_copy_separate p s tr (Hp : live_list s p) :
  runs (FunctionList_DeepCopy (Some p)) s tr (fun s' tr' o => tr' = tr /\ preserves s s' /\
    exists q, o = Done (Some q) /\
      is_Some (list_value s p) /\ list_value s' q = list_value s p /\
      (forall a, reached s' q a -> allocated s' a /\ ~ allocated s a) /\
      (forall l a items, lists s' !! q = Some l -> l_Items l = Some a -> arrays s' !! a = Some items -> NoDup (omap id items)) /\
      (forall s'', (forall a, ~ reached s' q a -> same_at s' s'' a) -> list_value s'' p = list_value s p) /\
      (forall s'', (forall a, ~ reached s p a -> same_at s' s'' a) -> list_value s'' q = list_value s p)).
Proof.
  eapply runs_mono; [|by apply FunctionList_DeepCopy_runs]. intros s' tr' o (-> & Hpre & q & -> & Hc).
  pose proof (list_copied_value _ _ _ _ Hc) as [Hsome Hval].
  split_and!; [done|done|]. exists q. split_and!; [done|done|done| | | |].
  - intros a Ha. by eapply list_copied_fresh.
  - destruct Hc as (_ & l & Hl & Hitems). intros l' a items Hq Ha Hi. destruct (l_Items l) eqn:El; [|congruence].
    destruct Hitems as (? & ? & ? & _ & _ & Hq' & Hi' & _ & Hnd). rewrite Hq' in Hq. injection Hq as <-.
    simpl in Ha. injection Ha as <-. rewrite Hi' in Hi. by injection Hi as <-.
  - intros s'' Hs. apply list_value_frame. intros a Ha. pose proof (live_reached _ _ _ Hp Ha) as Hal.
    apply (same_at_trans _ s'); [by apply preserves_same|]. apply Hs. intros Hr.
    by destruct (list_copied_fresh _ _ _ _ _ Hc Hr).
  - intros s'' Hs. rewrite (list_value_frame s' s''); [done|]. intros a Ha. apply Hs. intros Hr.
    destruct (list_copied_fresh _ _ _ _ _ Hc Ha) as [_ Hn]. apply Hn. by eapply live_reached.
Qed.

(** A nil list stays nil, in every form. *)
Lemma nil_copies s tr :
  runs (FunctionList_DeepCopyObject None) s tr (fun s' tr' o => s' = s /\ tr' = tr /\ o = Done None) /\
  runs (Function_DeepCopyObject None) s tr (fun s' tr' o => s' = s /\ tr' = tr /\ o = Done None) /\
  runs (FunctionSpec_DeepCopy None) s tr (fun s' tr' o => s' = s /\ tr' = tr /\ o = Done None).
Proof. done. Qed.

(** A Function on its own, as the controller copies those of the informer's
    store. *)
Lemma function_copy_separate p f s tr :
  functions s !! p = Some f -> function_reach (cells s) f ⊆ dom (cells s) ->
  runs (Function_DeepCopyObject (Some p)) s tr (fun s' tr' o => tr' = tr /\ preserves s s' /\
    exists q, o = Done (Some (OFunction q)) /\ copied_item s s' (Some p) (Some q)).
Proof.
  intros Hp Hr. unfold Function_DeepCopyObject, Function_DeepCopy, new_function, fresh_in, store_function. cbn.
  set (q := base.fresh (dom (functions s))). assert (q ∉ dom (functions s)) as Hq by apply is_fresh.
  assert (functions s !! q = None) as Hq' by (by apply not_elem_of_dom). assert (p <> q) as Hne by congruence.
  apply runs_bind, runs_bind. eapply Function_DeepCopyInto_runs; [simpl; by rewrite lookup_insert_ne|apply lookup_insert_eq|done|].
  cbn. rewrite insert_insert_eq. pose proof (copied_function_ok (cells s) f Hr) as [G E I F].
  split; [done|]. split; [split; try done; by apply insert_subseteq|]. exists q. split; [done|]. split; [done|].
  exists f, (fst (copied_function (cells s) f)). simpl. rewrite lookup_insert_eq. split_and!; [done|done|by split].
Qed.

End Copies.

(** ** Structs with one map each *)
Module CopiesSample.

Abbreviation a_map := (gmap string string).
(** A name and a map. *)
Definition struct : Type := string * option positive.

Definition struct_reach (h : gmap positive a_map) (a : struct) : gset positive :=
  match snd a with Some p => {[p]} | None => ∅ end.
Definition struct_value (h : gmap positive a_map) (a : struct) : string * option (option a_map) :=
  (fst a, (fun p => h !! p) <$> snd a).
Definition struct_copy (h : gmap positive a_map) (a : struct) : struct * gmap positive a_map :=
  match snd a with
  | Some p => match h !! p with
      | Some c => let q := base.fresh (dom h) in ((fst a, Some q), <[q := c]> h)
      | None => (a, h) end
  | None => (a, h)
  end.

#[local] Program Instance struct_copied : Copied a_map struct :=
  {| Value := string * option (option a_map); reach := struct_reach; value := struct_value; copy := struct_copy |}.
Next Obligation.
  intros h h' [n [p|]] Hs; unfold struct_reach, struct_value in *; simpl in *; [|done]. by rewrite (Hs p) by set_solver.
Qed.
Next Obligation.
  intros h [n [p|]]; unfold struct_copy; simpl; [|done]. destruct (h !! p); [|done]. simpl.
  apply insert_subseteq, not_elem_of_dom, is_fresh.
Qed.
Next Obligation.
  intros h [n [p|]]; unfold struct_copy, struct_value, struct_reach; simpl; [|done]. intros Hin.
  destruct (h !! p) as [c|] eqn:E; simpl; [by rewrite lookup_insert_eq|by rewrite E].
Qed.
Next Obligation.
  intros h [n [x|]] p; unfold struct_copy, struct_reach; simpl; [|set_solver]. intros Hin.
  assert (x ∈ dom h) as [c Hx]%elem_of_dom by set_solver. rewrite Hx. simpl. intros ->%elem_of_singleton.
  split; [set_solver|apply is_fresh].
Qed.

#[local] Instance structs : KubernetesStructs :=
  {| cell := a_map; ObjectMeta := struct; Deployment := struct; ServiceSpec := struct; HorizontalPodAutoscaler := struct;
     zero_meta := ("", None); zero_deployment := ("", None); zero_service := ("", None); zero_hpa := ("", None);
     ListMeta := string; zero_list_meta := "" |}.

(** A list that repeats a Function with labels and a deployment, and has a nil
    item. *)
Definition hello : Function_ :=
  {| f_Type := zero_type; f_Meta := ("hello", Some 1%positive);
     f_Spec := s_set_Deployment zero_spec ("hello", Some 2%positive) |}.
Definition memory : mem :=
  {| functions := {[ 1%positive := hello ]}; specs := ∅;
     lists := {[ 1%positive := {| l_Type := zero_type; l_Meta := "7"; l_Items := Some 1%positive |} ]};
     arrays := {[ 1%positive := [Some 1%positive; None; Some 1%positive] ]};
     cells := {[ 1%positive := {[ "app" := "hello" ]}; 2%positive := ∅ ]} |}.

Lemma memory_live : live_list memory 1%positive.
Proof.
  eexists. split; [reflexivity|]. simpl. eexists. split; [reflexivity|].
  assert (live_item memory (Some 1%positive)) as Hl.
  { exists hello. split; [reflexivity|]. apply (bool_decide_unpack _). vm_compute. exact Logic.I. }
  by repeat constructor.
Qed.

Lemma list_copy_separate_witness :
  runs (FunctionList_DeepCopy (Some 1%positive)) memory [] (fun s' tr' o => exists q, o = Done (Some q) /\
    list_value s' q = list_value memory 1%positive /\
    (forall c, cells s' !! 1%positive = Some c -> ~ reached s' q (ACell 1%positive))).
Proof.
  eapply runs_mono; [|exact (list_copy_separate 1%positive memory [] memory_live)].
  intros s' tr' o (_ & _ & q & -> & _ & Hv & Hf & _). exists q. split; [reflexivity|]. split; [exact Hv|].
  intros c _ Hr. destruct (Hf _ Hr) as [_ Hn]. apply Hn. apply elem_of_dom. exists {[ "app" := "hello" ]}. reflexivity.
Defined.

End CopiesSample.
