(* ===== verification/FakeClients.v ===== *)
(** * The fake clients of the tests
    (pkg/client/clientset/versioned/fake, typed/kubeless/v1beta1/fake)

    A fake client hands every call as an action to client-go's [testing.Fake],
    which answers with an object of any type and an error; over the object
    tracker that it is made with it behaves, for functions, as a server does. *)
From S2P Require Import Prelude GoStrings GoProg KubeTypes World.
From S2P Require ApiClients.
Import ApiClients.Typed(GetOptions, ListOptions, DeleteOptions).

(** [runtime.Object], as far as the client tells them apart. *)
Inductive api_object :=
  | AFunction (f : Function_)
  | AFunctionList (resourceVersion : string) (items : list Function_)
  | AnyObject.

(** [schema.GroupVersionResource] and kind. *)
Definition functionsResource : string * string * string := ("kubeless.io", "v1beta1", "functions").
Definition functionsKind : string * string * string := ("kubeless.io", "v1beta1", "Function").

(** The constructors of [testing.Action]. *)
Inductive action :=
  | NewGetAction (resource : string * string * string) (ns name : string)
  | NewListAction (resource kind : string * string * string) (ns : string) (opts : ListOptions)
  | NewWatchAction (resource : string * string * string) (ns : string) (opts : ListOptions)
  | NewCreateAction (resource : string * string * string) (ns : string) (f : Function_)
  | NewUpdateAction (resource : string * string * string) (ns : string) (f : Function_)
  | NewDeleteAction (resource : string * string * string) (ns name : string)
  | NewDeleteCollectionAction (resource : string * string * string) (ns : string) (opts : ListOptions)
  | NewPatchSubresourceAction (resource : string * string * string) (ns name data : string) (subresources : list string).

(** The requests to [testing.Fake]: [Invokes] with the object that is returned
    when nothing reacts, [InvokesWatch], and the tracker's [Add]. *)
Inductive fake_op :=
  | Invokes (a : action) (defaultReturnObj : api_object)
  | InvokesWatch (a : action)
  | TrackerAdd (o : api_object).

Definition fake_resp (o : fake_op) : Type :=
  match o with
  | Invokes _ _ => option api_object * option gerror
  | InvokesWatch _ => result N
  | TrackerAdd _ => option gerror
  end.

Abbreviation fgo A := (prog fake_resp unit A).

(** [testing.ExtractFromListOptions] and [labels.Selector.Matches]. *)
Class ListSelectors := { ExtractLabel : ListOptions -> option (gomap string -> bool) }.

Section Fake.
Context `{ListSelectors}.

(** [FakeFunctions]: the namespace of the client. *)
Record FakeFunctions := { ff_ns : string }.

(** [FakeKubelessV1beta1.Functions]; the fake itself is the world of [Invokes]. *)
Definition fake_Functions (namespace : string) : FakeFunctions := {| ff_ns := namespace |}.
(** [FakeKubelessV1beta1.RESTClient]: a nil client. *)
Definition fake_RESTClient : option N := None.

Definition invokes (a : action) (d : api_object) : fgo (option api_object * option gerror) := call (Invokes a d).

(** [obj.(T)] after the test for nil; both results are returned. *)
Definition as_function (r : option api_object * option gerror) : fgo (option Function_ * option gerror) :=
  match r with
  | (None, err) => mret (None, err)
  | (Some (AFunction f), err) => mret (Some f, err)
  | (Some _, _) => Panic "interface conversion: runtime.Object is not *v1beta1.Function"
  end.

Definition fake_Get (c : FakeFunctions) (name : string) (options : GetOptions) : fgo (option Function_ * option gerror) :=
  r ← invokes (NewGetAction functionsResource (ff_ns c) name) (AFunction zero_function);
  as_function r.

(** The items are filtered again; the list's own metadata are dropped. *)
Definition fake_List (c : FakeFunctions) (opts : ListOptions) :
    fgo (option (string * list Function_) * option gerror) :=
  '(obj, err) ← invokes (NewListAction functionsResource functionsKind (ff_ns c) opts) (AFunctionList "" []);
  match obj with
  | None => mret (None, err)
  | Some (AFunctionList _ items) =>
      let label := default (fun _ => true) (ExtractLabel opts) in
      mret (Some ("", List.filter (fun item => label (f_labels item)) items), err)
  | Some _ => Panic "interface conversion: runtime.Object is not *v1beta1.FunctionList"
  end.

Definition fake_Watch (c : FakeFunctions) (opts : ListOptions) : fgo N :=
  must (call (InvokesWatch (NewWatchAction functionsResource (ff_ns c) opts))).

Definition fake_Create (c : FakeFunctions) (function : Function_) : fgo (option Function_ * option gerror) :=
  r ← invokes (NewCreateAction functionsResource (ff_ns c) function) (AFunction zero_function);
  as_function r.

Definition fake_Update (c : FakeFunctions) (function : Function_) : fgo (option Function_ * option gerror) :=
  r ← invokes (NewUpdateAction functionsResource (ff_ns c) function) (AFunction zero_function);
  as_function r.

(** The options of a deletion are dropped, like the type of a patch. *)
Definition fake_Delete (c : FakeFunctions) (name : string) (options : option DeleteOptions) : fgo (option gerror) :=
  '(_, err) ← invokes (NewDeleteAction functionsResource (ff_ns c) name) (AFunction zero_function);
  mret err.

Definition fake_DeleteCollection (c : FakeFunctions) (options : option DeleteOptions) (listOptions : ListOptions) :
    fgo (option gerror) :=
  '(_, err) ← invokes (NewDeleteCollectionAction functionsResource (ff_ns c) listOptions) (AFunctionList "" []);
  mret err.

Definition fake_Patch (c : FakeFunctions) (name pt data : string) (subresources : list string) :
    fgo (option Function_ * option gerror) :=
  r ← invokes (NewPatchSubresourceAction functionsResource (ff_ns c) name data subresources) (AFunction zero_function);
  as_function r.

(** [NewSimpleClientset]: an object that the tracker refuses panics. *)
Fixpoint NewSimpleClientset (objects : list api_object) : fgo unit :=
  match objects with
  | [] => mret tt
  | obj :: objects =>
      err ← call (TrackerAdd obj);
      match err with Some e => Panic (err_msg e) | None => NewSimpleClientset objects end
  end.

(** ** Over the object tracker

    What is known of the tracker: it keeps functions by namespace and name, and
    reacts to the actions on them as a server answers requests; a list is that
    of the namespace. *)
Class Tracker {W} (F : handler fake_resp W) := {
  tracked : W -> string -> string -> option Function_;
  listed : W -> string -> list Function_;
  listed_spec w ns f : f ∈ listed w ns <-> f_namespace f = ns /\ tracked w ns (f_name f) = Some f;
  react_get w ns n d :
    F (Invokes (NewGetAction functionsResource ns n) d) w =
    (match tracked w ns n with Some f => (Some (AFunction f), None) | None => (None, Some (api_not_found KFunction n)) end, w);
  react_list w ns opts d : exists v,
    F (Invokes (NewListAction functionsResource functionsKind ns opts) d) w = ((Some (AFunctionList v (listed w ns)), None), w);
  react_create_taken w ns f f' d : tracked w ns (f_name f) = Some f' ->
    F (Invokes (NewCreateAction functionsResource ns f) d) w =
      ((None, Some (api_already_exists KFunction (f_name f))), w);
  react_create w ns f d : tracked w ns (f_name f) = None -> f_namespace f = ns ->
    exists w', F (Invokes (NewCreateAction functionsResource ns f) d) w = ((Some (AFunction f), None), w') /\
      forall ns' n', tracked w' ns' n' = if decide ((ns', n') = (ns, f_name f)) then Some f else tracked w ns' n';
  react_update_missing w ns f d : tracked w ns (f_name f) = None ->
    F (Invokes (NewUpdateAction functionsResource ns f) d) w = ((None, Some (api_not_found KFunction (f_name f))), w);
  react_update w ns f old d : tracked w ns (f_name f) = Some old -> f_namespace f = ns ->
    exists w', F (Invokes (NewUpdateAction functionsResource ns f) d) w = ((Some (AFunction f), None), w') /\
      forall ns' n', tracked w' ns' n' = if decide ((ns', n') = (ns, f_name f)) then Some f else tracked w ns' n';
  react_delete w ns n d :
    exists w', F (Invokes (NewDeleteAction functionsResource ns n) d) w =
      ((None, match tracked w ns n with Some _ => None | None => Some (api_not_found KFunction n) end), w') /\
      forall ns' n', tracked w' ns' n' = if decide ((ns', n') = (ns, n)) then None else tracked w ns' n' }.

(** ** The same calls to a server and to the fake *)
Inductive fcall :=
  | CGet (ns n : string) | CCreate (ns : string) (f : Function_) | CUpdate (ns : string) (f : Function_)
  | CDelete (ns n : string).

Section Simulation.
Context {W : Type} (H' : handler resp W) `{!ApiServer H'} {V : Type} (F : handler fake_resp V) `{!Tracker F}.
Context (get_options : GetOptions) (delete_options : option DeleteOptions).
Implicit Types (w : W) (v : V).

Definition real_call (c : fcall) w : result (option Function_) * W :=
  match c with
  | CGet ns n => let '(r, w') := H' (AGet KFunction ns n) w in (Some <$> (r : result Function_), w')
  | CCreate ns f => let '(r, w') := H' (ACreate KFunction ns f) w in (Some <$> (r : result Function_), w')
  | CUpdate ns f => let '(r, w') := H' (AUpdate KFunction ns f) w in (Some <$> (r : result Function_), w')
  | CDelete ns n => let '(r, w') := H' (ADelete KFunction ns n) w in ((fun _ => None) <$> (r : result unit), w')
  end.

Definition fake_prog (c : fcall) : fgo (option Function_ * option gerror) :=
  match c with
  | CGet ns n => fake_Get (fake_Functions ns) n get_options
  | CCreate ns f => fake_Create (fake_Functions ns) f
  | CUpdate ns f => fake_Update (fake_Functions ns) f
  | CDelete ns n => err ← fake_Delete (fake_Functions ns) n delete_options; mret (None, err)
  end.

Definition fake_call (c : fcall) v : outcome (option Function_ * option gerror) * V :=
  let '(o, _, v') := run F (fake_prog c) tt v in (o, v').

(** Up to what a server fills in. *)
Definition same_answer (r : result (option Function_)) (o : outcome (option Function_ * option gerror)) : Prop :=
  match r, o with
  | Ok (Some f'), Done (Some f, None) => accepts KFunction f f'
  | Ok None, Done (None, None) => True
  | Error e, Done (None, Some e') => e' = e
  | _, _ => False
  end.

Definition agree w v : Prop :=
  forall ns n,
    match stored w KFunction ns n, tracked v ns n with
    | Some f', Some f => accepts KFunction f f' /\ f_namespace f = ns /\ f_name f = n
    | None, None => True
    | _, _ => False
    end.

(** The tracker knows neither resource versions nor finalizers: calls that do
    not depend on them; and the function that is sent names the namespace of the
    client. *)
Definition admissible w (c : fcall) : Prop :=
  match c with
  | CGet _ _ => True
  | CCreate ns f => f_namespace f = ns
  | CUpdate ns f => f_namespace f = ns /\
      forall old, stored w KFunction ns (f_name f) = Some old -> fresh KFunction old f /\ finalized KFunction f = false
  | CDelete ns n => forall f, stored w KFunction ns n = Some f -> om_Finalizers (f_Meta f) = []
  end.

Lemma agree_put ns n w w' v v' f f' :
  agree w v -> accepts KFunction f f' -> f_namespace f = ns -> f_name f = n -> stored w' KFunction ns n = Some f' ->
  same_but stored KFunction ns n w w' ->
  (forall ns' n', tracked v' ns' n' = if decide ((ns', n') = (ns, n)) then Some f else tracked v ns' n') ->
  agree w' v'.
Proof.
  intros Hag Ha Hns Hn Hst Hb Ht ns' n'. rewrite Ht. case_decide as E.
  - injection E as -> ->. by rewrite Hst.
  - rewrite Hb; [apply Hag|congruence].
Qed.

Lemma agree_remove ns n w w' v v' :
  agree w v -> stored w' KFunction ns n = None -> same_but stored KFunction ns n w w' ->
  (forall ns' n', tracked v' ns' n' = if decide ((ns', n') = (ns, n)) then None else tracked v ns' n') ->
  agree w' v'.
Proof.
  intros Hag Hst Hb Ht ns' n'. rewrite Ht. case_decide as E.
  - injection E as -> ->. by rewrite Hst.
  - rewrite Hb; [apply Hag|congruence].
Qed.

Lemma call_simulates c w v :
  agree w v -> admissible w c ->
  same_answer (fst (real_call c w)) (fst (fake_call c v)) /\ agree (snd (real_call c w)) (snd (fake_call c v)).
Proof.
  intros Hag. destruct c as [ns n|ns f|ns f|ns n]; unfold fake_call, fake_prog, fake_Get, fake_Create, fake_Update,
    fake_Delete, invokes, call; cbn [real_call admissible fake_Functions ff_ns mbind prog_mbind prog_bind run].
  - intros _. rewrite api_get, react_get. pose proof (Hag ns n) as Hn.
    destruct (stored w KFunction ns n), (tracked v ns n); try done; split; try done. apply Hn.
  - intros Hns. pose proof (Hag ns (f_name f)) as Hn.
    destruct (stored w KFunction ns (f_name f)) as [old|] eqn:E, (tracked v ns (f_name f)) as [t|] eqn:Et; try done.
    + rewrite (api_create_taken w KFunction ns f old E), (react_create_taken _ _ _ _ _ Et). by split.
    + destruct (api_create_new w KFunction ns f E) as (f' & w' & -> & Ha & Hst & Hb).
      destruct (react_create v ns f (AFunction zero_function) Et Hns) as (v' & -> & Ht).
      split; [exact Ha|]. by eapply agree_put.
  - intros (Hns & Hup). pose proof (Hag ns (f_name f)) as Hn.
    destruct (stored w KFunction ns (f_name f)) as [old|] eqn:E, (tracked v ns (f_name f)) as [t|] eqn:Et; try done.
    + destruct (Hup old eq_refl) as [Hfresh Hfin].
      destruct (api_update w KFunction ns f old E Hfresh) as (f' & w' & -> & Ha & Hst & Hb). rewrite Hfin in Hst.
      destruct (react_update v ns f t (AFunction zero_function) Et Hns) as (v' & -> & Ht).
      split; [exact Ha|]. by eapply agree_put.
    + rewrite (api_update_missing w ns f E), (react_update_missing _ _ _ _ Et). by split.
  - intros Hfin. pose proof (Hag ns n) as Hn.
    destruct (react_delete v ns n (AFunction zero_function)) as (v' & -> & Ht).
    destruct (stored w KFunction ns n) as [old|] eqn:E, (tracked v ns n) as [t|] eqn:Et; try done.
    + destruct (api_delete w KFunction ns n old E (Hfin old eq_refl)) as (w' & -> & Hst & Hb).
      split; [done|]. by eapply agree_remove.
    + rewrite api_delete_missing by done. split; [done|]. eapply agree_remove; [done|exact E|by intros ???|exact Ht].
Qed.

Fixpoint real_calls (cs : list fcall) w : list (result (option Function_)) * W :=
  match cs with
  | [] => ([], w)
  | c :: cs => let '(a, w1) := real_call c w in let '(l, w2) := real_calls cs w1 in (a :: l, w2)
  end.

Fixpoint fake_calls (cs : list fcall) v : list (outcome (option Function_ * option gerror)) * V :=
  match cs with
  | [] => ([], v)
  | c :: cs => let '(a, v1) := fake_call c v in let '(l, v2) := fake_calls cs v1 in (a :: l, v2)
  end.

Fixpoint all_admissible (cs : list fcall) w : Prop :=
  match cs with
  | [] => True
  | c :: cs => admissible w c /\ all_admissible cs (snd (real_call c w))
  end.

(** A list of the fake holds the functions of the namespace that match, and no
    metadata. *)
Lemma fake_List_selects ns opts v :
  exists items, run F (fake_List (fake_Functions ns) opts) tt v = (Done (Some ("", items), None), tt, v) /\
    forall f, f ∈ items <-> f_namespace f = ns /\ tracked v ns (f_name f) = Some f /\
      default (fun _ => true) (ExtractLabel opts) (f_labels f) = true.
Proof.
  destruct (react_list v ns opts (AFunctionList "" [])) as [rv E].
  eexists. unfold fake_List, invokes, call. cbn. rewrite E. split; [done|].
  intros f. rewrite list_elem_of_In, filter_In, <- list_elem_of_In, listed_spec. tauto.
Qed.

(** So over functions that agree it holds those of the server. *)
Lemma fake_List_agrees w v ns opts : agree w v ->
  exists items, run F (fake_List (fake_Functions ns) opts) tt v = (Done (Some ("", items), None), tt, v) /\
    (forall f, f ∈ items -> exists f', stored w KFunction ns (f_name f) = Some f' /\ accepts KFunction f f') /\
    (forall n, (exists f, f ∈ items /\ f_name f = n) <->
       exists f', stored w KFunction ns n = Some f' /\ default (fun _ => true) (ExtractLabel opts) (f_labels f') = true).
Proof.
  intros Hag. destruct (fake_List_selects ns opts v) as (items & E & Hin). exists items. split; [exact E|]. split.
  - intros f (_ & Ht & _)%Hin. pose proof (Hag ns (f_name f)) as Hn. rewrite Ht in Hn.
    destruct (stored w KFunction ns (f_name f)) as [f'|]; [|done]. exists f'. split; [done|apply Hn].
  - intros n. pose proof (Hag ns n) as Hn. split.
    + intros (f & (_ & Ht & Hm)%Hin & <-). rewrite Ht in Hn.
      destruct (stored w KFunction ns (f_name f)) as [f'|]; [|done]. exists f'. split; [done|].
      destruct Hn as ([(_ & Hl & _) _] & _). unfold f_labels in *. cbn in Hl. by rewrite Hl.
    + intros (f' & Hst & Hm). rewrite Hst in Hn. destruct (tracked v ns n) as [f|] eqn:Ht; [|done].
      destruct Hn as ([(_ & Hl & _) _] & Hns & Hname). exists f. split; [|done]. apply Hin.
      rewrite Hname. split_and!; [done|done|]. unfold f_labels in *. cbn in Hl. by rewrite <- Hl.
Qed.

(** C34. A test that goes through the fake client sees what it would see of a
    server: for every sequence of reads, creations, updates and deletions of
    functions, of those that exist and of those that do not, the fake client
    over a tracker gives the answers of any lawful server that started with the
    same functions -- the same errors, the same functions up to what a server
    fills in -- and never panics; both end with the same functions, and a list
    of the fake then has exactly the functions of the server's namespace whose
    labels match.  The functions sent name the namespace of the client; an
    update of an existing one does not conflict with another writer or release
    its last finalizer, and no function that is deleted has finalizers, since
    the tracker knows neither. *)
Theorem fake_simulates cs w v (Hag : agree w v) (Hadm : all_admissible cs w) :
  let '(answers, w') := real_calls cs w in
  let '(answers', v') := fake_calls cs v in
  Forall2 same_answer answers answers' /\ agree w' v' /\
  forall ns opts, exists items,
    run F (fake_List (fake_Functions ns) opts) tt v' = (Done (Some ("", items), None), tt, v') /\
    (forall f, f ∈ items -> exists f', stored w' KFunction ns (f_name f) = Some f' /\ accepts KFunction f f') /\
    (forall n, (exists f, f ∈ items /\ f_name f = n) <->
       exists f', stored w' KFunction ns n = Some f' /\ default (fun _ => true) (ExtractLabel opts) (f_labels f') = true).
Proof.
  revert w v Hag Hadm. induction cs as [|c cs IH]; intros w v Hag Hadm; simpl in *.
  { split_and!; [constructor|done|]. intros ns opts. by apply fake_List_agrees. }
  destruct Hadm as [Hc Hcs]. destruct (call_simulates c w v Hag Hc) as [Ha Hag1].
  destruct (real_call c w) as [a w1], (fake_call c v) as [a' v1]. simpl in *.
  specialize (IH w1 v1 Hag1 Hcs). destruct (real_calls cs w1), (fake_calls cs v1).
  destruct IH as (Hl & Hag2 & Hls). split_and!; [by constructor|done|exact Hls].
Qed.

End Simulation.
End Fake.

(** ** A tracker *)
Module FakeSample.
Abbreviation store := (gmap (string * string) Function_).

Definition named (w : store) (ns : string) : list Function_ :=
  snd <$> filter (fun p => p.1 = (ns, f_name p.2) /\ f_namespace p.2 = ns) (map_to_list w).

Definition react (a : action) (w : store) : (option api_object * option gerror) * store :=
  match a with
  | NewGetAction _ ns n =>
      (match w !! (ns, n) with Some f => (Some (AFunction f), None) | None => (None, Some (api_not_found KFunction n)) end, w)
  | NewListAction _ _ ns _ => ((Some (AFunctionList "" (named w ns)), None), w)
  | NewCreateAction _ ns f =>
      match w !! (ns, f_name f) with
      | Some _ => ((None, Some (api_already_exists KFunction (f_name f))), w)
      | None => ((Some (AFunction f), None), <[(ns, f_name f) := f]> w)
      end
  | NewUpdateAction _ ns f =>
      match w !! (ns, f_name f) with
      | Some _ => ((Some (AFunction f), None), <[(ns, f_name f) := f]> w)
      | None => ((None, Some (api_not_found KFunction (f_name f))), w)
      end
  | NewDeleteAction _ ns n =>
      ((None, match w !! (ns, n) with Some _ => None | None => Some (api_not_found KFunction n) end), delete (ns, n) w)
  | _ => ((None, Some (Errorf "no reaction implemented")), w)
  end.

Definition fake : handler fake_resp store := fun o =>
  match o return store -> fake_resp o * store with
  | Invokes a _ => react a
  | InvokesWatch _ => fun w => (Ok 0%N, w)
  | TrackerAdd (AFunction f) => fun w => (None, <[(f_namespace f, f_name f) := f]> w)
  | TrackerAdd _ => fun w => (Some (Errorf "no kind is registered"), w)
  end.

#[export] Program Instance tracker : Tracker fake := {|
  tracked w ns n := w !! (ns, n); listed := named |}.
Next Obligation.
  intros w ns f. unfold named. rewrite list_elem_of_fmap. split.
  - intros ([k f'] & -> & Hin). apply list_elem_of_filter in Hin as [[Hk Hns] Hin]. simpl in *. subst k.
    split; [done|by apply elem_of_map_to_list].
  - intros [Hns Hf]. exists ((ns, f_name f), f). split; [done|]. apply list_elem_of_filter.
    split; [done|by apply elem_of_map_to_list].
Qed.
Next Obligation. done. Qed.
Next Obligation. intros. by eexists. Qed.
Next Obligation. intros w ns f f' d E. simpl. by rewrite E. Qed.
Next Obligation.
  intros w ns f d E _. simpl. rewrite E. eexists. split; [done|]. intros ns' n'. case_decide as D.
  - rewrite D. apply lookup_insert_eq.
  - by apply lookup_insert_ne.
Qed.
Next Obligation. intros w ns f d E. simpl. by rewrite E. Qed.
Next Obligation.
  intros w ns f old d E _. simpl. rewrite E. eexists. split; [done|]. intros ns' n'. case_decide as D.
  - rewrite D. apply lookup_insert_eq.
  - by apply lookup_insert_ne.
Qed.
Next Obligation.
  intros w ns n d. simpl. eexists. split; [done|]. intros ns' n'. case_decide as D.
  - rewrite D. apply lookup_delete_eq.
  - by apply lookup_delete_ne.
Qed.

Definition hello : Function_ := f_set_meta zero_function (mk_meta "hello" "default" None []).
Definition calls : list fcall :=
  [CUpdate "default" hello; CCreate "default" hello; CCreate "default" hello; CGet "default" "hello";
   CUpdate "default" hello; CDelete "default" "hello"; CGet "default" "hello"; CCreate "default" hello].
Definition options : GetOptions := {| ApiClients.Typed.ResourceVersion := ""; ApiClients.Typed.IncludeUninitialized := false |}.
Definition everything : ListOptions :=
  {| ApiClients.Typed.LabelSelector := ""; ApiClients.Typed.FieldSelector := ""; ApiClients.Typed.Watch := false |}.
#[export] Instance selectors : ListSelectors :=
  {| ExtractLabel opts := Some (selects (ApiClients.Typed.LabelSelector opts)) |}.
End FakeSample.
#[export] Existing Instance FakeSample.tracker.
#[local] Existing Instance FakeSample.selectors.

Lemma fake_simulates_witness :
  Forall2 same_answer (fst (real_calls serve FakeSample.calls empty_world))
    (fst (fake_calls FakeSample.fake FakeSample.options None FakeSample.calls ∅)) /\
  exists items,
    run FakeSample.fake (fake_List (fake_Functions "default") FakeSample.everything) tt
      (snd (fake_calls FakeSample.fake FakeSample.options None FakeSample.calls ∅)) =
    (Done (Some ("", items), None), tt, snd (fake_calls FakeSample.fake FakeSample.options None FakeSample.calls ∅)) /\
    exists f, f ∈ items /\ f_name f = "hello".
Proof.
  assert (agree serve FakeSample.fake empty_world ∅) as Ha by (intros ns n; exact Logic.I).
  assert (all_admissible serve FakeSample.calls empty_world) as Hadm.
  { vm_compute. repeat match goal with |- _ /\ _ => split | |- forall old, Some _ = Some old -> _ => intros ? [= <-]
      | |- forall old, None = Some old -> _ => intros ? [=] end; try reflexivity; by left. }
  pose proof (fake_simulates serve FakeSample.fake FakeSample.options None FakeSample.calls empty_world ∅ Ha Hadm) as Hsim.
  destruct (real_calls serve FakeSample.calls empty_world) as [answers w'] eqn:Er.
  destruct (fake_calls FakeSample.fake FakeSample.options None FakeSample.calls ∅) as [answers' v'].
  destruct Hsim as (Hl & _ & Hlist). split; [exact Hl|].
  destruct (Hlist "default" FakeSample.everything) as (items & E & _ & Hitems). exists items. split; [exact E|].
  apply Hitems. apply (f_equal snd) in Er. cbn [snd] in Er. rewrite <- Er. eexists. split; reflexivity.
Defined.
