(* ===== verification/K8sUtil.v ===== *)
(** * Access to the API server (pkg/utils/k8sutil.go)

    Client configurations, the custom resource calls, autoscalers, the merge
    of a deployment template into a function's deployment, and finalizers. *)
From S2P Require Import Prelude GoStrings GoCodec GoProg KubeTypes World LangRuntime.

(** ** Third-party code *)

(** [json.Marshal] of a function, the body of a merge patch. *)
Class JsonFunction := json_Marshal_function : Function_ -> result string.

(** [mergo.Merge(&dst, src)] for deployments, and with [WithAppendSlice] for
    containers: the destination afterwards and the error. *)
Class Mergo := {
  mergo_deployment : Deployment -> Deployment -> Deployment * option gerror;
  mergo_container : Container -> Container -> Container * option gerror }.

(** [url.Parse]: what the program reads of the result. *)
Record URL := { url_Host : string; url_Hostname : string; url_String : string }.
Class UrlParse := url_Parse : string -> result URL.

(** ** Client sets *)
Section Clients.
Context {S : Type} `{OsEnv}.

(** The first non-empty value of the two variables. *)
Definition home_dir : string :=
  let home := os_Getenv "HOMEDRIVE" +:+ os_Getenv "HOMEPATH" in
  if home =?s "" then
    let home := os_Getenv "HOME" in
    if negb (home =?s "") then home else os_Getenv "USERPROFILE"
  else home.

Definition BuildOutOfClusterConfig : go S rest_config :=
  let explicitPath :=
    if os_Getenv "KUBECONFIG" =?s "" then path_Join [home_dir; ".kube"; "config"] else "" in
  must (load_client_config explicitPath).

(** A nil configuration is dereferenced when the in-cluster configuration
    fails and a token file is given. *)
Definition GetInClusterConfig : go S rest_config :=
  config ← in_cluster_config;
  let tokenFile := os_Getenv "KUBELESS_TOKEN_FILE_PATH" in
  if (String.length tokenFile =? 0)%nat then lift config
  else
    tokenBytes ← file_read tokenFile;
    match tokenBytes with
    | Error e => Throw (Errorf ("unable to read file containing oauth token: " +:+ err_msg e))
    | Ok token =>
        match config with
        | Ok c => mret (RestConfig (rc_Host c) token)
        | Error _ => Panic nil_deref
        end
    end.

Definition fatal_clients (config : go S rest_config) (clientset what : string) : go S unit :=
  c ← attempt config;
  match c with
  | Error e => Fatal ("Can not get kubernetes config: " +:+ err_msg e)
  | Ok c =>
      r ← new_for_config clientset c;
      match r with
      | Error e => Fatal (what +:+ err_msg e)
      | Ok _ => mret tt
      end
  end.

Definition GetClient : go S unit :=
  fatal_clients GetInClusterConfig "kubernetes" "Can not create kubernetes client: ".
Definition GetClientOutOfCluster : go S unit :=
  fatal_clients BuildOutOfClusterConfig "kubernetes" "Can not get kubernetes client: ".
Definition GetAPIExtensionsClientOutOfCluster : go S unit :=
  fatal_clients BuildOutOfClusterConfig "apiextensions" "Can not get kubernetes client: ".
Definition GetAPIExtensionsClientInCluster : go S unit :=
  fatal_clients GetInClusterConfig "apiextensions" "Can not get kubernetes client: ".

Definition GetFunctionClientInCluster : go S unit :=
  c ← GetInClusterConfig; must (new_for_config "kubeless" c).
Definition GetKubelessClientOutCluster : go S unit :=
  c ← BuildOutOfClusterConfig; must (new_for_config "kubeless" c).

Definition GetDefaultNamespace : go S string :=
  r ← default_namespace;
  match r with Ok ns => mret ns | Error _ => mret "default" end.

(** ** Function resources *)

Definition GetFunction (funcName ns : string) : go S Function_ :=
  GetKubelessClientOutCluster;;
  r ← kGet KFunction ns funcName;
  match r with
  | Error e => if IsNotFound e then Fatal ("Function " +:+ funcName +:+ " is not found")
               else Throw e
  | Ok f => mret f
  end.

End Clients.

Section Resources.
Context {S : Type}.

Definition CreateFunctionCustomResource (f : Function_) : go S unit :=
  must (kCreate KFunction (f_namespace f) f);; mret tt.

Definition UpdateFunctionCustomResource (f : Function_) : go S unit :=
  must (kUpdate KFunction (f_namespace f) f);; mret tt.

Definition PatchFunctionCustomResource `{JsonFunction} (f : Function_) : go S unit :=
  data ← lift (json_Marshal_function f);
  must (kPatch KFunction (f_namespace f) (f_name f) data);; mret tt.

Definition DeleteFunctionCustomResource (funcName ns : string) : go S unit :=
  must (kDelete KFunction ns funcName).

Definition GetFunctionCustomResource (funcName ns : string) : go S Function_ :=
  must (kGet KFunction ns funcName).

Definition GetPodsByLabel (ns k v : string) : go S (list Pod) :=
  must (kList KPod ns (k +:+ "=" +:+ v)).

Definition GetReadyPod (pods : list Pod) : result Pod :=
  match List.find (fun pod => forallb id (pod_ContainerReady pod)) pods with
  | Some pod => Ok pod
  | None => Error (Errorf "there is no pod ready")
  end.

Definition GetLocalHostname `{UrlParse} (config : rest_config) (funcName : string)
  : result string :=
  url ← url_Parse (rc_Host config);
  Ok (funcName +:+ "." +:+ url_Hostname url +:+ ".nip.io").

(** [body] is the marshalled body, when one is given; [unmarshal] reads the
    answer, when a result is asked for. *)
Definition doRESTReq {A} (groupVersion verb resource elem namespace : string)
    (body : option (result string)) (unmarshal : option (string -> result A))
  : go S (option A) :=
  bodyJSON ← match body with Some b => lift b | None => mret "" end;
  req ← (if verb =?s "get" then mret ("GET", elem, "")
         else if verb =?s "create" then mret ("POST", "", bodyJSON)
         else if verb =?s "update" then mret ("PUT", elem, bodyJSON)
         else Throw (Errorf ("Verb " +:+ verb +:+ " not supported")));
  let '(method, name, b) := req in
  rawResponse ← must (rest_do method name
                        ["apis"; groupVersion; "namespaces"; namespace; resource] b);
  match unmarshal with
  | Some u => x ← lift (u rawResponse); mret (Some x)
  | None => mret None
  end.

(** ** Autoscalers and service monitors *)

Definition hpa_name (h : HPA) : string := om_Name (hpa_Meta h).
Definition hpa_namespace (h : HPA) : string := om_Namespace (hpa_Meta h).

Definition CreateAutoscale (hpa : HPA) : go S unit :=
  must (kCreate KHPA (hpa_namespace hpa) hpa);; mret tt.

Definition UpdateAutoscale (hpa : HPA) : go S unit :=
  must (kUpdate KHPA (hpa_namespace hpa) hpa);; mret tt.

(** A deletion that succeeds when the object is already gone. *)
Definition delete_gone (k : kind) (ns name : string) : go S unit :=
  r ← kDelete k ns name;
  match r with
  | Ok _ => mret tt
  | Error e => if IsNotFound e then mret tt else Throw e
  end.

Definition DeleteAutoscale (name ns : string) : go S unit := delete_gone KHPA ns name.
Definition DeleteServiceMonitor (name ns : string) : go S unit :=
  delete_gone KServiceMonitor ns name.

End Resources.

(** ** Merging deployments *)

(** [make(map[string]string)] when nil. *)
Definition make_if_nil (m : gomap string) : gomap string :=
  match m with None => Some ∅ | Some _ => m end.

(** The third test creates the labels of the deployment, not the selector's. *)
Definition initializeEmptyMapsInDeployment (d : Deployment) : Deployment :=
  let meta := dpm_Meta d in
  let meta := meta_set_annotations meta (make_if_nil (om_Annotations meta)) in
  let meta := meta_set_labels meta (make_if_nil (om_Labels meta)) in
  let meta := match ds_Selector (dpm_Spec d) with
              | Some {| MatchLabels := None |} => meta_set_labels meta (Some ∅)
              | _ => meta
              end in
  let tmeta := dpm_template_meta d in
  let tmeta := meta_set_annotations tmeta (make_if_nil (om_Annotations tmeta)) in
  let tmeta := meta_set_labels tmeta (make_if_nil (om_Labels tmeta)) in
  let ps := ps_set_node_selector (dpm_podspec d)
              (make_if_nil (ps_NodeSelector (dpm_podspec d))) in
  dpm_set_podspec (dpm_set_template_meta (dpm_set_meta d meta) tmeta) ps.

Section Merge.
Context {S : Type} `{Mergo}.

(** The loop over the source's containers, from index [i]; [dst] are the
    destination's containers, of fixed length. *)
Fixpoint merge_containers (i : nat) (srcs dst : list Container)
  : go S (list Container * option gerror) :=
  match srcs with
  | [] => mret (dst, None)
  | src :: rest =>
      match dst !! i with
      | None => Panic "runtime error: index out of range"
      | Some d =>
          match mergo_container d src with
          | (_, Some e) => mret (dst, Some e)
          | (d', None) => merge_containers (i + 1) rest (<[i := d']> dst)
          end
      end
  end.

(** The destination afterwards and the error. *)
Definition MergeDeployments (destination source : Deployment)
  : go S (Deployment * option gerror) :=
  let dst := initializeEmptyMapsInDeployment destination in
  let src := initializeEmptyMapsInDeployment source in
  let '(dst, err) := mergo_deployment dst src in
  match err with
  | Some e => mret (dst, Some e)
  | None =>
      '(cs, err) ← merge_containers 0 (ps_Containers (dpm_podspec src))
                     (ps_Containers (dpm_podspec dst));
      mret (dpm_set_podspec dst (ps_set_containers (dpm_podspec dst) cs), err)
  end.

End Merge.

(** ** Finalizers *)
Section Finalizers.
Context {S : Type}.

Definition FunctionObjAddFinalizer (funcObj : Function_) (finalizerString : string) : go S unit :=
  UpdateFunctionCustomResource
    (f_set_meta funcObj (meta_set_finalizers (f_Meta funcObj)
       (om_Finalizers (f_Meta funcObj) ++ [finalizerString]))).

Definition FunctionObjHasFinalizer (funcObj : Function_) (finalizerString : string) : bool :=
  existsb (fun f => f =?s finalizerString) (om_Finalizers (f_Meta funcObj)).

Definition remove_finalizer (finalizerString : string) (fs : list string) : list string :=
  filter (fun item => item <> finalizerString) fs.

Definition FunctionObjRemoveFinalizer (funcObj : Function_) (finalizerString : string)
  : go S unit :=
  UpdateFunctionCustomResource
    (f_set_meta funcObj (meta_set_finalizers (f_Meta funcObj)
       (remove_finalizer finalizerString (om_Finalizers (f_Meta funcObj))))).

Definition GetAnnotationsFromCRD (name : string) : go S (gomap string) :=
  crd ← must (kGet KCRD "" name); mret (om_Annotations (crd_Meta crd)).

Definition GetRandString (n : nat) : go S string :=
  b ← must (rand_read n); mret (base64_RawURL b).

Definition GetSecretsAsLocalObjectReference (secrets : list string) : list LocalObjectReference :=
  (fun s => {| lor_Name := s |}) <$> filter (fun s => s <> "") secrets.

(** ** The location of the configuration (kubelessutil.go) *)

Definition getConfigLocation `{OsEnv} : go S (string * string) :=
  let controllerNamespace := os_Getenv "KUBELESS_NAMESPACE" in
  let kubelessConfig := os_Getenv "KUBELESS_CONFIG" in
  annotationsCRD ← GetAnnotationsFromCRD "functions.kubeless.io";
  let or_annotation (v key dflt : string) : string :=
    if (String.length v =? 0)%nat then default dflt (mget annotationsCRD key) else v in
  mret (or_annotation controllerNamespace "kubeless.io/namespace" "kubeless",
        or_annotation kubelessConfig "kubeless.io/config" "kubeless-config").

Definition GetKubelessConfig `{OsEnv} : go S ConfigMap :=
  l ← attempt getConfigLocation;
  match l with
  | Error e => Throw (Errorf ("Error while fetching config location: " +:+ err_msg e))
  | Ok (namespace, name) =>
      r ← kGet KConfigMap namespace name;
      match r with
      | Error e => Throw (Errorf ("Unable to read the configmap: " +:+ err_msg e))
      | Ok config => mret config
      end
  end.

End Finalizers.
