(* ===== verification/Registry.v ===== *)
(** * Docker registries (pkg/registry/registry.go)

    Where the image of a function goes, and whether it is there already: the
    registry is described by a docker-config secret, its tag list is read over
    HTTP, with a bearer token when the registry asks for one. *)
From S2P Require Import Prelude GoStrings GoRegexp GoProg KubeTypes World.

Record Credentials := {
  Username : string; Password : string; Email : string; Auth : string }.

Definition zero_credentials : Credentials :=
  {| Username := ""; Password := ""; Email := ""; Auth := "" |}.

Record Registry := { Endpoint : string; Version : string; Creds : Credentials }.

(** [json.Unmarshal] of package encoding/json into the structs of the
    package: the auths of a docker configuration, the names of a v1 tag list,
    the tags of a v2 one, and the token of an authentication response. *)
Class RegistryJson := {
  json_dockerCfg : string -> result (gomap Credentials);
  json_tagv1 : string -> result (list string);
  json_tagListV2 : string -> result (list string);
  json_authResponse : string -> result string }.

(** An http or https address in group 1, a path element "v" and digits in
    group 2, an optional final slash. *)
Definition re_registry : re :=
  RSeq (RGroup (RSeq (RLit "http") (RSeq (ROpt (Ascii.eqb "s")) (RSeq (RLit "://")
         (RStar (fun c => negb (Ascii.eqb newline c)))))))
    (RSeq (RLit "/") (RSeq (RGroup (RSeq (RLit "v") (RPlus is_digit))) (ROpt (Ascii.eqb "/")))).

(** The property's name, an equals sign and a quoted value. *)
Definition re_property (property : string) : re :=
  RSeq (RLit property) (RSeq (RLit "=") (RSeq (RChar (Ascii.eqb dquote))
    (RSeq (RGroup (RStar (fun c => negb (Ascii.eqb dquote c)))) (RChar (Ascii.eqb dquote))))).

(** [%q] of a list of strings. *)
Definition quoted (l : list string) : string :=
  "[" +:+ Join ((fun s => String dquote s +:+ String dquote "") <$> l) " " +:+ "]".

Section Operations.
Context {S : Type} `{RegistryJson} `{MapRange}.

(** A secret without any registry makes [regs[0]] panic. *)
Definition New (config : Secret) : go S Registry :=
  auths ← lift (json_dockerCfg (mstr (sec_Data config) ".dockerconfigjson"));
  let regs := fst <$> map_range auths in
  if (1 <? length regs)%nat then
    Throw (Errorf ("Found several registries: " +:+ quoted regs
                   +:+ ", unable to decide which one to use"))
  else
    registryURL ← index regs 0;
    match FindStringSubmatch re_registry registryURL with
    | [] => Throw (Errorf ("Unable to parse registry URL " +:+ registryURL))
    | parsedURL =>
        endpoint ← index parsedURL 1;
        version ← index parsedURL 2;
        mret {| Endpoint := endpoint; Version := version;
                Creds := default zero_credentials (mget auths registryURL) |}
    end.

Definition unsupported (r : Registry) : gerror :=
  Errorf ("API version " +:+ Version r +:+ " not supported").

Definition getTags (r : Registry) (body : string) : result (list string) :=
  if Version r =?s "v1" then json_tagv1 body
  else if Version r =?s "v2" then json_tagListV2 body
  else Error (unsupported r).

Definition tagURL (r : Registry) (img : string) : result string :=
  if Version r =?s "v1" then
    Ok (Endpoint r +:+ "/" +:+ Version r +:+ "/repositories/" +:+ img +:+ "/tags")
  else if Version r =?s "v2" then
    Ok (Endpoint r +:+ "/" +:+ Version r +:+ "/" +:+ img +:+ "/tags/list")
  else Error (unsupported r).

(** The property names in use have no regexp metacharacters. *)
Definition findProperty (src property : string) : result string :=
  match FindStringSubmatch (re_property property) src with
  | [_; v] => Ok v
  | _ => Error (Errorf ("Unable to find the property " +:+ property +:+ " in " +:+ src))
  end.

Definition wrap {A} (msg : string) (r : result A) : result A :=
  match r with Ok a => Ok a | Error e => Error (Errorf (msg +:+ err_msg e)) end.

Definition doRequestWithAuth (authInfo url : string) : go S string :=
  bearer ← lift (wrap "Unable to extract auth info: " (findProperty authInfo "Bearer realm"));
  service ← lift (wrap "Unable to extract auth info: " (findProperty authInfo "service"));
  scope ← lift (wrap "Unable to extract auth info: " (findProperty authInfo "scope"));
  authResp ← http_get (bearer +:+ "?service=" +:+ service +:+ "&scope=" +:+ scope) None;
  authResp ← lift (wrap "Unable to obtain auth token: " authResp);
  authb ← lift (hr_Body authResp);
  token ← lift (wrap "Unable to parse auth token: " (json_authResponse authb));
  respWithAuth ← must (http_get url (Some ("Bearer " +:+ token)));
  lift (hr_Body respWithAuth).

(** [%v] of a byte slice. *)
Definition bytes_v (s : string) : string :=
  "[" +:+ Join ((fun c => Itoa (Z.of_nat (nat_of_ascii c))) <$> chars s) " " +:+ "]".

Definition doRequest (url : string) : go S string :=
  resp ← must (http_get url None);
  body ← lift (hr_Body resp);
  if (hr_Status resp =? 401)%Z then
    if hr_WwwAuthenticate resp =?s "" then
      Throw (Errorf ("Failed to authenticate: unknown authentication format: " +:+ bytes_v body))
    else doRequestWithAuth (hr_WwwAuthenticate resp) url
  else mret body.

Definition ImageExists (r : Registry) (id tag : string) : go S bool :=
  url ← lift (tagURL r id);
  body ← doRequest url;
  if MatchString (RLit "Resource not found") body then mret false
  else
    tags ← lift (getTags r body);
    mret (existsb (fun t => t =?s tag) tags).

End Operations.
