(* ===== verification/Content.v ===== *)
(** * Function content (pkg/utils/kubelessutil.go, last part)

    The content type of a function file, its text and its checksum, as the
    command line computes them for the function resource. *)
From S2P Require Import Prelude GoStrings GoCodec GoProg World K8sUtil.

Definition tar_extensions : list string :=
  [".tar.gz"; ".taz"; ".tgz"; ".tar.bz2"; ".tb2"; ".tbz"; ".tbz2"; ".tz2"; ".tar.xz"].

Definition getCompressionType (filename : string) : string :=
  let compressionType := if HasSuffix filename ".zip" then "+zip" else "" in
  if existsb (fun ext => HasSuffix filename ext) tar_extensions then "+compressedtar"
  else compressionType.

Section Operations.
Context {S : Type}.

Definition is_url (filename : string) : bool :=
  (Index filename "http://" =? 0)%Z || (Index filename "https://" =? 0)%Z.

Definition GetContentType (filename : string) : go S string :=
  if is_url filename then
    f ← index (Split filename "?"%char) 0;
    mret ("url" +:+ getCompressionType f)
  else
    fbytes ← must (file_read filename);
    let contentType := if utf8_ValidString fbytes then "text" else "base64" in
    mret (contentType +:+ getCompressionType filename).

(** [h.Write] of a hash never fails. *)
Definition getSha256 (bytes : string) : string := "sha256:" +:+ sha256_hex bytes.

(** The file is opened and copied into the hash. *)
Definition getFileSha256 (file : string) : go S string :=
  must (file_open file);;
  bytes ← must (file_read file);
  mret ("sha256:" +:+ sha256_hex bytes).

(** Content and checksum.  The address is downloaded, the file is read twice. *)
Definition ParseContent `{UrlParse} (file contentType : string) : go S (string * string) :=
  if Contains contentType "url" then
    functionURL ← lift (url_Parse file);
    resp ← must (http_get (url_String functionURL) None);
    functionBytes ← lift (hr_Body resp);
    mret (functionBytes, getSha256 functionBytes)
  else
    functionBytes ← must (file_read file);
    let content := if contentType =?s "text" then functionBytes
                   else base64_EncodeToString functionBytes in
    checksum ← getFileSha256 file;
    mret (content, checksum).

(** [json.MarshalIndent] and [yaml.Marshal] of the value are given. *)
Definition DryRunFmt (format : string) (json yaml : result string) : result string :=
  if format =?s "json" then json
  else if format =?s "yaml" then yaml
  else Error (Errorf "Output format needs to be yaml or json").

End Operations.
