(* ===== verification/PodSpec.v ===== *)
(** * Pod specifications (pkg/utils/kubelessutil.go, first half)

    How the controller turns a function into a pod: the init containers that
    fetch, verify and unpack the source, install its dependencies and compile
    it, with the volumes they share. *)
From S2P Require Import Prelude GoStrings GoCodec GoProg KubeTypes World LangRuntime Memory.

Definition secretsMountPath : string := "/var/run/secrets/kubeless.io".

Definition getRuntimeVolumeMount (name : string) : VolumeMount :=
  {| vm_Name := name; vm_ReadOnly := false; vm_MountPath := "/kubeless" |}.

(** [h.Write] of a hash never fails. *)
Definition getChecksum (content : string) : string := sha256_hex content.

Definition splitHandler (handler : string) : result (string * string) :=
  match Split handler "."%char with
  | [m; f] => Ok (m, f)
  | _ => Error (Errorf "failed: incorrect handler format. It should be module_name.handler_name")
  end.

Definition getFileName (handler funcContentType runtime : string) (lr : Langruntimes)
  : result string :=
  '(modName, _) ← splitHandler handler;
  let filename := modName in
  if (funcContentType =?s "text") || (funcContentType =?s "") ||
     (funcContentType =?s "url") || (funcContentType =?s "base64") then
    match GetRuntimeInfo lr runtime with
    | Ok runtimeInf => Ok (modName +:+ ri_FileNameSuffix runtimeInf)
    | Error _ => Ok filename
    end
  else Ok filename.

(** The container that prepares the function's files.  A checksum "sha256"
    without a colon makes [checksumInfo[1]] panic. *)
Definition getProvisionContainer {S} (function checksum fileName handler contentType runtime
    prepareImage : string) (runtimeVolume depsVolume : VolumeMount)
    (resources : ResourceRequirements) (lr : Langruntimes) : go S Container :=
  let originFile := path_Join [vm_MountPath depsVolume; fileName] in
  '(prepareCommand, originFile) ←
    (if Contains contentType "base64" then
       let decodedFile := "/tmp/func.decoded" in
       mret (appendToCommand "" ["base64 -d < " +:+ originFile +:+ " > " +:+ decodedFile],
             decodedFile)
     else if Contains contentType "url" then
       let fromURLFile := "/tmp/func.fromurl" in
       mret (appendToCommand "" ["curl '" +:+ function +:+ "' -L --silent --output "
                                 +:+ fromURLFile], fromURLFile)
     else if Contains contentType "text" || (contentType =?s "") then
       mret ("", originFile)
     else Throw (Errorf ("Unable to prepare function of type " +:+ contentType
                         +:+ ": Unknown format")));
  prepareCommand ←
    (if checksum =?s "" then mret prepareCommand
     else
       let checksumInfo := Split checksum ":"%char in
       kind ← index checksumInfo 0;
       if kind =?s "sha256" then
         let shaFile := "/tmp/func.sha256" in
         sum ← index checksumInfo 1;
         mret (appendToCommand prepareCommand (sha256_check sum originFile shaFile))
       else Throw (Errorf ("Unable to verify checksum " +:+ checksum +:+ ": Unknown format")));
  prepareCommand ←
    (if Contains contentType "zip" then
       mret (appendToCommand prepareCommand
               ["unzip -o " +:+ originFile +:+ " -d " +:+ vm_MountPath runtimeVolume])
     else if Contains contentType "compressedtar" then
       mret (appendToCommand prepareCommand
               ["tar xf " +:+ originFile +:+ " -C " +:+ vm_MountPath runtimeVolume])
     else
       destFileName ← lift (getFileName handler contentType runtime lr);
       let dest := path_Join [vm_MountPath runtimeVolume; destFileName] in
       mret (appendToCommand prepareCommand ["cp " +:+ originFile +:+ " " +:+ dest]));
  let prepareCommand :=
    match GetRuntimeInfo lr runtime with
    | Ok runtimeInf =>
        if negb (ri_DepName runtimeInf =?s "") && negb (Contains contentType "deps") then
          let depsFile := path_Join [vm_MountPath depsVolume; ri_DepName runtimeInf] in
          appendToCommand prepareCommand
            ["cp " +:+ depsFile +:+ " " +:+ vm_MountPath runtimeVolume]
        else prepareCommand
    | Error _ => prepareCommand
    end in
  mret {| c_Name := "prepare"; c_Image := prepareImage; c_Command := shell;
          c_Args := [prepareCommand]; c_WorkingDir := ""; c_Ports := []; c_Env := [];
          c_Resources := resources; c_VolumeMounts := [runtimeVolume; depsVolume];
          c_LivenessProbe := None; c_ImagePullPolicy := PullIfNotPresent |}.

(** ** populatePodSpec *)

(** The volumes after making sure one mounts the secret: the first volume of
    that name decides whether the secret is mounted, or the name is taken. *)
Fixpoint find_secret_volume (vols : list Volume) (name : string) : result bool :=
  match vols with
  | [] => Ok false
  | vol :: rest =>
      if vol_Name vol =?s name then
        match vol_Source vol with
        | SecretSource sn =>
            if sn =?s name then Ok true
            else Error (Errorf ("Unable to add volume for secret " +:+ name
                                +:+ ", volume already defined"))
        | _ => Error (Errorf ("Unable to add volume for secret " +:+ name
                              +:+ ", volume already defined"))
        end
      else find_secret_volume rest name
  end.

Definition ensure_secret_volume (vols : list Volume) (name : string) : result (list Volume) :=
  found ← find_secret_volume vols name;
  if (found : bool) then Ok vols
  else Ok (vols ++ [{| vol_Name := name; vol_Source := SecretSource name |}]).

Definition secret_mount (name : string) : VolumeMount :=
  {| vm_Name := name; vm_ReadOnly := true;
     vm_MountPath := path_Join [secretsMountPath; name] |}.

(** The inner loop over the secrets of one init container. *)
Fixpoint add_secrets (secrets : list LocalObjectReference) (vols : list Volume) (c : Container)
  : result (list Volume * Container) :=
  match secrets with
  | [] => Ok (vols, c)
  | secret :: rest =>
      vols' ← ensure_secret_volume vols (lor_Name secret);
      add_secrets rest vols' (container_add_mounts c [secret_mount (lor_Name secret)])
  end.

(** The loop over the init containers. *)
Fixpoint mount_secrets (lr : Langruntimes) (runtime : string) (vols : list Volume)
    (cs : list Container) : result (list Volume * list Container) :=
  match cs with
  | [] => Ok (vols, [])
  | c :: rest =>
      match GetInitContainerSecrets lr runtime (c_Name c) with
      | Error e => Error (Errorf ("Unable to fetch init container secrets for runtime "
            +:+ runtime +:+ " at phase " +:+ c_Name c +:+ ": " +:+ err_msg e))
      | Ok secrets =>
          '(vols1, c1) ← add_secrets secrets vols c;
          '(vols2, cs2) ← mount_secrets lr runtime vols1 rest;
          Ok (vols2, c1 :: cs2)
      end
  end.

Section Populate.
Context `{YamlRuntimes} `{MapRange}.

Definition populatePodSpec (funcObj : Function_) (podSpec : PodSpec)
    (runtimeVolumeMount : VolumeMount) (provisionImage : string)
    (imagePullSecrets : list LocalObjectReference) : go mem PodSpec :=
  let spec := f_Spec funcObj in
  let depsVolumeName := f_name funcObj +:+ "-deps" in
  let result :=
    if (0 <? length imagePullSecrets)%nat then ps_set_secrets podSpec imagePullSecrets
    else podSpec in
  let result := ps_set_volumes result (ps_Volumes podSpec ++
    [{| vol_Name := vm_Name runtimeVolumeMount; vol_Source := EmptyDir |};
     {| vol_Name := depsVolumeName; vol_Source := ConfigMapSource (f_name funcObj) |}]) in
  let resources :=
    match ps_InitContainers (dpm_podspec (fs_Deployment spec)) with
    | c :: _ => c_Resources c
    | [] => zero_resources
    end in
  lr ← get_lr;
  result ←
    (if negb (fs_Function spec =?s "") then
       fileName ← lift (getFileName (fs_Handler spec) (fs_FunctionContentType spec)
                          (fs_Runtime spec) lr);
       let srcVolumeMount :=
         {| vm_Name := depsVolumeName; vm_ReadOnly := false; vm_MountPath := "/src" |} in
       provisionContainer ← getProvisionContainer (fs_Function spec) (fs_Checksum spec) fileName
         (fs_Handler spec) (fs_FunctionContentType spec) (fs_Runtime spec) provisionImage
         runtimeVolumeMount srcVolumeMount resources lr;
       mret (ps_set_init result [provisionContainer])
     else mret result);
  result ←
    (if negb (fs_Runtime spec =?s "") then
       match GetImageSecrets lr (fs_Runtime spec) with
       | Error e => Throw (Errorf ("Unable to fetch ImagePullSecrets, " +:+ err_msg e))
       | Ok imageSecrets =>
           mret (ps_set_secrets result (ps_ImagePullSecrets result ++ imageSecrets))
       end
     else mret result);
  let info := GetRuntimeInfo lr (fs_Runtime spec) in
  let envVars := match ps_Containers result with c :: _ => c_Env c | [] => [] end in
  let hasDeps :=
    negb (fs_Deps spec =?s "") || Contains (fs_FunctionContentType spec) "deps" in
  result ←
    (if hasDeps && negb (is_ok info) then
       Throw (Errorf ("Unable to install dependencies for the runtime " +:+ fs_Runtime spec))
     else if hasDeps then
       let depsChecksum :=
         if negb (fs_Deps spec =?s "") then getChecksum (fs_Deps spec) else "" in
       depsInstallContainer ← lift (GetBuildContainer lr (fs_Runtime spec) depsChecksum envVars
                                      runtimeVolumeMount resources);
       if negb (c_Name depsInstallContainer =?s "") then
         mret (ps_set_init result (ps_InitContainers result ++ [depsInstallContainer]))
       else mret result
     else mret result);
  let funcName := match splitHandler (fs_Handler spec) with Ok (_, f) => f | Error _ => "" end in
  compContainer ← lift (GetCompilationContainer lr (fs_Runtime spec) funcName envVars
                          runtimeVolumeMount resources);
  let result :=
    match compContainer with
    | Some c => ps_set_init result (ps_InitContainers result ++ [c])
    | None => result
    end in
  lr' ← ReadConfigMap lr;
  put_lr lr';;
  '(vols, cs) ← lift (mount_secrets lr' (fs_Runtime spec) (ps_Volumes result)
                        (ps_InitContainers result));
  mret (ps_set_init (ps_set_volumes result vols) cs).

End Populate.

(** ** Properties *)

Section Handlers.

(** A handler is accepted exactly when it is a module and a function
    name, both free of dots, joined by a dot; the two parts are returned. *)
Theorem splitHandler_spec h m f :
  splitHandler h = Ok (m, f) <->
  h = m +:+ "." +:+ f /\ lacks "."%char m /\ lacks "."%char f.
Proof.
  unfold splitHandler. split.
  - pose proof (Split_pieces_lack h "."%char) as Hl.
    pose proof (Join_Split h "."%char) as Hj.
    destruct (Split h "."%char) as [|x [|y []]]; try done. intros [= -> ->].
    rewrite !Forall_cons in Hl. destruct Hl as (? & ? & _). by rewrite <- Hj.
  - intros (-> & Hm & Hf). change ("." +:+ f) with (String "."%char f).
    by rewrite Split_single_sep.
Qed.

(** The file name never has more than one dot before the runtime's suffix,
    and starts with the module. *)
Lemma getFileName_module h ct rt lr fn :
  getFileName h ct rt lr = Ok fn -> exists m f sfx, splitHandler h = Ok (m, f) /\ fn = m +:+ sfx.
Proof.
  unfold getFileName. destruct (splitHandler h) as [[m f]|e]; cbn; [|done].
  intros Hfn. exists m, f. crush_match; eexists; (split; [done|]);
    first [done | by rewrite string_app_empty_r].
Qed.

End Handlers.

Section Volumes.

(** Every mount of the container names one of the volumes. *)
Definition mounted (vols : list Volume) (c : Container) : Prop :=
  Forall (fun m => vm_Name m ∈ vol_Name <$> vols) (c_VolumeMounts c).

Lemma mounted_mono vols vols' c :
  vol_Name <$> vols ⊆ vol_Name <$> vols' -> mounted vols c -> mounted vols' c.
Proof. intros Hs Hc. eapply Forall_impl; [exact Hc|]. intros m. apply Hs. Qed.

Lemma find_secret_volume_false vols name :
  find_secret_volume vols name = Ok false -> name ∉ vol_Name <$> vols.
Proof.
  induction vols as [|v vols IH]; cbn; [by intros _ ?%elem_of_nil|].
  case_streq; subst; [crush_match|]. rewrite elem_of_cons. naive_solver.
Qed.

Lemma find_secret_volume_true vols name :
  find_secret_volume vols name = Ok true -> name ∈ vol_Name <$> vols.
Proof.
  induction vols as [|v vols IH]; cbn; [done|].
  case_streq; subst; [left|right; auto].
Qed.

(** [vols'] is [vols] followed by secret volumes of new, distinct names. *)
Definition extends (vols vols' : list Volume) : Prop :=
  exists names, vols' = vols ++ ((fun n => {| vol_Name := n; vol_Source := SecretSource n |}) <$> names)
    /\ NoDup names /\ Forall (fun n => n ∉ vol_Name <$> vols) names.

Lemma extends_refl vols : extends vols vols.
Proof. exists []. by rewrite app_nil_r; repeat constructor. Qed.

Lemma extends_names vols names :
  vol_Name <$> (vols ++ ((fun n => {| vol_Name := n; vol_Source := SecretSource n |}) <$> names))
  = (vol_Name <$> vols) ++ names.
Proof. rewrite fmap_app, <- list_fmap_compose. f_equal. by rewrite <- (list_fmap_id names) at 2. Qed.

Lemma extends_trans a b c : extends a b -> extends b c -> extends a c.
Proof.
  intros (n1 & -> & Hn1 & Hf1) (n2 & -> & Hn2 & Hf2). exists (n1 ++ n2).
  rewrite fmap_app, app_assoc. split; [done|].
  rewrite extends_names in Hf2. rewrite Forall_forall in Hf1, Hf2. split.
  - apply NoDup_app. split_and!; [done| |done]. intros x Hx Hx2.
    apply (Hf2 x Hx2). apply elem_of_app. by right.
  - apply Forall_app. split; apply Forall_forall; [done|]. intros x Hx Hin.
    apply (Hf2 x Hx). apply elem_of_app. by left.
Qed.

Lemma extends_subseteq a b : extends a b -> vol_Name <$> a ⊆ vol_Name <$> b.
Proof. intros (n & -> & _). rewrite extends_names. set_solver. Qed.

Lemma extends_NoDup a b : extends a b -> NoDup (vol_Name <$> a) -> NoDup (vol_Name <$> b).
Proof.
  intros (n & -> & Hn & Hf) Ha. rewrite extends_names. apply NoDup_app.
  rewrite Forall_forall in Hf. split_and!; [done| |done]. intros x Hx Hx'. by apply (Hf x).
Qed.

Lemma ensure_secret_volume_ok vols name vols' :
  ensure_secret_volume vols name = Ok vols' ->
  extends vols vols' /\ name ∈ vol_Name <$> vols'.
Proof.
  unfold ensure_secret_volume. destruct (find_secret_volume vols name) as [[]|] eqn:E; cbn; [..|done].
  - intros [= <-]. split; [apply extends_refl|by apply find_secret_volume_true].
  - intros [= <-]. apply find_secret_volume_false in E. split.
    + exists [name]. split_and!; [done|apply NoDup_singleton|by repeat constructor].
    + rewrite fmap_app, elem_of_app. right. by left.
Qed.

Lemma add_secrets_ok secrets vols c vols' c' :
  add_secrets secrets vols c = Ok (vols', c') ->
  extends vols vols' /\ c_Name c' = c_Name c /\ (mounted vols c -> mounted vols' c').
Proof.
  revert vols c. induction secrets as [|[n] secrets IH]; intros vols c; cbn.
  - intros [= <- <-]. split; [apply extends_refl|done].
  - destruct (ensure_secret_volume vols n) as [vols1|] eqn:E; cbn; [|done].
    apply ensure_secret_volume_ok in E as [Hext Hin].
    intros (Hext' & Hn & Hm)%IH. split_and!; [by eapply extends_trans|done|].
    intros Hc. apply Hm. apply Forall_app. split.
    + eapply mounted_mono; [by apply extends_subseteq|done].
    + by repeat constructor.
Qed.

Lemma mount_secrets_ok lr rt cs vols vols' cs' :
  mount_secrets lr rt vols cs = Ok (vols', cs') ->
  extends vols vols' /\ c_Name <$> cs' = c_Name <$> cs /\
  (Forall (mounted vols) cs -> Forall (mounted vols') cs').
Proof.
  revert vols vols' cs'. induction cs as [|c cs IH]; intros vols vols' cs'; cbn.
  - intros [= <- <-]. split_and!; [apply extends_refl|done|by constructor].
  - destruct (GetInitContainerSecrets _ _ _) as [secrets|]; [|done]. cbn.
    destruct (add_secrets secrets vols c) as [[vols1 c1]|] eqn:E1; cbn; [|done].
    destruct (mount_secrets lr rt vols1 cs) as [[vols2 cs2]|] eqn:E2; cbn; [|done].
    intros [= <- <-]. apply add_secrets_ok in E1 as (Hx1 & Hn1 & Hm1).
    apply IH in E2 as (Hx2 & Hn2 & Hm2). split_and!; [by eapply extends_trans|by rewrite !fmap_cons, Hn1, Hn2|].
    rewrite !Forall_cons. intros [Hc Hcs]. split.
    + eapply mounted_mono; [by apply extends_subseteq|auto].
    + apply Hm2. eapply Forall_impl; [done|]. intros x. apply mounted_mono.
      by apply extends_subseteq.
Qed.

End Volumes.

Section Populated.
Context `{YamlRuntimes} `{MapRange}.

Lemma getProvisionContainer_runs {S} fn sum file h ct rt img rv dv res lr (s : S) tr :
  runs (getProvisionContainer fn sum file h ct rt img rv dv res lr) s tr
    (fun s' tr' o => s' = s /\ tr' = tr /\
       forall c, o = Done c -> c_Name c = "prepare" /\ c_VolumeMounts c = [rv; dv]).
Proof.
  unfold getProvisionContainer.
  repeat first [ rewrite runs_bind | rewrite runs_index | rewrite runs_lift
    | progress cbn [runs mret prog_ret] | progress cbv zeta | case_match ];
    split_and!; try done; intros c [= <-]; done.
Qed.

Lemma GetBuildContainer_ok l rt sum env v res c :
  GetBuildContainer l rt sum env v res = Ok c ->
  c = zero_container \/ (c_Name c = "install" /\ c_VolumeMounts c = [v]).
Proof.
  unfold GetBuildContainer. destruct (GetRuntimeInfo l rt); cbn; [|done].
  destruct (findRuntimeVersion l rt); cbn; [|done].
  destruct (findImage _ _); intros [= <-]; [by right|by left].
Qed.

Lemma GetCompilationContainer_ok l rt fn env v res c :
  GetCompilationContainer l rt fn env v res = Ok (Some c) ->
  c_Name c = "compile" /\ c_VolumeMounts c = [v].
Proof.
  unfold GetCompilationContainer. destruct (findRuntimeVersion l rt); cbn; [|done].
  destruct (findImage _ _); by intros [= <-].
Qed.

Definition init_names (names : list string) : Prop :=
  exists install compile, names = "prepare" :: install ++ compile /\
    (install = [] \/ install = ["install"]) /\ (compile = [] \/ compile = ["compile"]).

(** The volumes populatePodSpec starts from. *)
Definition base_volumes (f : Function_) (ps : PodSpec) (rv : VolumeMount) : list Volume :=
  ps_Volumes ps ++ [{| vol_Name := vm_Name rv; vol_Source := EmptyDir |};
                    {| vol_Name := f_name f +:+ "-deps"; vol_Source := ConfigMapSource (f_name f) |}].

(** What populatePodSpec guarantees of its result, without the volumes'
    distinctness. *)
Definition populated (f : Function_) (ps : PodSpec) (rv : VolumeMount) (ps' : PodSpec) : Prop :=
  ps_Containers ps' = ps_Containers ps /\
  extends (base_volumes f ps rv) (ps_Volumes ps') /\
  init_names (c_Name <$> ps_InitContainers ps') /\
  Forall (mounted (ps_Volumes ps')) (ps_InitContainers ps').

(** The pod specification while it is being populated. *)
Definition stage (f : Function_) (ps : PodSpec) (rv : VolumeMount) (ps' : PodSpec)
    (names : list string) : Prop :=
  ps_Containers ps' = ps_Containers ps /\
  ps_Volumes ps' = base_volumes f ps rv /\
  c_Name <$> ps_InitContainers ps' = names /\
  Forall (mounted (base_volumes f ps rv)) (ps_InitContainers ps').

Lemma base_volumes_in f ps rv :
  vm_Name rv ∈ vol_Name <$> base_volumes f ps rv /\
  (f_name f +:+ "-deps") ∈ vol_Name <$> base_volumes f ps rv.
Proof.
  unfold base_volumes. rewrite fmap_app, !elem_of_app. cbn.
  split; right; [by left|by right; left].
Qed.

Lemma stage_add f ps rv ps' names c :
  stage f ps rv ps' names -> c_VolumeMounts c = [rv] ->
  stage f ps rv (ps_set_init ps' (ps_InitContainers ps' ++ [c])) (names ++ [c_Name c]).
Proof.
  intros (Hc & Hv & Hn & Hm) Hmount. split_and!; [done|done| |].
  - cbn. by rewrite fmap_app, Hn.
  - cbn. apply Forall_app. split; [done|]. repeat constructor. unfold mounted. rewrite Hmount.
    repeat constructor. apply base_volumes_in.
Qed.

Lemma stage_done f ps rv ps' names vols cs lr rt :
  stage f ps rv ps' names -> init_names names ->
  mount_secrets lr rt (ps_Volumes ps') (ps_InitContainers ps') = Ok (vols, cs) ->
  populated f ps rv (ps_set_init (ps_set_volumes ps' vols) cs).
Proof.
  intros (Hc & Hv & Hn & Hm) Hnames (Hx & Hcn & Hmm)%mount_secrets_ok. rewrite Hv in Hx, Hmm.
  split_and!; cbn; [done|done|by rewrite Hcn, Hn|auto].
Qed.

Lemma keeps_getProvisionContainer {S} (I : S -> trace -> Prop) fn sum file h ct rt img rv dv res lr :
  keeps I (getProvisionContainer fn sum file h ct rt img rv dv res lr).
Proof.
  intros s tr HI. eapply runs_mono; [|apply getProvisionContainer_runs].
  by intros s' tr' o (-> & -> & _).
Qed.
Hint Resolve keeps_getProvisionContainer : keeps.

Lemma keeps_populatePodSpec I f ps rv img secrets :
  heap_inv I -> keeps I (populatePodSpec f ps rv img secrets).
Proof. intros HI. unfold populatePodSpec. keeps_auto. Qed.

Lemma stage_prepare f ps rv secrets c :
  c_Name c = "prepare" ->
  c_VolumeMounts c = [rv; {| vm_Name := f_name f +:+ "-deps"; vm_ReadOnly := false;
                             vm_MountPath := "/src" |}] ->
  stage f ps rv (ps_set_init (ps_set_volumes
      (if (0 <? length secrets)%nat then ps_set_secrets ps secrets else ps)
      (base_volumes f ps rv)) [c]) ["prepare"].
Proof.
  intros Hn Hm. split_and!; [by case_match|done|by cbn; rewrite Hn|].
  repeat constructor. unfold mounted. rewrite Hm. repeat constructor; apply base_volumes_in.
Qed.

Lemma populatePodSpec_populated f ps rv img secrets s tr :
  fs_Function (f_Spec f) <> "" ->
  ensures (populatePodSpec f ps rv img secrets) s tr (fun _ _ ps' => populated f ps rv ps').
Proof.
  intros Hfn. apply streq_false in Hfn.
  unfold populatePodSpec. cbv zeta. rewrite Hfn. cbn [negb].
  eapply ensures_bind; [apply ensures_true|intros s1 tr1 lr _].
  eapply ensures_bind with (M := fun _ _ p => stage f ps rv p ["prepare"]).
  { eapply ensures_bind; [apply ensures_lift; intros ? _; exact Logic.I|intros s2 tr2 fileName _].
    eapply ensures_bind with (M := fun _ _ c => c_Name c = "prepare" /\ c_VolumeMounts c = _).
    - eapply runs_mono; [|apply getProvisionContainer_runs]. by intros ??? (_ & _ & Hc).
    - intros s3 tr3 c [Hn Hm]. by apply ensures_ret, stage_prepare. }
  intros s2 tr2 p1 Hp1.
  eapply ensures_bind with (M := fun _ _ p => stage f ps rv p ["prepare"]).
  { case_match; [case_match; [by apply ensures_ret|apply ensures_throw]|by apply ensures_ret]. }
  clear dependent p1. intros s3 tr3 p1 Hp1.
  eapply ensures_bind with (M := fun _ _ p =>
    exists i, stage f ps rv p ("prepare" :: i) /\ (i = [] \/ i = ["install"])).
  { case_match; [apply ensures_throw|]. case_match; [|apply ensures_ret; eauto].
    eapply ensures_bind; [apply ensures_lift; intros c Hc; exact (GetBuildContainer_ok _ _ _ _ _ _ _ Hc)|].
    intros s4 tr4 c [->|[Hn Hm]]; cbn -[stage]; [apply ensures_ret; eauto|].
    rewrite Hn. apply ensures_ret. exists ["install"]. split; [|by right].
    rewrite <- Hn. by apply (stage_add f ps rv p1 ["prepare"] c). }
  intros s4 tr4 p2 (i & Hp2 & Hi).
  eapply ensures_bind; [apply ensures_lift; intros c Hc; exact Hc|]. intros s5 tr5 oc Hoc. cbn beta in Hoc.
  eapply ensures_bind; [apply ensures_true|].
  intros s6 tr6 lr' _.
  eapply ensures_bind; [apply ensures_true|].
  intros s7 tr7 _ _.
  eapply ensures_bind; [apply ensures_lift; intros c Hc; exact Hc|]. intros s8 tr8 [vols cs] Hms.
  apply ensures_ret. destruct oc as [c|].
  - apply GetCompilationContainer_ok in Hoc as [Hn Hm].
    eapply stage_done; [by apply stage_add| |done]. exists i, ["compile"]. rewrite Hn. auto.
  - eapply stage_done; [done| |done]. exists i, []. rewrite app_nil_r. auto.
Qed.

Lemma base_volumes_NoDup f ps rv :
  NoDup (vol_Name <$> ps_Volumes ps) ->
  vm_Name rv ∉ vol_Name <$> ps_Volumes ps ->
  (f_name f +:+ "-deps") ∉ vol_Name <$> ps_Volumes ps ->
  vm_Name rv <> f_name f +:+ "-deps" -> NoDup (vol_Name <$> base_volumes f ps rv).
Proof.
  intros Hps Hr Hd Hrd. unfold base_volumes. rewrite fmap_app. cbn.
  apply NoDup_app. split_and!; [done| |].
  - intros x Hx Hin. rewrite !elem_of_cons, elem_of_nil in Hin. naive_solver.
  - repeat constructor; rewrite ?elem_of_cons, ?elem_of_nil; naive_solver.
Qed.

Lemma name_not_deps (name : string) : name <> name +:+ "-deps".
Proof. intros E%(f_equal String.length). rewrite string_length_app in E. simpl in E. lia. Qed.

(** C27.  A populated pod specification is well formed: its init containers are
    "prepare", then "install" and "compile" when the runtime has them, each of
    them mounts only volumes of the pod, volume names are distinct, the
    containers are untouched, and nothing is asked of the API server. The only
    assumption is that the volumes the user supplied have distinct names and
    leave the two names of the function alone. *)
Theorem populatePodSpec_wf f ps img secrets s tr
    (Hfn : fs_Function (f_Spec f) <> "")
    (Hnd : NoDup (vol_Name <$> ps_Volumes ps))
    (Hname : f_name f ∉ vol_Name <$> ps_Volumes ps)
    (Hdeps : (f_name f +:+ "-deps") ∉ vol_Name <$> ps_Volumes ps) :
  ensures (populatePodSpec f ps (getRuntimeVolumeMount (f_name f)) img secrets) s tr
    (fun s' tr' ps' => (tr' = tr /\ m_heap s' = m_heap s) /\
       init_names (c_Name <$> ps_InitContainers ps') /\
       Forall (mounted (ps_Volumes ps')) (ps_InitContainers ps') /\
       NoDup (vol_Name <$> ps_Volumes ps') /\
       ps_Containers ps' = ps_Containers ps).
Proof.
  apply (ensures_keeps _ (fun s' tr' => tr' = tr /\ m_heap s' = m_heap s)); [|done|].
  - apply keeps_populatePodSpec. by intros s' l tr' [-> Hs].
  - eapply ensures_mono; [|by apply populatePodSpec_populated].
    intros s' tr' ps' (Hc & Hx & Hn & Hm). split_and!; [done..| |done].
    eapply extends_NoDup; [done|]. apply base_volumes_NoDup; [done..|]. apply name_not_deps.
Qed.

End Populated.

(** The function of the controller's tests, with dependencies. *)
Definition test_function : Function_ :=
  {| f_Type := {| tm_Kind := "Function"; tm_APIVersion := "kubeless.io/v1beta1" |};
     f_Meta := meta_set_finalizers {| om_Name := "foo"; om_Namespace := "default";
       om_Labels := Some {[ "foo" := "bar" ]}; om_Annotations := Some {[ "baz" := "qux" ]};
       om_OwnerReferences := []; om_Finalizers := []; om_UID := "foo-uid";
       om_ResourceVersion := "1"; om_DeletionTimestamp := None |} ["kubeless.io/function"];
     f_Spec := {| fs_Handler := "foo.bar"; fs_Function := "function";
       fs_FunctionContentType := "text";
       fs_Checksum := "sha256:" +:+ sha256_hex "function"; fs_Runtime := "python2.7";
       fs_Timeout := ""; fs_Deps := "deps"; fs_Deployment := zero_deployment;
       fs_ServiceSpec := zero_service_spec; fs_HorizontalPodAutoscaler := zero_hpa |} |}.

(** Runtimes as they are read from a configuration that does not parse
    anything new. *)
Definition no_yaml : YamlRuntimes := fun _ rs => Ok rs.

Definition test_memory : mem := Mem {[ 1%positive := test_function ]} test_runtimes.

Example populatePodSpec_wf_witness :
  ensures (populatePodSpec (H := no_yaml) (H0 := canonical_range) test_function zero_podspec
      (getRuntimeVolumeMount "foo") "unzip" []) test_memory []
    (fun s' tr' ps' => (tr' = [] /\ m_heap s' = m_heap test_memory) /\
       init_names (c_Name <$> ps_InitContainers ps') /\
       Forall (mounted (ps_Volumes ps')) (ps_InitContainers ps') /\
       NoDup (vol_Name <$> ps_Volumes ps') /\
       ps_Containers ps' = []).
Proof.
  apply (populatePodSpec_wf (H := no_yaml) (H0 := canonical_range) test_function zero_podspec
    "unzip" [] test_memory []); [discriminate|constructor|apply not_elem_of_nil..].
Defined.

(** The container names of a concrete run, and the command of the first. *)
Example populate_test :
  let '(o, _, _) := run serve (populatePodSpec (H := no_yaml) (H0 := canonical_range)
    test_function zero_podspec (getRuntimeVolumeMount "foo") "unzip" []) test_memory empty_world in
  match o with
  | Done ps => (c_Name <$> ps_InitContainers ps, vol_Name <$> ps_Volumes ps)
               = (["prepare"; "install"], ["foo"; "foo-deps"; "my-secret"])
  | _ => False
  end.
Proof. vm_compute. reflexivity. Qed.
