(* ===== verification/Ensure.v ===== *)
(** * Ensuring a function's objects (pkg/utils/kubelessutil.go, second half)

    Creation and update of the config map, service, build job, deployment and
    service monitor of a function. *)
From S2P Require Import Prelude GoStrings GoCodec GoProg KubeTypes World LangRuntime Memory PodSpec.

Definition created_by : string := "created-by".

(** [addDefaultLabel] writes into its argument unless it is nil: [in_place]
    is what the caller's map is afterwards. *)
Definition addDefaultLabel (labels : gomap string) : gomap string :=
  Some (<[created_by := "kubeless"]> (mmap labels)).

Definition in_place (before after : gomap string) : gomap string :=
  match before with None => None | Some _ => after end.

Definition hasDefaultLabel (labels : gomap string) : bool :=
  match labels with
  | None => false
  | Some _ => mstr labels created_by =?s "kubeless"
  end.

Definition conflict (what ns name : string) : gerror :=
  Errorf ("Found a conflicting " +:+ what +:+ " object " +:+ ns +:+ "/" +:+ name +:+ ". Aborting").

(** The function's labels get the default label in place. *)
Definition label_in_place (p : positive) : go mem (gomap string) :=
  funcObj ← load p;
  let labels := addDefaultLabel (f_labels funcObj) in
  store p (f_set_labels funcObj (in_place (f_labels funcObj) labels));;
  mret labels.

(** The data of the config map: the handler, the source under its file name
    and the dependencies under the name the runtime gives them. *)
Definition configMapData (funcObj : Function_) (lr : Langruntimes) : result (gmap string string) :=
  let spec := f_Spec funcObj in
  if negb (fs_Handler spec =?s "") then
    fileName ← getFileName (fs_Handler spec) (fs_FunctionContentType spec) (fs_Runtime spec) lr;
    let d := <[fileName := fs_Function spec]> (<["handler" := fs_Handler spec]> ∅) in
    match GetRuntimeInfo lr (fs_Runtime spec) with
    | Ok runtimeInfo =>
        if negb (ri_DepName runtimeInfo =?s "")
        then Ok (<[ri_DepName runtimeInfo := fs_Deps spec]> d) else Ok d
    | Error _ => Ok d
    end
  else Ok ∅.

Definition EnsureFuncConfigMap (p : positive) (or : list OwnerReference) : go mem unit :=
  funcObj ← load p;
  lr ← get_lr;
  data ← lift (configMapData funcObj lr);
  labels ← label_in_place p;
  let ns := f_namespace funcObj in
  let configMap := {| cm_Meta := mk_meta (f_name funcObj) "" labels or; cm_Data := Some data |} in
  r ← kCreate KConfigMap ns configMap;
  match r with
  | Ok _ => mret tt
  | Error e =>
      if IsAlreadyExists e then
        newConfigMap ← must (kGet KConfigMap ns (f_name funcObj));
        if negb (hasDefaultLabel (om_Labels (cm_Meta newConfigMap))) then
          Throw (conflict "configmap" ns (f_name funcObj))
        else
          funcObj ← load p;
          let meta := meta_set_owners (meta_set_labels (cm_Meta newConfigMap) (f_labels funcObj)) or in
          u ← kUpdate KConfigMap ns {| cm_Meta := meta; cm_Data := cm_Data configMap |};
          match u with
          | Ok _ => mret tt
          | Error e => if IsAlreadyExists e then mret tt else Throw e
          end
      else Throw e
  end.

Definition serviceSpec (funcObj : Function_) : ServiceSpec :=
  let s := fs_ServiceSpec (f_Spec funcObj) in
  if (length (ss_Ports s) =? 0)%nat then
    {| ss_Ports := [{| sp_Name := "http-function-port"; sp_Protocol := "TCP"; sp_Port := 8080;
                       sp_TargetPort := FromInt 8080; sp_NodePort := 0 |}];
       ss_Selector := f_labels funcObj; ss_ClusterIP := ""; ss_Type := "ClusterIP" |}
  else s.

(** [newSvc.Spec.Ports = svc.Spec.Ports]. *)
Definition svc_set_ports (s : ServiceSpec) (ports : list ServicePort) : ServiceSpec :=
  {| ss_Ports := ports; ss_Selector := ss_Selector s; ss_ClusterIP := ss_ClusterIP s;
     ss_Type := ss_Type s |}.

Definition EnsureFuncService (p : positive) (or : list OwnerReference) : go mem unit :=
  labels ← label_in_place p;
  funcObj ← load p;
  let ns := f_namespace funcObj in
  let svc := {| svc_Meta := mk_meta (f_name funcObj) "" labels or;
                svc_Spec := serviceSpec funcObj |} in
  r ← kCreate KService ns svc;
  match r with
  | Ok _ => mret tt
  | Error e =>
      if IsAlreadyExists e then
        newSvc ← must (kGet KService ns (f_name funcObj));
        if negb (hasDefaultLabel (om_Labels (svc_Meta newSvc))) then
          Throw (conflict "service" ns (f_name funcObj))
        else
          let meta := meta_set_owners (meta_set_labels (svc_Meta newSvc) (f_labels funcObj)) or in
          u ← kUpdate KService ns
                {| svc_Meta := meta;
                   svc_Spec := svc_set_ports (svc_Spec newSvc) (ss_Ports (svc_Spec svc)) |};
          match u with
          | Ok _ => mret tt
          | Error e => if IsAlreadyExists e then mret tt else Throw e
          end
      else Throw e
  end.

(** [IntOrString.IntValue] of a string is decided by apimachinery. *)
Class IntOrStringValue := string_IntValue : string -> Z.

Definition IntValue `{IntOrStringValue} (v : IntOrString) : Z :=
  match v with FromInt z => z | FromString s => string_IntValue s end.

Definition svcTargetPort `{IntOrStringValue} (funcObj : Function_) : Z :=
  match ss_Ports (fs_ServiceSpec (f_Spec funcObj)) with
  | [] => 8080
  | p :: _ => int32 (IntValue (sp_TargetPort p))
  end.

(** Entries of [src] win; the result is never nil. *)
Definition mergeMap (dst src : gomap string) : gomap string := Some (mmap src ∪ mmap dst).

(** ** The build job *)

Definition last_prepare (cs : list Container) : Container :=
  fold_left (fun acc c => if c_Name c =?s "prepare" then c else acc) cs zero_container.

Definition job_name (name tag : string) : string := "build-" +:+ name +:+ "-" +:+ string_take 10 tag.

Section Build.
Context `{YamlRuntimes} `{MapRange} `{OsEnv}.

Definition EnsureFuncImage (p : positive) (or : list OwnerReference)
    (imageName tag builderImage registryHost dockerSecretName provisionImage : string)
    (registryTLSEnabled : bool) (imagePullSecrets : list LocalObjectReference) : go mem unit :=
  if (String.length tag <? 64)%nat then Throw (Errorf "Expecting sha256 as image tag")
  else
    funcObj ← load p;
    let ns := f_namespace funcObj in
    let jobName := job_name (f_name funcObj) tag in
    r ← kGet KJob ns jobName;
    if is_ok r then mret tt
    else
      let runtimeVolumeMount := getRuntimeVolumeMount (f_name funcObj) in
      let podSpec0 :=
        {| ps_Volumes := []; ps_InitContainers := []; ps_Containers := [];
           ps_RestartPolicy := "OnFailure"; ps_NodeSelector := None;
           ps_ServiceAccountName := ""; ps_SecurityContext := None;
           ps_ImagePullSecrets := []; ps_Affinity := None |} in
      podSpec ← populatePodSpec funcObj podSpec0 runtimeVolumeMount provisionImage
                  imagePullSecrets;
      let prepareContainer := last_prepare (ps_InitContainers podSpec) in
      let bundle :=
        {| c_Name := "bundle"; c_Image := provisionImage; c_Command := shell;
           c_Args := ["tar cvf " +:+ vm_MountPath runtimeVolumeMount +:+ "/bundle.tar "
                      +:+ vm_MountPath runtimeVolumeMount +:+ "/*"];
           c_WorkingDir := ""; c_Ports := []; c_Env := []; c_Resources := zero_resources;
           c_VolumeMounts := c_VolumeMounts prepareContainer; c_LivenessProbe := None;
           c_ImagePullPolicy := "" |} in
      let podSpec := ps_set_init podSpec (ps_InitContainers podSpec ++ [bundle]) in
      lr ← get_lr;
      baseImage ← lift (GetFunctionImage lr (fs_Runtime (f_Spec funcObj)));
      let dockerCredsVolMountPath := "/docker" in
      let volumes := ps_Volumes podSpec ++
        [{| vol_Name := dockerSecretName; vol_Source := SecretSource dockerSecretName |}] in
      init0 ← index (ps_InitContainers podSpec) 0;
      mount0 ← index (c_VolumeMounts init0) 0;
      let args :=
        ["/imbuilder"; "add-layer"] ++ (if registryTLSEnabled then [] else ["--insecure"]) ++
        ["--src"; "docker://" +:+ baseImage;
         "--dst"; "docker://" +:+ registryHost +:+ "/" +:+ imageName +:+ ":" +:+ tag;
         vm_MountPath mount0 +:+ "/bundle.tar"] in
      let build :=
        {| c_Name := "build"; c_Image := builderImage; c_Command := []; c_Args := args;
           c_WorkingDir := ""; c_Ports := [];
           c_Env := [{| ev_Name := "DOCKER_CONFIG_FOLDER"; ev_Value := dockerCredsVolMountPath |}];
           c_Resources := zero_resources;
           c_VolumeMounts := c_VolumeMounts prepareContainer ++
             [{| vm_Name := dockerSecretName; vm_ReadOnly := false;
                 vm_MountPath := dockerCredsVolMountPath |}];
           c_LivenessProbe := None; c_ImagePullPolicy := "" |} in
      let buildJob :=
        {| job_Meta := mk_meta jobName ns
             (addDefaultLabel (Some {[ "function" := f_name funcObj ]})) or;
           job_PodSpec := ps_set_containers (ps_set_volumes podSpec volumes) [build] |} in
      must (kCreate KJob ns buildJob);;
      mret tt.

End Build.

(** ** The deployment *)

(** [json.Marshal] of a deployment, the body of the merge patch. *)
Class JsonDeployment := json_Marshal_deployment : Deployment -> result string.

Definition defaultTimeout : string := "180".

(** [dpm.Spec.Template.Spec.Containers[0]] is updated; the callers have made
    sure it exists. *)
Definition alter_c0 (f : Container -> Container) (d : Deployment) : Deployment :=
  dpm_set_podspec d (ps_set_containers (dpm_podspec d) (alter f 0%nat (ps_Containers (dpm_podspec d)))).

Definition podAnnotations `{IntOrStringValue} (funcObj : Function_) : gomap string :=
  Some (<["prometheus.io/scrape" := "true"]> (<["prometheus.io/path" := "/metrics"]>
    {[ "prometheus.io/port" := Itoa (svcTargetPort funcObj) ]})).

Definition default_affinity (name : string) : Affinity :=
  {| PreferredPodAntiAffinity :=
       [{| Weight := 100;
           term_LabelSelector := {| MatchLabels :=
             Some (<[created_by := "kubeless"]> {[ "function" := name ]}) |};
           TopologyKey := "kubernetes.io/hostname" |}] |}.

(** The metadata, selector, strategy and labels of the deployment, with at
    least one container: the part before the handler is looked at. *)
Definition init_deployment `{IntOrStringValue} (funcObj : Function_) (or : list OwnerReference)
  : Deployment :=
  let dpm := fs_Deployment (f_Spec funcObj) in
  let meta := meta_set_name (meta_set_owners (dpm_Meta dpm) or) (f_name funcObj) in
  let meta := meta_set_labels meta (addDefaultLabel (mergeMap (om_Labels meta) (f_labels funcObj))) in
  let meta := meta_set_annotations meta
    (mergeMap (om_Annotations meta) (om_Annotations (f_Meta funcObj))) in
  let tmeta := dpm_template_meta dpm in
  let tmeta := meta_set_labels tmeta (mergeMap (om_Labels tmeta) (f_labels funcObj)) in
  let tmeta := meta_set_annotations tmeta
    (mergeMap (mergeMap (om_Annotations tmeta) (om_Annotations (f_Meta funcObj)))
       (podAnnotations funcObj)) in
  let dpm := dpm_set_meta dpm meta in
  let dpm := dpm_set_selector dpm (Some {| MatchLabels :=
    Some (<[created_by := mstr (f_labels funcObj) created_by]>
            {[ "function" := mstr (f_labels funcObj) "function" ]}) |}) in
  let dpm := dpm_set_strategy dpm {| MaxUnavailable := Some (FromInt 0) |} in
  let dpm := dpm_set_template_meta dpm tmeta in
  if (length (ps_Containers (dpm_podspec dpm)) =? 0)%nat
  then dpm_set_podspec dpm (ps_set_containers (dpm_podspec dpm) [zero_container])
  else dpm.

(** The environment of a function container. *)
Definition func_env (handlerName modName timeout runtime memory : string) : list EnvVar :=
  [{| ev_Name := "FUNC_HANDLER"; ev_Value := handlerName |};
   {| ev_Name := "MOD_NAME"; ev_Value := modName |};
   {| ev_Name := "FUNC_TIMEOUT"; ev_Value := timeout |};
   {| ev_Name := "FUNC_RUNTIME"; ev_Value := runtime |};
   {| ev_Name := "FUNC_MEMORY_LIMIT"; ev_Value := memory |}].

Section Deploy.
Context `{YamlRuntimes} `{MapRange} `{OsEnv} `{IntOrStringValue} `{JsonDeployment}.

(** The container image, its files and the FUNC_* variables. *)
Definition deploy_function (funcObj : Function_) (dpm : Deployment)
    (prebuiltRuntimeImage provisionImage : string)
    (imagePullSecrets : list LocalObjectReference) : go mem Deployment :=
  let spec := f_Spec funcObj in
  let runtimeVolumeMount := getRuntimeVolumeMount (f_name funcObj) in
  if negb (fs_Handler spec =?s "") && negb (fs_Function spec =?s "") then
    '(modName, handlerName) ← lift (splitHandler (fs_Handler spec));
    c0 ← index (ps_Containers (dpm_podspec dpm)) 0;
    dpm ←
      (if (c_Image c0 =?s "") && (prebuiltRuntimeImage =?s "") then
         podSpec ← populatePodSpec funcObj (dpm_podspec dpm) runtimeVolumeMount provisionImage
                     imagePullSecrets;
         let dpm := dpm_set_podspec dpm podSpec in
         lr ← get_lr;
         imageName ← lift (GetFunctionImage lr (fs_Runtime spec));
         mret (alter_c0 (fun c => container_add_mounts (container_set_image c imageName)
                                    [runtimeVolumeMount]) dpm)
       else
         let dpm := if c_Image c0 =?s ""
                    then alter_c0 (fun c => container_set_image c prebuiltRuntimeImage) dpm
                    else dpm in
         mret (dpm_set_podspec dpm (ps_set_secrets (dpm_podspec dpm) imagePullSecrets)));
    let timeout := if fs_Timeout spec =?s "" then defaultTimeout else fs_Timeout spec in
    mret (alter_c0 (fun c => container_add_env c
            (func_env handlerName modName timeout (fs_Runtime spec)
               (Memory (Limits (c_Resources c))))) dpm)
  else mret dpm.

(** The port, the runtime's variables, the probe and the pod-level defaults. *)
Definition finish_deployment (funcObj : Function_) (dpm : Deployment) : go mem Deployment :=
  let port := svcTargetPort funcObj in
  let dpm := alter_c0 (fun c => container_add_port
    (container_set_name
       (container_add_env c [{| ev_Name := "FUNC_PORT"; ev_Value := Itoa port |}])
       (f_name funcObj)) port) dpm in
  lr ← get_lr;
  dpm ← UpdateDeployment lr dpm "/kubeless" (fs_Runtime (f_Spec funcObj));
  let probe := GetLivenessProbeInfo lr (fs_Runtime (f_Spec funcObj)) port in
  let dpm := alter_c0 (fun c =>
    match c_LivenessProbe c with
    | None => container_set_probe c (Some probe)
    | Some _ => c
    end) dpm in
  let ps := dpm_podspec dpm in
  let ps := match ps_SecurityContext ps with
            | None => ps_set_security ps
                        (Some {| RunAsUser := Some 1000%Z; FSGroup := Some 1000%Z |})
            | Some _ => ps
            end in
  let ps := match ps_Affinity ps with
            | None => ps_set_affinity ps (Some (default_affinity (f_name funcObj)))
            | Some _ => ps
            end in
  mret (dpm_set_podspec dpm ps).

(** Create the deployment or patch the fields kubeless owns, keeping the
    selector of the existing one. *)
Definition submit_deployment (funcObj : Function_) (or : list OwnerReference) (dpm : Deployment)
  : go mem unit :=
  let ns := f_namespace funcObj in
  r ← kCreate KDeployment ns dpm;
  match r with
  | Ok _ => mret tt
  | Error e =>
      if IsAlreadyExists e then
        newDpm ← must (kGet KDeployment ns (f_name funcObj));
        if negb (hasDefaultLabel (om_Labels (dpm_Meta newDpm))) then
          Throw (conflict "deployment" ns (f_name funcObj))
        else
          let meta := meta_set_labels (dpm_Meta newDpm) (f_labels funcObj) in
          let meta := meta_set_annotations meta
            (om_Annotations (dpm_Meta (fs_Deployment (f_Spec funcObj)))) in
          let meta := meta_set_owners meta or in
          let selector := ds_Selector (dpm_Spec newDpm) in
          let patched := dpm_set_selector
            (dpm_set_spec (dpm_set_meta newDpm meta) (dpm_Spec dpm)) selector in
          data ← lift (json_Marshal_deployment patched);
          must (kPatch KDeployment ns (om_Name (dpm_Meta patched)) data);;
          mret tt
      else Throw e
  end.

Definition EnsureFuncDeployment (p : positive) (or : list OwnerReference)
    (prebuiltRuntimeImage provisionImage : string)
    (imagePullSecrets : list LocalObjectReference) : go mem unit :=
  funcObj ← load p;
  dpm ← deploy_function funcObj (init_deployment funcObj or) prebuiltRuntimeImage provisionImage
          imagePullSecrets;
  dpm ← finish_deployment funcObj dpm;
  submit_deployment funcObj or dpm.

End Deploy.

(** ** The service monitor and owner references *)

Definition CreateServiceMonitor {S} (funcObj : Function_) (ns : string) (or : list OwnerReference)
  : go S unit :=
  r ← kGet KServiceMonitor ns (f_name funcObj);
  match r with
  | Error e =>
      if IsNotFound e then
        must (kCreate KServiceMonitor ns
          {| sm_Meta := mk_meta (f_name funcObj) ns
               (addDefaultLabel (Some {[ "service-monitor" := "function" ]})) or;
             sm_Selector := {| MatchLabels := Some {[ "function" := f_name funcObj ]} |};
             sm_EndpointPorts := ["http-function-port"] |});;
        mret tt
      else mret tt
  | Ok _ => Throw (Errorf "service monitor has already existed")
  end.

Definition GetOwnerReference (kind apiVersion name uid : string) : result (list OwnerReference) :=
  if name =?s "" then Error (Errorf "name can't be empty")
  else if uid =?s "" then Error (Errorf "uid can't be empty")
  else Ok [{| or_Kind := kind; or_APIVersion := apiVersion; or_Name := name; or_UID := uid |}].

(** [GetFunctionPort]: the first port of the function's service. *)
Definition GetFunctionPort {S} (namespace functionName : string) : go S string :=
  r ← kGet KService namespace functionName;
  match r with
  | Error _ => Throw (Errorf ("Unable to find the service for function " +:+ functionName))
  | Ok svc => p ← index (ss_Ports (svc_Spec svc)) 0; mret (Itoa (sp_Port p))
  end.
