(* ===== verification/EnsureSpec.v ===== *)
(** * What the Ensure functions do

    Functional specifications of the functions of pkg/utils/kubelessutil.go
    that write the config map, the service and the deployment of a function:
    the memory and the requests they leave behind when they succeed. *)
From S2P Require Import Prelude GoStrings GoProg KubeTypes World LangRuntime Memory K8sUtil.
From S2P Require Import PodSpec Ensure.

(** An update that the Ensure functions take for done. *)
Definition acked {A} (r : result A) : bool :=
  match r with Ok _ => true | Error e => IsAlreadyExists e end.

(** An object of kind [k] with property [P] was created, or put in the place
    of one that was there. *)
Definition wrote (tr : trace) (k : kind) (ns : string) (P : obj k -> Prop) : Prop :=
  exists o (r : result (obj k)), P o /\
    ((existT (ACreate k ns o) (r : resp (ACreate k ns o)) ∈ tr /\ is_ok r = true) \/
     (existT (AUpdate k ns o) (r : resp (AUpdate k ns o)) ∈ tr /\ acked r = true)).

(** The function after its labels got the default label. *)
Definition labelled (f : Function_) : Function_ :=
  f_set_labels f (in_place (f_labels f) (addDefaultLabel (f_labels f))).

Section Writes.

Lemma wrote_mono tr tr' k ns P : tr `prefix_of` tr' -> wrote tr k ns P -> wrote tr' k ns P.
Proof.
  intros [t ->] (o & r & HP & Hor). exists o, r. split; [done|].
  rewrite !elem_of_app. naive_solver.
Qed.

Lemma wrote_create tr k ns (o : obj k) (r : result (obj k)) (P : obj k -> Prop) :
  P o -> is_ok r = true ->
  wrote (tr ++ [existT (ACreate k ns o) (r : resp (ACreate k ns o))]) k ns P.
Proof.
  intros HP Hr. exists o, r. split; [done|]. left. split; [|done].
  apply elem_of_app. right. by left.
Qed.

Lemma wrote_update tr k ns (o : obj k) (r : result (obj k)) (P : obj k -> Prop) :
  P o -> acked r = true ->
  wrote (tr ++ [existT (AUpdate k ns o) (r : resp (AUpdate k ns o))]) k ns P.
Proof.
  intros HP Hr. exists o, r. split; [done|]. right. split; [|done].
  apply elem_of_app. right. by left.
Qed.

End Writes.

(** ** The config map and the service *)

Section Objects.
Context (p : positive) (f : Function_) (owners : list OwnerReference) (s : mem) (tr : trace).
Context (Hp : m_heap s !! p = Some f).

Let s' : mem := Mem (<[p := labelled f]> (m_heap s)) (m_lr s).

Lemma label_in_place_ensures :
  ensures (label_in_place p) s tr (fun s1 tr1 labels =>
    s1 = s' /\ tr1 = tr /\ labels = addDefaultLabel (f_labels f)).
Proof.
  unfold label_in_place. apply runs_bind, runs_load. rewrite Hp. cbn. intros a [= <-]. done.
Qed.

(** Success means that a config map with the function's data and labels and
    the given owners has been written. *)
Lemma EnsureFuncConfigMap_ensures :
  ensures (EnsureFuncConfigMap p owners) s tr (fun s1 tr1 _ =>
    s1 = s' /\ tr `prefix_of` tr1 /\
    exists data, configMapData f (m_lr s) = Ok data /\
      wrote tr1 KConfigMap (f_namespace f) (fun cm =>
        cm_Data cm = Some data /\ om_OwnerReferences (cm_Meta cm) = owners)).
Proof.
  unfold EnsureFuncConfigMap, ensures, label_in_place, load, store, must, kCreate, kGet, kUpdate.
  cbn. rewrite Hp. cbn.
  destruct (configMapData f (m_lr s)) as [data|e] eqn:Ed; cbn; [|done]. rewrite Hp. cbn.
  intros [r|e]; cbn.
  { intros _ _. split_and!; [done|by eexists|]. exists data. split; [done|].
    by apply wrote_create. }
  destruct (IsAlreadyExists e); [|done]. cbn. intros [o|e']; [|done]. cbn.
  destruct (hasDefaultLabel _); [|done]. cbn. rewrite lookup_insert_eq. cbn.
  intros [u|e']; cbn; [|destruct (IsAlreadyExists e') eqn:Hu; cbn; [|done]]; intros _ _;
    (split_and!; [done|rewrite <- !app_assoc; by eexists|exists data; split; [done|]; apply wrote_update; [done|by cbn]]).
Qed.

Lemma EnsureFuncService_ensures :
  ensures (EnsureFuncService p owners) s tr (fun s1 tr1 _ =>
    s1 = s' /\ tr `prefix_of` tr1 /\
    wrote tr1 KService (f_namespace f) (fun svc =>
      ss_Ports (svc_Spec svc) = ss_Ports (serviceSpec (labelled f)) /\
      om_OwnerReferences (svc_Meta svc) = owners)).
Proof.
  unfold EnsureFuncService, ensures, label_in_place, load, store, must, kCreate, kGet, kUpdate.
  cbn. rewrite Hp. cbn. rewrite lookup_insert_eq. cbn.
  intros [r|e]; cbn.
  { intros _ _. split_and!; [done|by eexists|]. by apply wrote_create. }
  destruct (IsAlreadyExists e); [|done]. cbn. intros [o|e']; [|done]. cbn.
  destruct (hasDefaultLabel _); [|done]. cbn.
  intros [u|e']; cbn; [|destruct (IsAlreadyExists e') eqn:Hu; cbn; [|done]]; intros _ _;
    (split_and!; [done|rewrite <- !app_assoc; by eexists|apply wrote_update; [done|by cbn]]).
Qed.

End Objects.

(** ** The deployment *)

(** What every deployment sent for function [f] has. *)
Definition has_env (c : Container) (name value : string) : Prop :=
  {| ev_Name := name; ev_Value := value |} ∈ c_Env c.

Definition selected (sel : option LabelSelector) (labels : gomap string) : Prop :=
  exists m, sel = Some {| MatchLabels := Some m |} /\
    forall k v, m !! k = Some v -> mget labels k = Some v.

Section Deployment.
Context `{YamlRuntimes} `{MapRange} `{OsEnv} `{IntOrStringValue} `{JsonDeployment}.

(** Metadata, selector and labels are those of [init_deployment]. *)
Definition same_frame (d d' : Deployment) : Prop :=
  dpm_Meta d' = dpm_Meta d /\ ds_Selector (dpm_Spec d') = ds_Selector (dpm_Spec d) /\
  dpm_template_meta d' = dpm_template_meta d.

(** The container that serves the function. *)
Definition serves (f : Function_) (d : Deployment) : Prop :=
  exists c cs, ps_Containers (dpm_podspec d) = c :: cs /\
    c_Name c = f_name f /\ svcTargetPort f ∈ c_Ports c /\
    has_env c "FUNC_PORT" (Itoa (svcTargetPort f)) /\
    (fs_Handler (f_Spec f) <> "" -> fs_Function (f_Spec f) <> "" ->
     forall m h, splitHandler (fs_Handler (f_Spec f)) = Ok (m, h) ->
       has_env c "MOD_NAME" m /\ has_env c "FUNC_HANDLER" h /\
       has_env c "FUNC_RUNTIME" (fs_Runtime (f_Spec f))) /\
    (exists probe, c_LivenessProbe c = Some probe).

Definition secured (d : Deployment) : Prop :=
  (exists sc, ps_SecurityContext (dpm_podspec d) = Some sc) /\
  (exists a, ps_Affinity (dpm_podspec d) = Some a).

Lemma alter_c0_frame g d : same_frame d (alter_c0 g d).
Proof. done. Qed.

Lemma same_frame_trans a b c : same_frame a b -> same_frame b c -> same_frame a c.
Proof. unfold same_frame. naive_solver congruence. Qed.

(** At least one container, with the function's variables in the first. *)
Definition prepared (f : Function_) (d : Deployment) : Prop :=
  exists c cs, ps_Containers (dpm_podspec d) = c :: cs /\
    (fs_Handler (f_Spec f) <> "" -> fs_Function (f_Spec f) <> "" ->
     forall m h, splitHandler (fs_Handler (f_Spec f)) = Ok (m, h) ->
       has_env c "MOD_NAME" m /\ has_env c "FUNC_HANDLER" h /\
       has_env c "FUNC_RUNTIME" (fs_Runtime (f_Spec f))).

Lemma init_deployment_containers f owners :
  exists c cs, ps_Containers (dpm_podspec (init_deployment f owners)) = c :: cs.
Proof.
  unfold init_deployment. cbv zeta.
  match goal with |- context [Nat.eqb (length ?l) 0] => destruct l eqn:E end; cbn; [eauto|].
  exists c, l. exact E.
Qed.

Lemma func_env_in m h t r mem' :
  {| ev_Name := "MOD_NAME"; ev_Value := m |} ∈ func_env h m t r mem' /\
  {| ev_Name := "FUNC_HANDLER"; ev_Value := h |} ∈ func_env h m t r mem' /\
  {| ev_Name := "FUNC_RUNTIME"; ev_Value := r |} ∈ func_env h m t r mem'.
Proof. unfold func_env. rewrite !elem_of_cons. tauto. Qed.

Lemma deploy_function_ensures f d img prov secrets s tr :
  (exists c cs, ps_Containers (dpm_podspec d) = c :: cs) ->
  ensures (deploy_function f d img prov secrets) s tr (fun _ _ d' =>
    same_frame d d' /\ prepared f d').
Proof.
  intros (c & cs & Ec). unfold deploy_function. cbv zeta.
  destruct (negb (fs_Handler (f_Spec f) =?s "") && negb (fs_Function (f_Spec f) =?s "")) eqn:Eb.
  2: { apply ensures_ret. split; [done|]. exists c, cs. split; [done|].
       intros Hh%streq_false Hf%streq_false. by rewrite Hh, Hf in Eb. }
  eapply ensures_bind; [apply ensures_lift; intros a Ha; exact Ha|]. intros s1 tr1 [m h] Hsplit.
  cbn beta in Hsplit.
  eapply ensures_bind; [by apply ensures_true|]. intros s2 tr2 c0 _.
  eapply ensures_bind with (M := fun _ _ d' => same_frame d d' /\
    exists c cs, ps_Containers (dpm_podspec d') = c :: cs).
  - destruct ((c_Image c0 =?s "") && (img =?s "")).
    + eapply ensures_bind; [apply populatePodSpec_populated|intros s3 tr3 ps Hps].
      { intros E. rewrite E in Eb. by rewrite andb_false_r in Eb. }
      eapply ensures_bind; [by apply ensures_true|]. intros s4 tr4 lr _.
      eapply ensures_bind; [by apply ensures_true|]. intros s5 tr5 image _.
      apply ensures_ret. split; [done|]. destruct Hps as (Hps & _).
      unfold alter_c0. cbn. rewrite Hps, Ec. cbn. eauto.
    + apply ensures_ret. destruct (c_Image c0 =?s ""); (split; [done|]).
      * unfold alter_c0. cbn. rewrite Ec. cbn. eauto.
      * cbn. eauto.
  - clear c cs Ec. intros s3 tr3 d' [Hfr (c & cs & Ec)]. apply ensures_ret. split; [done|].
    unfold prepared, alter_c0. cbn. rewrite Ec. cbn. eexists _, _. split; [done|].
    intros _ _ m' h' E. rewrite E in Hsplit. simplify_eq. unfold has_env. cbn.
    rewrite !elem_of_app. pose proof (func_env_in m h). naive_solver.
Qed.

Lemma UpdateDeployment_ensures {S} lr d vol rt (s : S) tr c cs :
  ps_Containers (dpm_podspec d) = c :: cs ->
  ensures (UpdateDeployment lr d vol rt) s tr (fun _ _ d' =>
    same_frame d d' /\ exists env, ps_Containers (dpm_podspec d') = container_add_env c env :: cs).
Proof.
  intros Ec. unfold UpdateDeployment. destruct (findRuntimeVersion lr rt) as [rv|].
  - eapply ensures_bind; [apply ensures_index; intros a Ha; exact Ha|]. intros s1 tr1 c0 E0.
    cbn beta in E0. rewrite Ec in E0. simplify_eq/=. rewrite Ec. cbn.
    destruct (findImage _ _); apply ensures_ret; (split; [done|]); eexists; cbn.
    + f_equal. unfold container_add_env. cbn. by rewrite <- app_assoc.
    + done.
  - apply ensures_ret. split; [done|]. exists []. rewrite Ec. unfold container_add_env.
    rewrite app_nil_r. by destruct c.
Qed.

Lemma finish_deployment_ensures f d s tr :
  prepared f d ->
  ensures (finish_deployment f d) s tr (fun _ _ d' =>
    same_frame d d' /\ serves f d' /\ secured d').
Proof.
  intros (c & cs & Ec & Henv). unfold finish_deployment. cbv zeta.
  eapply ensures_bind; [by apply ensures_true|]. intros s1 tr1 lr _.
  eapply ensures_bind; [eapply UpdateDeployment_ensures; unfold alter_c0; cbn; by rewrite Ec|].
  intros s2 tr2 d2 [Hfr (env & Ec2)]. apply ensures_ret.
  split; [exact Hfr|]. split.
  - unfold serves, alter_c0. cbn.
    match goal with |- context [ps_Containers ?x] => assert (ps_Containers x =
      alter (fun c => match c_LivenessProbe c with
        | None => container_set_probe c (Some (GetLivenessProbeInfo lr (fs_Runtime (f_Spec f)) (svcTargetPort f)))
        | Some _ => c end) 0%nat (ps_Containers (dpm_podspec d2))) as -> end.
    { by repeat case_match. }
    rewrite Ec2. cbn. eexists _, _. split; [done|].
    destruct (c_LivenessProbe c) as [probe|] eqn:Ep; cbn; rewrite ?Ep;
      (split_and!; [done| | | |eauto]); unfold has_env in *; cbn; rewrite ?elem_of_app; cbn.
    all: try (right; by left).
    all: try (left; right; by left).
    all: intros Hh Hf m h Hs; destruct (Henv Hh Hf m h Hs) as (? & ? & ?);
      rewrite !elem_of_app; auto.
  - unfold secured. cbn.
    split; repeat case_match; cbn in *; eauto; congruence.
Qed.

(** The label the controller's selectors rely on. *)
Definition controlled (f : Function_) : Prop :=
  mget (f_labels f) created_by = Some "kubeless" /\ mget (f_labels f) "function" = Some (f_name f).

(** A deployment of [f] in namespace [ns] that the server can accept and the
    service can select. *)
Definition deploys (f : Function_) (ns : string) (d : Deployment) : Prop :=
  ns = f_namespace f /\ om_Name (dpm_Meta d) = f_name f /\
  hasDefaultLabel (om_Labels (dpm_Meta d)) = true /\
  selected (ds_Selector (dpm_Spec d)) (om_Labels (dpm_template_meta d)) /\
  (forall k v, mget (f_labels f) k = Some v -> mget (om_Labels (dpm_template_meta d)) k = Some v) /\
  serves f d /\ secured d.

Lemma mget_mergeMap dst src k :
  mget (mergeMap dst src) k = match mget src k with Some v => Some v | None => mget dst k end.
Proof.
  unfold mergeMap, mget, mmap. cbn. rewrite lookup_union.
  destruct src as [src|], dst as [dst|]; cbn; rewrite ?lookup_empty;
    repeat (destruct (_ !! k)); done.
Qed.

Lemma init_deployment_frame f owners :
  controlled f -> let d := init_deployment f owners in
  om_Name (dpm_Meta d) = f_name f /\ hasDefaultLabel (om_Labels (dpm_Meta d)) = true /\
  selected (ds_Selector (dpm_Spec d)) (om_Labels (dpm_template_meta d)) /\
  (forall k v, mget (f_labels f) k = Some v -> mget (om_Labels (dpm_template_meta d)) k = Some v).
Proof.
  intros [Hcb Hfn].
  assert (Hlab : forall k v, mget (f_labels f) k = Some v ->
    mget (om_Labels (dpm_template_meta (init_deployment f owners))) k = Some v).
  { intros k v Hk. unfold init_deployment. cbv zeta. case_match;
      cbn [dpm_template_meta dpm_set_podspec ds_Template dpm_Spec pt_Meta];
      cbn -[mergeMap mget]; by rewrite mget_mergeMap, Hk. }
  split_and!; [..|done].
  - unfold init_deployment. cbv zeta. by case_match.
  - unfold init_deployment. cbv zeta. case_match; unfold hasDefaultLabel, mstr; cbn;
      by rewrite lookup_insert_eq.
  - unfold selected. unfold init_deployment at 1.
    exists (<[created_by := "kubeless"]> {[ "function" := f_name f ]}). split.
    + unfold mstr. rewrite Hcb, Hfn. cbv zeta. by case_match.
    + intros k v. rewrite lookup_insert_Some, lookup_singleton_Some.
      intros [[<- <-]|[_ [<- <-]]]; by apply Hlab.
Qed.

(** What a request to the deployments may be, for function [f]. *)
Definition deployment_ok (f : Function_) (before : trace) (o : op) : Prop :=
  match o with
  | ACreate KDeployment ns d => deploys f ns d
  | AUpdate KDeployment _ _ => False
  | APatch KDeployment ns _ data =>
      ns = f_namespace f /\
      exists d, json_Marshal_deployment d = Ok data /\ serves f d /\ secured d
  | _ => True
  end.

Lemma submit_deployment_ok f owners d s tr :
  deploys f (f_namespace f) d -> each (deployment_ok f) tr ->
  runs (submit_deployment f owners d) s tr (fun _ tr' _ => each (deployment_ok f) tr').
Proof.
  intros Hd Htr. unfold submit_deployment, must, kCreate, kGet, kPatch. cbn.
  intros [r|e]; cbn; [by apply each_snoc|].
  destruct (IsAlreadyExists e); [|by apply each_snoc]. cbn. intros g.
  match goal with |- context [(tr ++ [?c]) ++ [?g]] =>
    assert (Htr2 : each (deployment_ok f) ((tr ++ [c]) ++ [g])) by
      (apply each_snoc; [apply each_snoc; [exact Htr|exact Hd]|exact Logic.I]) end.
  destruct g as [o|e']; cbn; [|exact Htr2].
  destruct (hasDefaultLabel _); [|exact Htr2]. cbn.
  destruct (json_Marshal_deployment _) as [data|e'] eqn:Ej; cbn; [|exact Htr2].
  destruct Hd as (_ & _ & _ & _ & _ & Hs & Hsec).
  intros [r|e']; cbn; (apply each_snoc; [exact Htr2|]);
    (split; [done|]); eexists; split_and!; done.
Qed.

Lemma EnsureFuncDeployment_ok p f owners img prov secrets s tr :
  m_heap s !! p = Some f -> controlled f -> each (deployment_ok f) tr ->
  runs (EnsureFuncDeployment p owners img prov secrets) s tr
    (fun _ tr' _ => each (deployment_ok f) tr').
Proof.
  intros Hp Hc Htr. unfold EnsureFuncDeployment. apply runs_bind, runs_load. rewrite Hp.
  pose proof (init_deployment_frame f owners Hc) as (Hn & Hl & Hsel & Hlab).
  set (I := fun (_ : mem) tr => each (deployment_ok f) tr).
  eapply (runs_seq I); [|done|apply deploy_function_ensures, init_deployment_containers|].
  { unfold deploy_function. keeps_auto. apply keeps_populatePodSpec. by intros s' l tr'. }
  intros s1 tr1 d1 Htr1 [(Hm1 & Hs1 & Ht1) Hprep].
  eapply (runs_seq I); [|done|by apply finish_deployment_ensures|].
  { unfold finish_deployment, UpdateDeployment. keeps_auto. }
  intros s2 tr2 d2 Htr2 ((Hm2 & Hs2 & Ht2) & Hserves & Hsec).
  apply submit_deployment_ok; [|done].
  unfold deploys. rewrite Hm2, Hs2, Ht2, Hm1, Hs1, Ht1. done.
Qed.

End Deployment.
