(* ===== verification/Controller.v ===== *)
(** * The function controller (pkg/controller/function_controller.go)

    The informer's events put function keys on a work queue; a worker takes
    them off, brings the objects of the function in line with its resource, or
    removes them when the function is being deleted, and retries on errors. *)
From S2P Require Import Prelude GoStrings GoCodec GoProg KubeTypes World LangRuntime K8sUtil.
From S2P Require Import Memory PodSpec Ensure.
From S2P Require Registry.

Definition maxRetries : Z := 5.
Definition funcKind : string := "Function".
Definition funcAPIVersion : string := "kubeless.io/v1beta1".
Definition functionFinalizer : string := "kubeless.io/function".

(** ** Third-party code *)

(** Keys of client-go's cache: of an object, of a deleted object (or of the
    tombstone left of it) and back to namespace and name. *)
Class CacheKeys := {
  MetaNamespaceKeyFunc : ObjectMeta -> result string;
  DeletionHandlingMetaNamespaceKeyFunc : ObjectMeta -> result string;
  SplitMetaNamespaceKey : string -> result (string * string) }.

(** [yaml.UnmarshalStrict] with [DisallowUnknownFields] into an empty
    deployment. *)
Class YamlDeployment := yaml_UnmarshalStrict_deployment : string -> result Deployment.

(** [apiequality.Semantic.DeepEqual] at the three types compared. *)
Class SemanticEqual := {
  DeepEqual_deployment : Deployment -> Deployment -> bool;
  DeepEqual_hpa : HPA -> HPA -> bool;
  DeepEqual_service : ServiceSpec -> ServiceSpec -> bool }.

(** ** The controller *)

(** The data of the configuration never changes; the runtimes are kept in
    [mem], the queue and the informer's store are outside. [hasSm] is whether
    there is a client for service monitors. *)
Record FunctionController := {
  config_Data : gomap string;
  imagePullSecrets : list LocalObjectReference;
  hasSm : bool }.

Section Controller.
Context `{YamlRuntimes} `{MapRange} `{OsEnv} `{IntOrStringValue} `{JsonDeployment} `{Mergo}
  `{UrlParse} `{Registry.RegistryJson} `{CacheKeys} `{YamlDeployment} `{SemanticEqual}.

Definition functionObjChanged (oldFunctionObj newFunctionObj : Function_) : bool :=
  if negb (ptr_eqb (om_DeletionTimestamp (f_Meta oldFunctionObj))
                   (om_DeletionTimestamp (f_Meta newFunctionObj))) then true
  else if om_ResourceVersion (f_Meta oldFunctionObj) =?s om_ResourceVersion (f_Meta newFunctionObj)
  then false
  else
    let newSpec := f_Spec oldFunctionObj in
    let oldSpec := f_Spec newFunctionObj in
    if negb (fs_Function newSpec =?s fs_Function oldSpec) ||
       negb (fs_Checksum newSpec =?s fs_Checksum oldSpec) ||
       negb (fs_Handler newSpec =?s fs_Handler oldSpec) ||
       negb (fs_FunctionContentType newSpec =?s fs_FunctionContentType oldSpec) ||
       negb (fs_Deps newSpec =?s fs_Deps oldSpec) ||
       negb (fs_Timeout newSpec =?s fs_Timeout oldSpec) then true
    else
      negb (DeepEqual_deployment (fs_Deployment newSpec) (fs_Deployment oldSpec)) ||
      negb (DeepEqual_hpa (fs_HorizontalPodAutoscaler newSpec)
              (fs_HorizontalPodAutoscaler oldSpec)) ||
      negb (DeepEqual_service (fs_ServiceSpec newSpec) (fs_ServiceSpec oldSpec)).

(** ** Informer events *)
Section Events.
Context {S : Type}.

Definition add_key (key : result string) : go S unit :=
  match key with Ok k => queue_add k | Error _ => mret tt end.

Definition AddFunc (obj : Function_) : go S unit := add_key (MetaNamespaceKeyFunc (f_Meta obj)).

Definition UpdateFunc (old new : Function_) : go S unit :=
  match MetaNamespaceKeyFunc (f_Meta new) with
  | Ok key => if functionObjChanged old new then queue_add key else mret tt
  | Error _ => mret tt
  end.

Definition DeleteFunc (obj : Function_) : go S unit :=
  add_key (DeletionHandlingMetaNamespaceKeyFunc (f_Meta obj)).

End Events.

(** The informer and the queue start empty; [hasSm] is whether the caller's
    service monitor client is not nil. *)
Definition NewFunctionController (hasSm : bool) : go mem FunctionController :=
  GetAPIExtensionsClientInCluster;;
  config ← attempt GetKubelessConfig;
  match config with
  | Error e => Fatal ("Unable to read the configmap: " +:+ err_msg e)
  | Ok config =>
      lr ← ReadConfigMap (New (cm_Data config));
      put_lr lr;;
      let data := cm_Data config in
      let imagePullSecrets := GetSecretsAsLocalObjectReference
        [mstr data "provision-image-secret"; mstr data "builder-image-secret"] in
      let imagePullSecrets :=
        if mstr data "enable-build-step" =?s "true"
        then imagePullSecrets
             ++ GetSecretsAsLocalObjectReference ["kubeless-registry-credentials"]
        else imagePullSecrets in
      mret {| config_Data := data; imagePullSecrets := imagePullSecrets; hasSm := hasSm |}
  end.

(** ** Processing *)
Section Processing.
Context (c : FunctionController).

(** The image's name and whether its build has been started. *)
Definition startImageBuildJob (p : positive) (owners : list OwnerReference)
  : go mem (string * bool) :=
  funcObj ← load p;
  secret ← kGet KSecret (f_namespace funcObj) "kubeless-registry-credentials";
  imagePullSecret ← lift (Registry.wrap
    "Unable to locate registry credentials to build function image: " secret);
  reg ← attempt (Registry.New imagePullSecret);
  reg ← lift (Registry.wrap "Unable to retrieve registry information: " reg);
  let tag := sha256_hex (fs_Function (f_Spec funcObj) +:+ fs_Deps (f_Spec funcObj)) in
  let imageName := Registry.Username (Registry.Creds reg) +:+ "/" +:+ f_name funcObj in
  exists_ ← attempt (Registry.ImageExists reg imageName tag);
  exists_ ← lift (Registry.wrap "Unable to check is target image exists: " exists_);
  regURL ← lift (Registry.wrap "Unable to parse registry URL: " (url_Parse (Registry.Endpoint reg)));
  let image := url_Host regURL +:+ "/" +:+ imageName +:+ ":" +:+ tag in
  if (exists_ : bool) then mret (image, false)
  else
    let tlsVerify := negb (mstr (config_Data c) "function-registry-tls-verify" =?s "false") in
    r ← attempt (EnsureFuncImage p owners imageName tag (mstr (config_Data c) "builder-image")
          (url_Host regURL) (om_Name (sec_Meta imagePullSecret))
          (mstr (config_Data c) "provision-image") tlsVerify (imagePullSecrets c));
    lift (Registry.wrap "Unable to create image build job: " r);;
    mret (image, true).

Definition deleteAutoscale (ns name : string) : go mem unit :=
  (if hasSm c then
     r ← attempt (DeleteServiceMonitor name ns);
     if gone r then mret tt else lift r
   else mret tt);;
  r ← attempt (DeleteAutoscale name ns);
  if gone r then mret tt else lift r.

(** The function label and, when one is configured, the deployment template
    merged into the function's deployment, both in the cached object. *)
Definition label_function (p : positive) : go mem unit :=
  funcObj ← load p;
  store p (f_set_labels funcObj
    (Some (<["function" := f_name funcObj]> (mmap (f_labels funcObj))))).

Definition merge_template (p : positive) : go mem unit :=
  match mget (config_Data c) "deployment" with
  | None => mret tt
  | Some deploymentConfigData =>
      deployment ← lift (yaml_UnmarshalStrict_deployment deploymentConfigData);
      funcObj ← load p;
      '(d, err) ← MergeDeployments (fs_Deployment (f_Spec funcObj)) deployment;
      store p (f_set_deployment funcObj d);;
      match err with Some e => Throw e | None => mret tt end
  end.

(** The image to run: a custom one, the image of a build job, or none. *)
Definition choose_image (p : positive) (owners : list OwnerReference) : go mem string :=
  funcObj ← load p;
  let prebuiltImage :=
    match ps_Containers (dpm_podspec (fs_Deployment (f_Spec funcObj))) with
    | c0 :: _ => c_Image c0
    | [] => ""
    end in
  if prebuiltImage =?s "" then
    if mstr (config_Data c) "enable-build-step" =?s "true" then
      r ← attempt (startImageBuildJob p owners);
      match r with
      | Ok (image, _) => mret image
      | Error _ => mret ""
      end
    else mret ""
  else mret prebuiltImage.

Definition ensure_autoscale (p : positive) (owners : list OwnerReference) : go mem unit :=
  funcObj ← load p;
  let hpa := fs_HorizontalPodAutoscaler (f_Spec funcObj) in
  if negb (hpa_name hpa =?s "") && negb (ref_Name (hs_ScaleTargetRef (hpa_Spec hpa)) =?s "") then
    let hpa := {| hpa_Type := hpa_Type hpa; hpa_Meta := meta_set_owners (hpa_Meta hpa) owners;
                  hpa_Spec := hpa_Spec hpa |} in
    let funcObj := f_set_hpa funcObj hpa in
    store p funcObj;;
    metric ← index (hs_Metrics (hpa_Spec hpa)) 0;
    (if ms_Type metric =?s ObjectMetricSourceType then
       if hasSm c then CreateServiceMonitor funcObj (f_namespace funcObj) owners
       else Panic nil_deref
     else mret tt);;
    r ← attempt (CreateAutoscale hpa);
    match r with
    | Ok _ => mret tt
    | Error e => if IsAlreadyExists e then UpdateAutoscale hpa else Throw e
    end
  else
    r ← attempt (deleteAutoscale (f_namespace funcObj) (f_name funcObj));
    if gone r then mret tt else lift r.

Definition ensureK8sResources (p : positive) : go mem unit :=
  label_function p;;
  merge_template p;;
  funcObj ← load p;
  owners ← lift (GetOwnerReference funcKind funcAPIVersion (f_name funcObj)
                   (om_UID (f_Meta funcObj)));
  EnsureFuncConfigMap p owners;;
  EnsureFuncService p owners;;
  prebuiltImage ← choose_image p owners;
  EnsureFuncDeployment p owners prebuiltImage (mstr (config_Data c) "provision-image")
    (imagePullSecrets c);;
  ensure_autoscale p owners.

(** [err = call(); if err != nil && !IsNotFound(err) { return err }]. *)
Definition ignore_gone (r : go mem (result unit)) : go mem unit :=
  x ← r; if gone x then mret tt else lift x.

Definition build_selector (name : string) : string := "created-by=kubeless,function=" +:+ name.

Definition deleteK8sResources (ns name : string) : go mem unit :=
  ignore_gone (kDelete KDeployment ns name);;
  ignore_gone (kDelete KService ns name);;
  ignore_gone (kDelete KConfigMap ns name);;
  ignore_gone (attempt (deleteAutoscale ns name));;
  ignore_gone (kDeleteCollection KJob ns (build_selector name)).

Definition processItem (key : string) : go mem unit :=
  '(ns, name) ← lift (SplitMetaNamespaceKey key);
  r ← indexer_get key;
  match r with
  | Error e => Throw (Errorf ("Error fetching object with key " +:+ key +:+ " from store: "
                              +:+ err_msg e))
  | Ok None => mret tt
  | Ok (Some p) =>
      funcObj ← load p;
      match om_DeletionTimestamp (f_Meta funcObj) with
      | Some _ =>
          if negb (FunctionObjHasFinalizer funcObj functionFinalizer) then mret tt
          else
            deleteK8sResources ns name;;
            FunctionObjRemoveFinalizer funcObj functionFinalizer
      | None =>
          (if negb (FunctionObjHasFinalizer funcObj functionFinalizer)
           then FunctionObjAddFinalizer funcObj functionFinalizer else mret tt);;
          ensureK8sResources p
      end
  end.

(** Whether the worker goes on: false when the queue has been shut down. *)
Definition processNextItem : go mem bool :=
  item ← queue_get;
  match item with
  | None => mret false
  | Some key =>
      deferred (queue_done key)
        (err ← attempt (processItem key);
         match err with
         | Ok _ => queue_forget key;; mret true
         | Error _ =>
             n ← queue_num_requeues key;
             if (n <? maxRetries)%Z then queue_add_rate_limited key;; mret true
             else queue_forget key;; mret true
         end)
  end.

(** The worker's loop, cut off after [fuel] items. *)
Fixpoint runWorker (fuel : nat) : go mem unit :=
  match fuel with
  | O => mret tt
  | Datatypes.S fuel =>
      more ← processNextItem;
      if (more : bool) then runWorker fuel else mret tt
  end.

End Processing.

End Controller.
