(* ===== verification/Concrete.v ===== *)
(** * Concrete third-party code, for evaluation

    One instance of every class that stands for code outside the repository,
    simple enough to compute with.  They are used by the witnesses and the
    examples only. *)
From S2P Require Import Prelude GoStrings GoProg KubeTypes World LangRuntime Memory K8sUtil.
From S2P Require Import PodSpec Ensure Controller.
From S2P Require Registry.

Module Concrete.

#[export] Instance yaml : YamlRuntimes := fun _ rs => Ok rs.
#[export] Instance ranges : MapRange := canonical_range.
#[export] Instance env : OsEnv := fun _ => "".
#[export] Instance int_value : IntOrStringValue := fun s =>
  match Atoi s with Ok v => v | Error _ => 0%Z end.
#[export] Instance json_deployment : JsonDeployment := fun _ => Ok "{}".
#[export] Instance json_function : JsonFunction := fun _ => Ok "{}".

(** Fields that are empty in the destination are filled; slices are appended
    for containers. *)
Definition fill (d s : string) : string := if d =?s "" then s else d.

Definition merge_container (d s : Container) : Container :=
  {| c_Name := fill (c_Name d) (c_Name s); c_Image := fill (c_Image d) (c_Image s);
     c_Command := c_Command d ++ c_Command s; c_Args := c_Args d ++ c_Args s;
     c_WorkingDir := fill (c_WorkingDir d) (c_WorkingDir s);
     c_Ports := c_Ports d ++ c_Ports s; c_Env := c_Env d ++ c_Env s;
     c_Resources := if decide (c_Resources d = zero_resources) then c_Resources s
                    else c_Resources d;
     c_VolumeMounts := c_VolumeMounts d ++ c_VolumeMounts s;
     c_LivenessProbe := match c_LivenessProbe d with None => c_LivenessProbe s | p => p end;
     c_ImagePullPolicy := fill (c_ImagePullPolicy d) (c_ImagePullPolicy s) |}.

Definition merge_deployment (d s : Deployment) : Deployment :=
  let m := meta_set_annotations (dpm_Meta d)
    (Some (mmap (om_Annotations (dpm_Meta d)) ∪ mmap (om_Annotations (dpm_Meta s)))) in
  let m := meta_set_labels m
    (Some (mmap (om_Labels (dpm_Meta d)) ∪ mmap (om_Labels (dpm_Meta s)))) in
  let p := dpm_podspec d in
  let p := match ps_Containers p with
           | [] => ps_set_containers p (ps_Containers (dpm_podspec s))
           | _ => p
           end in
  dpm_set_podspec (dpm_set_meta d m) p.

#[export] Instance mergo : Mergo :=
  {| mergo_deployment d s := (merge_deployment d s, None);
     mergo_container d s := (merge_container d s, None) |}.

(** An address "scheme://host/path". *)
#[export] Instance url_parse : UrlParse := fun s =>
  match Split s "/"%char with
  | _ :: _ :: host :: _ =>
      let name := match Split host ":"%char with h :: _ => h | [] => "" end in
      Ok {| url_Host := host; url_Hostname := name; url_String := s |}
  | _ => Error (Errorf ("parse " +:+ s +:+ ": invalid URI for request"))
  end.

#[export] Instance registry_json : Registry.RegistryJson :=
  {| Registry.json_dockerCfg := fun _ =>
       Ok (Some {[ "https://index.docker.io/v1/" :=
         {| Registry.Username := "test"; Registry.Password := "pass"; Registry.Email := "";
            Registry.Auth := "" |} ]});
     Registry.json_tagv1 := fun body => Ok (Split body ","%char);
     Registry.json_tagListV2 := fun body => Ok (Split body ","%char);
     Registry.json_authResponse := fun body => Ok body |}.

#[export] Instance cache_keys : CacheKeys :=
  {| MetaNamespaceKeyFunc m := Ok (om_Namespace m +:+ "/" +:+ om_Name m);
     DeletionHandlingMetaNamespaceKeyFunc m := Ok (om_Namespace m +:+ "/" +:+ om_Name m);
     SplitMetaNamespaceKey key :=
       match Split key "/"%char with
       | [name] => Ok ("", name)
       | [ns; name] => Ok (ns, name)
       | _ => Error (Errorf ("unexpected key format: " +:+ key))
       end |}.

(** A template with one environment variable. *)
Definition template_container : Container :=
  container_add_env zero_container [{| ev_Name := "foo"; ev_Value := "bar" |}].
Definition template : Deployment :=
  dpm_set_podspec zero_deployment (ps_set_containers zero_podspec [template_container]).

#[export] Instance yaml_deployment : YamlDeployment := fun _ => Ok template.

#[export] Instance semantic_equal : SemanticEqual :=
  {| DeepEqual_deployment a b := bool_decide (a = b);
     DeepEqual_hpa a b := bool_decide (a = b);
     DeepEqual_service a b := bool_decide (a = b) |}.

(** A controller with a service monitor client and a plain configuration. *)
Definition controller : FunctionController :=
  {| config_Data := Some {[ "provision-image" := "kubeless/unzip" ]};
     imagePullSecrets := []; hasSm := true |}.

(** The function of the tests, marked for deletion. *)
Definition deleted_function : Function_ :=
  f_set_meta test_function (meta_set_deleted (f_Meta test_function) (Some (Ptr 7 1%Z))).

Definition memory (f : Function_) : mem := Mem {[ 1%positive := f ]} test_runtimes.

(** The informer knows the function, the server stores it. *)
Definition server (f : Function_) : world :=
  w_set_indexer (w_put empty_world KFunction "default" "foo" f) {[ "default/foo" := 1%positive ]}.

End Concrete.
