(* ===== verification/Ownership.v ===== *)
(** * Objects of others are left alone

    The Ensure functions of pkg/utils/kubelessutil.go create an object under
    the function's name; when the name is taken they read what is there and go
    on only if it carries the label created-by=kubeless.  [owned_writes] is
    that discipline as an invariant of the sequence of API calls. *)
From S2P Require Import Prelude GoStrings GoProg KubeTypes World LangRuntime Memory K8sUtil.
From S2P Require Import PodSpec Ensure.

(** The kinds of the three objects named after the function. *)
Definition guarded (k : kind) : bool :=
  match k with KConfigMap | KService | KDeployment => true | _ => false end.

(** The object was read from the server. *)
Definition saw (tr : trace) (k : kind) (ns : string) (o : obj k) : Prop :=
  exists n, existT (AGet k ns n) (Ok o : resp (AGet k ns n)) ∈ tr.

(** An object of this name was read and carried the label. *)
Definition saw_owned (tr : trace) (k : kind) (ns name : string) : Prop :=
  exists o, saw tr k ns o /\ obj_name k o = name /\ hasDefaultLabel (om_Labels (obj_meta k o)) = true.

Definition owned_write (before : trace) (o : op) : Prop :=
  match o with
  | AUpdate k ns x => guarded k = true -> saw_owned before k ns (obj_name k x)
  | APatch k ns n _ => guarded k = true -> saw_owned before k ns n
  | _ => True
  end.

Definition owned_writes : trace -> Prop := each owned_write.

(** Requests that cannot break the discipline. *)
Definition harmless (o : op) : Prop :=
  match o with
  | AUpdate k _ _ | APatch k _ _ _ => guarded k = false
  | _ => True
  end.

Section Invariant.

Lemma owned_closed {S} : closed harmless (fun (_ : S) tr => owned_writes tr).
Proof.
  intros s tr o r Ho Htr. apply each_snoc; [done|]. simpl.
  destruct o; simpl in *; try done; intros E; congruence.
Qed.

Lemma saw_mono tr tr' k ns o : saw tr k ns o -> saw (tr ++ tr') k ns o.
Proof. intros [n Hn]. exists n. apply elem_of_app. by left. Qed.

(** Read, check the label, go on: what follows may rely on the label. *)
Lemma keeps_checked k ns n err (rest : obj k -> go mem unit) :
  (forall o, hasDefaultLabel (om_Labels (obj_meta k o)) = true ->
     keeps (fun _ tr => owned_writes tr /\ saw tr k ns o) (rest o)) ->
  keeps (fun (_ : mem) tr => owned_writes tr)
    (o ← must (kGet k ns n);
     if negb (hasDefaultLabel (om_Labels (obj_meta k o))) then Throw err else rest o).
Proof.
  intros Hrest s tr Htr. unfold must, kGet. cbn. intros [o|e].
  - cbn. destruct (hasDefaultLabel _) eqn:E; cbn.
    + eapply runs_mono; [|apply (Hrest o E)]; [by intros ??? []|]. split.
      * by apply (owned_closed s tr (AGet k ns n)).
      * exists n. apply elem_of_app. right. by left.
    + by apply (owned_closed s tr (AGet k ns n)).
  - by apply (owned_closed s tr (AGet k ns n)).
Qed.

Lemma saw_closed {S} k ns (o : obj k) :
  closed harmless (fun (_ : S) tr => owned_writes tr /\ saw tr k ns o).
Proof.
  intros s tr o' r Ho [Htr Hs]. split; [by apply (owned_closed s)|by apply saw_mono].
Qed.

Lemma keeps_owned_update {S} k ns (o x : obj k) :
  hasDefaultLabel (om_Labels (obj_meta k o)) = true -> obj_name k x = obj_name k o ->
  keeps (fun (_ : S) tr => owned_writes tr /\ saw tr k ns o) (kUpdate k ns x).
Proof.
  intros Hl Hn s tr [Htr Hs] r. split; [|by apply saw_mono].
  apply each_snoc; [done|]. intros _. exists o. by rewrite Hn.
Qed.

Lemma keeps_owned_patch {S} k ns (o : obj k) data :
  hasDefaultLabel (om_Labels (obj_meta k o)) = true ->
  keeps (fun (_ : S) tr => owned_writes tr /\ saw tr k ns o) (kPatch k ns (obj_name k o) data).
Proof.
  intros Hl s tr [Htr Hs] r. split; [|by apply saw_mono].
  apply each_snoc; [done|]. intros _. by exists o.
Qed.

Lemma owned_heap_inv : heap_inv (fun _ tr => owned_writes tr).
Proof. by intros s l tr. Qed.

End Invariant.

#[export] Hint Resolve owned_closed saw_closed owned_heap_inv : keeps.

Ltac owned_auto :=
  repeat first
    [ closed_step
    | solve [eapply keeps_store; auto]
    | solve [apply keeps_populatePodSpec; auto with keeps]
    | lazymatch goal with
      | |- keeps _ (must (kGet ?k ?ns ?n) ≫= _) => apply (keeps_checked k); intros ? ?
      end
    | keeps_step ].

Section Ensure.
Context `{YamlRuntimes} `{MapRange} `{OsEnv} `{IntOrStringValue} `{JsonDeployment}.

Abbreviation keeps_owned := (keeps (fun (_ : mem) tr => owned_writes tr)).

Lemma EnsureFuncConfigMap_owned p owners : keeps_owned (EnsureFuncConfigMap p owners).
Proof.
  unfold EnsureFuncConfigMap, label_in_place.
  owned_auto. by eapply (keeps_owned_update KConfigMap).
Qed.

Lemma EnsureFuncService_owned p owners : keeps_owned (EnsureFuncService p owners).
Proof.
  unfold EnsureFuncService, label_in_place.
  owned_auto. by eapply (keeps_owned_update KService).
Qed.

Lemma EnsureFuncImage_owned p owners a b c d e f g h : keeps_owned (EnsureFuncImage p owners a b c d e f g h).
Proof. unfold EnsureFuncImage. owned_auto. Qed.

Lemma submit_deployment_owned f owners d : keeps_owned (submit_deployment f owners d).
Proof.
  unfold submit_deployment. owned_auto.
  by eapply (keeps_owned_patch KDeployment).
Qed.

Lemma EnsureFuncDeployment_owned p owners a b c : keeps_owned (EnsureFuncDeployment p owners a b c).
Proof.
  unfold EnsureFuncDeployment, deploy_function, finish_deployment, UpdateDeployment. owned_auto.
  apply submit_deployment_owned.
Qed.

Lemma CreateServiceMonitor_owned f ns owners : keeps_owned (CreateServiceMonitor f ns owners).
Proof. unfold CreateServiceMonitor. owned_auto. Qed.

End Ensure.
