(* ===== verification/Reconcile.v ===== *)
(** * Reconciling a function

    Theorems on the requests that processing one key can make, for every
    sequence of answers: whose objects are touched, in which order, and what
    the created deployment looks like. *)
From S2P Require Import Prelude GoStrings GoProg KubeTypes World LangRuntime Memory K8sUtil.
From S2P Require Import PodSpec Ensure Controller Ownership.
From S2P Require Registry.

(** Requests that concern neither function resources nor the work queue. *)
Definition not_function (o : op) : Prop :=
  match o with
  | AGet k _ _ | ACreate k _ _ | AUpdate k _ _ | APatch k _ _ _ | ADelete k _ _
  | ADeleteCollection k _ _ | AList k _ _ => k <> KFunction
  | QueueGet | QueueDone _ | QueueForget _ | QueueNumRequeues _ | QueueAddRateLimited _
  | QueueAdd _ => False
  | _ => True
  end.

Create HintDb asks.
Ltac asks_auto :=
  repeat first
    [ solve [eauto 3 with asks]
    | solve [split; [first [exact Logic.I | discriminate] | intros; exact Logic.I]]
    | keeps_step ].

Section NotFunction.
Context `{YamlRuntimes} `{MapRange} `{OsEnv} `{IntOrStringValue} `{JsonDeployment} `{Mergo}
  `{UrlParse} `{Registry.RegistryJson} `{CacheKeys} `{YamlDeployment} `{SemanticEqual}.

Lemma load_asks P p : asks P (load p).
Proof. unfold load. cbn. intros s. by destruct (m_heap s !! p). Qed.

Lemma store_asks P p f : asks P (store p f).
Proof. done. Qed.

Lemma get_lr_asks P : asks P get_lr.
Proof. done. Qed.

Lemma put_lr_asks P l : asks P (put_lr l).
Proof. done. Qed.

Hint Resolve load_asks store_asks get_lr_asks put_lr_asks : asks.

Lemma merge_containers_asks {S} P i srcs dst : asks P (merge_containers i srcs dst : go S _).
Proof. revert i dst. induction srcs; intros i dst; simpl; asks_auto. Qed.

Lemma MergeDeployments_asks {S} P d d' : asks P (MergeDeployments d d' : go S _).
Proof. unfold MergeDeployments. asks_auto. apply merge_containers_asks. Qed.

Lemma ReadConfigMap_asks {S} P l : asks P (ReadConfigMap l : go S _).
Proof. unfold ReadConfigMap. asks_auto. Qed.

Hint Resolve ReadConfigMap_asks : asks.

Lemma populatePodSpec_asks P f ps rv img secrets : asks P (populatePodSpec f ps rv img secrets).
Proof. unfold populatePodSpec, getProvisionContainer. asks_auto. Qed.

Hint Resolve MergeDeployments_asks populatePodSpec_asks : asks.

Lemma EnsureFuncImage_asks p owners a b c d e f g h :
  asks not_function (EnsureFuncImage p owners a b c d e f g h).
Proof. unfold EnsureFuncImage. asks_auto. Qed.

Lemma EnsureFuncDeployment_asks p owners a b c :
  asks not_function (EnsureFuncDeployment p owners a b c).
Proof.
  unfold EnsureFuncDeployment, deploy_function, finish_deployment, UpdateDeployment,
    submit_deployment.
  asks_auto.
Qed.

Lemma startImageBuildJob_asks c p owners : asks not_function (startImageBuildJob c p owners).
Proof.
  unfold startImageBuildJob, Registry.New, Registry.ImageExists, Registry.doRequest,
    Registry.doRequestWithAuth.
  pose proof EnsureFuncImage_asks. asks_auto.
Qed.

Lemma deleteAutoscale_asks c ns n : asks not_function (deleteAutoscale c ns n).
Proof. unfold deleteAutoscale, DeleteServiceMonitor, DeleteAutoscale, delete_gone. asks_auto. Qed.

Lemma ensureK8sResources_asks c p : asks not_function (ensureK8sResources c p).
Proof.
  unfold ensureK8sResources, label_function, merge_template, choose_image, ensure_autoscale,
    CreateServiceMonitor, CreateAutoscale, UpdateAutoscale, EnsureFuncConfigMap,
    EnsureFuncService, label_in_place.
  pose proof startImageBuildJob_asks. pose proof EnsureFuncDeployment_asks.
  pose proof deleteAutoscale_asks. asks_auto.
Qed.

Lemma deleteK8sResources_asks c ns name : asks not_function (deleteK8sResources c ns name).
Proof.
  unfold deleteK8sResources, ignore_gone. pose proof deleteAutoscale_asks. asks_auto.
Qed.

End NotFunction.

Section Owned.
Context `{YamlRuntimes} `{MapRange} `{OsEnv} `{IntOrStringValue} `{JsonDeployment} `{Mergo}
  `{UrlParse} `{Registry.RegistryJson} `{CacheKeys} `{YamlDeployment} `{SemanticEqual}.

Abbreviation keeps_owned := (keeps (fun (_ : mem) tr => owned_writes tr)).

Lemma merge_containers_keeps {S} I i srcs dst : keeps I (merge_containers i srcs dst : go S _).
Proof. revert i dst. induction srcs; intros i dst; simpl; keeps_auto. Qed.

Lemma MergeDeployments_keeps {S} I d d' : keeps I (MergeDeployments d d' : go S _).
Proof. unfold MergeDeployments. keeps_auto. apply merge_containers_keeps. Qed.

Lemma New_owned s : keeps_owned (Registry.New s).
Proof. unfold Registry.New. owned_auto. Qed.

Lemma ImageExists_owned r id tag : keeps_owned (Registry.ImageExists r id tag).
Proof. unfold Registry.ImageExists, Registry.doRequest, Registry.doRequestWithAuth. owned_auto. Qed.

Hint Resolve MergeDeployments_keeps New_owned ImageExists_owned EnsureFuncImage_owned
  EnsureFuncConfigMap_owned EnsureFuncService_owned EnsureFuncDeployment_owned
  CreateServiceMonitor_owned : keeps.

Lemma ensureK8sResources_owned c p : keeps_owned (ensureK8sResources c p).
Proof.
  unfold ensureK8sResources, label_function, merge_template, choose_image, startImageBuildJob,
    ensure_autoscale, CreateAutoscale, UpdateAutoscale, deleteAutoscale, DeleteServiceMonitor,
    DeleteAutoscale, delete_gone.
  owned_auto.
Qed.

Lemma deleteK8sResources_owned c ns name : keeps_owned (deleteK8sResources c ns name).
Proof.
  unfold deleteK8sResources, ignore_gone, deleteAutoscale, DeleteServiceMonitor, DeleteAutoscale,
    delete_gone.
  owned_auto.
Qed.

(** C12.  Whatever the API server answers, processing a key updates or patches
    a config map, service or deployment only after it has read an object of
    that name carrying the label created-by=kubeless. *)
Theorem processItem_owned_writes c key s :
  runs (processItem c key) s [] (fun _ tr _ => owned_writes tr).
Proof.
  assert (keeps_owned (processItem c key)) as Hk; [|exact (Hk s [] (each_nil _))].
  unfold processItem, FunctionObjAddFinalizer, FunctionObjRemoveFinalizer,
    UpdateFunctionCustomResource.
  pose proof ensureK8sResources_owned. pose proof deleteK8sResources_owned.
  owned_auto.
Qed.

End Owned.
