(* ===== verification/Converge.v ===== *)
(** * The objects of a function converge

    [create_or_update] is what ensuring an object means: create it; if the
    name is taken by an object of kubeless, put the new contents in its place;
    leave an object of somebody else alone and report a conflict.  The Ensure
    functions for the config map and the service refine it.  On a server that
    accepts what it is sent it brings the object to the state asked for,
    whether it exists or not, as often as it is run. *)
From S2P Require Import Prelude GoStrings GoProg KubeTypes World LangRuntime Memory K8sUtil.
From S2P Require Import PodSpec Ensure EnsureSpec Controller Concrete.

(** [merge] puts the new contents into the object found. *)
Definition create_or_update (k : kind) (what ns name : string) (o : obj k)
    (merge : obj k -> obj k) : go mem unit :=
  r ← kCreate k ns o;
  match r with
  | Ok _ => mret tt
  | Error e =>
      if IsAlreadyExists e then
        cur ← must (kGet k ns name);
        if hasDefaultLabel (om_Labels (obj_meta k cur)) then
          u ← kUpdate k ns (merge cur);
          match u with
          | Ok _ => mret tt
          | Error e => if IsAlreadyExists e then mret tt else Throw e
          end
        else Throw (conflict what ns name)
      else Throw e
  end.

(** ** Refinement *)

Definition desired_configmap (f : Function_) (owners : list OwnerReference)
    (data : gmap string string) : ConfigMap :=
  {| cm_Meta := mk_meta (f_name f) "" (addDefaultLabel (f_labels f)) owners; cm_Data := Some data |}.

Definition merge_configmap (f : Function_) (owners : list OwnerReference)
    (data : gmap string string) (cur : ConfigMap) : ConfigMap :=
  {| cm_Meta := meta_set_owners (meta_set_labels (cm_Meta cur) (f_labels (labelled f))) owners;
     cm_Data := Some data |}.

Definition desired_service (f : Function_) (owners : list OwnerReference) : Service :=
  {| svc_Meta := mk_meta (f_name f) "" (addDefaultLabel (f_labels f)) owners;
     svc_Spec := serviceSpec (labelled f) |}.

Definition merge_service (f : Function_) (owners : list OwnerReference) (cur : Service) : Service :=
  {| svc_Meta := meta_set_owners (meta_set_labels (svc_Meta cur) (f_labels (labelled f))) owners;
     svc_Spec := svc_set_ports (svc_Spec cur) (ss_Ports (serviceSpec (labelled f))) |}.

(** The memory with the labelled function. *)
Definition relabel (p : positive) (f : Function_) (s : mem) : mem :=
  Mem (<[p := labelled f]> (m_heap s)) (m_lr s).

Section Refinement.
Context {W : Type} (H : handler resp W).

Lemma EnsureFuncConfigMap_refines p f owners s w :
  m_heap s !! p = Some f ->
  run H (EnsureFuncConfigMap p owners) s w =
  match configMapData f (m_lr s) with
  | Ok data => run H (create_or_update KConfigMap "configmap" (f_namespace f) (f_name f)
                        (desired_configmap f owners data) (merge_configmap f owners data))
                 (relabel p f s) w
  | Error e => (Failed e, s, w)
  end.
Proof.
  intros Hp. unfold EnsureFuncConfigMap, create_or_update, label_in_place, load, store, must, kCreate,
    kGet, kUpdate. cbn. rewrite Hp. cbn.
  destruct (configMapData f (m_lr s)) as [data|e]; cbn; [|done]. rewrite Hp. cbn.
  destruct (H (ACreate KConfigMap _ _) w) as [[r|e] w1]; cbn; [done|].
  destruct (IsAlreadyExists e); [|done]. cbn.
  destruct (H (AGet KConfigMap _ _) w1) as [[cur|e'] w2]; cbn; [|done].
  destruct (hasDefaultLabel _); [|done]. cbn. rewrite lookup_insert_eq. cbn.
  destruct (H (AUpdate KConfigMap _ _) w2) as [[u|e'] w3]; cbn; [done|].
  by destruct (IsAlreadyExists e').
Qed.

Lemma EnsureFuncService_refines p f owners s w :
  m_heap s !! p = Some f ->
  run H (EnsureFuncService p owners) s w =
  run H (create_or_update KService "service" (f_namespace f) (f_name f)
           (desired_service f owners) (merge_service f owners)) (relabel p f s) w.
Proof.
  intros Hp. unfold EnsureFuncService, create_or_update, label_in_place, load, store, must, kCreate,
    kGet, kUpdate. cbn. rewrite Hp. cbn. rewrite lookup_insert_eq. cbn.
  destruct (H (ACreate KService _ _) w) as [[r|e] w1]; cbn; [done|].
  destruct (IsAlreadyExists e); [|done]. cbn.
  destruct (H (AGet KService _ _) w1) as [[cur|e'] w2]; cbn; [|done].
  destruct (hasDefaultLabel _); [|done]. cbn.
  destruct (H (AUpdate KService _ _) w2) as [[u|e'] w3]; cbn; [done|].
  by destruct (IsAlreadyExists e').
Qed.

End Refinement.

(** ** On a server that accepts what it is sent *)

Section Lawful.
Context {W : Type} (H : handler resp W) `{!ApiServer H}.
Implicit Types (w : W) (s : mem).

(** What is stored under the name is absent, or kubeless's own and not being
    deleted. *)
Definition ours_or_absent (k : kind) (ns name : string) w : Prop :=
  forall o, stored w k ns name = Some o ->
    obj_name k o = name /\ hasDefaultLabel (om_Labels (obj_meta k o)) = true /\
    om_DeletionTimestamp (obj_meta k o) = None.

Lemma accepted_ours k ns (o o' : obj k) w :
  stored w k ns (obj_name k o) = Some o' -> accepts k o o' ->
  hasDefaultLabel (om_Labels (obj_meta k o)) = true -> om_DeletionTimestamp (obj_meta k o) = None ->
  ours_or_absent k ns (obj_name k o) w.
Proof.
  intros Hs [(Hn & Hl & _ & _ & _ & Hd & _) _] Hlab Hdel x. rewrite Hs. intros [= <-].
  unfold obj_name. rewrite Hn, Hl. split_and!; [done|done|].
  rewrite Hdel in Hd. by destruct (om_DeletionTimestamp _).
Qed.

Section CreateOrUpdate.
Context (k : kind) (what ns : string) (o : obj k) (merge : obj k -> obj k).
Let name := obj_name k o.

(** The two ways to success. *)
Lemma create_or_update_creates s w :
  stored w k ns name = None ->
  exists w' o', run H (create_or_update k what ns name o merge) s w = (Done tt, s, w') /\
    accepts k o o' /\ stored w' k ns name = Some o' /\ same_but stored k ns name w w'.
Proof.
  intros E. destruct (api_create_new w k ns o E) as (o' & w' & E' & Ha & Hs & Hb).
  exists w', o'. split_and!; [|done..].
  unfold create_or_update, kCreate. cbn [run mbind prog_mbind prog_bind call]. by rewrite E'.
Qed.

Lemma create_or_update_replaces s w cur :
  stored w k ns name = Some cur -> hasDefaultLabel (om_Labels (obj_meta k cur)) = true ->
  obj_name k (merge cur) = name -> fresh k cur (merge cur) ->
  om_DeletionTimestamp (obj_meta k (merge cur)) = None ->
  exists w' o', run H (create_or_update k what ns name o merge) s w = (Done tt, s, w') /\
    accepts k (merge cur) o' /\ stored w' k ns name = Some o' /\ same_but stored k ns name w w'.
Proof.
  intros E Hl Hn Hf Hd. destruct (api_update w k ns (merge cur) cur) as (o' & w' & E' & Ha & Hs & Hb);
    [by rewrite Hn|done|].
  exists w', o'. assert (finalized k (merge cur) = false) as Hfin by (unfold finalized; by rewrite Hd).
  rewrite Hfin, Hn in Hs. rewrite Hn in Hb. split_and!; [|done..].
  unfold create_or_update, must, kCreate, kGet, kUpdate. cbn [run mbind prog_mbind prog_bind call].
  erewrite api_create_taken by exact E. cbn. fold name. rewrite api_get, E. cbn. rewrite Hl. cbn.
  by rewrite E'.
Qed.

(** The object is labelled as kubeless's, and merging puts its labels on the
    one found without touching what the server manages. *)
Lemma create_or_update_converges s w :
  hasDefaultLabel (om_Labels (obj_meta k o)) = true ->
  om_DeletionTimestamp (obj_meta k o) = None ->
  (forall cur, obj_name k (merge cur) = obj_name k cur /\
     om_Labels (obj_meta k (merge cur)) = om_Labels (obj_meta k o) /\
     om_ResourceVersion (obj_meta k (merge cur)) = om_ResourceVersion (obj_meta k cur) /\
     om_DeletionTimestamp (obj_meta k (merge cur)) = om_DeletionTimestamp (obj_meta k cur)) ->
  ours_or_absent k ns name w ->
  exists w' o', run H (create_or_update k what ns name o merge) s w = (Done tt, s, w') /\
    stored w' k ns name = Some o' /\
    (accepts k o o' \/ exists cur, stored w k ns name = Some cur /\ accepts k (merge cur) o') /\
    same_but stored k ns name w w' /\ ours_or_absent k ns name w'.
Proof.
  intros Hlab Hdel Hmerge Hw. destruct (stored w k ns name) as [cur|] eqn:E.
  - destruct (Hw cur E) as (Hn & Hl & Hd). destruct (Hmerge cur) as (Hmn & Hml & Hmr & Hmd).
    assert (Hmn' : obj_name k (merge cur) = name) by congruence.
    destruct (create_or_update_replaces s w cur) as (w' & o' & Er & Ha & Hs & Hb);
      [done|done|done|by split; [right|rewrite Hmd]|congruence|].
    exists w', o'. split_and!; [done|done|right; eauto|done|]. rewrite <- Hmn'.
    apply (accepted_ours k ns (merge cur) o'); rewrite ?Hmn'; [done|done| |congruence].
    by rewrite Hml.
  - destruct (create_or_update_creates s w E) as (w' & o' & Er & Ha & Hs & Hb).
    exists w', o'. split_and!; [done|done|by left|done|].
    by apply (accepted_ours k ns o o').
Qed.

Lemma create_or_update_conflict s w cur :
  stored w k ns name = Some cur -> hasDefaultLabel (om_Labels (obj_meta k cur)) = false ->
  run H (create_or_update k what ns name o merge) s w = (Failed (conflict what ns name), s, w).
Proof.
  intros E Hl. unfold create_or_update, must, kCreate, kGet, kUpdate.
  cbn [run mbind prog_mbind prog_bind call]. erewrite api_create_taken by exact E. cbn.
  fold name. rewrite api_get, E. cbn. by rewrite Hl.
Qed.

End CreateOrUpdate.

Lemma addDefaultLabel_default l : hasDefaultLabel (addDefaultLabel l) = true.
Proof. unfold hasDefaultLabel, addDefaultLabel, mstr. cbn. by rewrite lookup_insert_eq. Qed.

Lemma labelled_add f : f_labels f <> None -> addDefaultLabel (f_labels f) = f_labels (labelled f).
Proof. unfold labelled. cbn. by destruct (f_labels f). Qed.

Lemma configmap_converges p f owners data s w
    (Hp : m_heap s !! p = Some f) (Hl : f_labels f <> None)
    (Hd : configMapData f (m_lr s) = Ok data)
    (Hw : ours_or_absent KConfigMap (f_namespace f) (f_name f) w) :
  exists w' cm, run H (EnsureFuncConfigMap p owners) s w = (Done tt, relabel p f s, w') /\
    stored w' KConfigMap (f_namespace f) (f_name f) = Some cm /\ cm_Data cm = Some data /\
    om_Labels (cm_Meta cm) = f_labels (labelled f) /\ om_OwnerReferences (cm_Meta cm) = owners /\
    same_but stored KConfigMap (f_namespace f) (f_name f) w w' /\
    ours_or_absent KConfigMap (f_namespace f) (f_name f) w'.
Proof.
  rewrite EnsureFuncConfigMap_refines with (f := f), Hd by done.
  destruct (create_or_update_converges KConfigMap "configmap" (f_namespace f)
    (desired_configmap f owners data) (merge_configmap f owners data)) with (s := relabel p f s) (w := w)
    as (w' & cm & E & Hs & Ha & Hb & Ho).
  { apply addDefaultLabel_default. }
  { done. }
  { intros cur. split_and!; try done. symmetry. by apply labelled_add. }
  { done. }
  exists w', cm. rewrite <- labelled_add by done. split_and!; try done.
    + by destruct Ha as [[_ ->]|(cur & _ & _ & ->)].
    + destruct Ha as [[(_ & Hx & _) _]|(cur & _ & (_ & Hx & _) & _)]; [exact Hx|].
      etrans; [exact Hx|]. symmetry. by apply labelled_add.
    + by destruct Ha as [[(_ & _ & _ & Hx & _) _]|(cur & _ & (_ & _ & _ & Hx & _) & _)].
Qed.

(** Ensuring the config map of a function with labels succeeds when the
    name is free or kubeless's own: afterwards the stored config map has the
    function's data, its labels with created-by=kubeless, and the owners;
    nothing else has changed, and the precondition holds again, so any number
    of further runs succeeds with the same result. *)
Theorem EnsureFuncConfigMap_converges p f owners data s w
    (Hp : m_heap s !! p = Some f) (Hl : f_labels f <> None)
    (Hd : configMapData f (m_lr s) = Ok data)
    (Hw : ours_or_absent KConfigMap (f_namespace f) (f_name f) w) :
  exists w' cm, run H (EnsureFuncConfigMap p owners) s w = (Done tt, relabel p f s, w') /\
    stored w' KConfigMap (f_namespace f) (f_name f) = Some cm /\ cm_Data cm = Some data /\
    om_Labels (cm_Meta cm) = f_labels (labelled f) /\ om_OwnerReferences (cm_Meta cm) = owners /\
    same_but stored KConfigMap (f_namespace f) (f_name f) w w' /\
    ours_or_absent KConfigMap (f_namespace f) (f_name f) w'.
Proof. by apply configmap_converges. Qed.

Lemma service_converges p f owners s w
    (Hp : m_heap s !! p = Some f) (Hl : f_labels f <> None)
    (Hw : ours_or_absent KService (f_namespace f) (f_name f) w) :
  exists w' svc, run H (EnsureFuncService p owners) s w = (Done tt, relabel p f s, w') /\
    stored w' KService (f_namespace f) (f_name f) = Some svc /\
    ss_Ports (svc_Spec svc) = ss_Ports (serviceSpec (labelled f)) /\
    om_Labels (svc_Meta svc) = f_labels (labelled f) /\ om_OwnerReferences (svc_Meta svc) = owners /\
    same_but stored KService (f_namespace f) (f_name f) w w' /\
    ours_or_absent KService (f_namespace f) (f_name f) w'.
Proof.
  rewrite EnsureFuncService_refines with (f := f) by done.
  destruct (create_or_update_converges KService "service" (f_namespace f)
    (desired_service f owners) (merge_service f owners)) with (s := relabel p f s) (w := w)
    as (w' & svc & E & Hs & Ha & Hb & Ho).
  { apply addDefaultLabel_default. }
  { done. }
  { intros cur. split_and!; try done. symmetry. by apply labelled_add. }
  { done. }
  exists w', svc. rewrite <- labelled_add by done. split_and!; try done.
    + by destruct Ha as [[_ [-> _]]|(cur & _ & _ & -> & _)].
    + destruct Ha as [[(_ & Hx & _) _]|(cur & _ & (_ & Hx & _) & _)]; [exact Hx|].
      etrans; [exact Hx|]. symmetry. by apply labelled_add.
    + by destruct Ha as [[(_ & _ & _ & Hx & _) _]|(cur & _ & (_ & _ & _ & Hx & _) & _)].
Qed.

(** Ensuring the service of a function with labels succeeds likewise: the
    stored service has the target ports of the function, its labels and the
    owners, and further runs succeed with the same result. *)
Theorem EnsureFuncService_converges p f owners s w
    (Hp : m_heap s !! p = Some f) (Hl : f_labels f <> None)
    (Hw : ours_or_absent KService (f_namespace f) (f_name f) w) :
  exists w' svc, run H (EnsureFuncService p owners) s w = (Done tt, relabel p f s, w') /\
    stored w' KService (f_namespace f) (f_name f) = Some svc /\
    ss_Ports (svc_Spec svc) = ss_Ports (serviceSpec (labelled f)) /\
    om_Labels (svc_Meta svc) = f_labels (labelled f) /\ om_OwnerReferences (svc_Meta svc) = owners /\
    same_but stored KService (f_namespace f) (f_name f) w w' /\
    ours_or_absent KService (f_namespace f) (f_name f) w'.
Proof. by apply service_converges. Qed.

(** C18.  An object of somebody else under the function's name is reported as a
    conflict and the server is left as it was: the config map, once its data
    could be put together, whatever else is there, and likewise the service. *)
Theorem Ensure_conflict p f owners s w (Hp : m_heap s !! p = Some f) :
  (forall data cm, configMapData f (m_lr s) = Ok data ->
     stored w KConfigMap (f_namespace f) (f_name f) = Some cm ->
     hasDefaultLabel (om_Labels (cm_Meta cm)) = false ->
     run H (EnsureFuncConfigMap p owners) s w =
       (Failed (conflict "configmap" (f_namespace f) (f_name f)), relabel p f s, w)) /\
  (forall svc, stored w KService (f_namespace f) (f_name f) = Some svc ->
     hasDefaultLabel (om_Labels (svc_Meta svc)) = false ->
     run H (EnsureFuncService p owners) s w =
       (Failed (conflict "service" (f_namespace f) (f_name f)), relabel p f s, w)).
Proof.
  split.
  - intros data cm Hd Hcm Hcl. rewrite EnsureFuncConfigMap_refines with (f := f), Hd by done.
    by apply (create_or_update_conflict KConfigMap "configmap" (f_namespace f)
      (desired_configmap f owners data) _ _ w cm).
  - intros svc Hsvc Hsl. rewrite EnsureFuncService_refines with (f := f) by done.
    by apply (create_or_update_conflict KService "service" (f_namespace f)
      (desired_service f owners) _ _ w svc).
Qed.

(** A function whose labels are nil breaks this: its second update takes
    the created-by label off the config map, so that the third run finds a
    conflict.  (The controller sets the function label first, so its labels
    are never nil.) *)
Theorem EnsureFuncConfigMap_nil_labels p f owners data s w
    (Hp : m_heap s !! p = Some f) (Hl : f_labels f = None)
    (Hd : configMapData f (m_lr s) = Ok data)
    (Hw : stored w KConfigMap (f_namespace f) (f_name f) = None) :
  exists w1 w2, run H (EnsureFuncConfigMap p owners) s w = (Done tt, s, w1) /\
    run H (EnsureFuncConfigMap p owners) s w1 = (Done tt, s, w2) /\
    run H (EnsureFuncConfigMap p owners) s w2 =
      (Failed (conflict "configmap" (f_namespace f) (f_name f)), s, w2).
Proof.
  assert (Hlab : labelled f = f).
  { destruct f as [? [] ?]. cbn in Hl. by subst. }
  assert (Hs : relabel p f s = s).
  { unfold relabel. rewrite Hlab, insert_id by done. by destruct s. }
  pose proof (fun w => EnsureFuncConfigMap_refines H p f owners s w Hp) as Href.
  rewrite Hs in Href. setoid_rewrite Hd in Href. setoid_rewrite Href.
  set (o := desired_configmap f owners data). set (merge := merge_configmap f owners data).
  destruct (create_or_update_creates KConfigMap "configmap" (f_namespace f) o merge s w Hw)
    as (w1 & cm1 & E1 & [(Hn1 & Hl1 & _ & _ & _ & Hd1 & _) _] & Hs1 & _).
  destruct (create_or_update_replaces KConfigMap "configmap" (f_namespace f) o merge s w1 cm1)
    as (w2 & cm2 & E2 & [(_ & Hl2 & _) _] & Hs2 & _); [done| |done|by split; [right|]| |].
  { rewrite Hl1. apply addDefaultLabel_default. }
  { simpl in Hd1. simpl. by destruct (om_DeletionTimestamp (cm_Meta cm1)). }
  exists w1, w2. split_and!; [done|done|].
  apply (create_or_update_conflict KConfigMap "configmap" (f_namespace f) o merge s w2 cm2 Hs2).
  rewrite Hl2. simpl. by rewrite Hlab, Hl.
Qed.

End Lawful.

(** ** Concrete runs *)
Import Concrete.

Definition test_data : gmap string string :=
  <["requirements.txt" := "deps"]> (<["foo.py" := "function"]> {[ "handler" := "foo.bar" ]}).

(** A config map called foo of somebody else, or a service. *)
Definition foreign_configmap : world :=
  w_put empty_world KConfigMap "default" "foo" {| cm_Meta := mk_meta "foo" "" None []; cm_Data := None |}.
Definition foreign_service : world :=
  w_put empty_world KService "default" "foo" {| svc_Meta := mk_meta "foo" "" None []; svc_Spec := zero_service_spec |}.

Definition unlabelled_function : Function_ := f_set_labels test_function None.

Example EnsureFuncConfigMap_converges_witness :
  exists w' cm, run serve (EnsureFuncConfigMap 1 []) (memory test_function) empty_world
      = (Done tt, relabel 1 test_function (memory test_function), w') /\
    stored w' KConfigMap "default" "foo" = Some cm /\ cm_Data cm = Some test_data.
Proof.
  destruct (EnsureFuncConfigMap_converges serve 1 test_function [] test_data
    (memory test_function) empty_world) as (w' & cm & E & Hs & Hd & _).
  - reflexivity.
  - discriminate.
  - vm_compute. reflexivity.
  - intros o Ho. discriminate Ho.
  - exists w', cm. split; [exact E|]. split; [exact Hs|exact Hd].
Defined.

Example EnsureFuncService_converges_witness :
  exists w' svc, run serve (EnsureFuncService 1 []) (memory test_function) empty_world
      = (Done tt, relabel 1 test_function (memory test_function), w') /\
    stored w' KService "default" "foo" = Some svc.
Proof.
  destruct (EnsureFuncService_converges serve 1 test_function []
    (memory test_function) empty_world) as (w' & svc & E & Hs & _).
  - reflexivity.
  - discriminate.
  - intros o Ho. discriminate Ho.
  - exists w', svc. split; [exact E|exact Hs].
Defined.

Example Ensure_conflict_witness :
  run serve (EnsureFuncConfigMap 1 []) (memory test_function) foreign_configmap =
    (Failed (conflict "configmap" "default" "foo"), relabel 1 test_function (memory test_function),
     foreign_configmap) /\
  run serve (EnsureFuncService 1 []) (memory test_function) foreign_service =
    (Failed (conflict "service" "default" "foo"), relabel 1 test_function (memory test_function),
     foreign_service).
Proof.
  split.
  - eapply (proj1 (Ensure_conflict serve 1 test_function [] (memory test_function) foreign_configmap eq_refl)).
    + instantiate (1 := test_data). vm_compute. reflexivity.
    + vm_compute. reflexivity.
    + reflexivity.
  - eapply (proj2 (Ensure_conflict serve 1 test_function [] (memory test_function) foreign_service eq_refl)).
    + vm_compute. reflexivity.
    + reflexivity.
Defined.

Example EnsureFuncConfigMap_nil_labels_witness :
  exists w2, run serve (EnsureFuncConfigMap 1 []) (memory unlabelled_function) w2 =
    (Failed (conflict "configmap" "default" "foo"), memory unlabelled_function, w2).
Proof.
  destruct (EnsureFuncConfigMap_nil_labels serve 1 unlabelled_function [] test_data
    (memory unlabelled_function) empty_world) as (w1 & w2 & _ & _ & E).
  - reflexivity.
  - reflexivity.
  - vm_compute. reflexivity.
  - reflexivity.
  - exists w2. exact E.
Defined.
