(* ===== verification/Provision.v ===== *)
(** * From a source file to the pod

    What the "prepare" container does, as a list of commands with a meaning,
    and the theorems that connect the two ends of a function's source: the
    content and checksum that the command line puts into the function resource
    (Content), the config map that holds them (Ensure) and the commands of the
    init container (PodSpec). *)
From S2P Require Import Prelude GoStrings GoRegexp GoCodec GoProg KubeTypes World LangRuntime Memory K8sUtil.
From S2P Require Import Content PodSpec Ensure.

(** ** The commands *)

Inductive command :=
  | Decode (src dst : string)            (* base64 -d *)
  | Download (url dst : string)          (* curl *)
  | Verify (sum file : string)           (* sha256sum -c *)
  | Unzip (src dir : string)
  | Untar (src dir : string)
  | Copy (src dst : string)              (* cp to a file *)
  | CopyInto (dir name dst : string).    (* cp of dir/name into a directory *)

Definition render (c : command) : list string :=
  match c with
  | Decode src dst => ["base64 -d < " +:+ src +:+ " > " +:+ dst]
  | Download url dst => ["curl '" +:+ url +:+ "' -L --silent --output " +:+ dst]
  | Verify sum file => sha256_check sum file "/tmp/func.sha256"
  | Unzip src dir => ["unzip -o " +:+ src +:+ " -d " +:+ dir]
  | Untar src dir => ["tar xf " +:+ src +:+ " -C " +:+ dir]
  | Copy src dst => ["cp " +:+ src +:+ " " +:+ dst]
  | CopyInto dir name dst => ["cp " +:+ path_Join [dir; name] +:+ " " +:+ dst]
  end.

(** ** The plan of a function *)

(** Where the source is, and the commands that bring it there. *)
Definition fetch_plan (contentType function origin : string) : option (list command * string) :=
  if Contains contentType "base64" then
    Some ([Decode origin "/tmp/func.decoded"], "/tmp/func.decoded")
  else if Contains contentType "url" then
    Some ([Download function "/tmp/func.fromurl"], "/tmp/func.fromurl")
  else if Contains contentType "text" || (contentType =?s "") then Some ([], origin)
  else None.

(** A checksum is absent or "sha256:" and the digest, up to a further colon. *)
Definition verify_plan (checksum file : string) : option (list command) :=
  if checksum =?s "" then Some []
  else match Split checksum ":"%char with
       | kind :: sum :: _ => if kind =?s "sha256" then Some [Verify sum file] else None
       | _ => None
       end.

Definition place_plan (contentType file dir handler runtime : string) (lr : Langruntimes)
  : option command :=
  if Contains contentType "zip" then Some (Unzip file dir)
  else if Contains contentType "compressedtar" then Some (Untar file dir)
  else match getFileName handler contentType runtime lr with
       | Ok name => Some (Copy file (path_Join [dir; name]))
       | Error _ => None
       end.

Definition deps_plan (contentType runtime depsDir dir : string) (lr : Langruntimes) : list command :=
  match GetRuntimeInfo lr runtime with
  | Ok info =>
      if negb (ri_DepName info =?s "") && negb (Contains contentType "deps")
      then [CopyInto depsDir (ri_DepName info) dir] else []
  | Error _ => []
  end.

Definition provision_plan (function checksum fileName handler contentType runtime dir depsDir : string)
    (lr : Langruntimes) : option (list command) :=
  '(fetch, file) ← fetch_plan contentType function (path_Join [depsDir; fileName]);
  verify ← verify_plan checksum file;
  place ← place_plan contentType file dir handler runtime lr;
  Some (fetch ++ verify ++ [place] ++ deps_plan contentType runtime depsDir dir lr).

(** The shell command of a plan. *)
Definition script (plan : list command) : string := chain (plan ≫= render).

Section Refinement.

Lemma chain_append (cmds l : list string) :
  hd "x" cmds <> "" -> l <> [] -> appendToCommand (chain cmds) l = chain (cmds ++ l).
Proof. apply appendToCommand_chain. Qed.

(** No command renders to an empty string. *)
Lemma render_hd c l : hd "x" (render c ++ l) <> "".
Proof. by destruct c. Qed.

Lemma render_nonempty c : render c <> [].
Proof. by destruct c. Qed.

Lemma script_hd (plan : list command) : hd "x" (plan ≫= render) <> "".
Proof. destruct plan as [|c plan]; [done|]. apply render_hd. Qed.

Lemma script_append (plan : list command) (c : command) :
  appendToCommand (script plan) (render c) = script (plan ++ [c]).
Proof.
  unfold script. rewrite chain_append; [|apply script_hd|apply render_nonempty].
  f_equal. rewrite bind_app. cbn. by rewrite app_nil_r.
Qed.

(** What a container that runs [plan] is. *)
Definition runs_plan (plan : list command) (c : Container) : Prop :=
  c_Command c = ["sh"; "-c"] /\ c_Args c = [script plan].

Lemma provision_container_runs {S} function checksum fileName handler contentType runtime image
    (runtimeVolume depsVolume : VolumeMount) resources lr plan (s : S) tr
    (Hplan : provision_plan function checksum fileName handler contentType runtime
               (vm_MountPath runtimeVolume) (vm_MountPath depsVolume) lr = Some plan) :
  runs (getProvisionContainer function checksum fileName handler contentType runtime image
          runtimeVolume depsVolume resources lr) s tr
    (fun s' tr' o => s' = s /\ tr' = tr /\
       exists c, o = Done c /\ runs_plan plan c /\ c_Name c = "prepare" /\
         c_VolumeMounts c = [runtimeVolume; depsVolume] /\ c_Image c = image).
Proof.
  unfold getProvisionContainer, provision_plan in *. cbv zeta.
  set (origin := path_Join [vm_MountPath depsVolume; fileName]) in *.
  destruct (fetch_plan contentType function origin) as [[fetch file]|] eqn:Ef; [|done]. cbn in Hplan.
  destruct (verify_plan checksum file) as [verify|] eqn:Ev; [|done]. cbn in Hplan.
  destruct (place_plan _ _ _ _ _ _) as [place|] eqn:Ep; [|done]. cbn in Hplan.
  injection Hplan as <-. apply runs_bind.
  eapply runs_mono with (Q := fun s' tr' o => s' = s /\ tr' = tr /\ o = Done (script fetch, file)).
  2: { unfold fetch_plan in Ef. repeat case_match; simplify_eq; done. }
  intros ??? (-> & -> & ->). apply runs_bind.
  eapply runs_mono with (Q := fun s' tr' o => s' = s /\ tr' = tr /\ o = Done (script (fetch ++ verify))).
  2: { unfold verify_plan in Ev. destruct (checksum =?s "").
       { simplify_eq. by rewrite app_nil_r. }
       destruct (Split checksum ":"%char) as [|kind [|sum rest]]; [done..|]. cbn.
       destruct (kind =?s "sha256"); [|done]. simplify_eq. cbn -[script sha256_check].
       by rewrite <- (script_append fetch (Verify sum file)). }
  intros ??? (-> & -> & ->). apply runs_bind.
  eapply runs_mono with (Q := fun s' tr' o => s' = s /\ tr' = tr /\
    o = Done (script ((fetch ++ verify) ++ [place]))).
  2: { rewrite <- script_append. unfold place_plan in Ep.
       destruct (Contains contentType "zip"); [by simplify_eq|].
       destruct (Contains contentType "compressedtar"); [by simplify_eq|].
       destruct (getFileName _ _ _ _); [|done]. by simplify_eq. }
  intros ??? (-> & -> & ->). cbn [runs mret prog_ret]. split_and!; [done..|].
  eexists. split; [done|]. cbn [c_Command c_Args c_VolumeMounts c_Image c_Name].
  split_and!; [split; [done|]|done..]. cbn [c_Args]. f_equal.
  rewrite <- !app_assoc. unfold deps_plan. destruct (GetRuntimeInfo lr runtime) as [info|].
  - destruct (_ && _).
    + etrans; [exact (script_append _ (CopyInto _ _ _))|]. by rewrite <- !app_assoc.
    + done.
  - done.
Qed.

(** Without a plan there is no container. *)
Lemma plan_needed {S} function checksum fileName handler contentType runtime image
    (runtimeVolume depsVolume : VolumeMount) resources lr c :
  yields (getProvisionContainer function checksum fileName handler contentType runtime image
            runtimeVolume depsVolume resources lr : go S _) c ->
  provision_plan function checksum fileName handler contentType runtime
    (vm_MountPath runtimeVolume) (vm_MountPath depsVolume) lr <> None.
Proof.
  unfold getProvisionContainer, provision_plan. cbv zeta.
  set (origin := path_Join [vm_MountPath depsVolume; fileName]).
  intros ([cmd file] & Hfetch & (cmd1 & Hverify & (cmd2 & Hplace & _)%yields_bind)%yields_bind)%yields_bind.
  assert (exists l, fetch_plan contentType function origin = Some (l, file)) as [l ->].
  { unfold fetch_plan. repeat case_match; simpl in Hfetch; first [done|simplify_eq/=; by eexists]. }
  assert (exists v, verify_plan checksum file = Some v) as [v Hv].
  { unfold verify_plan. destruct (checksum =?s ""); [by eexists|].
    destruct (Split checksum ":"%char) as [|kind [|sum rest]]; simpl in Hverify; [done| |];
      destruct (kind =?s "sha256"); simpl in Hverify; first [done|by eexists]. }
  cbn. rewrite Hv. cbn. unfold place_plan. destruct (Contains contentType "zip"); [done|].
  destruct (Contains contentType "compressedtar"); [done|].
  apply yields_bind in Hplace as (dest & Hd%yields_lift & _). by rewrite Hd.
Qed.

Lemma provision_container_plan {S} function checksum fileName handler contentType runtime image
    (runtimeVolume depsVolume : VolumeMount) resources lr (s : S) tr :
  runs (getProvisionContainer function checksum fileName handler contentType runtime image
          runtimeVolume depsVolume resources lr) s tr
    (fun _ _ o => forall c, o = Done c ->
       exists plan, provision_plan function checksum fileName handler contentType runtime
           (vm_MountPath runtimeVolume) (vm_MountPath depsVolume) lr = Some plan /\ runs_plan plan c).
Proof.
  destruct (provision_plan _ _ _ _ _ _ _ _ _) as [plan|] eqn:Hplan.
  - eapply runs_mono; [|by apply provision_container_runs].
    intros s' tr' o (_ & _ & c & -> & Hc & _) c' [= <-]. by exists plan.
  - eapply runs_mono; [|apply yields_runs]. intros s' tr' o Hy c Hc. by apply Hy, plan_needed in Hc.
Qed.

(** C9.  The prepare container runs the plan: whenever a plan exists, its shell
    command is the commands of the plan in order, each run only if the ones
    before it succeeded; and it mounts the runtime volume and the volume with
    the source.  In the plan the checksum is verified, on the very file that is
    then unpacked or copied, before anything is put into the runtime volume. *)
Theorem getProvisionContainer_plan {S} function checksum fileName handler contentType runtime image
    (runtimeVolume depsVolume : VolumeMount) resources lr plan (s : S) tr
    (Hplan : provision_plan function checksum fileName handler contentType runtime
               (vm_MountPath runtimeVolume) (vm_MountPath depsVolume) lr = Some plan) :
  runs (getProvisionContainer function checksum fileName handler contentType runtime image
          runtimeVolume depsVolume resources lr) s tr
    (fun s' tr' o => s' = s /\ tr' = tr /\
       exists c, o = Done c /\ c_Command c = ["sh"; "-c"] /\ c_Args c = [script plan] /\
         c_VolumeMounts c = [runtimeVolume; depsVolume] /\ c_Image c = image).
Proof.
  eapply runs_mono; [|by apply provision_container_runs].
  intros s' tr' o (-> & -> & c & -> & [] & _ & ? & ?). eauto 10.
Qed.

End Refinement.

(** ** The meaning of the commands *)

Abbreviation files := (gmap string string).

Section Execution.
(** What the network serves, and how the archive tools unpack. *)
Context (web : string -> option string) (unzip untar : string -> string -> files -> option files).

Definition exec (c : command) (fs : files) : option files :=
  match c with
  | Decode src dst => b ← fs !! src; d ← base64_Decode b; Some (<[dst := d]> fs)
  | Download url dst => b ← web url; Some (<[dst := b]> fs)
  | Verify sum file =>
      b ← fs !! file;
      if sha256_hex b =?s sum
      then Some (<["/tmp/func.sha256" := sum +:+ "  " +:+ file +:+ String newline ""]> fs)
      else None
  | Unzip src dir => b ← fs !! src; unzip b dir fs
  | Untar src dir => b ← fs !! src; untar b dir fs
  | Copy src dst => b ← fs !! src; Some (<[dst := b]> fs)
  | CopyInto dir name dst =>
      b ← fs !! path_Join [dir; name]; Some (<[path_Join [dst; name] := b]> fs)
  end.

(** A chain of commands stops at the first failure. *)
Fixpoint exec_all (plan : list command) (fs : files) : option files :=
  match plan with
  | [] => Some fs
  | c :: rest => fs' ← exec c fs; exec_all rest fs'
  end.

Lemma exec_all_app a b fs : exec_all (a ++ b) fs = (fs' ← exec_all a fs; exec_all b fs').
Proof. revert fs. induction a as [|c a IH]; intros fs; cbn; [done|]. by destruct (exec c fs); cbn. Qed.

(** ** File names *)

Lemma join_plain_in d n :
  lacks "/"%char d -> d <> "" -> d <> "." -> d <> ".." -> plain n ->
  path_Join ["/" +:+ d; n] = "/" +:+ d +:+ "/" +:+ n.
Proof.
  intros Hd H0 H1 H2 (Hn & N0 & N1 & N2).
  assert (Hs : Split ("/" +:+ (d +:+ String "/"%char n)) "/"%char = [""; d; n]).
  { cbn. by rewrite Split_single_sep. }
  cbn [path_Join]. rewrite (proj2 (streq_false _ _)) by done. cbn [Join].
  rewrite string_app_assoc. change ("/" +:+ n) with (String "/"%char n).
  set (p := "/" +:+ (d +:+ String "/"%char n)) in *.
  assert (Hp : HasPrefix p "/" = true) by apply HasPrefix_app.
  unfold Clean. rewrite Hs, Hp.
  change (clean_comps true [] ["" ; d; n]) with (clean_comps true [] [d; n]).
  by rewrite !clean_comps_keep.
Qed.

(** ** The round trip *)

(** A volume that shows the entries of a config map as files. *)
Definition shows (data : gmap string string) (dir : string) (fs : files) : Prop :=
  forall k v, data !! k = Some v -> fs !! path_Join [dir; k] = Some v.

(** What the command line puts into the resource for a file with these bytes. *)
Definition encode (contentType bytes : string) : string :=
  if contentType =?s "text" then bytes else base64_EncodeToString bytes.

Definition src_path (n : string) : string := "/src/" +:+ n.
Definition kubeless_path (n : string) : string := "/kubeless/" +:+ n.

Lemma join_src n : plain n -> path_Join ["/src"; n] = src_path n.
Proof. intros Hn. apply (join_plain_in "src"); first [done|lacks_done]. Qed.

Lemma join_kubeless n : plain n -> path_Join ["/kubeless"; n] = kubeless_path n.
Proof. intros Hn. apply (join_plain_in "kubeless"); first [done|lacks_done]. Qed.

Lemma src_not_tmp n m : src_path n <> "/tmp/" +:+ m.
Proof. done. Qed.

Lemma kubeless_path_inj n m : kubeless_path n = kubeless_path m -> n = m.
Proof. apply string_app_inj_l. Qed.

Lemma verify_plan_digest sum file :
  lacks ":"%char sum -> verify_plan ("sha256:" +:+ sum) file = Some [Verify sum file].
Proof.
  intros Hs. unfold verify_plan. change ("sha256:" +:+ sum) with ("sha256" +:+ String ":"%char sum).
  assert (lacks ":"%char "sha256") by lacks_done.
  rewrite (proj2 (streq_false _ _)), Split_single_sep by done. by rewrite streq_refl.
Qed.

(** Fetching a text or base64 source and checking it leaves the original bytes
    where the next command looks for them, and the source volume as it was. *)
Lemma fetch_and_verify ct bytes function name fs :
  ct = "text" \/ ct = "base64" -> plain name ->
  fs !! src_path name = Some (encode ct bytes) ->
  exists fetch file fs1,
    fetch_plan ct function (path_Join ["/src"; name]) = Some (fetch, file) /\
    exec_all (fetch ++ [Verify (sha256_hex bytes) file]) fs = Some fs1 /\ fs1 !! file = Some bytes /\
    (forall k, fs1 !! src_path k = fs !! src_path k).
Proof.
  intros Hct Hn Hfs. rewrite (join_src name Hn). destruct Hct as [->| ->].
  - exists [], (src_path name). eexists. split; [done|]. cbn [app exec_all exec].
    rewrite Hfs. cbn [mbind option_bind]. rewrite streq_refl. cbn. split; [done|]. split.
    + by rewrite lookup_insert_ne.
    + intros k. by rewrite lookup_insert_ne.
  - exists [Decode (src_path name) "/tmp/func.decoded"], "/tmp/func.decoded". eexists. split; [done|].
    cbn [app exec_all exec]. rewrite Hfs. cbn [mbind option_bind].
    change (encode "base64" bytes) with (base64_EncodeToString bytes).
    rewrite base64_roundtrip. cbn [mbind option_bind]. rewrite lookup_insert_eq.
    cbn [mbind option_bind]. rewrite streq_refl. cbn. split; [done|]. split.
    + by rewrite lookup_insert_ne, lookup_insert_eq.
    + intros k. by rewrite !lookup_insert_ne.
Qed.

(** What the config map holds of the source and the dependencies. *)
Lemma configMapData_entries f lr data name
    (Hhandler : fs_Handler (f_Spec f) <> "")
    (Hname : getFileName (fs_Handler (f_Spec f)) (fs_FunctionContentType (f_Spec f))
               (fs_Runtime (f_Spec f)) lr = Ok name)
    (Hdata : configMapData f lr = Ok data)
    (Hdeps : forall info, GetRuntimeInfo lr (fs_Runtime (f_Spec f)) = Ok info ->
       ri_DepName info <> "" -> ri_DepName info <> name) :
  data !! name = Some (fs_Function (f_Spec f)) /\
  forall info, GetRuntimeInfo lr (fs_Runtime (f_Spec f)) = Ok info -> ri_DepName info <> "" ->
    data !! ri_DepName info = Some (fs_Deps (f_Spec f)).
Proof.
  unfold configMapData in Hdata. rewrite (proj2 (streq_false _ _) Hhandler), Hname in Hdata.
  cbn in Hdata. destruct (GetRuntimeInfo lr (fs_Runtime (f_Spec f))) as [info|]; [|simplify_eq/=].
  - destruct (ri_DepName info =?s "") eqn:Ed; cbn in Hdata; simplify_eq/=.
    + apply streq_true in Ed. rewrite lookup_insert_eq. split; [done|]. by intros i [= <-].
    + apply streq_false in Ed. pose proof (Hdeps info eq_refl Ed) as Hne.
      rewrite lookup_insert_ne, lookup_insert_eq by done. split; [done|].
      intros i [= <-] _. by rewrite lookup_insert_eq.
  - rewrite lookup_insert_eq. by split.
Qed.

(** Copying the dependencies leaves the source in place. *)
Lemma deps_copied ct rt lr name bytes deps fs
    (Hct : Contains ct "deps" = false) (Hb : fs !! kubeless_path name = Some bytes)
    (Hdeps : forall info, GetRuntimeInfo lr rt = Ok info -> ri_DepName info <> "" ->
       (plain (ri_DepName info) /\ ri_DepName info <> name) /\
       fs !! src_path (ri_DepName info) = Some deps) :
  exists fs', exec_all (deps_plan ct rt "/src" "/kubeless" lr) fs = Some fs' /\
    fs' !! kubeless_path name = Some bytes /\
    forall info, GetRuntimeInfo lr rt = Ok info -> ri_DepName info <> "" ->
      fs' !! path_Join ["/kubeless"; ri_DepName info] = Some deps.
Proof.
  unfold deps_plan. destruct (GetRuntimeInfo lr rt) as [info|]; [|by exists fs].
  destruct (ri_DepName info =?s "") eqn:Ed.
  { apply streq_true in Ed. exists fs. split_and!; [done..|]. by intros i [= <-]. }
  apply streq_false in Ed. destruct (Hdeps info eq_refl Ed) as [[Hpd Hne] Hl].
  rewrite Hct. cbn [negb andb exec_all exec]. rewrite join_src, join_kubeless, Hl by done.
  cbn [mbind option_bind]. eexists. split; [done|]. split.
  - rewrite lookup_insert_ne; [done|]. by intros ?%kubeless_path_inj.
  - intros i [= <-] _. rewrite join_kubeless by done. apply lookup_insert_eq.
Qed.

Lemma source_arrives f ct bytes lr data name fs
    (Hct : ct = "text" \/ ct = "base64")
    (Hfct : fs_FunctionContentType (f_Spec f) = ct)
    (Hfn : fs_Function (f_Spec f) = encode ct bytes)
    (Hsum : fs_Checksum (f_Spec f) = getSha256 bytes)
    (Hhandler : fs_Handler (f_Spec f) <> "")
    (Hname : getFileName (fs_Handler (f_Spec f)) ct (fs_Runtime (f_Spec f)) lr = Ok name)
    (Hplain : plain name)
    (Hdata : configMapData f lr = Ok data)
    (Hdeps : forall info, GetRuntimeInfo lr (fs_Runtime (f_Spec f)) = Ok info ->
       ri_DepName info <> "" -> plain (ri_DepName info) /\ ri_DepName info <> name)
    (Hshow : shows data "/src" fs) :
  exists plan fs',
    provision_plan (fs_Function (f_Spec f)) (fs_Checksum (f_Spec f)) name (fs_Handler (f_Spec f)) ct
      (fs_Runtime (f_Spec f)) "/kubeless" "/src" lr = Some plan /\
    exec_all plan fs = Some fs' /\
    fs' !! path_Join ["/kubeless"; name] = Some bytes /\
    (forall info, GetRuntimeInfo lr (fs_Runtime (f_Spec f)) = Ok info -> ri_DepName info <> "" ->
       fs' !! path_Join ["/kubeless"; ri_DepName info] = Some (fs_Deps (f_Spec f))).
Proof.
  destruct (configMapData_entries f lr data name) as [Hsrc Hdep]; [done|by rewrite Hfct|done| |].
  { intros info Hi Hd. by apply Hdeps. }
  pose proof (Hshow name _ Hsrc) as Hfs. rewrite (join_src name Hplain), Hfn in Hfs.
  destruct (fetch_and_verify ct bytes (fs_Function (f_Spec f)) name fs Hct Hplain Hfs)
    as (fetch & file & fs1 & Ef & Ex & Hfile & Hkeep).
  destruct (deps_copied ct (fs_Runtime (f_Spec f)) lr name bytes (fs_Deps (f_Spec f))
    (<[kubeless_path name := bytes]> fs1)) as (fs2 & Ed2 & Hb2 & Hd2).
  { by destruct Hct as [->| ->]. }
  { apply lookup_insert_eq. }
  { intros info Hi Hd. split; [by apply Hdeps|]. rewrite lookup_insert_ne by done.
    rewrite Hkeep, <- join_src by (by apply Hdeps). by apply Hshow, Hdep. }
  exists (fetch ++ [Verify (sha256_hex bytes) file] ++ [Copy file (kubeless_path name)]
    ++ deps_plan ct (fs_Runtime (f_Spec f)) "/src" "/kubeless" lr), fs2.
  split_and!; [| |by rewrite join_kubeless|done].
  - unfold provision_plan. rewrite Ef, Hsum. cbn [mbind option_bind].
    unfold getSha256. rewrite (verify_plan_digest _ _ (sha256_hex_lacks ":"%char bytes ltac:(lacks_done))). cbn [mbind option_bind].
    unfold place_plan. rewrite Hname, (join_kubeless name Hplain). by destruct Hct as [->| ->].
  - rewrite app_assoc, exec_all_app, Ex. cbn [mbind option_bind exec_all exec app].
    rewrite Hfile. cbn [mbind option_bind]. exact Ed2.
Qed.

(** The plan does not depend on the files. *)
Lemma plan_exists function bytes ct name handler runtime lr :
  ct = "text" \/ ct = "base64" -> getFileName handler ct runtime lr = Ok name ->
  exists plan, provision_plan function (getSha256 bytes) name handler ct runtime "/kubeless" "/src" lr = Some plan.
Proof.
  intros Hct Hn. unfold provision_plan, fetch_plan, place_plan, getSha256. rewrite Hn.
  destruct Hct as [-> | ->]; cbn [Contains]; simpl;
    rewrite (verify_plan_digest _ _ (sha256_hex_lacks ":"%char bytes ltac:(lacks_done))); simpl; by eexists.
Qed.

(** What the commands that fetch the source leave to be installed: the decoded
    file, what the address serves, or the file itself. *)
Definition fetched (contentType function origin : string) (fs : files) : option string :=
  if Contains contentType "base64" then b ← fs !! origin; base64_Decode b
  else if Contains contentType "url" then web function
  else fs !! origin.

Lemma fetch_leaves ct function origin fetch file fs :
  fetch_plan ct function origin = Some (fetch, file) ->
  (forall fs1, exec_all fetch fs = Some fs1 -> fs1 !! file = fetched ct function origin fs) /\
  forall pre post fs', fetch = pre ++ post -> exec_all pre fs = Some fs' ->
    forall k, (forall m, k <> "/tmp/" +:+ m) -> fs' !! k = fs !! k.
Proof.
  unfold fetch_plan, fetched. intros Hp. split.
  - intros fs1. repeat case_match; simplify_eq/=; intros E; simplify_option_eq; by rewrite ?lookup_insert_eq.
  - intros pre post fs' Hl He k Hk.
    assert (length pre <= 1)%nat as Hlen.
    { apply (f_equal length) in Hl. rewrite length_app in Hl. repeat case_match; simplify_eq/=; lia. }
    destruct pre as [|c [|c' pre]]; simpl in *; [by simplify_eq| |lia].
    assert (k <> "/tmp/func.decoded") by exact (Hk "func.decoded").
    assert (k <> "/tmp/func.fromurl") by exact (Hk "func.fromurl").
    repeat case_match; simplify_eq/=; simplify_option_eq; by rewrite lookup_insert_ne.
Qed.

Lemma verify_stops fetch sum file rest fs :
  (forall fs1, exec_all fetch fs = Some fs1 -> forall b, fs1 !! file = Some b -> sha256_hex b <> sum) ->
  forall pre post fs', fetch ++ Verify sum file :: rest = pre ++ post -> exec_all pre fs = Some fs' ->
  exists post', fetch = pre ++ post'.
Proof.
  intros Hbad pre post fs' Hl He. apply app_eq_app in Hl as (l & [[-> Hl]|[-> Hl]]); [by eexists|].
  destruct l as [|c l]; [exists []; by rewrite !app_nil_r|]. simpl in Hl. injection Hl as <- _.
  rewrite exec_all_app in He. destruct (exec_all fetch fs) as [fs1|] eqn:E; [|done]. cbn in He.
  destruct (fs1 !! file) as [b|] eqn:Eb; [|done]. cbn in He.
  by rewrite (proj2 (streq_false _ _)) in He by (by eapply Hbad).
Qed.

(** C10.  Content that does not match its checksum never reaches the runtime
    volume: whatever container [getProvisionContainer] returns for a function
    with a SHA-256 checksum, if what its commands fetch is missing or has
    another digest, then its shell command fails, and up to then nothing outside
    /tmp has been written. *)
Theorem tampered_source_rejected {S} function sum fileName handler ct runtime image
    (runtimeVolume depsVolume : VolumeMount) resources lr (s : S) tr fs (Hsum : lacks ":"%char sum)
    (Hbad : forall b, fetched ct function (path_Join [vm_MountPath depsVolume; fileName]) fs = Some b ->
       sha256_hex b <> sum) :
  runs (getProvisionContainer function ("sha256:" +:+ sum) fileName handler ct runtime image
          runtimeVolume depsVolume resources lr) s tr
    (fun _ _ o => forall c, o = Done c ->
       exists plan, runs_plan plan c /\ exec_all plan fs = None /\
         forall pre post fs', plan = pre ++ post -> exec_all pre fs = Some fs' ->
           forall k, (forall m, k <> "/tmp/" +:+ m) -> fs' !! k = fs !! k).
Proof.
  eapply runs_mono; [|apply provision_container_plan]. intros s' tr' o Ho c Hc.
  destruct (Ho c Hc) as (plan & Hplan & Hrun). exists plan. split; [done|]. clear Ho Hc.
  unfold provision_plan in Hplan.
  destruct (fetch_plan _ _ _) as [[fetch file]|] eqn:Hfetch; [|done]. cbn [mbind option_bind] in Hplan.
  rewrite verify_plan_digest in Hplan by done. cbn [mbind option_bind] in Hplan.
  destruct (place_plan _ _ _ _ _ _) as [place|]; [|done]. injection Hplan as <-.
  destruct (fetch_leaves _ _ _ _ _ fs Hfetch) as [Hleft Htmp].
  assert (Hstop := verify_stops fetch sum file (place :: deps_plan ct runtime (vm_MountPath depsVolume)
    (vm_MountPath runtimeVolume) lr) fs). cbn [app] in *.
  assert (Hbad' : forall fs1, exec_all fetch fs = Some fs1 -> forall b, fs1 !! file = Some b -> sha256_hex b <> sum).
  { intros fs1 E b Hb. apply Hbad. by rewrite <- (Hleft fs1 E). }
  split.
  - match goal with |- ?e = None => destruct e as [fs'|] eqn:E; [exfalso|done] end.
    destruct (Hstop Hbad' _ [] fs' (eq_sym (app_nil_r _)) E) as [post' Hl].
    apply (f_equal length) in Hl. rewrite !length_app in Hl. simpl in Hl. lia.
  - intros pre post fs' Hl He. destruct (Hstop Hbad' pre post fs' Hl He) as [post' Hf]. by eapply Htmp.
Qed.

End Execution.

(** ** Files to evaluate *)

Definition source_fs : files :=
  {[ "/src/foo.py" := "function"; "/src/requirements.txt" := "deps"; "/src/handler" := "foo.bar" ]}.

Definition no_web : string -> option string := fun _ => None.
Definition no_archive : string -> string -> files -> option files := fun _ _ _ => None.

Example tampered_source_rejected_witness :
  runs (getProvisionContainer "function" ("sha256:" +:+ sha256_hex "other") "foo.py" "foo.bar" "text" "python2.7"
      "unzip" (getRuntimeVolumeMount "foo") {| vm_Name := "foo-deps"; vm_ReadOnly := false;
        vm_MountPath := "/src" |} zero_resources test_runtimes) tt []
    (fun _ _ o => forall c, o = Done c ->
       exists plan, runs_plan plan c /\ exec_all no_web no_archive no_archive plan source_fs = None).
Proof.
  eapply runs_mono; [|eapply (tampered_source_rejected no_web no_archive no_archive "function" (sha256_hex "other") "foo.py"
    "foo.bar" "text" "python2.7" "unzip" (getRuntimeVolumeMount "foo") {| vm_Name := "foo-deps"; vm_ReadOnly := false;
        vm_MountPath := "/src" |} zero_resources test_runtimes tt [] source_fs)].
  - intros s tr o Ho c Hc. destruct (Ho c Hc) as (plan & Hp & He & _). by exists plan.
  - apply sha256_hex_lacks. lacks_done.
  - intros b E. vm_compute in E. injection E as <-. vm_compute. discriminate.
Defined.

Example getProvisionContainer_plan_witness :
  runs (getProvisionContainer "function" "sha256:abc1234" "test.func" "test.func" "text" "python2.7"
      "unzip" (getRuntimeVolumeMount "foo") {| vm_Name := "foo-deps"; vm_ReadOnly := false;
        vm_MountPath := "/src" |} zero_resources test_runtimes) tt []
    (fun s' tr' o => s' = tt /\ tr' = [] /\
       exists c, o = Done c /\ c_Command c = ["sh"; "-c"] /\
         c_Args c = [script [Verify "abc1234" "/src/test.func";
                             Copy "/src/test.func" "/kubeless/test.py";
                             CopyInto "/src" "requirements.txt" "/kubeless"]] /\
         c_VolumeMounts c = [getRuntimeVolumeMount "foo"; {| vm_Name := "foo-deps"; vm_ReadOnly := false;
        vm_MountPath := "/src" |}] /\ c_Image c = "unzip").
Proof.
  apply (getProvisionContainer_plan "function" "sha256:abc1234" "test.func" "test.func" "text"
    "python2.7" "unzip" (getRuntimeVolumeMount "foo") _ zero_resources test_runtimes).
  vm_compute. reflexivity.
Defined.
