(* ===== verification/Deletion.v ===== *)
(** * Deleting a function

    The finalizer of the controller holds a function resource back until its
    objects are gone: the finalizer is removed only after every deletion has
    been acknowledged, and on a server that accepts what it is sent the
    objects, and nothing else, are removed. *)
From S2P Require Import Prelude GoStrings GoProg KubeTypes World LangRuntime Memory K8sUtil.
From S2P Require Import PodSpec Ensure Controller Reconcile Concrete.
From S2P Require Registry.

(** The request was answered by success or NotFound. *)
Definition deleted (tr : trace) (k : kind) (ns name : string) : Prop :=
  exists r : result unit, existT (ADelete k ns name) (r : resp (ADelete k ns name)) ∈ tr /\ gone r = true.

Definition jobs_deleted (tr : trace) (ns name : string) : Prop :=
  exists r : result unit, gone r = true /\
    existT (ADeleteCollection KJob ns (build_selector name))
      (r : resp (ADeleteCollection KJob ns (build_selector name))) ∈ tr.

(** Everything the controller may have made for the function is gone. *)
Definition cleaned (c : FunctionController) (ns name : string) (tr : trace) : Prop :=
  deleted tr KDeployment ns name /\ deleted tr KService ns name /\ deleted tr KConfigMap ns name /\
  (hasSm c = true -> deleted tr KServiceMonitor ns name) /\ deleted tr KHPA ns name /\
  jobs_deleted tr ns name.

(** A write that takes the controller's finalizer off a function. *)
Definition drops_finalizer (o : op) : bool :=
  match o with
  | AUpdate KFunction _ f => negb (FunctionObjHasFinalizer f functionFinalizer)
  | _ => false
  end.

Section Deletion.
Context `{YamlRuntimes} `{MapRange} `{OsEnv} `{IntOrStringValue} `{JsonDeployment} `{Mergo}
  `{UrlParse} `{Registry.RegistryJson} `{CacheKeys} `{YamlDeployment} `{SemanticEqual}.

(** ** What is in the trace when deletion succeeds *)

Lemma deleted_mono tr tr' k ns n : tr `prefix_of` tr' -> deleted tr k ns n -> deleted tr' k ns n.
Proof. intros [t ->] (r & Hr & Hg). exists r. rewrite elem_of_app. auto. Qed.

Lemma deleted_last tr k ns n (r : result unit) :
  gone r = true -> deleted (tr ++ [existT (ADelete k ns n) (r : resp (ADelete k ns n))]) k ns n.
Proof. intros Hr. exists r. split; [|done]. apply elem_of_app. right. by left. Qed.

Lemma delete_gone_deleted {S} k ns n (s : S) tr :
  runs (delete_gone k ns n) s tr (fun s' tr' o =>
    s' = s /\ tr `prefix_of` tr' /\ (forall e, o = Failed e -> IsNotFound e = false) /\
    (o = Done tt -> deleted tr' k ns n)).
Proof.
  unfold delete_gone, kDelete. cbn. intros [[]|e]; cbn.
  - split_and!; [done|by eexists|done|]. intros _. by apply deleted_last.
  - destruct (IsNotFound e) eqn:E; cbn; split_and!; try done; try by eexists.
    + intros _. by apply deleted_last.
    + by intros e' [= <-].
Qed.

Lemma ignore_gone_deleted k ns n s tr :
  ensures (ignore_gone (kDelete k ns n)) s tr (fun s' tr' _ =>
    s' = s /\ tr `prefix_of` tr' /\ deleted tr' k ns n).
Proof.
  unfold ensures, ignore_gone, kDelete. cbn. intros r.
  destruct (gone r) eqn:E; cbn; [|by destruct r].
  intros a _. split_and!; [done|by eexists|by apply deleted_last].
Qed.

Lemma ignore_gone_jobs ns n s tr :
  ensures (ignore_gone (kDeleteCollection KJob ns (build_selector n))) s tr (fun s' tr' _ =>
    s' = s /\ tr `prefix_of` tr' /\ jobs_deleted tr' ns n).
Proof.
  unfold ensures, ignore_gone, kDeleteCollection. cbn [runs mbind prog_mbind prog_bind call]. intros r.
  destruct (gone r) eqn:E; cbn; [|by destruct r].
  intros a _. split_and!; [done|by eexists|]. exists r. split; [done|].
  apply elem_of_app. right. by left.
Qed.

Lemma deleteAutoscale_deleted c ns n s tr :
  runs (deleteAutoscale c ns n) s tr (fun s' tr' o =>
    s' = s /\ tr `prefix_of` tr' /\ (forall e, o = Failed e -> IsNotFound e = false) /\
    (o = Done tt -> (hasSm c = true -> deleted tr' KServiceMonitor ns n) /\ deleted tr' KHPA ns n)).
Proof.
  unfold deleteAutoscale, DeleteServiceMonitor, DeleteAutoscale. apply runs_bind.
  eapply runs_mono with (Q := fun s' tr' o => s' = s /\ tr `prefix_of` tr' /\
    (forall e, o = Failed e -> IsNotFound e = false) /\
    (o = Done tt -> hasSm c = true -> deleted tr' KServiceMonitor ns n)).
  - intros s1 tr1 [[]|e|m|m] (-> & Hp & He & Hd); try by split_and!.
    apply runs_bind, runs_attempt. eapply runs_mono; [|apply delete_gone_deleted].
    intros s2 tr2 [[]|e|m|m] (-> & Hp2 & He2 & Hd2); cbn; try by split_and!; [|by etrans|..].
    + split_and!; [done|by etrans|done|]. intros _. split; [|by apply Hd2].
      intros Hs. eapply deleted_mono; [done|]. by apply Hd.
    + rewrite (He2 e eq_refl). cbn. split_and!; [done|by etrans|done|done].
  - destruct (hasSm c); [|by cbn].
    apply runs_bind, runs_attempt. eapply runs_mono; [|apply delete_gone_deleted].
    intros s2 tr2 [[]|e|m|m] (-> & Hp2 & He2 & Hd2); cbn; try by split_and!.
    + split_and!; [done|done|done|]. intros _ _. by apply Hd2.
    + rewrite (He2 e eq_refl). cbn. by split_and!.
Qed.

Lemma ignore_gone_autoscale c ns n s tr :
  ensures (ignore_gone (attempt (deleteAutoscale c ns n))) s tr (fun s' tr' _ =>
    s' = s /\ tr `prefix_of` tr' /\
    (hasSm c = true -> deleted tr' KServiceMonitor ns n) /\ deleted tr' KHPA ns n).
Proof.
  unfold ensures, ignore_gone. apply runs_bind, runs_attempt.
  eapply runs_mono; [|apply deleteAutoscale_deleted].
  intros s1 tr1 [[]|e|m|m] (-> & Hp & He & Hd); cbn; try done.
  - intros a _. destruct (Hd eq_refl). by split_and!.
  - by rewrite (He e eq_refl).
Qed.

Lemma deleteK8sResources_cleaned c ns n s tr :
  ensures (deleteK8sResources c ns n) s tr (fun s' tr' _ =>
    s' = s /\ tr `prefix_of` tr' /\ cleaned c ns n tr').
Proof.
  unfold deleteK8sResources.
  eapply ensures_bind; [apply ignore_gone_deleted|intros s1 tr1 _ (-> & Hp1 & H1')].
  eapply ensures_bind; [apply ignore_gone_deleted|intros s2 tr2 _ (-> & Hp2 & H2')].
  eapply ensures_bind; [apply ignore_gone_deleted|intros s3 tr3 _ (-> & Hp3 & H3')].
  eapply ensures_bind; [apply ignore_gone_autoscale|intros s4 tr4 _ (-> & Hp4 & H4' & H5')].
  eapply ensures_mono; [|apply ignore_gone_jobs]. intros s5 tr5 _ (-> & Hp5 & H6').
  split_and!; [done|by do 4 (etrans; [done|])|].
  unfold cleaned. split_and!; try intros Hs; eauto 6 using deleted_mono.
Qed.

(** ** The finalizer *)

Definition finalizer_order (c : FunctionController) (key : string) (before : trace) (o : op) : Prop :=
  drops_finalizer o = true ->
  exists ns name, SplitMetaNamespaceKey key = Ok (ns, name) /\ cleaned c ns name before.

Lemma has_finalizer_snoc f (fin : string) :
  FunctionObjHasFinalizer
    (f_set_meta f (meta_set_finalizers (f_Meta f) (om_Finalizers (f_Meta f) ++ [fin]))) fin = true.
Proof.
  unfold FunctionObjHasFinalizer. cbn. rewrite existsb_app. cbn.
  by rewrite streq_refl, orb_true_r.
Qed.

Lemma update_function_each (I : trace -> op -> Prop) ns f s tr :
  each I tr -> (I tr (AUpdate KFunction ns f)) ->
  runs (must (kUpdate KFunction ns f) ≫= fun _ => mret tt : go mem unit) s tr
    (fun _ tr' _ => each I tr').
Proof. intros Htr Ho. cbn. intros [r|e]; cbn; by apply each_snoc. Qed.

Lemma not_function_drop o : not_function o -> drops_finalizer o = false.
Proof. destruct o; try done. simpl. intros Hk. by destruct k. Qed.

(** C6.  Whatever the API server answers, processing a key writes the function
    without the controller's finalizer only after the deletions of the
    deployment, service, config map, service monitor (when there is a client
    for it), autoscaler and build jobs of that function have all been answered
    by success or NotFound. *)
Theorem finalizer_removed_last c key s :
  runs (processItem c key) s [] (fun _ tr _ => each (finalizer_order c key) tr).
Proof.
  set (I := fun (_ : mem) tr => each (finalizer_order c key) tr).
  assert (Hclosed : forall tr o r, not_function o -> I s tr -> each (finalizer_order c key) (tr ++ [existT o r])).
  { intros tr o r Ho Htr. apply each_snoc; [done|]. intros Hd.
    change (drops_finalizer o = true) in Hd. by rewrite (not_function_drop o Ho) in Hd. }
  unfold processItem. apply runs_bind, runs_lift.
  destruct (SplitMetaNamespaceKey key) as [[ns name]|e] eqn:Ekey; [|apply each_nil].
  apply runs_bind. intros r. cbn [runs].
  assert (Htr : each (finalizer_order c key) ([] ++ [existT (IndexerGetByKey key) r]))
    by (apply (Hclosed _ (IndexerGetByKey key)); [done|apply each_nil]).
  destruct r as [[p|]|e]; [|exact Htr..].
  apply runs_bind, runs_load. destruct (m_heap s !! p) as [f|]; [|exact Htr].
  destruct (om_DeletionTimestamp (f_Meta f)).
  - destruct (negb _); [exact Htr|]. eapply (runs_seq I); [|done|apply deleteK8sResources_cleaned|].
    + eapply (keeps_asks (each (finalizer_order c key)) not_function); [exact Hclosed|apply deleteK8sResources_asks].
    + intros s' tr' _ HI (_ & _ & Hc). apply update_function_each; [done|].
      intros _. eauto.
  - apply (runs_seq I _ _ _ _ (fun _ _ _ => True)); [|done|apply ensures_true|].
    + destruct (negb _); [|by intros ???]. intros s' tr' HI.
      apply update_function_each; [done|]. intros Hd. unfold drops_finalizer in Hd.
      by rewrite has_finalizer_snoc in Hd.
    + intros s' tr' _ HI _.
      by apply (keeps_asks (each (finalizer_order c key)) not_function _ Hclosed (ensureK8sResources_asks c p)).
Qed.

End Deletion.

(** ** On a server that accepts what it is sent *)

(** The labels of a function's build jobs. *)
Definition built_for (name : string) (labels : gomap string) : bool :=
  bool_decide (mget labels "created-by" = Some "kubeless") &&
  bool_decide (mget labels "function" = Some name).

(** A Kubernetes name has neither a comma nor an equals sign. *)
Definition plain (name : string) : Prop := lacks ","%char name /\ lacks "="%char name.

Lemma selects_build name labels : plain name -> selects (build_selector name) labels = built_for name labels.
Proof.
  intros [Hc He]. unfold selects, build_selector, selector_terms, built_for.
  change ("created-by=kubeless,function=" +:+ name) with ("created-by=kubeless" +:+ String ","%char ("function=" +:+ name)).
  rewrite (Split_single_sep _ _ ","%char); 
    [|by apply (bool_decide_unpack _)|unfold lacks in *; simpl; by rewrite !not_elem_of_cons].
  change ("function=" +:+ name) with ("function" +:+ String "="%char name).
  cbn [fmap list_fmap]. rewrite (Split_single_sep "function" name); [|by apply (bool_decide_unpack _)|done].
  change (Split "created-by=kubeless" "="%char) with ["created-by"; "kubeless"].
  cbn [forallb fst snd]. by rewrite andb_true_r.
Qed.

(** Which objects the deletion of function [name] takes away. *)
Definition removes (c : FunctionController) (ns name : string)
    (k : kind) (ns' n' : string) (o : obj k) : bool :=
  (ns' =?s ns) &&
  match k with
  | KDeployment | KService | KConfigMap | KHPA => n' =?s name
  | KServiceMonitor => hasSm c && (n' =?s name)
  | KJob => built_for name (om_Labels (obj_meta k o))
  | _ => false
  end.

Section Lawful.
Context {W : Type} (H : handler resp W) `{!ApiServer H}.
Implicit Types (w : W) (s : mem).

(** Nothing but function resources is held back by finalizers. *)
Definition unpinned w : Prop :=
  forall k ns n o, k <> KFunction -> stored w k ns n = Some o -> om_Finalizers (obj_meta k o) = [].

(** [w'] is [w] without the objects that [R] selects. *)
Definition without (R : forall k : kind, string -> string -> obj k -> bool) w w' : Prop :=
  forall k ns n, stored w' k ns n =
    match stored w k ns n with
    | Some o => if R k ns n o then None else Some o
    | None => None
    end.

Lemma without_unpinned R w w' : without R w w' -> unpinned w -> unpinned w'.
Proof.
  intros HR Hw k ns n o Hk. rewrite HR. destruct (stored w k ns n) eqn:E; [|done].
  destruct (R k ns n _); [done|]. intros [= <-]. by eapply Hw.
Qed.

Lemma without_trans R1 R2 w w1 w2 :
  without R1 w w1 -> without R2 w1 w2 ->
  without (fun k ns n o => R1 k ns n o || R2 k ns n o) w w2.
Proof.
  intros H1 H2 k ns n. rewrite H2, H1. destruct (stored w k ns n); [|done].
  by destruct (R1 _ _ _ _).
Qed.

Lemma without_ext R R' w w' :
  (forall k ns n o, R k ns n o = R' k ns n o) -> without R w w' -> without R' w w'.
Proof. intros HR Hw k ns n. rewrite Hw. destruct (stored w k ns n); [|done]. by rewrite HR. Qed.

Lemma without_nothing w : without (fun _ _ _ _ => false) w w.
Proof. intros k ns n. by destruct (stored w k ns n). Qed.

Definition is_key (k : kind) (ns n : string) (k' : kind) (ns' n' : string) (_ : obj k') : bool :=
  bool_decide (k' = k) && (ns' =?s ns) && (n' =?s n).

Lemma delete_answer k ns n w :
  unpinned w -> k <> KFunction ->
  exists r w', H (ADelete k ns n) w = (r, w') /\ gone r = true /\ without (is_key k ns n) w w'.
Proof.
  intros Hw Hk. destruct (stored w k ns n) as [o|] eqn:E.
  - destruct (api_delete w k ns n o E (Hw _ _ _ _ Hk E)) as (w' & -> & Hn & Hs).
    exists (Ok tt), w'. split_and!; [done..|]. intros k' ns' n'.
    destruct (decide ((k', ns', n') = (k, ns, n))) as [[= -> -> ->]|Hne].
    + rewrite Hn, E. unfold is_key. by rewrite bool_decide_true, !streq_refl.
    + rewrite Hs by done. destruct (stored w k' ns' n') as [o'|]; [|done].
      unfold is_key. repeat case_streq; subst; done.
  - rewrite api_delete_missing by done. exists (Error (api_not_found k n)), w.
    split_and!; [done..|]. intros k' ns' n'.
    destruct (stored w k' ns' n') as [o'|] eqn:E'; [|done].
    unfold is_key. repeat case_streq; subst; try done. congruence.
Qed.

(** A request of the deletion, on a lawful server: it succeeds and takes away
    what [R] selects. *)
Definition deletes (p : go mem unit) (R : forall k : kind, string -> string -> obj k -> bool) : Prop :=
  forall s w, unpinned w -> exists w', run H p s w = (Done tt, s, w') /\ without R w w'.

Lemma deletes_seq p R q R' :
  deletes p R -> deletes q R' ->
  deletes (p ;; q) (fun k ns n o => R k ns n o || R' k ns n o).
Proof.
  intros Hp Hq s w Hw. destruct (Hp s w Hw) as (w1 & E1 & HR1).
  destruct (Hq s w1 (without_unpinned _ _ _ HR1 Hw)) as (w2 & E2 & HR2).
  exists w2. rewrite run_bind, E1, E2. split; [done|]. by eapply without_trans.
Qed.

Lemma deletes_ignore_gone k ns n :
  k <> KFunction -> deletes (ignore_gone (kDelete k ns n)) (is_key k ns n).
Proof.
  intros Hk s w Hw. destruct (delete_answer k ns n w Hw Hk) as (r & w' & E & Hg & HR).
  exists w'. split; [|done]. unfold ignore_gone, kDelete. cbn. rewrite E, Hg. done.
Qed.

Lemma deletes_gone k ns n :
  k <> KFunction ->
  deletes (r ← attempt (delete_gone k ns n); if gone r then mret tt else lift r) (is_key k ns n).
Proof.
  intros Hk s w Hw. destruct (delete_answer k ns n w Hw Hk) as (r & w' & E & Hg & HR).
  exists w'. split; [|done]. unfold delete_gone, kDelete. cbn. rewrite E.
  destruct r as [[]|e]; [done|]. simpl in Hg. cbn. by rewrite Hg.
Qed.

Lemma deletes_autoscale c ns n :
  deletes (ignore_gone (attempt (deleteAutoscale c ns n)))
    (fun k ns' n' o => (hasSm c && is_key KServiceMonitor ns n k ns' n' o) ||
                       is_key KHPA ns n k ns' n' o).
Proof.
  assert (deletes (deleteAutoscale c ns n)
    (fun k ns' n' o => (hasSm c && is_key KServiceMonitor ns n k ns' n' o) ||
                       is_key KHPA ns n k ns' n' o)) as Hd.
  - unfold deleteAutoscale, DeleteServiceMonitor, DeleteAutoscale.
    apply deletes_seq; [|by apply deletes_gone].
    destruct (hasSm c); [by apply deletes_gone|]. intros s w _. exists w. split; [done|].
    apply without_nothing.
  - intros s w Hw. destruct (Hd s w Hw) as (w' & E & HR). exists w'. split; [|done].
    unfold ignore_gone. rewrite run_bind, run_attempt, E. done.
Qed.

Lemma deletes_jobs ns name :
  deletes (ignore_gone (kDeleteCollection KJob ns (build_selector name)))
    (fun k ns' _ o => bool_decide (k = KJob) && (ns' =?s ns) &&
                      selects (build_selector name) (om_Labels (obj_meta k o))).
Proof.
  intros s w Hw. destruct (api_delete_collection w KJob ns (build_selector name)) as (w' & E & Hn & Ho).
  { intros n o. by apply Hw. }
  exists w'. split.
  - unfold ignore_gone, kDeleteCollection.
    cbn [run mbind prog_mbind prog_bind call]. rewrite E. done.
  - intros k ns' n. destruct (decide ((k, ns') = (KJob, ns))) as [[= -> ->]|Hne].
    + rewrite Hn. destruct (stored w KJob ns n); [|done]. by rewrite bool_decide_true, streq_refl.
    + rewrite Ho by done. destruct (stored w k ns' n); [|done].
      case_streq; subst; done.
Qed.

Lemma deleteK8sResources_removes c ns name s w (Hn : plain name) (Hw : unpinned w) :
  exists w', run H (deleteK8sResources c ns name) s w = (Done tt, s, w') /\
    without (removes c ns name) w w'.
Proof.
  eassert (deletes (deleteK8sResources c ns name) _) as Hd.
  { unfold deleteK8sResources.
    apply deletes_seq; [by apply deletes_ignore_gone|].
    apply deletes_seq; [by apply deletes_ignore_gone|].
    apply deletes_seq; [by apply deletes_ignore_gone|].
    apply deletes_seq; [apply deletes_autoscale|apply deletes_jobs]. }
  destruct (Hd s w Hw) as (w' & E & HR). exists w'. split; [done|].
  eapply without_ext; [|done]. intros k ns' n' o. cbv beta. rewrite selects_build by done. unfold is_key, removes.
  destruct k; cbn -[built_for]; rewrite ?andb_false_r, ?orb_false_r; try done;
    destruct (ns' =?s ns); cbn -[built_for]; rewrite ?andb_false_r, ?orb_false_r; done.
Qed.

(** On a server that accepts what it is sent, deleting the objects of a
    function succeeds, whichever of them are still there, and takes away
    exactly the deployment, service, config map, autoscaler and service
    monitor of that name and the build jobs labelled as kubeless's for that
    function: every other object is as it was. *)
Theorem deleteK8sResources_exact c ns name s w (Hn : plain name) (Hw : unpinned w) :
  exists w', run H (deleteK8sResources c ns name) s w = (Done tt, s, w') /\
    without (removes c ns name) w w'.
Proof. by apply deleteK8sResources_removes. Qed.

Context `{YamlRuntimes} `{MapRange} `{OsEnv} `{IntOrStringValue} `{JsonDeployment} `{Mergo}
  `{UrlParse} `{Registry.RegistryJson} `{CacheKeys} `{YamlDeployment} `{SemanticEqual}.

(** The function resource without the controller's finalizer. *)
Definition released (f : Function_) : Function_ :=
  f_set_meta f (meta_set_finalizers (f_Meta f)
    (remove_finalizer functionFinalizer (om_Finalizers (f_Meta f)))).

(** Processing the key of a function that is marked for deletion and has
    the controller's finalizer succeeds on a server that accepts what it is
    sent, removes the function's objects and takes the finalizer off the
    resource, which the server then drops unless other finalizers hold it. *)
Theorem processItem_deletes c key ns p f old s w
    (Hkey : SplitMetaNamespaceKey key = Ok (ns, f_name f)) (Hplain : plain (f_name f)) (Hns : f_namespace f = ns)
    (Hidx : H (IndexerGetByKey key) w = (Ok (Some p), w)) (Hp : m_heap s !! p = Some f)
    (Hdel : om_DeletionTimestamp (f_Meta f) <> None)
    (Hfin : FunctionObjHasFinalizer f functionFinalizer = true)
    (Hw : unpinned w) (Hst : stored w KFunction ns (f_name f) = Some old)
    (Hfresh : fresh KFunction old f) :
  exists w', run H (processItem c key) s w = (Done tt, s, w') /\
    (forall k ns' n', (k, ns', n') <> (KFunction, ns, f_name f) ->
       stored w' k ns' n' =
       match stored w k ns' n' with
       | Some o => if removes c ns (f_name f) k ns' n' o then None else Some o
       | None => None
       end) /\
    (forall f', stored w' KFunction ns (f_name f) = Some f' ->
       FunctionObjHasFinalizer f' functionFinalizer = false) /\
    (remove_finalizer functionFinalizer (om_Finalizers (f_Meta f)) = [] ->
       stored w' KFunction ns (f_name f) = None).
Proof.
  destruct (deleteK8sResources_removes c ns (f_name f) s w Hplain Hw) as (w1 & E1 & HR).
  assert (Hst1 : stored w1 KFunction ns (obj_name KFunction (released f)) = Some old).
  { pose proof (HR KFunction ns (f_name f)) as HF. rewrite Hst in HF.
    unfold removes in HF. by rewrite andb_false_r in HF. }
  destruct (api_update w1 KFunction ns (released f) old Hst1 Hfresh)
    as (o' & w2 & E2 & [(_ & _ & _ & _ & Hf' & _) _] & Hst2 & Hs2).
  exists w2. split_and!.
  - unfold processItem. rewrite run_bind, run_lift, Hkey. cbv beta iota.
    rewrite run_bind. unfold indexer_get, call. cbn [run]. rewrite Hidx. cbn [run].
    rewrite run_bind, run_load, Hp. destruct (om_DeletionTimestamp (f_Meta f)); [|done].
    rewrite Hfin. cbn [negb]. rewrite run_bind, E1.
    unfold FunctionObjRemoveFinalizer, UpdateFunctionCustomResource, must, kUpdate.
    change (f_set_meta f _) with (released f).
    cbn [run mbind prog_mbind prog_bind call]. change (f_namespace (released f)) with (f_namespace f).
    rewrite Hns, E2. done.
  - intros k ns' n' Hne. rewrite Hs2 by done. apply HR.
  - intros f'. change (f_name f) with (obj_name KFunction (released f)). rewrite Hst2.
    destruct (finalized _ _); [done|]. intros [= <-].
    unfold FunctionObjHasFinalizer. simpl in Hf'. rewrite Hf'.
    apply not_true_iff_false. rewrite existsb_exists. intros (x & Hx & E).
    apply streq_true in E. subst. rewrite <- list_elem_of_In in Hx.
    apply list_elem_of_filter in Hx as [Hx _]. done.
  - intros Hnil. change (f_name f) with (obj_name KFunction (released f)). rewrite Hst2.
    unfold finalized. simpl. rewrite Hnil. by destruct (om_DeletionTimestamp (f_Meta f)).
Qed.

End Lawful.

(** ** Concrete runs *)
Import Concrete.

(** Beside the function and its objects, a config map of someone else. *)
Definition deletion_world : world :=
  w_put (w_put (server deleted_function) KConfigMap "default" "foo"
           {| cm_Meta := mk_meta "foo" "" (Some {[ "created-by" := "kubeless" ]}) [];
              cm_Data := None |})
    KConfigMap "default" "other" {| cm_Meta := mk_meta "other" "" None []; cm_Data := None |}.

Lemma unpinned_put w k ns n o :
  unpinned serve w -> (k <> KFunction -> om_Finalizers (obj_meta k o) = []) ->
  unpinned serve (w_put w k ns n o).
Proof.
  intros Hw Ho k' ns' n' o' Hk' Hst. simpl in Hst.
  destruct (decide ((k', ns', n') = (k, ns, n))) as [[= -> -> ->]|Hne].
  - rewrite store_set_same, lookup_insert_eq in Hst. simplify_eq. auto.
  - pose proof (w_put_other w k ns n o k' ns' n' Hne) as E. simpl in E. rewrite E in Hst.
    exact (Hw k' ns' n' o' Hk' Hst).
Qed.

Lemma deletion_world_unpinned : unpinned serve deletion_world.
Proof.
  apply unpinned_put; [|done]. apply unpinned_put; [|done].
  assert (unpinned serve (w_put empty_world KFunction "default" "foo" deleted_function)) as Hw.
  { apply unpinned_put; [|done]. by intros k ns n o. }
  exact Hw.
Qed.

Example deleteK8sResources_exact_witness :
  exists w', run serve (deleteK8sResources controller "default" "foo") (memory deleted_function)
               deletion_world = (Done tt, memory deleted_function, w') /\
    without serve (removes controller "default" "foo") deletion_world w'.
Proof.
  apply (deleteK8sResources_exact serve controller "default" "foo"); [split; by apply (bool_decide_unpack _)|apply deletion_world_unpinned].
Defined.

Example processItem_deletes_witness :
  exists w', run serve (processItem controller "default/foo") (memory deleted_function)
               deletion_world = (Done tt, memory deleted_function, w') /\
    stored w' KFunction "default" "foo" = None.
Proof.
  destruct (processItem_deletes serve controller "default/foo" "default" 1%positive
    deleted_function deleted_function (memory deleted_function) deletion_world)
    as (w' & E & _ & _ & Hn).
  - reflexivity.
  - split; by apply (bool_decide_unpack _).
  - reflexivity.
  - reflexivity.
  - reflexivity.
  - discriminate.
  - reflexivity.
  - apply deletion_world_unpinned.
  - vm_compute. reflexivity.
  - split; [by right|done].
  - exists w'. split; [exact E|]. apply Hn. reflexivity.
Defined.
