(* ===== verification/Scaling.v ===== *)
(** * The autoscaler of a function

    [ensure_autoscale] on a lawful server: a function that asks for an
    autoscaler gets it, with a service monitor when it scales by a custom
    metric; one that does not loses what it had.  A custom metric works once. *)
From S2P Require Import Prelude GoStrings GoProg KubeTypes World LangRuntime Memory K8sUtil.
From S2P Require Import PodSpec Ensure Controller Reconcile Deletion.
From S2P Require Concrete Registry.

Section Scaling.
Context `{YamlRuntimes} `{MapRange} `{OsEnv} `{IntOrStringValue} `{JsonDeployment} `{Mergo}
  `{UrlParse} `{Registry.RegistryJson} `{CacheKeys} `{YamlDeployment} `{SemanticEqual}.
Context {W : Type} (H' : handler resp W) `{!ApiServer H'}.
Implicit Types (w : W) (s : mem).

Definition autoscaler (f : Function_) : HPA := fs_HorizontalPodAutoscaler (f_Spec f).

(** A name and a target are given. *)
Definition wants_autoscaler (f : Function_) : bool :=
  negb (hpa_name (autoscaler f) =?s "") &&
  negb (ref_Name (hs_ScaleTargetRef (hpa_Spec (autoscaler f))) =?s "").

(** The first metric is one of an object. *)
Definition custom_metric (f : Function_) : bool :=
  match hs_Metrics (hpa_Spec (autoscaler f)) with
  | m :: _ => ms_Type m =?s ObjectMetricSourceType
  | [] => false
  end.

(** No finalizer holds the object. *)
Definition removable k ns n w : Prop :=
  forall o, stored w k ns n = Some o -> om_Finalizers (obj_meta k o) = [].

(** An autoscaler that is asked for has a metric, no service monitor in its way
    and a client for it, and does not conflict with one that is there; one that
    is not asked for can be taken away. *)
Definition scalable (c : FunctionController) (f : Function_) w : Prop :=
  if wants_autoscaler f then
    hs_Metrics (hpa_Spec (autoscaler f)) <> [] /\ om_DeletionTimestamp (hpa_Meta (autoscaler f)) = None /\
    (custom_metric f = true -> hasSm c = true /\ stored w KServiceMonitor (f_namespace f) (f_name f) = None) /\
    (forall old, stored w KHPA (hpa_namespace (autoscaler f)) (hpa_name (autoscaler f)) = Some old ->
       fresh KHPA old (autoscaler f))
  else
    removable KHPA (f_namespace f) (f_name f) w /\
    (hasSm c = true -> removable KServiceMonitor (f_namespace f) (f_name f) w).

(** The cluster has the autoscaler of the function, or none. *)
Definition scaled (c : FunctionController) (f : Function_) (owners : list OwnerReference) w w' : Prop :=
  if wants_autoscaler f then
    (exists h, stored w' KHPA (hpa_namespace (autoscaler f)) (hpa_name (autoscaler f)) = Some h /\
       hpa_Spec h = hpa_Spec (autoscaler f) /\ om_OwnerReferences (hpa_Meta h) = owners /\
       om_DeletionTimestamp (hpa_Meta h) = None) /\
    (if custom_metric f then exists sm, stored w' KServiceMonitor (f_namespace f) (f_name f) = Some sm
     else stored w' KServiceMonitor (f_namespace f) (f_name f) = stored w KServiceMonitor (f_namespace f) (f_name f))
  else
    stored w' KHPA (f_namespace f) (f_name f) = None /\
    stored w' KServiceMonitor (f_namespace f) (f_name f) =
      if hasSm c then None else stored w KServiceMonitor (f_namespace f) (f_name f).

(** Autoscalers and service monitors aside, nothing has changed. *)
Definition same_apart w w' : Prop :=
  forall k ns n, k <> KHPA -> k <> KServiceMonitor -> stored w' k ns n = stored w k ns n.

Lemma same_apart_trans w w1 w2 : same_apart w w1 -> same_apart w1 w2 -> same_apart w w2.
Proof. intros Ha Hb k ns n ??. by rewrite Hb, Ha. Qed.

Lemma same_but_apart k ns n w w' : k = KHPA \/ k = KServiceMonitor -> same_but stored k ns n w w' -> same_apart w w'.
Proof. intros Hk Hb k' ns' n' ??. apply Hb. destruct Hk; congruence. Qed.

(** Deleting an object that nothing holds, whether it is there or not. *)
Lemma run_delete_gone k ns n s w : removable k ns n w ->
  exists w', run H' (r ← attempt (delete_gone k ns n); if gone r then mret tt else lift r) s w = (Done tt, s, w') /\
    stored w' k ns n = None /\ same_but stored k ns n w w'.
Proof.
  intros Hr. unfold delete_gone, kDelete. cbn.
  destruct (stored w k ns n) as [o|] eqn:E.
  - destruct (api_delete w k ns n o E (Hr o E)) as (w' & -> & Hn & Hb). by exists w'.
  - rewrite api_delete_missing by done. exists w. by split_and!.
Qed.

Lemma run_deleteAutoscale c f s w :
  removable KHPA (f_namespace f) (f_name f) w ->
  (hasSm c = true -> removable KServiceMonitor (f_namespace f) (f_name f) w) ->
  exists w', run H' (deleteAutoscale c (f_namespace f) (f_name f)) s w = (Done tt, s, w') /\ same_apart w w' /\
    stored w' KHPA (f_namespace f) (f_name f) = None /\
    stored w' KServiceMonitor (f_namespace f) (f_name f) =
      if hasSm c then None else stored w KServiceMonitor (f_namespace f) (f_name f).
Proof.
  intros Hh Hs. unfold deleteAutoscale, DeleteServiceMonitor, DeleteAutoscale. destruct (hasSm c) eqn:Esm.
  - destruct (run_delete_gone KServiceMonitor (f_namespace f) (f_name f) s w (Hs eq_refl)) as (w1 & E1 & Hn1 & Hb1).
    destruct (run_delete_gone KHPA (f_namespace f) (f_name f) s w1) as (w2 & E2 & Hn2 & Hb2).
    { intros o. rewrite Hb1 by congruence. apply Hh. }
    exists w2. rewrite run_bind, E1. split; [exact E2|]. split; [|split; [exact Hn2|by rewrite Hb2]].
    eapply same_apart_trans; (eapply same_but_apart; [|done]); auto.
  - destruct (run_delete_gone KHPA (f_namespace f) (f_name f) s w Hh) as (w2 & E2 & Hn2 & Hb2).
    exists w2. split; [exact E2|]. split; [eapply same_but_apart; [|done]; auto|]. split; [exact Hn2|by rewrite Hb2].
Qed.

Lemma run_CreateServiceMonitor f owners s w :
  stored w KServiceMonitor (f_namespace f) (f_name f) = None ->
  exists w' sm, run H' (CreateServiceMonitor f (f_namespace f) owners) s w = (Done tt, s, w') /\
    stored w' KServiceMonitor (f_namespace f) (f_name f) = Some sm /\
    same_but stored KServiceMonitor (f_namespace f) (f_name f) w w'.
Proof.
  intros Hn. unfold CreateServiceMonitor. rewrite run_bind. unfold kGet, call. cbn [run].
  rewrite api_get, Hn. cbn [run mret prog_ret IsNotFound err_reason api_not_found].
  match goal with |- context [kCreate KServiceMonitor _ ?o] => set (sm := o) end.
  destruct (api_create_new w KServiceMonitor (f_namespace f) sm Hn) as (o' & w' & E & _ & Hst & Hb).
  exists w', o'. unfold must, kCreate, call. cbn. by rewrite E.
Qed.

(** The autoscaler is created, or the one that is there is updated. *)
Lemma run_put_autoscaler hpa s w :
  om_DeletionTimestamp (hpa_Meta hpa) = None ->
  (forall old, stored w KHPA (hpa_namespace hpa) (hpa_name hpa) = Some old -> fresh KHPA old hpa) ->
  exists w' h, run H' (r ← attempt (CreateAutoscale hpa);
      match r with
      | Ok _ => mret tt
      | Error e => if IsAlreadyExists e then UpdateAutoscale hpa else Throw e
      end) s w = (Done tt, s, w') /\
    stored w' KHPA (hpa_namespace hpa) (hpa_name hpa) = Some h /\ accepts KHPA hpa h /\
    same_but stored KHPA (hpa_namespace hpa) (hpa_name hpa) w w'.
Proof.
  intros Hdel Hfresh. unfold CreateAutoscale, UpdateAutoscale, must, kCreate, kUpdate, call. cbn.
  destruct (stored w KHPA (hpa_namespace hpa) (hpa_name hpa)) as [old|] eqn:E.
  - rewrite (api_create_taken w KHPA _ hpa old E). cbn.
    destruct (api_update w KHPA _ hpa old E (Hfresh old eq_refl)) as (h & w' & Eu & Ha & Hst & Hb).
    exists w', h. rewrite Eu. unfold finalized in Hst. simpl in Hst. rewrite Hdel in Hst. done.
  - destruct (api_create_new w KHPA _ hpa E) as (h & w' & Ec & Ha & Hst & Hb). exists w', h. by rewrite Ec.
Qed.

(** The autoscaler as it is sent: owned by the function. *)
Definition owned_autoscaler (f : Function_) (owners : list OwnerReference) : HPA :=
  {| hpa_Type := hpa_Type (autoscaler f); hpa_Meta := meta_set_owners (hpa_Meta (autoscaler f)) owners;
     hpa_Spec := hpa_Spec (autoscaler f) |}.

Lemma run_autoscale c p f owners s w :
  m_heap s !! p = Some f -> scalable c f w ->
  exists w' s', run H' (ensure_autoscale c p owners) s w = (Done tt, s', w') /\ scaled c f owners w w' /\
    same_apart w w'.
Proof.
  unfold scalable, scaled, ensure_autoscale. intros Hp Hs. rewrite run_bind, run_load, Hp. cbv zeta.
  fold (autoscaler f). fold (wants_autoscaler f). fold (owned_autoscaler f owners).
  destruct (wants_autoscaler f).
  - destruct Hs as (Hm & Hdel & Hsm & Hold).
    set (hpa := owned_autoscaler f owners). set (f1 := f_set_hpa f hpa). set (s1 := Mem (<[p := f1]> (m_heap s)) (m_lr s)).
    assert (exists w1, run H' (if custom_metric f
        then if hasSm c then CreateServiceMonitor f1 (f_namespace f1) owners else Panic nil_deref
        else mret tt) s1 w = (Done tt, s1, w1) /\
      (if custom_metric f then exists sm, stored w1 KServiceMonitor (f_namespace f) (f_name f) = Some sm
       else stored w1 KServiceMonitor (f_namespace f) (f_name f) = stored w KServiceMonitor (f_namespace f) (f_name f)) /\
      same_apart w w1 /\ forall ns n, stored w1 KHPA ns n = stored w KHPA ns n) as (w1 & E1 & Hmon & Hb1 & Hh1).
    { destruct (custom_metric f).
      - destruct (Hsm eq_refl) as [-> Hn]. destruct (run_CreateServiceMonitor f1 owners s1 w Hn) as (w1 & sm & E & Hst & Hb).
        exists w1. split; [exact E|]. split; [by exists sm|]. split; [eapply same_but_apart; [|exact Hb]; auto|].
        intros ns n. apply Hb. congruence.
      - exists w. by split_and!. }
    destruct (run_put_autoscaler hpa s1 w1) as (w2 & h & E2 & Hst & [(_ & _ & _ & Hown & _ & Hd & _) Hspec] & Hb2).
    { exact Hdel. }
    { intros old. rewrite Hh1. apply Hold. }
    exists w2, s1. split; [|split; [split|]].
    + eapply run_then; [apply run_store|]. fold f1 s1. unfold custom_metric in E1.
      change (hs_Metrics (hpa_Spec hpa)) with (hs_Metrics (hpa_Spec (autoscaler f))).
      destruct (hs_Metrics (hpa_Spec (autoscaler f))) as [|m ms]; [done|].
      eapply run_then with (a := m); [done|]. eapply run_then; [exact E1|exact E2].
    + exists h. split; [exact Hst|]. split; [exact Hspec|]. split; [exact Hown|]. simpl in Hd. rewrite Hdel in Hd.
      by destruct (om_DeletionTimestamp (hpa_Meta h)).
    + destruct (custom_metric f).
      * destruct Hmon as [sm Hmon]. exists sm. rewrite Hb2 by congruence. exact Hmon.
      * rewrite Hb2 by congruence. exact Hmon.
    + eapply same_apart_trans; [exact Hb1|]. eapply same_but_apart; [|exact Hb2]. auto.
  - destruct Hs as [Hh Hsm]. destruct (run_deleteAutoscale c f s w Hh Hsm) as (w1 & E1 & Hb & Hn & Hm).
    exists w1, s. split; [|by split]. by rewrite run_bind, run_attempt, E1.
Qed.

(** Without a custom metric this can be repeated. *)
Lemma scaled_scalable c f owners w w' :
  scaled c f owners w w' -> scalable c f w -> custom_metric f = false ->
  om_ResourceVersion (hpa_Meta (autoscaler f)) = "" -> scalable c f w'.
Proof.
  unfold scaled, scalable, removable. destruct (wants_autoscaler f).
  - intros [(h & Hst & _ & _ & Hd) _] (Hm & Hdel & _ & _) Hc Hv. rewrite Hc. split_and!; [done..|].
    intros old Hold. rewrite Hst in Hold. injection Hold as <-. split; [by left|]. simpl. by rewrite Hdel, Hd.
  - intros [Hh Hm] _ _ _. rewrite Hh. split; [done|]. intros Hs. by rewrite Hm, Hs.
Qed.

(** The rule can be written again and again. *)
Definition steady (f : Function_) : Prop :=
  wants_autoscaler f = true -> custom_metric f = false /\ om_ResourceVersion (hpa_Meta (autoscaler f)) = "".

Lemma scaled_steady c f owners w w' :
  scaled c f owners w w' -> scalable c f w -> steady f -> scalable c f w'.
Proof.
  intros Hsc Hs Hst. destruct (wants_autoscaler f) eqn:Hw.
  - destruct (Hst Hw). by eapply scaled_scalable.
  - unfold scaled, scalable, removable in *. rewrite Hw in *. destruct Hsc as [-> Hm]. split; [done|].
    intros Hc. by rewrite Hm, Hc.
Qed.

Lemma scalable_same c f w w' :
  (forall ns n, stored w' KHPA ns n = stored w KHPA ns n) ->
  (forall ns n, stored w' KServiceMonitor ns n = stored w KServiceMonitor ns n) ->
  scalable c f w -> scalable c f w'.
Proof. unfold scalable, removable. intros Hh Hm Hs. by rewrite !Hh, !Hm. Qed.

Lemma scaled_from c f owners w0 w w' :
  (forall ns n, stored w KServiceMonitor ns n = stored w0 KServiceMonitor ns n) ->
  scaled c f owners w w' -> scaled c f owners w0 w'.
Proof. unfold scaled. intros Hm Hs. by rewrite Hm in Hs. Qed.

Lemma run_monitor_exists c p f owners s w sm :
  m_heap s !! p = Some f -> wants_autoscaler f = true -> custom_metric f = true -> hasSm c = true ->
  stored w KServiceMonitor (f_namespace f) (f_name f) = Some sm ->
  exists s', run H' (ensure_autoscale c p owners) s w = (Failed (Errorf "service monitor has already existed"), s', w).
Proof.
  intros Hp Hw Hc Hs Hsm. set (f1 := f_set_hpa f (owned_autoscaler f owners)).
  exists (Mem (<[p := f1]> (m_heap s)) (m_lr s)). unfold ensure_autoscale.
  eapply run_then; [by rewrite run_load, Hp|]. cbv zeta.
  fold (autoscaler f). fold (wants_autoscaler f). fold (owned_autoscaler f owners). fold f1. rewrite Hw.
  eapply run_then; [apply run_store|].
  change (hs_Metrics (hpa_Spec (owned_autoscaler f owners))) with (hs_Metrics (hpa_Spec (autoscaler f))).
  unfold custom_metric in Hc. destruct (hs_Metrics (hpa_Spec (autoscaler f))) as [|m ms]; [done|].
  eapply run_then with (a := m); [done|]. rewrite Hc, Hs, run_bind. unfold CreateServiceMonitor, kGet, call.
  rewrite run_bind. cbn [run]. change (f_namespace f1) with (f_namespace f). change (f_name f1) with (f_name f).
  by rewrite api_get, Hsm.
Qed.

(** C19. A custom metric works once: on a lawful server the first
    reconciliation of the autoscaler creates the service monitor and the rule,
    and every later one, while the monitor is there, ends with an error before
    the rule is looked at and leaves the cluster as it is. *)
Theorem custom_metric_once c p f owners s w (Hp : m_heap s !! p = Some f) (Hsc : scalable c f w)
    (Hw : wants_autoscaler f = true) (Hc : custom_metric f = true) :
  exists w' s', run H' (ensure_autoscale c p owners) s w = (Done tt, s', w') /\ scaled c f owners w w' /\
    forall w2 s2 f2, stored w2 KServiceMonitor (f_namespace f) (f_name f) =
        stored w' KServiceMonitor (f_namespace f) (f_name f) ->
      m_heap s2 !! p = Some f2 -> f_Meta f2 = f_Meta f -> autoscaler f2 = autoscaler f ->
      exists s3, run H' (ensure_autoscale c p owners) s2 w2 =
        (Failed (Errorf "service monitor has already existed"), s3, w2).
Proof.
  destruct (run_autoscale c p f owners s w Hp Hsc) as (w' & s' & E & Hscaled & _).
  exists w', s'. split; [done|]. split; [done|]. intros w2 s2 f2 Hst Hp2 Hmeta Hauto.
  unfold scaled in Hscaled. rewrite Hw, Hc in Hscaled. destruct Hscaled as [_ [sm Hsm]].
  unfold scalable in Hsc. rewrite Hw in Hsc. destruct Hsc as (_ & _ & Hcl & _).
  eapply (run_monitor_exists c p f2 owners s2 w2 sm Hp2).
  - unfold wants_autoscaler. by rewrite Hauto.
  - unfold custom_metric. by rewrite Hauto.
  - by apply Hcl.
  - replace (f_namespace f2) with (f_namespace f) by (unfold f_namespace; by rewrite Hmeta).
    replace (f_name f2) with (f_name f) by (unfold f_name; by rewrite Hmeta). by rewrite Hst.
Qed.

End Scaling.

(** ** A function that scales by its calls *)
Import Concrete.Concrete.

Module ScalingSample.
Definition rule : HPA :=
  {| hpa_Type := hpa_Type zero_hpa; hpa_Meta := mk_meta "foo" "default" None [];
     hpa_Spec := {| hs_ScaleTargetRef := {| ref_Kind := "Deployment"; ref_Name := "foo"; ref_APIVersion := "" |};
                    hs_MinReplicas := Some 1%Z; hs_MaxReplicas := 3;
                    hs_Metrics := [{| ms_Type := ObjectMetricSourceType; ms_Object := None; ms_Resource := None |}] |} |}.
Definition function : Function_ := f_set_hpa test_function rule.
End ScalingSample.

Lemma custom_metric_once_witness :
  exists w' s', run serve (ensure_autoscale controller 1%positive []) (memory ScalingSample.function) (server ScalingSample.function)
      = (Done tt, s', w') /\
    exists s3, run serve (ensure_autoscale controller 1%positive []) (memory ScalingSample.function) w' =
      (Failed (Errorf "service monitor has already existed"), s3, w').
Proof.
  destruct (custom_metric_once serve controller 1%positive ScalingSample.function [] (memory ScalingSample.function)
    (server ScalingSample.function)) as (w' & s' & E & _ & Hagain).
  - reflexivity.
  - split; [discriminate|]. split; [reflexivity|]. split; [by split|]. intros old [=].
  - reflexivity.
  - reflexivity.
  - exists w', s'. split; [exact E|]. by apply (Hagain w' (memory ScalingSample.function) ScalingSample.function).
Defined.
