(* ===== verification/Ordering.v ===== *)
(** * The order of things

    A function's resources are made in a fixed order: first the finalizer is in
    place, then the config map with the current source and the service are
    there, and only then is the deployment sent, one whose selector its own pods
    satisfy. *)
From S2P Require Import Prelude GoStrings GoProg KubeTypes World LangRuntime Memory K8sUtil.
From S2P Require Import PodSpec Ensure EnsureSpec Controller Concrete Ownership Reconcile.
From S2P Require Registry.

(** ** The finalizer comes first *)

(** A write to anything but a function resource. *)
Definition writes (o : op) : Prop :=
  match o with
  | ACreate k _ _ | AUpdate k _ _ | APatch k _ _ _ => k <> KFunction
  | _ => False
  end.

Definition with_finalizer (f : Function_) : Function_ :=
  f_set_meta f (meta_set_finalizers (f_Meta f) (om_Finalizers (f_Meta f) ++ [functionFinalizer])).

(** The function that the key stands for is not being deleted, and has the
    finalizer or was given it. *)
Definition held (key : string) (s : mem) (tr : trace) : Prop :=
  exists p f, existT (IndexerGetByKey key) (Ok (Some p) : resp (IndexerGetByKey key)) ∈ tr /\
    m_heap s !! p = Some f /\ om_DeletionTimestamp (f_Meta f) = None /\
    (FunctionObjHasFinalizer f functionFinalizer = true \/
     exists r, existT (AUpdate KFunction (f_namespace f) (with_finalizer f))
                 (Ok r : resp (AUpdate KFunction (f_namespace f) (with_finalizer f))) ∈ tr).

Definition finalizer_first (key : string) (s : mem) (before : trace) (o : op) : Prop :=
  writes o -> held key s before.

Section Finalizer.
Context `{YamlRuntimes} `{MapRange} `{OsEnv} `{IntOrStringValue} `{JsonDeployment} `{Mergo}
  `{UrlParse} `{Registry.RegistryJson} `{CacheKeys} `{YamlDeployment} `{SemanticEqual}.

Lemma held_mono key s tr tr' : held key s tr -> held key s (tr ++ tr').
Proof.
  intros (p & f & Hi & Hp & Hd & Hf). exists p, f. rewrite elem_of_app.
  setoid_rewrite elem_of_app. naive_solver.
Qed.

Lemma deleteK8sResources_no_writes c ns name :
  asks (fun o => ~ writes o) (deleteK8sResources c ns name).
Proof.
  unfold deleteK8sResources, ignore_gone, deleteAutoscale, DeleteServiceMonitor, DeleteAutoscale,
    delete_gone.
  repeat first [keeps_step | solve [split; [by intros Hw|done]]].
Qed.

(** C11.  Whatever the API server answers, processing a key creates, updates or
    patches nothing but function resources unless the function is in the
    informer's store, is not marked for deletion, and has the controller's
    finalizer already or was given it by an update that succeeded. *)
Theorem finalizer_added_first c key s :
  runs (processItem c key) s [] (fun _ tr _ => each (finalizer_first key s) tr).
Proof.
  set (P := finalizer_first key s).
  assert (Hquiet : forall tr o r, ~ writes o -> each P tr -> each P (tr ++ [existT o r])).
  { intros tr o r Ho Htr. apply each_snoc; [done|]. by intros Hw. }
  unfold processItem. apply runs_bind, runs_lift.
  destruct (SplitMetaNamespaceKey key) as [[ns name]|e]; [|apply each_nil].
  apply runs_bind. intros r. cbn [runs].
  assert (Htr : each P ([] ++ [existT (IndexerGetByKey key) r]))
    by (apply (Hquiet _ (IndexerGetByKey key)); [by intros Hw|apply each_nil]).
  destruct r as [[p|]|e]; [|exact Htr..].
  apply runs_bind, runs_load. destruct (m_heap s !! p) as [f|] eqn:Ep; [|exact Htr].
  destruct (om_DeletionTimestamp (f_Meta f)) eqn:Edel.
  - destruct (negb _); [exact Htr|]. apply runs_bind.
    eapply runs_mono; [|apply (keeps_asks (each P) _ _ Hquiet (deleteK8sResources_no_writes c ns name)), Htr].
    intros s1 tr1 [a|e|m|m] Htr1; try exact Htr1.
    intros [r|e]; apply (Hquiet _ (AUpdate KFunction _ _)); try done; by intros Hw.
  - assert (Hrest : forall s' tr, each P tr -> held key s tr ->
      runs (ensureK8sResources c p) s' tr (fun _ tr' _ => each P tr')).
    { intros s' tr Htr' Hheld.
      eapply runs_mono with (Q := fun _ tr' _ => each P tr' /\ held key s tr'); [by intros ??? []|].
      apply (keeps_asks (fun tr => each P tr /\ held key s tr) not_function); [|apply ensureK8sResources_asks|done].
      intros tr' o r _ [He Hh]. split; [|by apply held_mono]. apply each_snoc; [done|]. by intros _. }
    assert (Hin : forall t : trace, existT (IndexerGetByKey key) (Ok (Some p) : resp (IndexerGetByKey key))
        ∈ ([] ++ [existT (IndexerGetByKey key) (Ok (Some p) : resp (IndexerGetByKey key))]) ++ t)
      by (intros t; apply elem_of_app; left; by left).
    destruct (FunctionObjHasFinalizer f functionFinalizer) eqn:Ef; cbn [negb].
    + cbn. apply Hrest; [done|]. exists p, f. split_and!; [|done|done|by left].
      specialize (Hin []). by rewrite app_nil_r in Hin.
    + apply runs_bind. intros r. fold (with_finalizer f).
      assert (Htr2 : each P (([] ++ [existT (IndexerGetByKey key) (Ok (Some p) : resp (IndexerGetByKey key))])
                 ++ [existT (AUpdate KFunction (f_namespace (with_finalizer f)) (with_finalizer f)) r]))
        by (apply (Hquiet _ (AUpdate KFunction _ _)); [by intros Hw|exact Htr]).
      destruct r as [r|e]; [|exact Htr2]. apply Hrest; [exact Htr2|].
      exists p, f. split_and!; [apply Hin|done|done|]. right. exists r.
      apply elem_of_app. right. by left.
Qed.

End Finalizer.

(** ** The deployment comes last *)

(** The parts of a function that the config map, the service and the container
    are made of; the deployment in the specification and the labels may
    differ. *)
Definition same_source (f0 f : Function_) : Prop :=
  f_name f = f_name f0 /\ f_namespace f = f_namespace f0 /\
  fs_Handler (f_Spec f) = fs_Handler (f_Spec f0) /\
  fs_Function (f_Spec f) = fs_Function (f_Spec f0) /\
  fs_FunctionContentType (f_Spec f) = fs_FunctionContentType (f_Spec f0) /\
  fs_Runtime (f_Spec f) = fs_Runtime (f_Spec f0) /\
  fs_Deps (f_Spec f) = fs_Deps (f_Spec f0) /\
  fs_ServiceSpec (f_Spec f) = fs_ServiceSpec (f_Spec f0).

(** A request that makes pods of a deployment run. *)
Definition deploys_pods (o : op) : bool :=
  match o with
  | ACreate KDeployment _ _ | AUpdate KDeployment _ _ | APatch KDeployment _ _ _ => true
  | _ => false
  end.

Section Deployed.
Context `{YamlRuntimes} `{MapRange} `{OsEnv} `{IntOrStringValue} `{JsonDeployment} `{Mergo}
  `{UrlParse} `{Registry.RegistryJson} `{CacheKeys} `{YamlDeployment} `{SemanticEqual}.
Context (c : FunctionController).

(** The config map with the function's current data and a service with its
    ports have been written. *)
Definition supplied (f0 : Function_) (lr : Langruntimes) (tr : trace) : Prop :=
  (exists data, configMapData f0 lr = Ok data /\
     wrote tr KConfigMap (f_namespace f0) (fun cm => cm_Data cm = Some data)) /\
  wrote tr KService (f_namespace f0) (fun svc =>
    ss_Ports (svc_Spec svc) = ss_Ports (serviceSpec f0)).

Definition deployment_last (f0 : Function_) (lr : Langruntimes) (before : trace) (o : op) : Prop :=
  deploys_pods o = true ->
  supplied f0 lr before /\
  exists f, same_source f0 f /\ controlled f /\ deployment_ok f before o.

Lemma configMapData_same f0 f lr :
  same_source f0 f -> configMapData f lr = configMapData f0 lr.
Proof.
  intros (_ & _ & Hh & Hf & Ht & Hr & Hd & _). unfold configMapData. by rewrite Hh, Hf, Ht, Hr, Hd.
Qed.

Lemma same_source_labels f0 f l : same_source f0 f -> same_source f0 (f_set_labels f l).
Proof. done. Qed.

Lemma same_source_deployment f0 f d : same_source f0 f -> same_source f0 (f_set_deployment f d).
Proof. done. Qed.

Lemma serviceSpec_ports f0 f :
  same_source f0 f -> ss_Ports (serviceSpec f) = ss_Ports (serviceSpec f0).
Proof.
  intros (_ & _ & _ & _ & _ & _ & _ & Hs). unfold serviceSpec. rewrite Hs. by case_match.
Qed.

Lemma wrote_weaken tr k ns (P Q : obj k -> Prop) :
  (forall o, P o -> Q o) -> wrote tr k ns P -> wrote tr k ns Q.
Proof. intros HPQ (o & r & HP & Hor). exists o, r. auto. Qed.

Lemma supplied_mono f0 lr tr tr' : tr `prefix_of` tr' -> supplied f0 lr tr -> supplied f0 lr tr'.
Proof.
  intros Hp ((data & Hd & Hc) & Hs). split; [exists data; split; [done|]|];
    by eapply wrote_mono.
Qed.

(** ** The steps of ensureK8sResources *)

Lemma label_function_ensures p f s tr :
  m_heap s !! p = Some f ->
  ensures (label_function p) s tr (fun s' tr' _ =>
    tr' = tr /\ m_lr s' = m_lr s /\
    exists f', m_heap s' !! p = Some f' /\ same_source f f' /\
      mget (f_labels f') "function" = Some (f_name f')).
Proof.
  intros Hp. unfold label_function. apply runs_bind, runs_load. rewrite Hp. cbn.
  intros _ _. split_and!; [done..|]. eexists. rewrite lookup_insert_eq.
  split_and!; [done|by split_and!|]. cbn. by rewrite lookup_insert_eq.
Qed.

Lemma MergeDeployments_runs {S} d d' (s : S) tr :
  runs (MergeDeployments d d') s tr (fun s' tr' _ => s' = s /\ tr' = tr).
Proof.
  apply (MergeDeployments_keeps (fun s' tr' => s' = s /\ tr' = tr)). done.
Qed.

Lemma merge_template_ensures p f s tr :
  m_heap s !! p = Some f ->
  ensures (merge_template c p) s tr (fun s' tr' _ =>
    tr' = tr /\ m_lr s' = m_lr s /\
    exists f', m_heap s' !! p = Some f' /\ same_source f f' /\ f_labels f' = f_labels f).
Proof.
  intros Hp. unfold merge_template.
  destruct (mget _ _) as [d|]; [|apply ensures_ret; split_and!; [done..|]; by exists f].
  eapply ensures_bind; [apply ensures_lift_eq|]. intros ? ? d1 (-> & -> & _).
  apply runs_bind, runs_load. rewrite Hp. apply runs_bind.
  eapply runs_mono; [|apply MergeDeployments_runs].
  intros s1 tr1 [[d2 [e|]]|e|m|m] [-> ->]; try done; cbn; try done.
  intros _ _. split_and!; [done..|]. eexists. by rewrite lookup_insert_eq.
Qed.

(** Requests that send no deployment, and leave the function objects alone. *)
Definition no_deployment (o : op) : Prop := deploys_pods o = false.

Lemma choose_image_keeps I p owners :
  closed no_deployment I -> heap_inv I -> keeps I (choose_image c p owners).
Proof.
  intros HI Hh. unfold choose_image, startImageBuildJob, EnsureFuncImage, Registry.New,
    Registry.ImageExists, Registry.doRequest, Registry.doRequestWithAuth.
  repeat first [closed_step | solve [apply keeps_populatePodSpec; auto] | keeps_step].
Qed.

Lemma ensure_autoscale_keeps (I : trace -> Prop) p owners :
  closed no_deployment (fun (_ : mem) tr => I tr) ->
  keeps (fun _ tr => I tr) (ensure_autoscale c p owners).
Proof.
  intros HI. unfold ensure_autoscale, CreateServiceMonitor, CreateAutoscale, UpdateAutoscale,
    deleteAutoscale, DeleteServiceMonitor, DeleteAutoscale, delete_gone.
  repeat first [closed_step | solve [apply keeps_store; auto] | keeps_step].
Qed.

Lemma deployment_last_closed {S} f0 lr :
  closed no_deployment (fun (_ : S) tr => each (deployment_last f0 lr) tr).
Proof.
  intros s tr o r Ho Htr. apply each_snoc; [done|]. intros Hd. simpl in Hd.
  unfold no_deployment in Ho. congruence.
Qed.

Lemma EnsureFuncDeployment_last p f0 f lr owners img prov secrets s tr :
  m_heap s !! p = Some f -> same_source f0 f -> controlled f -> supplied f0 lr tr ->
  each (deployment_last f0 lr) tr ->
  runs (EnsureFuncDeployment p owners img prov secrets) s tr
    (fun _ tr' _ => each (deployment_last f0 lr) tr').
Proof.
  intros Hp Hsrc Hc Hsup Htr. apply runs_frame.
  eapply runs_mono; [|apply (EnsureFuncDeployment_ok p f); [done|done|apply each_nil]].
  intros s' tr' o Hok. apply each_app; [done|]. intros t1 e t2 E Hd. split.
  - by eapply supplied_mono; [apply prefix_app_r|].
  - exists f. split_and!; [done|done|]. exact (Hok t1 e t2 E).
Qed.

(** The config map's and the service's part, from which everything the
    deployment needs is known. *)
Lemma supplies p f0 f owners s :
  m_heap s !! p = Some f -> same_source f0 f -> mget (f_labels f) "function" = Some (f_name f) ->
  ensures (EnsureFuncConfigMap p owners;; EnsureFuncService p owners) s [] (fun s' tr' _ =>
    supplied f0 (m_lr s) tr' /\ exists f', m_heap s' !! p = Some f' /\ same_source f0 f' /\ controlled f').
Proof.
  intros Hp Hsrc Hfn. destruct (f_labels f) as [l|] eqn:El; [|done].
  eapply ensures_bind; [by apply EnsureFuncConfigMap_ensures|].
  intros s1 tr1 _ (-> & Hpre & data & Hdata & Hcm).
  eapply ensures_mono; [|eapply EnsureFuncService_ensures; cbn; by rewrite lookup_insert_eq].
  intros s2 tr2 _ (-> & Hpre2 & Hsvc). split.
  - split.
    + exists data. rewrite (configMapData_same f0 f) in Hdata by done. split; [done|].
      eapply wrote_mono; [done|]. destruct Hsrc as (_ & <- & _).
      eapply wrote_weaken; [|done]. by intros o [? _].
    + destruct Hsrc as (Hn & Hns & Hsrc). cbn in Hsvc. rewrite <- Hns.
      eapply wrote_weaken; [|done]. intros o [-> _]. by apply serviceSpec_ports.
  - eexists. cbn. rewrite lookup_insert_eq. split; [done|]. split; [done|].
    unfold labelled, controlled. cbn. rewrite El. cbn.
    split; [by rewrite lookup_insert_eq|]. rewrite !lookup_insert_ne by done. exact Hfn.
Qed.

(** C7.  Whatever the API server answers, reconciling a function sends or
    patches a deployment only after a config map holding the function's current
    source, handler and dependencies, and a service with its ports, have been
    written; and a deployment it creates is named and labelled as kubeless
    objects are, its selector matches the labels of its own pod template (which
    carry all labels of the function, so the service selects the pods too), its
    first container listens on the service's target port and is told module,
    handler and runtime, and it has a probe, a security context and an affinity. *)
Theorem deployment_comes_last p f0 s (Hp : m_heap s !! p = Some f0) :
  runs (ensureK8sResources c p) s [] (fun _ tr _ => each (deployment_last f0 (m_lr s)) tr).
Proof.
  set (I := fun (_ : mem) tr => each (deployment_last f0 (m_lr s)) tr).
  assert (Hnil : each (deployment_last f0 (m_lr s)) []) by apply each_nil.
  pose proof (deployment_last_closed (S := mem) f0 (m_lr s)) as Hclosed. fold I in Hclosed.
  unfold ensureK8sResources.
  eapply (runs_seq I); [|exact Hnil|by apply label_function_ensures|].
  { unfold label_function. repeat first [closed_step | solve [apply keeps_store; auto] | keeps_step]. }
  intros s1 tr1 _ _ (-> & Hlr1 & f1 & Hp1 & Hsrc1 & Hfn1).
  eapply (runs_seq I); [|exact Hnil|by apply merge_template_ensures|].
  { unfold merge_template. pose proof @MergeDeployments_keeps.
    repeat first [closed_step | solve [apply keeps_store; auto] | keeps_step]. }
  intros s2 tr2 _ _ (-> & Hlr2 & f2 & Hp2 & Hsrc2 & Hl2).
  assert (Hsrc : same_source f0 f2) by (unfold same_source in *; naive_solver congruence).
  assert (Hfn : mget (f_labels f2) "function" = Some (f_name f2)).
  { rewrite Hl2, Hfn1. f_equal. by destruct Hsrc2. }
  apply runs_bind, runs_load. rewrite Hp2. apply runs_bind, runs_lift.
  destruct (GetOwnerReference _ _ _ _) as [owners|e]; [|exact Hnil].
  apply runs_assoc. eapply (runs_seq I); [|exact Hnil|by apply (supplies p f0 f2)|].
  { unfold EnsureFuncConfigMap, EnsureFuncService, label_in_place.
    repeat first [closed_step | solve [apply keeps_store; auto] | keeps_step]. }
  intros s3 tr3 _ Htr3 (Hsup & f3 & Hp3 & Hsrc3 & Hc3). rewrite Hlr2, Hlr1 in Hsup.
  set (J := fun s' tr' => I s' tr' /\ m_heap s' !! p = Some f3 /\ supplied f0 (m_lr s) tr').
  apply runs_bind. eapply runs_mono; [|apply (choose_image_keeps J)]; cycle 1.
  { intros s' tr' o r Ho (HI & Hp' & Hs'). split_and!; [by apply Hclosed|done|].
    eapply supplied_mono; [by eexists|done]. }
  { by intros s' l tr'. }
  { done. }
  intros s4 tr4 [image|e|m|m] (Htr4 & Hp4 & Hsup4); [|exact Htr4..].
  apply runs_bind. eapply runs_mono; [|by apply (EnsureFuncDeployment_last p f0 f3)].
  intros s5 tr5 [a|e|m|m] Htr5; [|exact Htr5..].
  by apply (ensure_autoscale_keeps (each (deployment_last f0 (m_lr s)))).
Qed.

End Deployed.

(** ** A concrete run *)
Import Concrete.

Example deployment_comes_last_witness :
  runs (ensureK8sResources controller 1%positive) (memory test_function) []
    (fun _ tr _ => each (deployment_last test_function test_runtimes) tr).
Proof.
  apply (deployment_comes_last controller 1%positive test_function (memory test_function)).
  reflexivity.
Defined.

(** The property is not empty: a deployment is created when every request
    succeeds. *)
Example deployment_created :
  existsb (fun e => deploys_pods (projT1 e))
    (run_trace serve (ensureK8sResources controller 1%positive) (memory test_function) empty_world)
  = true.
Proof. vm_compute. reflexivity. Qed.
