(* ===== verification/Worker.v ===== *)
(** * The worker and its queue

    What becomes of a key: it is processed, and retried a bounded number of
    times; and which changes of a function put its key on the queue. *)
From S2P Require Import Prelude GoStrings GoCodec GoProg KubeTypes World LangRuntime Memory K8sUtil.
From S2P Require Import PodSpec Ensure Controller Concrete Reconcile.
From S2P Require Registry.

(** Requests to the work queue. *)
Definition queue_op (o : op) : bool :=
  match o with
  | QueueGet | QueueDone _ | QueueForget _ | QueueNumRequeues _ | QueueAddRateLimited _
  | QueueAdd _ => true
  | _ => false
  end.

(** client-go's rate-limiting queue, without the delay of a rate-limited
    addition: the keys waiting and, for each key, how often it was added again
    since it was last forgotten. A drained queue counts as shut down. *)
Class WorkQueue {W : Type} (H : handler resp W) := {
  pending : W -> list string;
  requeues : W -> string -> Z;
  queue_drained w : pending w = [] -> H QueueGet w = (None, w);
  queue_next w k rest : pending w = k :: rest ->
    exists w', H QueueGet w = (Some k, w') /\ pending w' = rest /\
      (forall k', requeues w' k' = requeues w k');
  queue_done_law w k : exists w', H (QueueDone k) w = (tt, w') /\
    pending w' = pending w /\ (forall k', requeues w' k' = requeues w k');
  queue_forget_law w k : exists w', H (QueueForget k) w = (tt, w') /\
    pending w' = pending w /\ requeues w' k = 0%Z /\
    (forall k', k' <> k -> requeues w' k' = requeues w k');
  queue_requeues_law w k : H (QueueNumRequeues k) w = (requeues w k, w);
  queue_add_law w k : exists w', H (QueueAdd k) w = (tt, w') /\
    pending w' = enqueue k (pending w) /\ (forall k', requeues w' k' = requeues w k');
  queue_again_law w k : exists w', H (QueueAddRateLimited k) w = (tt, w') /\
    pending w' = enqueue k (pending w) /\ requeues w' k = (requeues w k + 1)%Z /\
    (forall k', k' <> k -> requeues w' k' = requeues w k');
  queue_other_law w o : queue_op o = false ->
    pending (snd (H o w)) = pending w /\
    (forall k', requeues (snd (H o w)) k' = requeues w k') }.

Section Worker.
Context `{YamlRuntimes} `{MapRange} `{OsEnv} `{IntOrStringValue} `{JsonDeployment} `{Mergo}
  `{UrlParse} `{Registry.RegistryJson} `{CacheKeys} `{YamlDeployment} `{SemanticEqual}.

Lemma not_function_queue o : not_function o -> queue_op o = false.
Proof. by destruct o. Qed.

Lemma processItem_no_queue c key : asks (fun o => queue_op o = false) (processItem c key).
Proof.
  unfold processItem, FunctionObjAddFinalizer, FunctionObjRemoveFinalizer,
    UpdateFunctionCustomResource.
  pose proof (fun c p => asks_mono _ _ _ not_function_queue (ensureK8sResources_asks c p)).
  pose proof (fun c ns n => asks_mono _ _ _ not_function_queue (deleteK8sResources_asks c ns n)).
  pose proof load_asks.
  repeat first [solve [eauto] | solve [by split] | keeps_step].
Qed.

Section Queue.
Context {W : Type} (H' : handler resp W) `{!WorkQueue H'}.
Implicit Types (w : W).

Definition same_queue w w' : Prop :=
  pending w' = pending w /\ forall k, requeues w' k = requeues w k.

Lemma run_no_queue {S A} (p : go S A) s w :
  asks (fun o => queue_op o = false) p -> same_queue w (snd (run H' p s w)).
Proof.
  revert s w. induction p as [| | | |k IH|s0 k IH|o k IH]; cbn; intros s w Hp; try by split.
  - by apply IH.
  - by apply IH.
  - destruct Hp as [Ho Hk]. pose proof (queue_other_law w o Ho) as Hlaw.
    destruct (H' o w) as [r w']. simpl in Hlaw.
    destruct (IH r s w' (Hk r)) as [Hp' Hr'], Hlaw as [Hp Hr].
    split; [congruence|]. intros k'. by rewrite Hr', Hr.
Qed.

(** Processings left: six for a fresh key, one less for every time it was put
    back. *)
Definition left_for w (key : string) : nat := Z.to_nat (maxRetries + 1 - requeues w key).
Definition work w : nat := list_sum (left_for w <$> pending w).

(** No key is queued twice, the counters are within bounds, and only keys that
    wait to be processed again have one. *)
Definition queue_inv w : Prop :=
  NoDup (pending w) /\
  forall k, (0 <= requeues w k <= maxRetries)%Z /\ (requeues w k <> 0%Z -> k ∈ pending w).

Lemma same_queue_inv w w' : same_queue w w' -> queue_inv w -> queue_inv w'.
Proof. intros [Hp Hr] [Hnd Hb]. split; [by rewrite Hp|]. intros k. rewrite Hr, Hp. apply Hb. Qed.

Lemma work_ext w w' l :
  (forall k, k ∈ l -> requeues w' k = requeues w k) ->
  list_sum (left_for w' <$> l) = list_sum (left_for w <$> l).
Proof.
  induction l as [|k l IH]; intros Hr; [done|]. cbn. unfold left_for at 1 3.
  rewrite (Hr k) by left. f_equal. apply IH. intros k' Hk'. apply Hr. by right.
Qed.

(** A crash of the process: a panic or an exit. *)
Definition crashed {A} (o : outcome A) : Prop :=
  match o with Panicked _ | Exited _ => True | _ => False end.

Lemma work_cons w key rest : pending w = key :: rest ->
  work w = (left_for w key + list_sum (left_for w <$> rest))%nat.
Proof. unfold work. by intros ->. Qed.

Lemma left_for_pos w key : queue_inv w -> (0 < left_for w key)%nat.
Proof. intros [_ Hb]. destruct (Hb key) as [Hk _]. unfold left_for, maxRetries in *. lia. Qed.

(** The key was taken off the queue and forgotten. *)
Lemma forgotten w w' key rest :
  queue_inv w -> pending w = key :: rest -> pending w' = rest -> requeues w' key = 0%Z ->
  (forall k, k <> key -> requeues w' k = requeues w k) ->
  queue_inv w' /\ (work w' < work w)%nat.
Proof.
  intros Hinv Hp Hp' Hk Hother. pose proof (left_for_pos w key Hinv) as Hpos.
  destruct Hinv as [Hnd Hb]. rewrite Hp in Hnd. apply NoDup_cons in Hnd as [Hnin Hnd]. split.
  - split; [by rewrite Hp'|]. intros k. destruct (decide (k = key)) as [->|Hne].
    + rewrite Hk. unfold maxRetries. split; [lia|done].
    + rewrite Hother by done. destruct (Hb k) as [Hb1 Hb2]. split; [done|]. intros H0k.
      rewrite Hp'. apply Hb2 in H0k. rewrite Hp in H0k. by apply elem_of_cons in H0k as [|].
  - rewrite (work_cons w key rest Hp). unfold work. rewrite Hp'.
    rewrite (work_ext w w' rest); [lia|]. intros k Hin. apply Hother. by intros ->.
Qed.

(** The key was put back with its counter raised. *)
Lemma put_back w w' key rest :
  queue_inv w -> pending w = key :: rest -> pending w' = rest ++ [key] ->
  (requeues w key < maxRetries)%Z -> requeues w' key = (requeues w key + 1)%Z ->
  (forall k, k <> key -> requeues w' k = requeues w k) ->
  queue_inv w' /\ (work w' < work w)%nat.
Proof.
  intros Hinv Hp Hp' Hlt Hk Hother. destruct Hinv as [Hnd Hb].
  rewrite Hp in Hnd. apply NoDup_cons in Hnd as [Hnin Hnd]. destruct (Hb key) as [Hb1 _]. split.
  - split.
    + rewrite Hp'. apply NoDup_app. split_and!; [done| |apply NoDup_singleton].
      intros k Hin ->%list_elem_of_singleton. done.
    + intros k. rewrite Hp', elem_of_app. destruct (decide (k = key)) as [->|Hne].
      * rewrite Hk. split; [lia|]. intros _. right. by left.
      * rewrite Hother by done. destruct (Hb k) as [Hk1 Hk2]. split; [done|]. intros H0k.
        apply Hk2 in H0k. rewrite Hp in H0k. apply elem_of_cons in H0k as [->|]; [done|by left].
  - rewrite (work_cons w key rest Hp). unfold work. rewrite Hp', fmap_app, list_sum_app.
    rewrite (work_ext w w' rest); [|intros k Hin; apply Hother; by intros ->].
    cbn. unfold left_for. rewrite Hk. lia.
Qed.

(** What becomes of one key. *)
Lemma processNextItem_step c s w key rest :
  pending w = key :: rest -> queue_inv w ->
  exists o s' w', run H' (processNextItem c) s w = (o, s', w') /\
    (crashed o \/ (o = Done true /\ rest `prefix_of` pending w' /\
      queue_inv w' /\ (work w' < work w)%nat)).
Proof.
  intros Hp Hinv. destruct (queue_next w key rest Hp) as (w1 & E1 & Hp1 & Hr1).
  unfold processNextItem, queue_get, queue_done, queue_forget, queue_num_requeues,
    queue_add_rate_limited.
  cbn [run mbind prog_mbind prog_bind call]. rewrite E1.
  rewrite run_deferred, run_bind, run_attempt.
  pose proof (run_no_queue (processItem c key) s w1 (processItem_no_queue c key)) as Hq.
  destruct (run H' (processItem c key) s w1) as [[o s2] w2]. destruct Hq as [Hp2 Hr2]. simpl in Hp2, Hr2.
  assert (Hpr : pending w2 = rest) by congruence.
  assert (Hrr : forall k, requeues w2 k = requeues w k) by (intros k; by rewrite Hr2, Hr1).
  destruct o as [[]|e|m|m].
  - destruct (queue_forget_law w2 key) as (w3 & E3 & Hp3 & Hk3 & Hr3).
    destruct (queue_done_law w3 key) as (w4 & E4 & Hp4 & Hr4).
    cbn. rewrite E3, E4. eexists _, _, _. split; [done|]. right. split; [done|].
    split; [exists []; rewrite app_nil_r; congruence|].
    apply (forgotten w w4 key rest); [done|done|congruence|by rewrite Hr4|].
    intros k Hk. by rewrite Hr4, Hr3, Hrr.
  - cbn. rewrite queue_requeues_law, Hrr. destruct (Z.ltb_spec (requeues w key) maxRetries) as [Hlt|Hge]; cbn.
    + destruct (queue_again_law w2 key) as (w3 & E3 & Hp3 & Hk3 & Hr3).
      assert (enqueue key (pending w2) = rest ++ [key]) as Hen.
      { rewrite Hpr. unfold enqueue. rewrite bool_decide_eq_false_2; [done|].
        destruct Hinv as [Hnd _]. rewrite Hp in Hnd. by apply NoDup_cons in Hnd as [? _]. }
      destruct (queue_done_law w3 key) as (w4 & E4 & Hp4 & Hr4).
      rewrite E3, E4. eexists _, _, _. split; [done|]. right. split; [done|].
      split; [exists [key]; congruence|].
      apply (put_back w w4 key rest); [done|done|congruence|done|by rewrite Hr4, Hk3, Hrr|].
      intros k Hk. by rewrite Hr4, Hr3, Hrr.
    + destruct (queue_forget_law w2 key) as (w3 & E3 & Hp3 & Hk3 & Hr3).
      destruct (queue_done_law w3 key) as (w4 & E4 & Hp4 & Hr4).
      rewrite E3, E4. eexists _, _, _. split; [done|]. right. split; [done|].
      split; [exists []; rewrite app_nil_r; congruence|].
      apply (forgotten w w4 key rest); [done|done|congruence|by rewrite Hr4|].
      intros k Hk. by rewrite Hr4, Hr3, Hrr.
  - destruct (queue_done_law w2 key) as (w3 & E3 & _). cbn. rewrite E3.
    eexists _, _, _. split; [done|]. by left.
  - cbn. eexists _, _, _. split; [done|]. by left.
Qed.

(** C13.  The worker drains its queue: unless processing crashes the process,
    it ends, with every key forgotten, after at most six processings of each
    key that waits -- fewer for one that was put back before.  A key whose
    processing keeps failing is thus dropped after [maxRetries] retries, and
    never blocks the others. *)
Theorem worker_drains c fuel s w (Hinv : queue_inv w) (Hfuel : (work w < fuel)%nat) :
  exists o s' w', run H' (runWorker c fuel) s w = (o, s', w') /\
    (crashed o \/ (o = Done tt /\ pending w' = [] /\ forall k, requeues w' k = 0%Z)).
Proof.
  revert s w Hinv Hfuel. induction fuel as [|fuel IH]; intros s w Hinv Hfuel; [lia|].
  cbn [runWorker]. rewrite run_bind. destruct (pending w) as [|key rest] eqn:Ep.
  - unfold processNextItem, queue_get. cbn. rewrite queue_drained by done. cbn.
    eexists _, _, _. split; [done|]. right. split_and!; [done|done|]. intros k.
    destruct Hinv as [_ Hb]. destruct (Hb k) as [_ Hk].
    destruct (decide (requeues w k = 0%Z)) as [|Hne]; [done|]. apply Hk in Hne.
    rewrite Ep in Hne. by apply elem_of_nil in Hne.
  - destruct (processNextItem_step c s w key rest Ep Hinv) as (o & s' & w' & -> & [Hc|(-> & _ & Hinv' & Hlt)]).
    + destruct o as [[]|e|m|m]; try done; eexists _, _, _; (split; [done|]); by left.
    + apply IH; [done|lia].
Qed.

End Queue.

(** ** Which changes are processed *)

(** An update event of a function is dropped exactly when the deletion
    mark is the same pointer and either the resource version is unchanged or
    function text, checksum, handler, content type, dependencies, timeout,
    deployment, autoscaler and service specification all are. *)
Theorem functionObjChanged_false old new :
  functionObjChanged old new = false <->
  ptr_eqb (om_DeletionTimestamp (f_Meta old)) (om_DeletionTimestamp (f_Meta new)) = true /\
  (om_ResourceVersion (f_Meta old) = om_ResourceVersion (f_Meta new) \/
   let a := f_Spec old in let b := f_Spec new in
   (fs_Function a = fs_Function b /\ fs_Checksum a = fs_Checksum b /\
    fs_Handler a = fs_Handler b /\ fs_FunctionContentType a = fs_FunctionContentType b /\
    fs_Deps a = fs_Deps b /\ fs_Timeout a = fs_Timeout b) /\
   DeepEqual_deployment (fs_Deployment a) (fs_Deployment b) = true /\
   DeepEqual_hpa (fs_HorizontalPodAutoscaler a) (fs_HorizontalPodAutoscaler b) = true /\
   DeepEqual_service (fs_ServiceSpec a) (fs_ServiceSpec b) = true).
Proof.
  unfold functionObjChanged. destruct (ptr_eqb _ _); cbn [negb]; [|naive_solver].
  destruct (_ =?s om_ResourceVersion _) eqn:Ev.
  { apply streq_true in Ev. naive_solver. }
  apply streq_false in Ev. cbv zeta.
  repeat match goal with
  | |- context [negb (?a =?s ?b)] => destruct (a =?s b) eqn:?; cbn [negb orb]
  end;
  repeat match goal with
  | H : (_ =?s _) = true |- _ => apply streq_true in H
  | H : (_ =?s _) = false |- _ => apply streq_false in H
  end; try naive_solver.
  rewrite !orb_false_iff, !negb_false_iff. naive_solver.
Qed.

(** C40.  A change of the runtime alone is not processed: the event handler
    puts nothing on the queue, so the pods keep running the old runtime.  The
    same holds of changes of labels and annotations. *)
Theorem runtime_change_dropped (old : Function_) (newRuntime version : string) labels annotations
    {S} (s : S) tr
    (Hd : DeepEqual_deployment (fs_Deployment (f_Spec old)) (fs_Deployment (f_Spec old)) = true)
    (Hh : DeepEqual_hpa (fs_HorizontalPodAutoscaler (f_Spec old))
            (fs_HorizontalPodAutoscaler (f_Spec old)) = true)
    (Hs : DeepEqual_service (fs_ServiceSpec (f_Spec old)) (fs_ServiceSpec (f_Spec old)) = true)
    (Hdel : om_DeletionTimestamp (f_Meta old) = None) :
  let m := f_Meta old in let a := f_Spec old in
  let new := {| f_Type := f_Type old;
    f_Meta := {| om_Name := om_Name m; om_Namespace := om_Namespace m; om_Labels := labels;
      om_Annotations := annotations; om_OwnerReferences := om_OwnerReferences m;
      om_Finalizers := om_Finalizers m; om_UID := om_UID m; om_ResourceVersion := version;
      om_DeletionTimestamp := None |};
    f_Spec := {| fs_Handler := fs_Handler a; fs_Function := fs_Function a;
      fs_FunctionContentType := fs_FunctionContentType a; fs_Checksum := fs_Checksum a;
      fs_Runtime := newRuntime; fs_Timeout := fs_Timeout a; fs_Deps := fs_Deps a;
      fs_Deployment := fs_Deployment a; fs_ServiceSpec := fs_ServiceSpec a;
      fs_HorizontalPodAutoscaler := fs_HorizontalPodAutoscaler a |} |} in
  runs (UpdateFunc old new) s tr (fun s' tr' o => o = Done tt /\ s' = s /\ tr' = tr).
Proof.
  intros m a new. assert (functionObjChanged old new = false) as Hc.
  { subst new a m. unfold functionObjChanged. cbn [f_Meta f_Spec om_DeletionTimestamp
      om_ResourceVersion fs_Handler fs_Function fs_FunctionContentType fs_Checksum fs_Timeout
      fs_Deps fs_Deployment fs_ServiceSpec fs_HorizontalPodAutoscaler]. rewrite Hdel. cbn [ptr_eqb negb].
    destruct (_ =?s version); [done|]. rewrite !streq_refl, Hd, Hh, Hs. done. }
  unfold UpdateFunc. rewrite Hc. by destruct (MetaNamespaceKeyFunc _).
Qed.

End Worker.

(** ** The reference server's queue *)

#[export] Program Instance serve_queue : WorkQueue serve := {|
  pending w := q_items (w_queue w);
  requeues w k := default 0%Z (q_requeues (w_queue w) !! k)
|}.
Next Obligation. intros w E. simpl in *. by rewrite E. Qed.
Next Obligation. intros w k rest E. simpl in *. rewrite E. by eexists. Qed.
Next Obligation. intros w k. by eexists. Qed.
Next Obligation.
  intros w k. eexists. split; [done|]. cbn. split_and!; [done|by rewrite lookup_delete_eq|].
  intros k' Hk. by rewrite lookup_delete_ne.
Qed.
Next Obligation. done. Qed.
Next Obligation. intros w k. by eexists. Qed.
Next Obligation.
  intros w k. eexists. split; [done|]. cbn. split_and!; [done|by rewrite lookup_insert_eq|].
  intros k' Hk. by rewrite lookup_insert_ne.
Qed.
Next Obligation. intros w o Ho. destruct o; try done; simpl; by repeat case_match. Qed.

(** ** Concrete runs *)
Import Concrete.

(** A key whose object cannot be read from the informer's store. *)
Definition queued_world : world :=
  w_set_queue (server test_function) (Queue ["default/foo"; "a/b/c"] ∅).

Example worker_drains_witness :
  exists o s' w', run serve (runWorker controller 13) (memory test_function) queued_world = (o, s', w') /\
    (crashed o \/ (o = Done tt /\ pending w' = [] /\ forall k, requeues w' k = 0%Z)).
Proof.
  apply (worker_drains serve controller 13 (memory test_function) queued_world).
  - split; [repeat constructor; set_solver|]. intros k. simpl. rewrite lookup_empty. simpl. done.
  - vm_compute. lia.
Defined.

(** The bad key is processed six times, the good one once. *)
Example worker_processes :
  length (filter (fun e => match projT1 e with QueueDone "a/b/c" => true | _ => false end = true)
    (run_trace serve (runWorker controller 13) (memory test_function) queued_world)) = 6 /\
  length (filter (fun e => match projT1 e with QueueDone "default/foo" => true | _ => false end = true)
    (run_trace serve (runWorker controller 13) (memory test_function) queued_world)) = 1.
Proof. vm_compute. by split. Qed.

Example runtime_change_dropped_witness :
  runs (UpdateFunc test_function
    {| f_Type := f_Type test_function;
       f_Meta := {| om_Name := "foo"; om_Namespace := "default"; om_Labels := Some {[ "foo" := "bar" ]};
         om_Annotations := Some {[ "baz" := "qux" ]}; om_OwnerReferences := [];
         om_Finalizers := ["kubeless.io/function"]; om_UID := "foo-uid"; om_ResourceVersion := "2";
         om_DeletionTimestamp := None |};
       f_Spec := {| fs_Handler := "foo.bar"; fs_Function := "function";
         fs_FunctionContentType := "text";
         fs_Checksum := "sha256:" +:+ sha256_hex "function"; fs_Runtime := "ruby2.4";
         fs_Timeout := ""; fs_Deps := "deps"; fs_Deployment := zero_deployment;
         fs_ServiceSpec := zero_service_spec; fs_HorizontalPodAutoscaler := zero_hpa |} |})
    tt [] (fun s' tr' o => o = Done tt /\ s' = tt /\ tr' = []).
Proof.
  apply (runtime_change_dropped test_function "ruby2.4" "2" (Some {[ "foo" := "bar" ]})
    (Some {[ "baz" := "qux" ]}) tt []).
  - reflexivity.
  - reflexivity.
  - reflexivity.
  - reflexivity.
Defined.
