(* ===== verification/Dispatch.v ===== *)
(** * The controller's process (cmd/function-controller, FunctionController.Run)

    Start-up, and then a transition system of the goroutines of the process:
    the informer, which calls the event handlers; [Run], which waits for the
    informer to have listed the functions and then processes keys; and the main
    goroutine, which waits for a signal.  Between two steps of one goroutine
    any others may take steps. *)
From S2P Require Import Prelude GoStrings GoCodec GoProg KubeTypes World LangRuntime Memory K8sUtil.
From S2P Require Import PodSpec Ensure Controller Worker.
From S2P Require Registry Concrete.

Section Start.
Context `{YamlRuntimes} `{OsEnv}.

(** [Run] of [rootCmd], up to the start of the controller. *)
Definition rootCmd : go mem FunctionController :=
  r ← attempt GetFunctionClientInCluster;
  match r with
  | Error e => Fatal ("Cannot get kubeless client: " +:+ err_msg e)
  | Ok _ =>
      GetClient;;
      restCfg ← attempt GetInClusterConfig;
      match restCfg with
      | Error e => Fatal ("Cannot get REST client: " +:+ err_msg e)
      | Ok restCfg =>
          smclient ← new_for_config "monitoring" restCfg;
          match smclient with
          | Error e => Fatal (err_msg e)
          | Ok _ => NewFunctionController true
          end
      end
  end.

(** Requests of the start-up: it reads files and objects and makes clients. *)
Definition starts (o : op) : Prop :=
  match o with AGet _ _ _ | InClusterConfig | NewForConfig _ _ | FileRead _ => True | _ => False end.

Lemma rootCmd_starts : asks starts rootCmd.
Proof.
  unfold rootCmd, GetFunctionClientInCluster, GetClient, NewFunctionController, GetAPIExtensionsClientInCluster,
    fatal_clients, GetKubelessConfig, getConfigLocation, GetAnnotationsFromCRD, GetInClusterConfig, put_lr, ReadConfigMap.
  repeat first [ solve [by split] | keeps_step | progress cbn ].
Qed.

(** The controller that is started can create service monitors. *)
Lemma rootCmd_monitors s tr : ensures rootCmd s tr (fun _ _ c => hasSm c = true).
Proof.
  unfold rootCmd. eapply ensures_bind; [apply ensures_true|]. intros s1 tr1 [] _; [|by intros a [=]].
  eapply ensures_bind; [apply ensures_true|]. intros s2 tr2 _ _.
  eapply ensures_bind; [apply ensures_true|]. intros s3 tr3 [] _; [|by intros b [=]].
  eapply ensures_bind; [apply ensures_true|]. intros s4 tr4 [] _; [|by intros b [=]].
  unfold NewFunctionController. eapply ensures_bind; [apply ensures_true|]. intros s5 tr5 _ _.
  eapply ensures_bind; [apply ensures_true|]. intros s6 tr6 [] _; [|by intros b [=]].
  eapply ensures_bind; [apply ensures_true|]. intros s7 tr7 lr _.
  eapply ensures_bind; [apply ensures_true|]. intros s8 tr8 _ _. cbv zeta. by apply ensures_ret.
Qed.

End Start.

(** ** The goroutines *)

(** Where [Run] is. *)
Inductive stage := Starting | Syncing | Working | Finished.

(** What the informer reports. *)
Inductive event :=
  | Added (f : Function_)
  | Updated (old new : Function_)
  | Deleted (f : Function_).

Section Process.
Context `{YamlRuntimes} `{MapRange} `{OsEnv} `{IntOrStringValue} `{JsonDeployment} `{Mergo}
  `{UrlParse} `{Registry.RegistryJson} `{CacheKeys} `{YamlDeployment} `{SemanticEqual}.
Context {W : Type} (H' : handler resp W) `{!WorkQueue H'}.
Context (c : FunctionController).

Definition on_event (e : event) : go mem unit :=
  match e with
  | Added f => AddFunc f
  | Updated old new => UpdateFunc old new
  | Deleted f => DeleteFunc f
  end.

(** The key that an event puts on the queue, if it matters. *)
Definition event_key (e : event) : option string :=
  let key (r : result string) := match r with Ok k => Some k | Error _ => None end in
  match e with
  | Added f => key (MetaNamespaceKeyFunc (f_Meta f))
  | Updated old new => if functionObjChanged old new then key (MetaNamespaceKeyFunc (f_Meta new)) else None
  | Deleted f => key (DeletionHandlingMetaNamespaceKeyFunc (f_Meta f))
  end.

(** The process: whether it lives, whether the stop channel is closed, the
    queue shut down, the informer started and its list complete. *)
Record node := Node {
  n_alive : bool; n_stop : bool; n_down : bool; n_informer : bool; n_synced : bool;
  n_stage : stage; n_mem : mem; n_world : W }.

Definition at_stage (n : node) (informer synced down : bool) (g : stage) : node :=
  Node (n_alive n) (n_stop n) down informer synced g (n_mem n) (n_world n).
Definition with_memory (n : node) (s : mem) (w : W) : node :=
  Node (n_alive n) (n_stop n) (n_down n) (n_informer n) (n_synced n) (n_stage n) s w.
Definition with_signals (n : node) (alive stop : bool) : node :=
  Node alive stop (n_down n) (n_informer n) (n_synced n) (n_stage n) (n_mem n) (n_world n).

Inductive label :=
  | LRun                 (* Run starts, and with it the informer *)
  | LEvent (e : event)   (* the informer calls a handler *)
  | LSynced              (* the informer has listed all functions *)
  | LReady               (* WaitForCacheSync returns true *)
  | LTimedOut            (* it returns false *)
  | LWork (key : string) (* the worker processes a key *)
  | LCrash               (* processing panics or exits the process *)
  | LIdle                (* the worker's loop ends *)
  | LSignal              (* main returns and closes the stop channel *)
  | LExit.               (* the process ends *)

(** [Run] shuts the queue down when it returns.  The queue hands out nothing
    while it is empty, unless it is shut down; it accepts nothing then.
    [wait.Until] starts the loop again as long as the stop channel is open. *)
Inductive step : node -> label -> node -> Prop :=
  | step_run n :
      n_stage n = Starting -> n_alive n = true ->
      step n LRun (at_stage n true (n_synced n) (n_down n) Syncing)
  | step_event n e s' w' :
      n_informer n = true -> n_alive n = true -> n_down n = false ->
      run H' (on_event e) (n_mem n) (n_world n) = (Done tt, s', w') ->
      step n (LEvent e) (with_memory n s' w')
  | step_event_late n e :
      n_informer n = true -> n_alive n = true -> n_down n = true ->
      step n (LEvent e) n
  | step_synced n :
      n_informer n = true -> n_alive n = true ->
      step n LSynced (at_stage n true true (n_down n) (n_stage n))
  | step_ready n :
      n_stage n = Syncing -> n_synced n = true -> n_alive n = true ->
      step n LReady (at_stage n (n_informer n) true (n_down n) Working)
  | step_timed_out n :
      n_stage n = Syncing -> n_stop n = true -> n_alive n = true ->
      step n LTimedOut (at_stage n (n_informer n) (n_synced n) true Finished)
  | step_work n key rest s' w' :
      n_stage n = Working -> n_alive n = true -> pending (n_world n) = key :: rest ->
      run H' (processNextItem c) (n_mem n) (n_world n) = (Done true, s', w') ->
      step n (LWork key) (with_memory n s' w')
  | step_crash n o s' w' :
      n_stage n = Working -> n_alive n = true -> pending (n_world n) <> [] ->
      run H' (processNextItem c) (n_mem n) (n_world n) = (o, s', w') -> crashed o ->
      step n LCrash (with_signals (with_memory n s' w') false (n_stop n))
  | step_idle n :
      n_stage n = Working -> n_alive n = true -> pending (n_world n) = [] -> n_down n = true ->
      step n LIdle (if n_stop n then at_stage n (n_informer n) (n_synced n) true Finished else n)
  | step_signal n :
      n_alive n = true -> step n LSignal (with_signals n true true)
  | step_exit n :
      n_alive n = true -> n_stop n = true -> step n LExit (with_signals n false true).

Inductive steps : node -> list label -> node -> Prop :=
  | steps_nil n : steps n [] n
  | steps_cons n a n1 l n2 : step n a n1 -> steps n1 l n2 -> steps n (a :: l) n2.

(** The process after start-up. *)
Definition started (n : node) : Prop :=
  n_alive n = true /\ n_stop n = false /\ n_down n = false /\ n_informer n = false /\
  n_synced n = false /\ n_stage n = Starting.

(** ** Invariants *)

Lemma on_event_queue e s w : exists w', run H' (on_event e) s w = (Done tt, s, w') /\
  pending w' = match event_key e with Some k => enqueue k (pending w) | None => pending w end /\
  forall k, requeues w' k = requeues w k.
Proof.
  assert (forall k, exists w', run H' (queue_add k) s w = (Done tt, s, w') /\
    pending w' = enqueue k (pending w) /\ forall k', requeues w' k' = requeues w k') as Hadd.
  { intros k. destruct (queue_add_law w k) as (w' & E & ?). exists w'. unfold queue_add, call. cbn. by rewrite E. }
  destruct e as [f|old new|f]; unfold on_event, event_key, AddFunc, UpdateFunc, DeleteFunc, add_key.
  - destruct (MetaNamespaceKeyFunc _); [apply Hadd|by exists w].
  - destruct (MetaNamespaceKeyFunc _); destruct (functionObjChanged old new); first [apply Hadd|by exists w].
  - destruct (DeletionHandlingMetaNamespaceKeyFunc _); [apply Hadd|by exists w].
Qed.

Lemma enqueue_inv w w' k :
  queue_inv H' w -> pending w' = enqueue k (pending w) -> (forall k', requeues w' k' = requeues w k') ->
  queue_inv H' w'.
Proof.
  intros [Hnd Hb] Hp Hr. unfold enqueue in Hp. case_bool_decide as Hk; (split; [rewrite Hp|intros k'; rewrite Hr, Hp]).
  - done.
  - apply Hb.
  - apply NoDup_app. split_and!; [done| |apply NoDup_singleton]. by intros x Hx ->%list_elem_of_singleton.
  - destruct (Hb k') as [? Hin]. split; [done|]. intros H0k. apply elem_of_app. left. by apply Hin.
Qed.

(** While the process lives no key waits twice and the counters are within
    bounds; keys are only processed once the informer has listed all functions;
    and the queue is shut down only if the worker never starts. *)
Record good (n : node) : Prop := {
  g_queue : n_alive n = true -> queue_inv H' (n_world n);
  g_sync : n_stage n = Working -> n_synced n = true;
  g_informer : n_informer n = false -> n_stage n = Starting /\ n_synced n = false;
  g_down : n_down n = true -> n_stage n = Finished /\ n_stop n = true }.

Lemma started_good n : started n -> queue_inv H' (n_world n) -> good n.
Proof. intros (_ & _ & Hd & _ & Hs & Hst) Hq. split; [done|congruence|done|congruence]. Qed.

Ltac node_cbn :=
  cbn [n_alive n_stop n_down n_informer n_synced n_stage n_mem n_world at_stage with_memory with_signals] in *.

Lemma step_good n a n' : step n a n' -> good n -> good n'.
Proof.
  intros Hstep [Hq Hs Hi Hd].
  destruct Hstep as [n Hst Hal|n e s' w' Hin Hal Hdn Hrun|n e Hin Hal Hdn|n Hin Hal|n Hst Hsy Hal|n Hst Hsp Hal
    |n key rest s' w' Hst Hal Hp Hrun|n o s' w' Hst Hal Hp Hrun Hc|n Hst Hal Hp Hdn|n Hal|n Hal Hsp];
    try (split; node_cbn; [done || auto|try done; try naive_solver congruence..]).
  - intros _. destruct (on_event_queue e (n_mem n) (n_world n)) as (w2 & E & Hp2 & Hr2). rewrite Hrun in E.
    simplify_eq. destruct (event_key e); [by eapply enqueue_inv; [apply Hq| |]|]. destruct (Hq Hal) as [Hnd Hb].
    split; [by rewrite Hp2|]. intros k. by rewrite Hr2, Hp2.
  - intros _. destruct (processNextItem_step H' c (n_mem n) (n_world n) key rest Hp (Hq Hal)) as (o & s2 & w2 & E & Hor).
    rewrite Hrun in E. simplify_eq. by destruct Hor as [|(_ & _ & ? & _)].
  - destruct (Hd Hdn) as [Hf _]. congruence.
Qed.

Lemma steps_good n l n' : steps n l n' -> good n -> good n'.
Proof. induction 1; eauto using step_good. Qed.

(** [Run] never returns from the worker's loop. *)
Lemma step_working n a n' : step n a n' -> good n -> n_stage n = Working -> n_stage n' = Working.
Proof.
  intros Hstep Hg Hw. destruct Hstep; node_cbn; try congruence.
  destruct (g_down _ Hg) as [Hf _]; [done|]. congruence.
Qed.

Lemma steps_working n l n' : steps n l n' -> good n -> n_stage n = Working -> n_stage n' = Working.
Proof. induction 1; eauto using step_good, step_working. Qed.

Definition is_work (a : label) : bool := match a with LWork _ => true | _ => false end.

Lemma step_syncs n a n' : step n a n' -> n_synced n = false -> n_synced n' = true -> a = LSynced.
Proof. destruct 1; node_cbn; try congruence. destruct (n_stop n); node_cbn; congruence. Qed.

(** C14. In every run of the process the worker takes up work only after the
    informer has completed its first list -- no key is processed against a
    store that is missing functions --, the queue keeps its invariant in every
    interleaving of events and processing, and once the worker has started,
    [Run] does not return and the queue is never shut down, whatever signals
    arrive: [wait.Until] is waiting for a loop that only ends when the queue is
    shut down, which only happens after it. *)
Theorem worker_lifecycle n l n' (Hinit : started n) (Hq : queue_inv H' (n_world n)) (Hsteps : steps n l n') :
  (n_alive n' = true -> queue_inv H' (n_world n')) /\
  (forall l1 key l2, l = l1 ++ LWork key :: l2 -> LSynced ∈ l1 /\ n_stage n' = Working /\ n_down n' = false).
Proof.
  pose proof (started_good n Hinit Hq) as Hg. split; [apply (steps_good _ _ _ Hsteps Hg)|].
  intros l1 key l2 ->.
  assert (forall l n1, steps n1 (l ++ LWork key :: l2) n' -> good n1 ->
    (n_synced n1 = true \/ LSynced ∈ l) /\ n_stage n' = Working /\ n_down n' = false) as Hall.
  { clear l1 Hsteps Hinit Hq Hg n. induction l as [|a l IH]; intros n1 Hsteps Hg; inversion Hsteps as [|? ? n2 ? ? Hstep Hrest]; subst.
    - assert (n_stage n1 = Working) as Hw by (by inversion Hstep).
      split; [left; by apply (g_sync _ Hg)|].
      assert (n_stage n' = Working) as Hw' by (eapply steps_working; [done|by eapply step_good|by eapply step_working]).
      split; [done|]. destruct (n_down n') eqn:Ed; [|done].
      destruct (g_down n') as [Hf _]; [by eapply steps_good; [done|]; eapply step_good|done|]. congruence.
    - destruct (IH n2 Hrest) as ([Hs|Hin] & Hw); [by eapply step_good| |split; [right; by right|done]].
      split; [|done]. destruct (n_synced n1) eqn:E1; [by left|right].
      rewrite (step_syncs _ _ _ Hstep E1 Hs). by left. }
  destruct (Hall l1 n Hsteps Hg) as ([Hs|Hin] & Hw); [|done].
  destruct Hinit as (_ & _ & _ & _ & Hns & _). congruence.
Qed.

(** ** No event is lost *)

(** How far a key is from the head of the queue. *)
Lemma step_position n a n' k i :
  step n a n' -> good n -> n_alive n' = true -> pending (n_world n) !! i = Some k ->
  a = LWork k \/
  exists j, pending (n_world n') !! j = Some k /\ (j + (if is_work a then 1 else 0) <= i)%nat.
Proof.
  intros Hstep Hg Hal' Hi. destruct Hstep as [| n e s' w' Hin Hal Hdn Hrun| | | | |n key rest s' w' Hst Hal Hp Hrun| | | |];
    node_cbn; try (right; exists i; split; [exact Hi|simpl; lia]); try done.
  - right. destruct (on_event_queue e (n_mem n) (n_world n)) as (w2 & E & Hp2 & _). rewrite Hrun in E. simplify_eq.
    exists i. split; [|simpl; lia]. rewrite Hp2. destruct (event_key e); [|done]. unfold enqueue.
    case_bool_decide; [done|]. by apply lookup_app_l_Some.
  - rewrite Hp in Hi. destruct i as [|i]; simpl in Hi; [left; congruence|right].
    destruct (processNextItem_step H' c (n_mem n) (n_world n) key rest Hp (g_queue _ Hg Hal)) as (o & s2 & w2 & E & Hor).
    rewrite Hrun in E. simplify_eq. destruct Hor as [|(_ & Hpre & _)]; [done|].
    exists i. split; [by eapply prefix_lookup_Some|simpl; lia].
  - right. exists i. destruct (n_stop n); node_cbn; (split; [exact Hi|simpl; lia]).
Qed.

Lemma step_alive n a n' : step n a n' -> n_alive n = true.
Proof. by destruct 1. Qed.

Lemma steps_alive n l n' : steps n l n' -> n_alive n' = true -> n_alive n = true.
Proof. induction 1; eauto using step_alive. Qed.

Definition works (l : list label) : nat := length (filter (fun a => is_work a = true) l).

Lemma steps_served n l n' k i :
  steps n l n' -> good n -> n_alive n' = true -> pending (n_world n) !! i = Some k ->
  (i < works l)%nat -> LWork k ∈ l.
Proof.
  intros Hsteps. revert i. induction Hsteps as [n|n a n1 l n2 Hstep Hsteps IH]; intros i Hg Hal Hi Hw.
  { unfold works in Hw. simpl in Hw. lia. }
  destruct (step_position n a n1 k i Hstep Hg (steps_alive _ _ _ Hsteps Hal) Hi) as [->|(j & Hj & Hij)]; [by left|].
  right. apply (IH j); [by eapply step_good|done|done|].
  unfold works in *. rewrite filter_cons in Hw. destruct (is_work a); case_decide; simpl in Hw; try done; lia.
Qed.

(** C15. No event is lost: when the informer reports a function that is new,
    gone or changed in what matters, its key is processed by the time the worker
    has processed as many keys as were waiting, and one more -- whatever other
    events, failures and retries come in between, as long as the process lives. *)
Theorem event_served n e k l n' (Hg : good n) (Hal : n_alive n' = true) (Hd : n_down n = false)
    (Hk : event_key e = Some k) (Hsteps : steps n (LEvent e :: l) n')
    (Hw : (length (pending (n_world n)) < works l)%nat) :
  LWork k ∈ l.
Proof.
  inversion Hsteps as [|? ? n1 ? ? Hstep Hrest]; subst.
  assert (exists i, pending (n_world n1) !! i = Some k /\ (i <= length (pending (n_world n)))%nat) as (i & Hi & Hle).
  { inversion Hstep as [|? ? s' w' Hin Hal' Hdn Hrun| | | | | | | | |]; subst; [|congruence]. node_cbn.
    destruct (on_event_queue e (n_mem n) (n_world n)) as (w2 & E & Hp2 & _). rewrite Hrun in E. simplify_eq.
    rewrite Hk in Hp2. rewrite Hp2. unfold enqueue. case_bool_decide as Hin'.
    - apply list_elem_of_lookup in Hin' as [i Hi]. exists i. split; [done|]. apply lookup_lt_Some in Hi. lia.
    - exists (length (pending (n_world n))). split; [by rewrite lookup_app_r, Nat.sub_diag by lia|lia]. }
  eapply steps_served; [done|by eapply step_good|done|done|lia].
Qed.

End Process.

(** ** A run of the process *)
Module ProcessSample.
Import Concrete.Concrete.
Definition world0 : world := server PodSpec.test_function.
Definition node0 : node (W := world) := Node true false false false false Starting (memory PodSpec.test_function) world0.
Definition report : event := Added PodSpec.test_function.
Definition run1 := run serve (on_event report) (memory PodSpec.test_function) world0.
Definition run2 := run serve (processNextItem controller) (snd (fst run1)) (snd run1).
(** The process that has started, been told of the function, and synced. *)
Definition node1 : node := Node true false false true true Working (snd (fst run1)) (snd run1).
Definition labels : list label := [LSynced; LReady; LWork "default/foo"].
End ProcessSample.

Import Concrete.Concrete.

Lemma run_outcome {A S W : Type} (R : outcome A * S * W) o : fst (fst R) = o -> R = (o, snd (fst R), snd R).
Proof. destruct R as [[? ?] ?]. by intros [= ->]. Qed.

Lemma sample_queue : queue_inv serve ProcessSample.world0.
Proof. split; [constructor|]. intros k. simpl. rewrite lookup_empty. done. Qed.

Lemma sample_running : exists n, n_alive n = true /\
  steps serve controller (at_stage ProcessSample.node0 true false false Syncing)
    (LEvent ProcessSample.report :: ProcessSample.labels) n.
Proof.
  eexists. split.
  2: { eapply steps_cons; [eapply step_event; [done..|apply (run_outcome ProcessSample.run1); by vm_compute]|].
    eapply steps_cons; [by apply step_synced|]. eapply steps_cons; [by apply step_ready|].
    eapply steps_cons; [|apply steps_nil].
    eapply (step_work _ _ _ "default/foo" []); [done..|by vm_compute|].
    apply (run_outcome ProcessSample.run2). by vm_compute. }
  done.
Qed.

Lemma worker_lifecycle_witness :
  exists n', steps serve controller ProcessSample.node0
      (LRun :: LEvent ProcessSample.report :: ProcessSample.labels) n' /\
    n_stage n' = Working /\ n_down n' = false.
Proof.
  destruct sample_running as (n & Hal & Hsteps). exists n.
  assert (steps serve controller ProcessSample.node0
      (LRun :: LEvent ProcessSample.report :: ProcessSample.labels) n) as Hall.
  { eapply steps_cons; [by apply step_run|exact Hsteps]. }
  split; [exact Hall|].
  destruct (worker_lifecycle serve controller ProcessSample.node0 _ n ltac:(repeat split) sample_queue Hall)
    as [_ Hwork].
  destruct (Hwork [LRun; LEvent ProcessSample.report; LSynced; LReady] "default/foo" [] eq_refl) as (_ & ? & ?).
  by split.
Defined.

Lemma event_served_witness : LWork "default/foo" ∈ ProcessSample.labels.
Proof.
  destruct sample_running as (n & Hal & Hsteps).
  apply (event_served serve controller (at_stage ProcessSample.node0 true false false Syncing)
    ProcessSample.report "default/foo" ProcessSample.labels n).
  - split; [intros _; exact sample_queue|discriminate|discriminate|discriminate].
  - exact Hal.
  - reflexivity.
  - reflexivity.
  - exact Hsteps.
  - vm_compute. lia.
Defined.
