(* ===== verification/Patching.v ===== *)
(** * Deployments that exist already

    The controller patches a deployment that it finds ([submit_deployment]):
    it sends the whole object as a JSON merge patch.  What such a patch does is
    third-party, a law of the server here; a deployment that was created and
    one that was patched both realise the deployment that was put together. *)
From S2P Require Import Prelude GoStrings GoProg KubeTypes World LangRuntime Memory K8sUtil.
From S2P Require Import PodSpec Ensure EnsureSpec Ordering.

(** The keys of a patched map: those of the patch, then those that were there. *)
Definition patched_keys (new old m : gomap string) : Prop :=
  forall k, mget m k = match mget new k with Some v => Some v | None => mget old k end.

(** RFC 7386 on the JSON text of a deployment, where empty lists of init
    containers and volumes are left out: objects are merged key by key, a list
    is replaced as a whole, and what the patch leaves out stays. *)
Record patched (old d d' : Deployment) : Prop := {
  pa_name : om_Name (dpm_Meta d') = om_Name (dpm_Meta d);
  pa_labels : patched_keys (om_Labels (dpm_Meta d)) (om_Labels (dpm_Meta old)) (om_Labels (dpm_Meta d'));
  pa_selector : ds_Selector (dpm_Spec d) = ds_Selector (dpm_Spec old) ->
    ds_Selector (dpm_Spec d') = ds_Selector (dpm_Spec d);
  pa_template : patched_keys (om_Labels (dpm_template_meta d)) (om_Labels (dpm_template_meta old))
    (om_Labels (dpm_template_meta d'));
  pa_containers : Forall2 same_container (ps_Containers (dpm_podspec d)) (ps_Containers (dpm_podspec d'));
  pa_init : if decide (ps_InitContainers (dpm_podspec d) = [])
    then ps_InitContainers (dpm_podspec d') = ps_InitContainers (dpm_podspec old)
    else Forall2 same_container (ps_InitContainers (dpm_podspec d)) (ps_InitContainers (dpm_podspec d'));
  pa_volumes : ps_Volumes (dpm_podspec d') =
    if decide (ps_Volumes (dpm_podspec d) = []) then ps_Volumes (dpm_podspec old) else ps_Volumes (dpm_podspec d) }.

(** A deployment can always be written as JSON; the server applies a patch
    that leaves name and selector alone, whose labels fit the selector, and
    that was made from the object it has. *)
Class Patching {W} (H : handler resp W) `{!ApiServer H} `{JsonDeployment} : Prop := {
  marshal_total d : exists data, json_Marshal_deployment d = Ok data;
  api_patch_deployment w ns n old d data :
    stored w KDeployment ns n = Some old -> json_Marshal_deployment d = Ok data ->
    om_Name (dpm_Meta d) = n -> fresh KDeployment old d ->
    ps_Containers (dpm_podspec d) <> [] ->
    ds_Selector (dpm_Spec d) = ds_Selector (dpm_Spec old) ->
    selected (ds_Selector (dpm_Spec d)) (om_Labels (dpm_template_meta d)) ->
    exists d' w', H (APatch KDeployment ns n data) w = (Ok d', w') /\ patched old d d' /\
      stored w' KDeployment ns n = Some d' /\ same_but stored KDeployment ns n w w' }.

(** The same for functions, of which the command line patches the ones that it
    updates; a change of the specification gives a new resource version. *)
Record function_patched (old f f' : Function_) : Prop := {
  fp_identity : f_name f' = f_name old /\ f_namespace f' = f_namespace old /\
    om_UID (f_Meta f') = om_UID (f_Meta old) /\ om_Finalizers (f_Meta f') = om_Finalizers (f_Meta old) /\
    p_val <$> om_DeletionTimestamp (f_Meta f') = p_val <$> om_DeletionTimestamp (f_Meta old);
  fp_labels : patched_keys (f_labels f) (f_labels old) (f_labels f');
  fp_strings : let a := f_Spec f in let b := f_Spec f' in
    (fs_Handler b = fs_Handler a /\ fs_Function b = fs_Function a /\
     fs_FunctionContentType b = fs_FunctionContentType a /\ fs_Checksum b = fs_Checksum a) /\
    fs_Runtime b = fs_Runtime a /\ fs_Timeout b = fs_Timeout a /\ fs_Deps b = fs_Deps a;
  fp_containers : ps_Containers (dpm_podspec (fs_Deployment (f_Spec f'))) =
    ps_Containers (dpm_podspec (fs_Deployment (f_Spec f)));
  fp_volumes : ps_Volumes (dpm_podspec (fs_Deployment (f_Spec f'))) =
    if decide (ps_Volumes (dpm_podspec (fs_Deployment (f_Spec f))) = [])
    then ps_Volumes (dpm_podspec (fs_Deployment (f_Spec old)))
    else ps_Volumes (dpm_podspec (fs_Deployment (f_Spec f)));
  fp_ports : ss_Ports (fs_ServiceSpec (f_Spec f)) <> [] ->
    ss_Ports (fs_ServiceSpec (f_Spec f')) = ss_Ports (fs_ServiceSpec (f_Spec f));
  fp_hpa : fs_HorizontalPodAutoscaler (f_Spec f) = fs_HorizontalPodAutoscaler (f_Spec old) ->
    fs_HorizontalPodAutoscaler (f_Spec f') = fs_HorizontalPodAutoscaler (f_Spec old);
  fp_version : f_Spec f' <> f_Spec old ->
    om_ResourceVersion (f_Meta f') <> om_ResourceVersion (f_Meta old) }.

Class FunctionPatching {W} (H : handler resp W) `{!ApiServer H} `{JsonFunction} : Prop := {
  function_marshal_total f : exists data, json_Marshal_function f = Ok data;
  api_patch_function w ns n old f data :
    stored w KFunction ns n = Some old -> json_Marshal_function f = Ok data ->
    f_name f = n -> om_ResourceVersion (f_Meta f) = "" ->
    exists f' w', H (APatch KFunction ns n data) w = (Ok f', w') /\ function_patched old f f' /\
      stored w' KFunction ns n = Some f' /\ same_but stored KFunction ns n w w' }.

(** What is stored runs the pods of [d]. *)
Record realises (d d' : Deployment) : Prop := {
  re_name : om_Name (dpm_Meta d') = om_Name (dpm_Meta d);
  re_ours : hasDefaultLabel (om_Labels (dpm_Meta d')) = true;
  re_selector : ds_Selector (dpm_Spec d') = ds_Selector (dpm_Spec d);
  re_template k v : mget (om_Labels (dpm_template_meta d)) k = Some v ->
    mget (om_Labels (dpm_template_meta d')) k = Some v;
  re_containers : Forall2 same_container (ps_Containers (dpm_podspec d)) (ps_Containers (dpm_podspec d'));
  re_init : ps_InitContainers (dpm_podspec d) <> [] ->
    Forall2 same_container (ps_InitContainers (dpm_podspec d)) (ps_InitContainers (dpm_podspec d'));
  re_volumes : ps_Volumes (dpm_podspec d) <> [] -> ps_Volumes (dpm_podspec d') = ps_Volumes (dpm_podspec d) }.

(** The selector that every deployment of the controller has. *)
Definition own_selector (name : string) : LabelSelector :=
  {| MatchLabels := Some (<[created_by := "kubeless"]> {[ "function" := name ]}) |}.

(** A deployment that the controller made for the function of that name. *)
Definition own_deployment (name : string) (d : Deployment) : Prop :=
  om_Name (dpm_Meta d) = name /\ hasDefaultLabel (om_Labels (dpm_Meta d)) = true /\
  ds_Selector (dpm_Spec d) = Some (own_selector name).

Lemma accepts_realises d d' :
  hasDefaultLabel (om_Labels (dpm_Meta d)) = true -> accepts KDeployment d d' -> realises d d'.
Proof.
  intros Hl [(Hn & Hlab & _) (Hs & Ht & Hc & Hi & Hv)]. simpl in Hn, Hlab.
  split.
  - done.
  - by rewrite Hlab.
  - done.
  - intros k v. by rewrite Ht.
  - done.
  - done.
  - done.
Qed.

Lemma hasDefaultLabel_mget l : hasDefaultLabel l = true <-> mget l created_by = Some "kubeless".
Proof.
  unfold hasDefaultLabel, mstr. destruct l as [m|]; [|done]. destruct (mget (Some m) created_by) as [v|]; simpl.
  - rewrite streq_true. by split; [intros ->|intros [= ->]].
  - done.
Qed.

(** The patch: metadata and selector of the object found, the rest of [d]. *)
Lemma patched_realises old d d' (meta : ObjectMeta) :
  om_Name meta = om_Name (dpm_Meta d) -> hasDefaultLabel (om_Labels meta) = true ->
  ds_Selector (dpm_Spec d) = ds_Selector (dpm_Spec old) ->
  patched old (dpm_set_selector (dpm_set_spec (dpm_set_meta old meta) (dpm_Spec d)) (ds_Selector (dpm_Spec old))) d' ->
  realises d d'.
Proof.
  intros Hn Hl Hs [Pn Pl Ps Pt Pc Pi Pv]. simpl in *. split.
  - congruence.
  - apply hasDefaultLabel_mget. apply hasDefaultLabel_mget in Hl. by rewrite Pl, Hl.
  - rewrite Ps by done. done.
  - intros k v Hk. rewrite Pt. unfold dpm_template_meta in *. simpl. by rewrite Hk.
  - done.
  - intros Hne. by rewrite decide_False in Pi.
  - intros Hne. by rewrite decide_False in Pv.
Qed.

(** Stored, it still serves the function. *)
Lemma serves_realised `{IntOrStringValue} f f0 d d' :
  same_source f f0 -> serves f0 d -> realises d d' -> serves f d'.
Proof.
  intros (Hn & _ & Hh & Hf & _ & Hr & _ & Hs) (c & cs & Ec & Hname & Hport & Henv & Hfun & probe & Hp)
    [_ _ _ _ Hcs _ _].
  rewrite Ec in Hcs. apply Forall2_cons_inv_l in Hcs as (c' & cs' & Hc & _ & Ec').
  destruct Hc as (En & _ & _ & _ & Ee & Ep & _ & Epr). unfold serves, has_env in *.
  assert (Hport' : svcTargetPort f = svcTargetPort f0) by (unfold svcTargetPort; by rewrite Hs).
  exists c', cs'. rewrite Ee, Ep, En, Hport'. rewrite Hh, Hf, Hr in Hfun. rewrite Hn in Hname.
  split_and!; [done..|].
  destruct (c_LivenessProbe c') as [probe'|]; [by eexists|]. destruct Epr as [Epr _].
  by rewrite Epr in Hp.
Qed.

Lemma init_deployment_selector `{IntOrStringValue} f owners :
  controlled f -> ds_Selector (dpm_Spec (init_deployment f owners)) = Some (own_selector (f_name f)).
Proof.
  intros [Hcb Hfn]. unfold init_deployment, own_selector, mstr. rewrite Hcb, Hfn. cbv zeta. by case_match.
Qed.

Section Submit.
Context `{JsonDeployment} {W : Type} (H' : handler resp W) `{!ApiServer H'}.

(** The name is free, or the controller's own deployment has it and the server
    applies patches. *)
Definition deployment_free (ns name : string) (w : W) : Prop :=
  stored w KDeployment ns name = None \/
  (Patching H' /\ exists old, stored w KDeployment ns name = Some old /\ own_deployment name old).

(** Submitting a deployment that was put together for the function stores one
    that realises it. *)
Lemma run_submit f owners d s w :
  om_Name (dpm_Meta d) = f_name f -> hasDefaultLabel (om_Labels (dpm_Meta d)) = true ->
  hasDefaultLabel (f_labels f) = true ->
  ds_Selector (dpm_Spec d) = Some (own_selector (f_name f)) ->
  selected (ds_Selector (dpm_Spec d)) (om_Labels (dpm_template_meta d)) ->
  ps_Containers (dpm_podspec d) <> [] ->
  deployment_free (f_namespace f) (f_name f) w ->
  exists w' d', run H' (submit_deployment f owners d) s w = (Done tt, s, w') /\ realises d d' /\
    own_deployment (f_name f) d' /\ stored w' KDeployment (f_namespace f) (f_name f) = Some d' /\
    same_but stored KDeployment (f_namespace f) (f_name f) w w'.
Proof.
  intros Hn Hl Hfl Hs Hsel Hc Hw.
  assert (forall d', realises d d' -> own_deployment (f_name f) d') as Hown.
  { intros d' [En Eo Es _ _ _ _]. split_and!; [by rewrite En|done|by rewrite Es]. }
  unfold submit_deployment. rewrite run_bind. unfold kCreate, call. cbn [run].
  destruct Hw as [Hfree|[HP (old & Hold & Hon & Hol & Hos)]].
  - pose proof Hfree as Hfree'. rewrite <- Hn in Hfree'.
    destruct (api_create_new w KDeployment (f_namespace f) d Hfree') as (d' & w' & E & Ha & Hst & Hb).
    rewrite E. cbn. change (obj_name KDeployment d) with (om_Name (dpm_Meta d)) in Hst, Hb. rewrite Hn in Hst, Hb.
    pose proof (accepts_realises d d' Hl Ha). exists w', d'. split_and!; [done|done|by apply Hown|done|done].
  - pose proof Hold as Hold'. rewrite <- Hn in Hold'.
    rewrite (api_create_taken w KDeployment (f_namespace f) d old Hold'). cbn [run mret prog_ret].
    change (IsAlreadyExists (api_already_exists KDeployment (obj_name KDeployment d))) with true. cbv iota.
    rewrite run_bind. unfold must, kGet, call. cbn. rewrite api_get, Hold. cbn. rewrite Hol. cbn [negb].
    match goal with |- context [json_Marshal_deployment ?x] => set (pd := x) end.
    destruct (marshal_total pd) as [data Hdata]. rewrite Hdata. cbn.
    destruct (api_patch_deployment w (f_namespace f) (f_name f) old pd data) as (d' & w' & E & Hp & Hst & Hb);
      [done|done|exact Hon|by split; [right|]|exact Hc|done| |].
    { simpl. rewrite Hos, <- Hs. exact Hsel. }
    rewrite Hon, E. cbn.
    assert (realises d d') as Hre.
    { eapply patched_realises; [| | |exact Hp]; simpl; [congruence|exact Hfl|congruence]. }
    exists w', d'. split_and!; [done|done|by apply Hown|done|done].
Qed.

End Submit.
