(* ===== verification/MergeServer.v ===== *)
(** * A reference server that applies merge patches

    [World.serve] with the patches of deployments and functions, and with new
    resource versions for functions that are updated: an instance of
    [Patching].  The text of an object is a numbering here; only that it can be
    read back matters. *)
From S2P Require Import Prelude GoStrings GoProg KubeTypes World LangRuntime Memory K8sUtil.
From S2P Require Import PodSpec Ensure EnsureSpec Ordering Patching Worker.

(** ** Deployments can be numbered *)
Section Countable.

#[local] Instance ptr_countable {A} `{Countable A} : Countable (ptr A).
Proof. by refine (inj_countable' (fun p => (p_addr p, p_val p)) (fun '(a, b) => Ptr a b) _); intros []. Defined.
#[local] Instance OwnerReference_countable : Countable OwnerReference.
Proof.
  by refine (inj_countable' (fun o => (or_Kind o, or_APIVersion o, or_Name o, or_UID o))
    (fun '(a, b, c, d) => Build_OwnerReference a b c d) _); intros [].
Defined.
#[local] Instance ObjectMeta_countable : Countable ObjectMeta.
Proof.
  by refine (inj_countable' (fun m => (om_Name m, om_Namespace m, om_Labels m, om_Annotations m,
      om_OwnerReferences m, om_Finalizers m, om_UID m, om_ResourceVersion m, om_DeletionTimestamp m))
    (fun '(a, b, c, d, e, f, g, h, i) => Build_ObjectMeta a b c d e f g h i) _); intros [].
Defined.
#[local] Instance LabelSelector_countable : Countable LabelSelector.
Proof. by refine (inj_countable' MatchLabels Build_LabelSelector _); intros []. Defined.
#[local] Instance IntOrString_countable : Countable IntOrString.
Proof.
  by refine (inj_countable' (fun i => match i with FromInt v => inl v | FromString s => inr s end)
    (fun x => match x with inl v => FromInt v | inr s => FromString s end) _); intros [].
Defined.
#[local] Instance EnvVar_countable : Countable EnvVar.
Proof. by refine (inj_countable' (fun e => (ev_Name e, ev_Value e)) (fun '(a, b) => Build_EnvVar a b) _); intros []. Defined.
#[local] Instance LocalObjectReference_countable : Countable LocalObjectReference.
Proof. by refine (inj_countable' lor_Name Build_LocalObjectReference _); intros []. Defined.
#[local] Instance VolumeMount_countable : Countable VolumeMount.
Proof.
  by refine (inj_countable' (fun v => (vm_Name v, vm_ReadOnly v, vm_MountPath v))
    (fun '(a, b, c) => Build_VolumeMount a b c) _); intros [].
Defined.
#[local] Instance VolumeSource_countable : Countable VolumeSource.
Proof.
  by refine (inj_countable' (fun v => match v with
      | EmptyDir => inl None | ConfigMapSource n => inl (Some n)
      | SecretSource n => inr (inl n) | OtherSource n => inr (inr n) end)
    (fun x => match x with
      | inl None => EmptyDir | inl (Some n) => ConfigMapSource n
      | inr (inl n) => SecretSource n | inr (inr n) => OtherSource n end) _); intros [].
Defined.
#[local] Instance Volume_countable : Countable Volume.
Proof. by refine (inj_countable' (fun v => (vol_Name v, vol_Source v)) (fun '(a, b) => Build_Volume a b) _); intros []. Defined.
#[local] Instance ResourceRequirements_countable : Countable ResourceRequirements.
Proof.
  by refine (inj_countable' (fun r => (Limits r, Requests r) : gomap string * gomap string)
    (fun '(a, b) => Build_ResourceRequirements a b) _); intros [].
Defined.
#[local] Instance ProbeHandler_countable : Countable ProbeHandler.
Proof.
  by refine (inj_countable' (fun p => match p with
      | HTTPGet a b => inl (a, b) | ExecAction c => inr (inl c) | OtherHandler o => inr (inr o) end)
    (fun x => match x with
      | inl (a, b) => HTTPGet a b | inr (inl c) => ExecAction c | inr (inr o) => OtherHandler o end) _); intros [].
Defined.
#[local] Instance Probe_countable : Countable Probe.
Proof.
  by refine (inj_countable' (fun p => (InitialDelaySeconds p, PeriodSeconds p, probe_Handler p))
    (fun '(a, b, c) => Build_Probe a b c) _); intros [].
Defined.
#[local] Instance Container_countable : Countable Container.
Proof.
  by refine (inj_countable' (fun c => (c_Name c, c_Image c, c_Command c, c_Args c, c_WorkingDir c, c_Ports c,
      c_Env c, c_Resources c, c_VolumeMounts c, c_LivenessProbe c, c_ImagePullPolicy c))
    (fun '(a, b, c, d, e, f, g, h, i, j, k) => Build_Container a b c d e f g h i j k) _); intros [].
Defined.
#[local] Instance PodSecurityContext_countable : Countable PodSecurityContext.
Proof.
  by refine (inj_countable' (fun p => (RunAsUser p, FSGroup p)) (fun '(a, b) => Build_PodSecurityContext a b) _); intros [].
Defined.
#[local] Instance WeightedPodAffinityTerm_countable : Countable WeightedPodAffinityTerm.
Proof.
  by refine (inj_countable' (fun t => (Weight t, term_LabelSelector t, TopologyKey t))
    (fun '(a, b, c) => Build_WeightedPodAffinityTerm a b c) _); intros [].
Defined.
#[local] Instance Affinity_countable : Countable Affinity.
Proof. by refine (inj_countable' PreferredPodAntiAffinity Build_Affinity _); intros []. Defined.
#[local] Instance PodSpec_countable : Countable PodSpec.
Proof.
  by refine (inj_countable' (fun p => (ps_Volumes p, ps_InitContainers p, ps_Containers p, ps_RestartPolicy p,
      ps_NodeSelector p, ps_ServiceAccountName p, ps_SecurityContext p, ps_ImagePullSecrets p, ps_Affinity p))
    (fun '(a, b, c, d, e, f, g, h, i) => Build_PodSpec a b c d e f g h i) _); intros [].
Defined.
#[local] Instance PodTemplateSpec_countable : Countable PodTemplateSpec.
Proof. by refine (inj_countable' (fun p => (pt_Meta p, pt_Spec p)) (fun '(a, b) => Build_PodTemplateSpec a b) _); intros []. Defined.
#[local] Instance DeploymentStrategy_countable : Countable DeploymentStrategy.
Proof. by refine (inj_countable' MaxUnavailable Build_DeploymentStrategy _); intros []. Defined.
#[local] Instance DeploymentSpec_countable : Countable DeploymentSpec.
Proof.
  by refine (inj_countable' (fun d => (ds_Selector d, ds_Template d, ds_Strategy d))
    (fun '(a, b, c) => Build_DeploymentSpec a b c) _); intros [].
Defined.
#[local] Instance DeploymentStatus_countable : Countable DeploymentStatus.
Proof.
  by refine (inj_countable' (fun d => (dst_Replicas d, dst_ReadyReplicas d))
    (fun '(a, b) => Build_DeploymentStatus a b) _); intros [].
Defined.
#[export] Instance Deployment_countable : Countable Deployment.
Proof.
  by refine (inj_countable' (fun d => (dpm_Meta d, dpm_Spec d, dpm_Status d))
    (fun '(a, b, c) => Build_Deployment a b c) _); intros [].
Defined.
#[local] Instance TypeMeta_countable : Countable TypeMeta.
Proof. by refine (inj_countable' (fun t => (tm_Kind t, tm_APIVersion t)) (fun '(a, b) => Build_TypeMeta a b) _); intros []. Defined.
#[local] Instance ServicePort_countable : Countable ServicePort.
Proof.
  by refine (inj_countable' (fun s => (sp_Name s, sp_Protocol s, sp_Port s, sp_TargetPort s, sp_NodePort s))
    (fun '(a, b, c, d, e) => Build_ServicePort a b c d e) _); intros [].
Defined.
#[local] Instance ServiceSpec_countable : Countable ServiceSpec.
Proof.
  by refine (inj_countable' (fun s => (ss_Ports s, ss_Selector s, ss_ClusterIP s, ss_Type s))
    (fun '(a, b, c, d) => Build_ServiceSpec a b c d) _); intros [].
Defined.
#[local] Instance CrossVersionObjectReference_countable : Countable CrossVersionObjectReference.
Proof.
  by refine (inj_countable' (fun r => (ref_Kind r, ref_Name r, ref_APIVersion r))
    (fun '(a, b, c) => Build_CrossVersionObjectReference a b c) _); intros [].
Defined.
#[local] Instance ResourceMetricSource_countable : Countable ResourceMetricSource.
Proof.
  by refine (inj_countable' (fun r => (rm_Name r, rm_TargetAverageUtilization r))
    (fun '(a, b) => Build_ResourceMetricSource a b) _); intros [].
Defined.
#[local] Instance ObjectMetricSource_countable : Countable ObjectMetricSource.
Proof.
  by refine (inj_countable' (fun o => (omt_Target o, omt_MetricName o, omt_TargetValue o : string))
    (fun '(a, b, c) => Build_ObjectMetricSource a b c) _); intros [].
Defined.
#[local] Instance MetricSpec_countable : Countable MetricSpec.
Proof.
  by refine (inj_countable' (fun m => (ms_Type m, ms_Object m, ms_Resource m))
    (fun '(a, b, c) => Build_MetricSpec a b c) _); intros [].
Defined.
#[local] Instance HPASpec_countable : Countable HPASpec.
Proof.
  by refine (inj_countable' (fun h => (hs_ScaleTargetRef h, hs_MinReplicas h, hs_MaxReplicas h, hs_Metrics h))
    (fun '(a, b, c, d) => Build_HPASpec a b c d) _); intros [].
Defined.
#[local] Instance HPA_countable : Countable HPA.
Proof.
  by refine (inj_countable' (fun h => (hpa_Type h, hpa_Meta h, hpa_Spec h)) (fun '(a, b, c) => Build_HPA a b c) _); intros [].
Defined.
#[local] Instance FunctionSpec_countable : Countable FunctionSpec.
Proof.
  by refine (inj_countable' (fun s => (fs_Handler s, fs_Function s, fs_FunctionContentType s, fs_Checksum s, fs_Runtime s,
      fs_Timeout s, fs_Deps s, fs_Deployment s, fs_ServiceSpec s, fs_HorizontalPodAutoscaler s))
    (fun '(a, b, c, d, e, f, g, h, i, j) => Build_FunctionSpec a b c d e f g h i j) _); intros [].
Defined.
#[export] Instance Function_countable : Countable Function_.
Proof.
  by refine (inj_countable' (fun f => (f_Type f, f_Meta f, f_Spec f)) (fun '(a, b, c) => Build_Function_ a b c) _); intros [].
Defined.
End Countable.

(** The binary digits of a number. *)
Fixpoint digits (p : positive) : string :=
  match p with
  | xH => ""
  | xO p => String "0"%char (digits p)
  | xI p => String "1"%char (digits p)
  end.

Fixpoint read_digits (s : string) : positive :=
  match s with
  | "" => xH
  | String c s => if Ascii.eqb c "0"%char then xO (read_digits s) else xI (read_digits s)
  end.

Lemma read_digits_of p : read_digits (digits p) = p.
Proof. induction p as [p IH|p IH|]; simpl; by rewrite ?IH. Qed.

Module Numbered.
#[export] Instance json : JsonDeployment := fun d => Ok (digits (encode d)).
#[export] Instance json_function : JsonFunction := fun f => Ok (digits (encode f)).
End Numbered.
Import Numbered.

Definition read_deployment (data : string) : option Deployment := decode (read_digits data).

Lemma read_deployment_json d data : json_Marshal_deployment d = Ok data -> read_deployment data = Some d.
Proof. intros [= <-]. unfold read_deployment. by rewrite read_digits_of, decode_encode. Qed.

Definition read_function (data : string) : option Function_ := decode (read_digits data).

Lemma read_function_json f data : json_Marshal_function f = Ok data -> read_function data = Some f.
Proof. intros [= <-]. unfold read_function. by rewrite read_digits_of, decode_encode. Qed.

(** ** Merging *)
Definition merge_keys (new old : gomap string) : gomap string := Some (mmap new ∪ mmap old).

Definition or_old {A} (new old : list A) : list A := match new with [] => old | _ => new end.

Definition merge_deployment (old d : Deployment) : Deployment :=
  {| dpm_Meta := meta_set_labels (dpm_Meta d) (merge_keys (om_Labels (dpm_Meta d)) (om_Labels (dpm_Meta old)));
     dpm_Spec :=
       {| ds_Selector := ds_Selector (dpm_Spec d);
          ds_Template :=
            {| pt_Meta := meta_set_labels (dpm_template_meta d)
                 (merge_keys (om_Labels (dpm_template_meta d)) (om_Labels (dpm_template_meta old)));
               pt_Spec := ps_set_volumes (ps_set_init (dpm_podspec d)
                   (or_old (ps_InitContainers (dpm_podspec d)) (ps_InitContainers (dpm_podspec old))))
                 (or_old (ps_Volumes (dpm_podspec d)) (ps_Volumes (dpm_podspec old))) |};
          ds_Strategy := ds_Strategy (dpm_Spec d) |};
     dpm_Status := dpm_Status old |}.

Lemma merge_keys_patched new old : patched_keys new old (merge_keys new old).
Proof.
  intros k. unfold merge_keys, mget, mmap. destruct new as [n|], old as [o|]; simpl;
    rewrite ?lookup_union, ?lookup_empty; repeat (destruct (_ !! k)); done.
Qed.

Lemma same_containers_refl l : Forall2 same_container l l.
Proof. induction l; by constructor. Qed.

Lemma merge_deployment_patched old d : patched old d (merge_deployment old d).
Proof.
  split; simpl.
  - done.
  - apply merge_keys_patched.
  - done.
  - apply merge_keys_patched.
  - apply same_containers_refl.
  - unfold dpm_podspec. simpl. case_decide as E; [by rewrite E|].
    destruct (ps_InitContainers _); [done|apply same_containers_refl].
  - unfold dpm_podspec. simpl. case_decide as E; [by rewrite E|]. by destruct (ps_Volumes _).
Qed.

Definition merge_function (old f : Function_) : Function_ :=
  let a := f_Spec f in let b := f_Spec old in
  {| f_Type := f_Type f;
     f_Meta := {| om_Name := f_name old; om_Namespace := f_namespace old;
                  om_Labels := merge_keys (f_labels f) (f_labels old); om_Annotations := om_Annotations (f_Meta old);
                  om_OwnerReferences := om_OwnerReferences (f_Meta old); om_Finalizers := om_Finalizers (f_Meta old);
                  om_UID := om_UID (f_Meta old); om_ResourceVersion := "1" +:+ om_ResourceVersion (f_Meta old);
                  om_DeletionTimestamp := om_DeletionTimestamp (f_Meta old) |};
     f_Spec :=
       {| fs_Handler := fs_Handler a; fs_Function := fs_Function a;
          fs_FunctionContentType := fs_FunctionContentType a; fs_Checksum := fs_Checksum a;
          fs_Runtime := fs_Runtime a; fs_Timeout := fs_Timeout a; fs_Deps := fs_Deps a;
          fs_Deployment := dpm_set_podspec (fs_Deployment a) (ps_set_volumes (dpm_podspec (fs_Deployment a))
            (or_old (ps_Volumes (dpm_podspec (fs_Deployment a))) (ps_Volumes (dpm_podspec (fs_Deployment b)))));
          fs_ServiceSpec := fs_ServiceSpec a;
          fs_HorizontalPodAutoscaler :=
            if hpa_name (fs_HorizontalPodAutoscaler a) =?s "" then fs_HorizontalPodAutoscaler b
            else fs_HorizontalPodAutoscaler a |} |}.

Lemma longer_differs s : "1" +:+ s <> s.
Proof. intros E. apply (f_equal String.length) in E. simpl in E. lia. Qed.

Lemma merge_function_patched old f : function_patched old f (merge_function old f).
Proof.
  split; simpl; [done| |done|done| |done| |].
  - apply merge_keys_patched.
  - unfold dpm_podspec. simpl. case_decide as E; [by rewrite E|]. by destruct (ps_Volumes _).
  - intros ->. by destruct (_ =?s "").
  - intros _. apply longer_differs.
Qed.

(** ** The server *)
Definition patch_deployment (ns n data : string) (w : world) : result Deployment * world :=
  match w_store w KDeployment !! (ns, n), read_deployment data with
  | Some old, Some d => (Ok (merge_deployment old d), w_put w KDeployment ns n (merge_deployment old d))
  | None, _ => (Error (api_not_found KDeployment n), w)
  | _, None => (Error (GError (Some OtherReason) "the patch cannot be decoded"), w)
  end.

Definition patch_function (ns n data : string) (w : world) : result Function_ * world :=
  match w_store w KFunction !! (ns, n), read_function data with
  | Some old, Some f => (Ok (merge_function old f), w_put w KFunction ns n (merge_function old f))
  | None, _ => (Error (api_not_found KFunction n), w)
  | _, None => (Error (GError (Some OtherReason) "the patch cannot be decoded"), w)
  end.

(** An accepted update of a function gives it a new resource version. *)
Definition renewed (old f : Function_) : Function_ :=
  f_set_meta f
    {| om_Name := f_name f; om_Namespace := f_namespace f; om_Labels := f_labels f;
       om_Annotations := om_Annotations (f_Meta f); om_OwnerReferences := om_OwnerReferences (f_Meta f);
       om_Finalizers := om_Finalizers (f_Meta f); om_UID := om_UID (f_Meta f);
       om_ResourceVersion := "1" +:+ om_ResourceVersion (f_Meta old);
       om_DeletionTimestamp := om_DeletionTimestamp (f_Meta f) |}.

Definition update_function (ns : string) (f : Function_) (w : world) : result Function_ * world :=
  match w_store w KFunction !! (ns, f_name f) with
  | Some old =>
      if stale KFunction old f then (Error (GError (Some OtherReason) "the object has been modified"), w)
      else if finalized KFunction f then (Ok f, w_remove w KFunction ns (f_name f))
      else (Ok (renewed old f), w_put w KFunction ns (f_name f) (renewed old f))
  | None => (Error (api_not_found KFunction (f_name f)), w)
  end.

Definition merging : handler resp world := fun o =>
  match o return world -> resp o * world with
  | AUpdate KFunction ns f => update_function ns f
  | APatch KDeployment ns n data => patch_deployment ns n data
  | APatch KFunction ns n data => patch_function ns n data
  | o => serve o
  end.

#[export] Program Instance merging_laws : ApiServer merging := {| stored := stored (H := serve) |}.
Next Obligation. intros w k ns n. apply (api_get (H := serve)). Qed.
Next Obligation. intros w k ns o o' E. by apply (api_create_taken (H := serve) w k ns o o'). Qed.
Next Obligation. intros w k ns o E. by apply (api_create_new (H := serve)). Qed.
Next Obligation.
  intros w k ns o old E Hf. destruct k; try by apply (api_update (H := serve) w _ ns o old).
  apply fresh_not_stale in Hf. change (w_store w KFunction !! (ns, f_name o) = Some old) in E.
  change (merging (AUpdate KFunction ns o) w) with (update_function ns o w). unfold update_function.
  cbn [obj] in *. rewrite E, Hf. destruct (finalized KFunction o).
  - exists o, (w_remove w KFunction ns (f_name o)). split; [done|]. split; [done|].
    split; [exact (w_remove_same w KFunction ns (f_name o))|intros k' ns' n'; apply w_remove_other].
  - exists (renewed old o), (w_put w KFunction ns (f_name o) (renewed old o)). split; [done|]. split; [done|].
    split; [exact (w_put_same w KFunction ns (f_name o) (renewed old o))|intros k' ns' n'; apply w_put_other].
Qed.
Next Obligation.
  intros w ns f E. change (w_store w KFunction !! (ns, f_name f) = None) in E.
  change (merging (AUpdate KFunction ns f) w) with (update_function ns f w). unfold update_function.
  cbn [obj] in *. by rewrite E.
Qed.
Next Obligation. intros w k ns n E. by apply (api_delete_missing (H := serve)). Qed.
Next Obligation. intros w k ns n o E Hf. by apply (api_delete (H := serve) w k ns n o). Qed.
Next Obligation. intros w k ns sel E. by apply (api_delete_collection (H := serve)). Qed.

#[export] Program Instance merging_patches : Patching merging.
Next Obligation. intros d. by eexists. Qed.
Next Obligation.
  intros w ns n old d data Hold Hdata _ _ _ _ _. simpl in Hold. exists (merge_deployment old d).
  exists (w_put w KDeployment ns n (merge_deployment old d)). split_and!.
  - change (merging (APatch KDeployment ns n data) w) with (patch_deployment ns n data w).
    unfold patch_deployment. change (w_store w KDeployment !! (ns, n) = Some old) in Hold.
    cbn [obj] in *. by rewrite Hold, (read_deployment_json d data Hdata).
  - apply merge_deployment_patched.
  - apply w_put_same.
  - intros k' ns' n'. apply w_put_other.
Qed.

#[export] Program Instance merging_functions : FunctionPatching merging.
Next Obligation. intros f. by eexists. Qed.
Next Obligation.
  intros w ns n old f data Hold Hdata _ _. exists (merge_function old f).
  exists (w_put w KFunction ns n (merge_function old f)). split_and!.
  - change (merging (APatch KFunction ns n data) w) with (patch_function ns n data w).
    unfold patch_function. change (w_store w KFunction !! (ns, n) = Some old) in Hold.
    cbn [obj] in *. by rewrite Hold, (read_function_json f data Hdata).
  - apply merge_function_patched.
  - apply w_put_same.
  - intros k' ns' n'. apply w_put_other.
Qed.

(** Any other request is served as before. *)
Definition merged_op (o : op) : bool :=
  match o with
  | AUpdate KFunction _ _ | APatch KDeployment _ _ _ | APatch KFunction _ _ _ => true
  | _ => false
  end.

Lemma merging_other o w : merged_op o = false -> merging o w = serve o w.
Proof. destruct o as [|k| |k| | | | | | | | | | | | | | | | | | | | | | | | | | | | | | | | | |]; try done; by destruct k. Qed.

Lemma merged_not_queue o : queue_op o = true -> merged_op o = false.
Proof. by destruct o. Qed.

Lemma merged_keeps_queue o w : merged_op o = true -> w_queue (snd (merging o w)) = w_queue w.
Proof.
  destruct o as [|k| |k| | | | | | | | | | | | | | | | | | | | | | | | | | | | | | | | | |]; try done; destruct k; try done; intros _;
    cbn [merging]; unfold update_function, patch_deployment, patch_function; by repeat case_match.
Qed.

#[export] Program Instance merging_queue : WorkQueue merging :=
  {| pending := pending (H := serve); requeues := requeues (H := serve) |}.
Next Obligation. intros w. apply (queue_drained (H := serve)). Qed.
Next Obligation. intros w k rest. apply (queue_next (H := serve)). Qed.
Next Obligation. intros w k. apply (queue_done_law (H := serve)). Qed.
Next Obligation. intros w k. apply (queue_forget_law (H := serve)). Qed.
Next Obligation. intros w k. apply (queue_requeues_law (H := serve)). Qed.
Next Obligation. intros w k. apply (queue_add_law (H := serve)). Qed.
Next Obligation. intros w k. apply (queue_again_law (H := serve)). Qed.
Next Obligation.
  intros w o Ho. destruct (merged_op o) eqn:E.
  - pose proof (merged_keeps_queue o w E) as Eq. simpl. by rewrite Eq.
  - rewrite merging_other by done. by apply (queue_other_law (H := serve)).
Qed.
