(* ===== verification/Deployed.v ===== *)
(** * What a deployed pod does with the source

    Every deployment that the controller makes for a function with a source
    and without an image of its own has the container "prepare" first, which
    runs the plan of [Provision]; the volumes that it shares with the
    function's container are volumes of the pod. *)
From S2P Require Import Prelude GoStrings GoCodec GoProg KubeTypes World LangRuntime Memory K8sUtil.
From S2P Require Import Content PodSpec Ensure EnsureSpec Provision Patching.

(** The mount of the volume that shows the config map. *)
Definition source_mount (name : string) : VolumeMount :=
  {| vm_Name := name +:+ "-deps"; vm_ReadOnly := false; vm_MountPath := "/src" |}.

(** The container that runs [plan] on the two volumes of the function. *)
Definition prepares (name : string) (plan : list command) (c : Container) : Prop :=
  runs_plan plan c /\ c_Name c = "prepare" /\
  exists more, c_VolumeMounts c = getRuntimeVolumeMount name :: source_mount name :: more.

Definition prepares_first (name : string) (plan : list command) (p : PodSpec) : Prop :=
  exists c cs, ps_InitContainers p = c :: cs /\ prepares name plan c.

(** The volumes behind the two mounts. *)
Definition source_volumes (name : string) (p : PodSpec) : Prop :=
  {| vol_Name := name; vol_Source := EmptyDir |} ∈ ps_Volumes p /\
  {| vol_Name := name +:+ "-deps"; vol_Source := ConfigMapSource name |} ∈ ps_Volumes p.

(** The function's container sees the runtime volume. *)
Definition sees_runtime (name : string) (p : PodSpec) : Prop :=
  exists c cs, ps_Containers p = c :: cs /\ getRuntimeVolumeMount name ∈ c_VolumeMounts c.

Definition equipped (name : string) (plan : list command) (d : Deployment) : Prop :=
  let p := dpm_podspec d in prepares_first name plan p /\ source_volumes name p /\ sees_runtime name p.

(** The plan of a function under a configuration. *)
Definition plan_of (lr : Langruntimes) (f : Function_) : option (list command) :=
  let a := f_Spec f in
  match getFileName (fs_Handler a) (fs_FunctionContentType a) (fs_Runtime a) lr with
  | Ok name => provision_plan (fs_Function a) (fs_Checksum a) name (fs_Handler a)
                 (fs_FunctionContentType a) (fs_Runtime a) "/kubeless" "/src" lr
  | Error _ => None
  end.

(** ** Secrets are mounted besides *)

Lemma add_secrets_mounts secrets vols c vols' c' :
  add_secrets secrets vols c = Ok (vols', c') ->
  c_Command c' = c_Command c /\ c_Args c' = c_Args c /\ c_Name c' = c_Name c /\
  exists more, c_VolumeMounts c' = c_VolumeMounts c ++ more.
Proof.
  revert vols c. induction secrets as [|s secrets IH]; intros vols c; cbn.
  - intros [= _ <-]. split_and!; [done..|]. exists []. by rewrite app_nil_r.
  - destruct (ensure_secret_volume vols _); cbn; [|done].
    intros (-> & -> & -> & more & Hm)%IH. split_and!; [done..|].
    eexists. rewrite Hm. cbn. by rewrite <- app_assoc.
Qed.

Lemma mount_secrets_first name plan lr rt vols c cs vols' cs' :
  mount_secrets lr rt vols (c :: cs) = Ok (vols', cs') -> prepares name plan c ->
  exists c' cs'', cs' = c' :: cs'' /\ prepares name plan c'.
Proof.
  cbn. destruct (GetInitContainerSecrets _ _ _) as [secrets|]; [|done]. cbn.
  destruct (add_secrets secrets vols c) as [[vols1 c1]|] eqn:E1; cbn; [|done].
  destruct (mount_secrets lr rt vols1 cs) as [[vols2 cs2]|]; cbn; [|done]. intros [= _ <-].
  apply add_secrets_mounts in E1 as (Ec & Ea & En & more & Em). intros ([Hc Ha] & Hn & more' & Hm).
  exists c1, cs2. split; [done|]. split; [by split; congruence|]. split; [congruence|].
  rewrite Em, Hm. cbn. by eexists.
Qed.

Lemma extends_elem a b (v : Volume) : extends a b -> v ∈ a -> v ∈ b.
Proof. intros (n & -> & _) Hv. apply elem_of_app. by left. Qed.

Section Equips.
Context `{YamlRuntimes} `{MapRange} `{OsEnv} `{IntOrStringValue} `{JsonDeployment}.

Lemma prepares_first_app name plan p c :
  prepares_first name plan p -> prepares_first name plan (ps_set_init p (ps_InitContainers p ++ [c])).
Proof. intros (c0 & cs & E & Hc). exists c0, (cs ++ [c]). cbn. by rewrite E. Qed.

Lemma populatePodSpec_prepares f ps img secrets s tr plan :
  fs_Function (f_Spec f) <> "" -> plan_of (m_lr s) f = Some plan ->
  ensures (populatePodSpec f ps (getRuntimeVolumeMount (f_name f)) img secrets) s tr
    (fun _ _ p => prepares_first (f_name f) plan p).
Proof.
  intros Hfn%streq_false Hplan. unfold plan_of in Hplan. cbv zeta in Hplan.
  unfold populatePodSpec. cbv zeta. rewrite Hfn. cbn [negb].
  set (M := fun (_ : mem) (_ : trace) p => prepares_first (f_name f) plan p).
  eapply ensures_bind with (M := fun _ _ lr => lr = m_lr s).
  { unfold get_lr. cbn. by intros a [= <-]. }
  intros s1 tr1 lr ->. destruct (getFileName _ _ _ _) as [name|] eqn:En; [|done].
  eapply ensures_bind with (M := M).
  { eapply ensures_bind; [apply ensures_lift; intros a Ha; exact Ha|]. cbn beta. intros s2 tr2 a [= <-].
    eapply ensures_bind with (M := fun _ _ c => prepares (f_name f) plan c).
    - eapply runs_mono; [|by apply provision_container_runs].
      intros s' tr' o (_ & _ & c & -> & Hr & Hn & Hm & _) a [= <-]. split; [done|]. split; [done|].
      exists []. by rewrite Hm.
    - intros s3 tr3 c Hc. apply ensures_ret. by exists c, []. }
  intros s2 tr2 p1 Hp1. eapply ensures_bind with (M := M).
  { case_match; [case_match; [by apply ensures_ret|apply ensures_throw]|by apply ensures_ret]. }
  clear dependent p1. intros s3 tr3 p1 Hp1. eapply ensures_bind with (M := M).
  { case_match; [apply ensures_throw|]. case_match; [|by apply ensures_ret].
    eapply ensures_bind; [apply ensures_true|]. intros s4 tr4 c _.
    case_match; apply ensures_ret; [|done]. by apply prepares_first_app. }
  clear Hp1. intros s4 tr4 p2 Hp2.
  eapply ensures_bind; [apply ensures_true|]. intros s5 tr5 oc _.
  do 2 (eapply ensures_bind; [apply ensures_true|]; intros ? ? ? _).
  eapply ensures_bind; [apply ensures_lift; intros c Hc; exact Hc|]. intros s8 tr8 [vols cs] Hms.
  apply ensures_ret. cbn beta in Hms. unfold prepares_first. cbn [ps_set_init ps_InitContainers].
  assert (exists c cs0, ps_InitContainers (match oc with
    | Some c => ps_set_init p2 (ps_InitContainers p2 ++ [c]) | None => p2 end) = c :: cs0 /\
    prepares (f_name f) plan c) as (c & cs0 & E & Hc).
  { destruct oc as [c|]; [|exact Hp2]. apply (prepares_first_app _ _ _ c Hp2). }
  rewrite E in Hms. by eapply mount_secrets_first.
Qed.

Lemma populated_source_volumes f ps p :
  populated f ps (getRuntimeVolumeMount (f_name f)) p -> source_volumes (f_name f) p.
Proof.
  intros (_ & Hx & _). split; eapply extends_elem; try exact Hx; apply elem_of_app; right;
    [by left|right; by left].
Qed.

(** The image of the function's own container, if it has one. *)
Definition spec_image (f : Function_) : string :=
  match ps_Containers (dpm_podspec (fs_Deployment (f_Spec f))) with c :: _ => c_Image c | [] => "" end.

Lemma init_deployment_image f owners c cs :
  ps_Containers (dpm_podspec (init_deployment f owners)) = c :: cs -> c_Image c = spec_image f.
Proof.
  unfold init_deployment, spec_image. cbv zeta.
  match goal with |- context [Nat.eqb (length ?l) 0] => change l with
    (ps_Containers (dpm_podspec (fs_Deployment (f_Spec f)))) end.
  destruct (ps_Containers (dpm_podspec (fs_Deployment (f_Spec f)))) as [|c0 cs0] eqn:E; cbn.
  - by intros [= <- <-].
  - intros E'. change (ps_Containers (dpm_podspec (fs_Deployment (f_Spec f))) = c :: cs) in E'.
    rewrite E in E'. by simplify_eq.
Qed.

Lemma deploy_function_equips f owners prov secrets s tr plan :
  fs_Handler (f_Spec f) <> "" -> fs_Function (f_Spec f) <> "" -> spec_image f = "" ->
  plan_of (m_lr s) f = Some plan ->
  ensures (deploy_function f (init_deployment f owners) "" prov secrets) s tr
    (fun _ _ d => equipped (f_name f) plan d).
Proof.
  intros Hh%streq_false Hf Himg Hplan. pose proof (proj2 (streq_false _ _) Hf) as Hf'.
  unfold deploy_function. cbv zeta. rewrite Hh, Hf'. cbn [negb andb].
  eapply ensures_bind with (M := fun s' _ _ => s' = s).
  { apply ensures_lift. done. }
  intros s1 tr1 [m h] ->. eapply ensures_bind with (M := fun s' _ c => s' = s /\ c_Image c = "").
  { apply ensures_index. intros c Hc. split; [done|].
    destruct (ps_Containers (dpm_podspec (init_deployment f owners))) as [|c' cs'] eqn:E; [done|].
    simpl in Hc. simplify_eq. by rewrite (init_deployment_image f owners c cs') by exact E. }
  intros s2 tr2 c0 [-> Hc0]. rewrite Hc0, streq_refl. cbn [andb].
  eapply ensures_bind with (M := fun _ _ d => equipped (f_name f) plan d).
  - eapply ensures_bind.
    { exact (ensures_conj _ _ _ _ _ (populatePodSpec_prepares f _ prov secrets s tr2 plan Hf Hplan)
        (populatePodSpec_populated f (dpm_podspec (init_deployment f owners)) _ prov secrets s tr2 Hf)). }
    intros s3 tr3 p [Hprep Hpop]. eapply ensures_bind; [apply ensures_true|]. intros s4 tr4 lr _.
    eapply ensures_bind; [apply ensures_true|]. intros s5 tr5 image _. apply ensures_ret.
    split; [exact Hprep|]. split; [exact (populated_source_volumes f _ p Hpop)|].
    destruct Hpop as (Hc & _). destruct (init_deployment_containers f owners) as (c & cs & E).
    unfold sees_runtime, alter_c0. cbn. rewrite Hc, E. cbn. eexists _, _. split; [done|].
    cbn. apply elem_of_app. right. by left.
  - intros s3 tr3 d (Hp & Hv & c & cs & E & Hm). apply ensures_ret. split; [exact Hp|]. split; [exact Hv|].
    unfold sees_runtime, alter_c0. cbn. rewrite E. cbn. by eexists _, _.
Qed.

Lemma UpdateDeployment_pod {S} lr d vol rt (s : S) tr :
  ensures (UpdateDeployment lr d vol rt) s tr (fun _ _ d' =>
    ps_InitContainers (dpm_podspec d') = ps_InitContainers (dpm_podspec d) /\
    ps_Volumes (dpm_podspec d') = ps_Volumes (dpm_podspec d)).
Proof.
  unfold UpdateDeployment. case_match; [|by apply ensures_ret].
  eapply ensures_bind; [apply ensures_true|]. intros s1 tr1 c _. cbv zeta.
  case_match; by apply ensures_ret.
Qed.

Lemma finish_deployment_equips f d s tr plan :
  equipped (f_name f) plan d ->
  ensures (finish_deployment f d) s tr (fun _ _ d' => equipped (f_name f) plan d').
Proof.
  intros ((i & is_ & Ei & Hi) & [Hv1 Hv2] & c & cs & Ec & Hm). unfold finish_deployment. cbv zeta.
  eapply ensures_bind; [apply ensures_true|]. intros s1 tr1 lr _.
  eapply ensures_bind.
  { match goal with |- ensures (UpdateDeployment ?l ?x ?v ?r) _ _ _ =>
      pose proof (UpdateDeployment_pod l x v r s1 tr1) as Hpod;
      pose proof (UpdateDeployment_ensures l x v r s1 tr1 _ _
        ltac:(unfold alter_c0; cbn; rewrite Ec; reflexivity)) as Hcont end.
    apply (ensures_conj _ _ _ _ _ Hpod Hcont). }
  intros s2 tr2 d2 [[Hi2 Hv] (_ & env & Ec2)]. apply ensures_ret. unfold equipped, prepares_first, source_volumes, sees_runtime.
  cbv zeta. cbn [dpm_set_podspec dpm_podspec dpm_Spec ds_Template pt_Spec].
  match goal with |- context [ps_Containers ?x] => set (q := x) end.
  assert (ps_InitContainers q = ps_InitContainers (dpm_podspec d) /\
    ps_Volumes q = ps_Volumes (dpm_podspec d) /\ exists c', ps_Containers q = c' :: cs /\
    c_VolumeMounts c' = c_VolumeMounts c) as (-> & -> & c' & -> & Hc').
  { subst q. split_and!; [repeat case_match; cbn; by rewrite Hi2|repeat case_match; cbn; by rewrite Hv|].
    repeat case_match; cbn; rewrite Ec2; cbn; (eexists; split; [done|]); by repeat case_match. }
  split; [by exists i, is_|]. split; [done|]. exists c', cs. split; [done|]. by rewrite Hc'.
Qed.

End Equips.

(** What the server keeps of an equipped deployment. *)
Lemma equipped_realised name plan d d' :
  equipped name plan d -> realises d d' -> equipped name plan d'.
Proof.
  intros ((i & is_ & Ei & ([Hc Ha] & Hn & more & Hm)) & [Hv1 Hv2] & c & cs & Ec & Hr)
    [_ _ _ _ Hcs His Hvs].
  rewrite Ei in His. rewrite Ec in Hcs.
  apply Forall2_cons_inv_l in His as (i' & is' & (En & _ & Ecm & Ear & _ & _ & Em & _) & _ & Ei'); [|done].
  apply Forall2_cons_inv_l in Hcs as (c' & cs' & (_ & _ & _ & _ & _ & _ & Emc & _) & _ & Ec').
  split; [|split].
  - exists i', is'. split; [done|]. split; [by split; congruence|]. split; [congruence|].
    exists more. congruence.
  - unfold source_volumes. rewrite Hvs; [done|]. intros E. rewrite E in Hv1. by apply elem_of_nil in Hv1.
  - exists c', cs'. split; [done|]. by rewrite Emc.
Qed.
