(* ===== verification/Fulfil.v ===== *)
(** * A function gets its objects

    The other theorems on the controller say what it may do; here, that it does
    it: on a lawful server, processing the key of a function with a runtime
    that is configured and a source that can be prepared ends normally, with
    its config map, service and deployment stored. *)
From S2P Require Import Prelude GoStrings GoProg KubeTypes World LangRuntime Memory K8sUtil.
From S2P Require Import PodSpec Ensure EnsureSpec Controller Concrete Converge Deletion Scaling Ordering Patching.

(** ** Bodies that ask nothing and return a value *)
Section Settles.
Context {S : Type}.

Definition settles {A} (p : go S A) (s : S) (R : S -> A -> Prop) : Prop :=
  forall tr, runs p s tr (fun s' tr' o => tr' = tr /\ exists a, o = Done a /\ R s' a).

Lemma settles_ret {A} (a : A) s (R : S -> A -> Prop) : R s a -> settles (mret a) s R.
Proof. intros HR tr. split; [done|]. by exists a. Qed.

Lemma settles_bind {A B} (p : go S A) (f : A -> go S B) s R R' :
  settles p s R -> (forall s' a, R s' a -> settles (f a) s' R') -> settles (p ≫= f) s R'.
Proof.
  intros Hp Hf tr. apply runs_bind. eapply runs_mono; [|apply Hp].
  intros s' tr' o (-> & a & -> & HR). by apply Hf.
Qed.

Lemma settles_lift {A} (r : result A) a s (R : S -> A -> Prop) : r = Ok a -> R s a -> settles (lift r) s R.
Proof. intros -> HR. by apply settles_ret. Qed.

Lemma settles_ensures {A} (p : go S A) s R (R' : S -> A -> Prop) :
  settles p s R -> (forall tr, ensures p s tr (fun s' _ a => R' s' a)) ->
  settles p s (fun s' a => R s' a /\ R' s' a).
Proof.
  intros Hp HR tr. eapply runs_mono; [|apply (runs_conj _ _ _ _ _ (Hp tr) (HR tr))].
  intros s' tr' o [(-> & a & -> & HRa) Ha]. eauto 6.
Qed.

Lemma settles_mono {A} (p : go S A) s (R R' : S -> A -> Prop) :
  (forall s' a, R s' a -> R' s' a) -> settles p s R -> settles p s R'.
Proof.
  intros HR Hp tr. eapply runs_mono; [|apply Hp]. intros s' tr' o (-> & a & -> & Ha). eauto.
Qed.

(** No request, no change of the world. *)
Lemma silent_world {W A} (H : handler resp W) (p : go S A) s w :
  run_trace H p s w = [] -> snd (run H p s w) = w.
Proof.
  revert s w. induction p as [| | | |k IH|s0 k IH|o k IH]; simpl; intros s w; auto.
  by destruct (H o w).
Qed.

Lemma settles_run {W A} (H : handler resp W) (p : go S A) s w R :
  settles p s R -> exists a s', run H p s w = (Done a, s', w) /\ R s' a.
Proof.
  intros Hp. pose proof (runs_run H p s w [] _ (Hp [])) as (Htr & a & Ho & HR).
  pose proof (silent_world H p s w Htr) as Hw.
  destruct (run H p s w) as [[o s'] w']. simpl in *. subst. eauto.
Qed.

End Settles.

(** ** The pod specification *)

(** Content that [getProvisionContainer] can prepare. *)
Definition known_content (contentType : string) : bool :=
  Contains contentType "base64" || Contains contentType "url" || Contains contentType "text" ||
  (contentType =?s "").

Definition known_checksum (checksum : string) : Prop :=
  checksum = "" \/ exists sum, checksum = "sha256:" +:+ sum.

(** The configuration is read again in the end. *)
Definition reread `{YamlRuntimes} (lr lr' : Langruntimes) : Prop :=
  forall S, ReadConfigMap lr = (mret lr' : go S _).

(** The secrets of a runtime's images, and volumes that leave their names to
    secret volumes. *)
Definition image_secrets (rv : RuntimeVersion) : list string := rv_Images rv ≫= img_Secrets.

Definition compatible (names : list string) (vols : list Volume) : Prop :=
  Forall (fun v => vol_Name v ∈ names -> vol_Source v = SecretSource (vol_Name v)) vols.

(** The volumes of a function's pod before secrets are mounted. *)
Definition base_volumes (f : Function_) : list Volume :=
  ps_Volumes (dpm_podspec (fs_Deployment (f_Spec f))) ++
  [{| vol_Name := f_name f; vol_Source := EmptyDir |};
   {| vol_Name := f_name f +:+ "-deps"; vol_Source := ConfigMapSource (f_name f) |}].

(** A function whose source and runtime can be provided for. *)
Record provisionable `{YamlRuntimes} (lr lr' : Langruntimes) (f : Function_) : Prop := {
  pv_handler : exists m h, splitHandler (fs_Handler (f_Spec f)) = Ok (m, h);
  pv_content : known_content (fs_FunctionContentType (f_Spec f)) = true;
  pv_checksum : known_checksum (fs_Checksum (f_Spec f));
  pv_runtime : exists rv, findRuntimeVersion lr (fs_Runtime (f_Spec f)) = Ok rv;
  pv_reread : reread lr lr';
  pv_secrets : exists rv, findRuntimeVersion lr' (fs_Runtime (f_Spec f)) = Ok rv /\
    compatible (image_secrets rv) (base_volumes f) }.

Lemma findRuntimeVersion_info lr rt rv :
  findRuntimeVersion lr rt = Ok rv -> exists ri, GetRuntimeInfo lr rt = Ok ri.
Proof. unfold findRuntimeVersion. intros (ri & Hri & _)%result_bind_ok. by exists ri. Qed.

Lemma getFileName_total h m fn ct rt lr :
  splitHandler h = Ok (m, fn) -> exists name, getFileName h ct rt lr = Ok name.
Proof.
  unfold getFileName. intros ->. cbn. case_match; [|by eexists]. case_match; by eexists.
Qed.

Lemma getProvisionContainer_settles {S} fn sum name h ct rt img rv dv res lr (s : S) :
  known_content ct = true -> known_checksum sum -> (exists m g, splitHandler h = Ok (m, g)) ->
  settles (getProvisionContainer fn sum name h ct rt img rv dv res lr) s (fun s' _ => s' = s).
Proof.
  intros Hct Hsum (m & g & Hh). unfold getProvisionContainer. cbv zeta.
  apply settles_bind with (R := fun s' _ => s' = s).
  { unfold known_content in Hct. repeat case_match; try by apply settles_ret.
    destruct (Contains ct "base64"), (Contains ct "url"), (Contains ct "text"), (ct =?s ""); simpl in *; done. }
  intros s1 [cmd origin] ->. apply settles_bind with (R := fun s' _ => s' = s).
  { destruct Hsum as [->|[d ->]]; [by apply settles_ret|].
    replace ("sha256:" +:+ d =?s "") with false; [|symmetry; by apply streq_false].
    change ("sha256:" +:+ d) with ("sha256" +:+ String ":"%char d). rewrite Split_app_sep.
    change (Split "sha256" ":"%char) with ["sha256"].
    pose proof (Split_nonempty d ":"%char) as Hne. destruct (Split d ":"%char) as [|x l]; [done|].
    by apply settles_ret. }
  intros s1 cmd1 ->. apply settles_bind with (R := fun s' _ => s' = s).
  { repeat case_match; try by apply settles_ret.
    destruct (getFileName_total h m g ct rt lr Hh) as [dest Hd].
    eapply settles_bind; [by eapply settles_lift with (R := fun s' _ => s' = s)|].
    intros ? ? ->. by apply settles_ret. }
  intros s1 cmd2 ->. by apply settles_ret.
Qed.

Lemma GetInitContainerSecrets_total lr rt rv name :
  findRuntimeVersion lr rt = Ok rv ->
  exists secrets, GetInitContainerSecrets lr rt name = Ok secrets /\
    Forall (fun s => lor_Name s ∈ image_secrets rv) secrets.
Proof.
  intros Hrv. unfold GetInitContainerSecrets. rewrite Hrv. cbn. unfold findImage.
  destruct (List.find _ _) as [i|] eqn:E; [|by exists []].
  apply List.find_some in E as [Hi%list_elem_of_In _]. eexists. split; [done|].
  apply Forall_fmap, Forall_forall. intros n Hn. apply list_elem_of_bind. by exists i.
Qed.

Lemma find_secret_volume_total names vols n :
  n ∈ names -> compatible names vols -> exists b, find_secret_volume vols n = Ok b.
Proof.
  intros Hn. induction 1 as [|v vols Hv _ IH]; cbn; [by eexists|].
  case_streq; [|done]. subst. rewrite Hv by done. case_streq; [by eexists|done].
Qed.

Lemma ensure_secret_volume_total names vols n :
  n ∈ names -> compatible names vols ->
  exists vols', ensure_secret_volume vols n = Ok vols' /\ compatible names vols'.
Proof.
  intros Hn Hc. unfold ensure_secret_volume.
  destruct (find_secret_volume_total names vols n Hn Hc) as [[] ->]; cbn; eexists; (split; [done|]); [done|].
  apply Forall_app. split; [done|]. by apply Forall_singleton.
Qed.

Lemma add_secrets_total names secrets vols c :
  Forall (fun s => lor_Name s ∈ names) secrets -> compatible names vols ->
  exists vols' c', add_secrets secrets vols c = Ok (vols', c') /\ compatible names vols'.
Proof.
  intros Hs. revert vols c. induction Hs as [|s secrets Hn _ IH]; intros vols c Hc; cbn; [by eexists _, _|].
  destruct (ensure_secret_volume_total names vols _ Hn Hc) as (vols1 & -> & Hc1). cbn. by apply IH.
Qed.

Lemma mount_secrets_total lr rt rv vols cs :
  findRuntimeVersion lr rt = Ok rv -> compatible (image_secrets rv) vols ->
  exists vols' cs', mount_secrets lr rt vols cs = Ok (vols', cs').
Proof.
  intros Hrv. revert vols. induction cs as [|c cs IH]; intros vols Hc; cbn; [by eexists _, _|].
  destruct (GetInitContainerSecrets_total lr rt rv (c_Name c) Hrv) as (secrets & -> & Hs).
  destruct (add_secrets_total _ _ _ c Hs Hc) as (vols1 & c1 & -> & Hc1). cbn.
  destruct (IH vols1 Hc1) as (vols2 & cs2 & ->). by eexists _, _.
Qed.

Section Populates.
Context `{YamlRuntimes} `{MapRange} `{OsEnv}.

Lemma GetBuildContainer_total lr rt sum env v res rv :
  findRuntimeVersion lr rt = Ok rv -> exists c, GetBuildContainer lr rt sum env v res = Ok c.
Proof.
  intros Hrv. destruct (findRuntimeVersion_info _ _ _ Hrv) as [ri Hri].
  unfold GetBuildContainer. rewrite Hri. cbn. rewrite Hrv. cbn. case_match; by eexists.
Qed.

Lemma GetCompilationContainer_total lr rt fn env v res rv :
  findRuntimeVersion lr rt = Ok rv -> exists c, GetCompilationContainer lr rt fn env v res = Ok c.
Proof. intros Hrv. unfold GetCompilationContainer. rewrite Hrv. cbn. case_match; by eexists. Qed.

Lemma populatePodSpec_settles lr' f ps rv img secrets s :
  provisionable (m_lr s) lr' f -> vm_Name rv = f_name f ->
  ps_Volumes ps = ps_Volumes (dpm_podspec (fs_Deployment (f_Spec f))) ->
  settles (populatePodSpec f ps rv img secrets) s (fun s' _ => s' = Mem (m_heap s) lr').
Proof.
  intros [Hh Hct Hsum (v & Hv) Hre (v' & Hv' & Hs')] Hrvn Hvols. destruct Hh as (m & h & Hh).
  pose proof (findRuntimeVersion_info _ _ _ Hv) as [ri Hri].
  unfold populatePodSpec. cbv zeta.
  apply settles_bind with (R := fun s' lr => s' = s /\ lr = m_lr s); [by apply settles_ret|].
  intros s1 lr [-> ->].
  set (R := fun s' p => s' = s /\ ps_Volumes p = base_volumes f).
  assert (Hbase : forall q : PodSpec, ps_Volumes q = ps_Volumes ps ++
    [{| vol_Name := vm_Name rv; vol_Source := EmptyDir |};
     {| vol_Name := f_name f +:+ "-deps"; vol_Source := ConfigMapSource (f_name f) |}] ->
    ps_Volumes q = base_volumes f) by (intros q ->; unfold base_volumes; by rewrite Hvols, Hrvn).
  apply settles_bind with (R := R).
  { destruct (negb (fs_Function (f_Spec f) =?s "")); [|by apply settles_ret; split; [|apply Hbase]].
    destruct (getFileName_total (fs_Handler (f_Spec f)) m h (fs_FunctionContentType (f_Spec f))
      (fs_Runtime (f_Spec f)) (m_lr s) Hh) as [name Hn].
    eapply settles_bind; [by eapply settles_lift with (R := fun s' _ => s' = s)|]. intros ? ? ->.
    eapply settles_bind; [apply getProvisionContainer_settles; [done|done|eauto]|].
    intros ? ? ->. apply settles_ret. by split; [|apply Hbase]. }
  clear Hbase. intros s1 p1 [-> Hp1]. apply settles_bind with (R := R).
  { case_match; [|by apply settles_ret]. unfold GetImageSecrets. rewrite Hv. by apply settles_ret. }
  intros s1 p2 [-> Hp2]. apply settles_bind with (R := R).
  { rewrite Hri. cbn [is_ok negb]. rewrite andb_false_r. cbv iota.
    destruct (_ || _); [|by apply settles_ret].
    match goal with |- context [GetBuildContainer ?a ?b ?c ?d ?e ?g] =>
      destruct (GetBuildContainer_total a b c d e g v Hv) as [k Hk] end.
    eapply settles_bind; [eapply settles_lift with (R := fun s' c => s' = s); [exact Hk|done]|].
    intros ? c ->. destruct (negb (c_Name c =?s "")); by apply settles_ret. }
  intros s1 p3 [-> Hp3].
  match goal with |- context [GetCompilationContainer ?a ?b ?c ?d ?e ?g] =>
    destruct (GetCompilationContainer_total a b c d e g v Hv) as [k Hk] end.
  eapply settles_bind; [eapply settles_lift with (R := fun s' c => s' = s /\ c = k); [exact Hk|done]|].
  intros ? ? [-> ->]. rewrite (Hre mem).
  apply settles_bind with (R := fun s' lr => s' = s /\ lr = lr'); [by apply settles_ret|].
  intros ? ? [-> ->]. apply settles_bind with (R := fun s' _ => s' = Mem (m_heap s) lr').
  { intros tr. cbn. eauto. }
  intros ? ? ->.
  match goal with |- context [mount_secrets ?l ?t ?vols ?cs] =>
    destruct (mount_secrets_total l t v' vols cs Hv') as (vols' & cs' & ->) end.
  { destruct k; cbn; by rewrite Hp3. }
  by apply settles_ret.
Qed.
End Populates.

(** ** The deployment *)

(** An image of the function's own, or all that is needed to provide for it. *)
Definition sourced `{YamlRuntimes} (lr : Langruntimes) (f : Function_) : Prop :=
  (exists m h, splitHandler (fs_Handler (f_Spec f)) = Ok (m, h)) /\
  ((exists c, head (ps_Containers (dpm_podspec (fs_Deployment (f_Spec f)))) = Some c /\ c_Image c <> "") \/
   exists lr', provisionable lr lr' f).

(** The image [choose_image] takes from the function. *)
Definition own_image (f : Function_) : string :=
  match ps_Containers (dpm_podspec (fs_Deployment (f_Spec f))) with c :: _ => c_Image c | [] => "" end.

Section Deploys.
Context `{YamlRuntimes} `{MapRange} `{OsEnv} `{IntOrStringValue} `{JsonDeployment}.
Implicit Types s : mem.

Lemma GetFunctionImage_total lr rt rv :
  findRuntimeVersion lr rt = Ok rv -> exists image, GetFunctionImage lr rt = Ok image.
Proof.
  intros Hrv. destruct (findRuntimeVersion_info _ _ _ Hrv) as [ri Hri].
  unfold GetFunctionImage. rewrite Hri. cbn. rewrite Hrv. cbn.
  case_match; [|by eexists]. case_match; by eexists.
Qed.

Lemma init_deployment_volumes f owners :
  ps_Volumes (dpm_podspec (init_deployment f owners)) = ps_Volumes (dpm_podspec (fs_Deployment (f_Spec f))).
Proof. unfold init_deployment. cbv zeta. by case_match. Qed.

Lemma deploy_function_settles f d img prov secrets s m h :
  ps_Volumes (dpm_podspec d) = ps_Volumes (dpm_podspec (fs_Deployment (f_Spec f))) ->
  splitHandler (fs_Handler (f_Spec f)) = Ok (m, h) ->
  (exists c cs, ps_Containers (dpm_podspec d) = c :: cs) ->
  img <> "" \/ (exists lr', provisionable (m_lr s) lr' f) ->
  settles (deploy_function f d img prov secrets) s (fun s' _ => m_heap s' = m_heap s).
Proof.
  intros Hvols Hh (c & cs & Ec) Hsrc. unfold deploy_function. cbv zeta.
  destruct (_ && _); [|by apply settles_ret].
  eapply settles_bind; [by eapply settles_lift with (R := fun s' mh => s' = s)|]. intros ? [m' h'] ->.
  apply settles_bind with (R := fun s' c0 => s' = s /\ c0 = c).
  { unfold index. rewrite Ec. by apply settles_ret. }
  intros ? ? [-> ->]. eapply settles_bind with (R := fun s' _ => m_heap s' = m_heap s).
  - destruct ((c_Image c =?s "") && (img =?s "")) eqn:E; [|by apply settles_ret].
    destruct Hsrc as [Himg|[lr' Hpv]].
    { apply andb_true_iff in E as [_ E%streq_true]. done. }
    eapply settles_bind; [by apply populatePodSpec_settles|]. intros ? ps ->. cbv zeta.
    apply settles_bind with (R := fun s' lr => s' = Mem (m_heap s) lr' /\ lr = lr'); [by apply settles_ret|].
    intros ? ? [-> ->]. destruct (pv_secrets _ _ _ Hpv) as (rv & Hrv & _).
    destruct (GetFunctionImage_total _ _ _ Hrv) as [image Hi].
    eapply settles_bind; [eapply settles_lift with (R := fun s' _ => s' = Mem (m_heap s) lr'); done|].
    intros ? ? ->. by apply settles_ret.
  - intros s' d' Hs'. by apply settles_ret.
Qed.

Lemma UpdateDeployment_settles lr d vol rt s c cs :
  ps_Containers (dpm_podspec d) = c :: cs ->
  settles (UpdateDeployment lr d vol rt : go mem _) s (fun s' _ => s' = s).
Proof.
  intros Ec. unfold UpdateDeployment. destruct (findRuntimeVersion lr rt); [|by apply settles_ret].
  apply settles_bind with (R := fun s' _ => s' = s).
  { unfold index. rewrite Ec. by apply settles_ret. }
  intros ? ? ->. cbv zeta. destruct (findImage _ _); by apply settles_ret.
Qed.

Lemma finish_deployment_settles f d s :
  prepared f d -> settles (finish_deployment f d) s (fun s' _ => s' = s).
Proof.
  intros (c & cs & Ec & _). unfold finish_deployment. cbv zeta.
  apply settles_bind with (R := fun s' lr => s' = s); [by apply settles_ret|]. intros ? lr ->.
  eapply settles_bind; [eapply UpdateDeployment_settles; unfold alter_c0; cbn; by rewrite Ec|].
  intros ? ? ->. by apply settles_ret.
Qed.

Section Lawful.
Context {W : Type} (H' : handler resp W) `{!ApiServer H'}.
Implicit Types w : W.

(** What is known of every deployment that is put together is known of the one
    that is created, or patched in. *)
Lemma EnsureFuncDeployment_provides (R : Deployment -> Prop) p f owners img prov secrets s w :
  (forall tr, ensures (deploy_function f (init_deployment f owners) img prov secrets ≫= finish_deployment f)
     s tr (fun _ _ d => R d)) ->
  m_heap s !! p = Some f -> controlled f ->
  (exists m h, splitHandler (fs_Handler (f_Spec f)) = Ok (m, h)) ->
  img <> "" \/ (exists lr', provisionable (m_lr s) lr' f) ->
  deployment_free H' (f_namespace f) (f_name f) w ->
  exists w' s' d d', run H' (EnsureFuncDeployment p owners img prov secrets) s w = (Done tt, s', w') /\
    m_heap s' = m_heap s /\ deploys f (f_namespace f) d /\ R d /\ realises d d' /\
    own_deployment (f_name f) d' /\ stored w' KDeployment (f_namespace f) (f_name f) = Some d' /\
    same_but stored KDeployment (f_namespace f) (f_name f) w w'.
Proof.
  intros HR Hp Hc (m & h & Hh) Hsrc Hfree.
  pose proof (init_deployment_frame f owners Hc) as (Hn & Hl & Hsel & Hlab).
  pose proof (settles_ensures _ _ _ _
    (deploy_function_settles f (init_deployment f owners) img prov secrets s m h (init_deployment_volumes f owners) Hh
       (init_deployment_containers f owners) Hsrc)
    (fun tr => deploy_function_ensures f (init_deployment f owners) img prov secrets s tr
       (init_deployment_containers f owners))) as Hd1.
  destruct (settles_run H' _ s w _ Hd1) as (d1 & s1 & E1 & Hs1 & (Hm1 & Hsel1 & Ht1) & Hprep).
  pose proof (settles_ensures _ _ _ _ (finish_deployment_settles f d1 s1 Hprep)
    (fun tr => finish_deployment_ensures f d1 s1 tr Hprep)) as Hd2.
  destruct (settles_run H' _ s1 w _ Hd2) as (d2 & s2 & E2 & -> & (Hm2 & Hsel2 & Ht2) & Hserves & Hsec).
  assert (Hd : deploys f (f_namespace f) d2).
  { unfold deploys. rewrite Hm2, Hsel2, Ht2, Hm1, Hsel1, Ht1. done. }
  assert (HRd : R d2).
  { pose proof (runs_run H' _ s w [] _ (HR [])) as Hr. rewrite run_bind, E1, E2 in Hr. by apply Hr. }
  pose proof Hd as (_ & Hdn & Hdl & Hdsel & _).
  destruct (run_submit H' f owners d2 s1 w) as (w' & d' & E3 & Hre & Hown & Hst & Hb).
  { exact Hdn. }
  { exact Hdl. }
  { apply hasDefaultLabel_mget, Hc. }
  { rewrite Hsel2, Hsel1. by apply init_deployment_selector. }
  { exact Hdsel. }
  { destruct Hserves as (c & cs & -> & _). done. }
  { exact Hfree. }
  exists w', s1, d2, d'. split; [|done].
  unfold EnsureFuncDeployment. by rewrite run_bind, run_load, Hp, run_bind, E1, run_bind, E2.
Qed.
End Lawful.
End Deploys.

(** ** The function's objects *)

Section Reconciles.
Context `{YamlRuntimes} `{MapRange} `{OsEnv} `{IntOrStringValue} `{JsonDeployment} `{Mergo}
  `{UrlParse} `{Registry.RegistryJson} `{CacheKeys} `{YamlDeployment} `{SemanticEqual}.
Context {W : Type} (H' : handler resp W) `{!ApiServer H'}.
Implicit Types (w : W) (s : mem).

(** The names of the function's objects are free or kubeless's own. *)
Definition available (f : Function_) w : Prop :=
  ours_or_absent H' KConfigMap (f_namespace f) (f_name f) w /\
  ours_or_absent H' KService (f_namespace f) (f_name f) w /\
  deployment_free H' (f_namespace f) (f_name f) w.

(** A function to be served, at [p] in memory: it has a source and a runtime or
    an image, and its autoscaler, if any, does not conflict with one there. *)
Record servable (c : FunctionController) (p : positive) (f : Function_) (data : gmap string string)
    s w : Prop := {
  sv_cached : m_heap s !! p = Some f /\ om_DeletionTimestamp (f_Meta f) = None;
  sv_named : f_name f <> "" /\ om_UID (f_Meta f) <> "";
  sv_config : mget (config_Data c) "deployment" = None /\
    mstr (config_Data c) "enable-build-step" <> "true";
  sv_source : configMapData f (m_lr s) = Ok data /\ sourced (m_lr s) f;
  sv_names : available f w;
  sv_autoscale : scalable H' c f w }.

(** The objects of the function are there and fit together. *)
Record fulfilled (f : Function_) (data : gmap string string) w : Prop := {
  ff_configmap : exists cm, stored w KConfigMap (f_namespace f) (f_name f) = Some cm /\ cm_Data cm = Some data;
  ff_service : exists svc, stored w KService (f_namespace f) (f_name f) = Some svc /\
    ss_Ports (svc_Spec svc) = ss_Ports (serviceSpec f);
  ff_deployment : exists d, stored w KDeployment (f_namespace f) (f_name f) = Some d /\
    selected (ds_Selector (dpm_Spec d)) (om_Labels (dpm_template_meta d)) /\
    mget (om_Labels (dpm_template_meta d)) "function" = Some (f_name f) /\
    serves f d }.

Lemma other_kind k ns n w w' k' ns' n' :
  same_but stored k ns n w w' -> k' <> k -> stored w' k' ns' n' = stored w k' ns' n'.
Proof. intros Hs Hk. apply Hs. congruence. Qed.

(** The function as the controller's memory has it after labelling. *)
Definition labelled_function (f : Function_) : Function_ :=
  f_set_labels f (Some (<["function" := f_name f]> (mmap (f_labels f)))).

Lemma labelled_controlled f : let f' := labelled (labelled (labelled_function f)) in controlled f' /\ same_source f f'.
Proof.
  split; [|done]. unfold controlled, labelled, labelled_function, mget. cbn.
  split; [by rewrite lookup_insert_eq|]. rewrite !lookup_insert_ne by done. by rewrite lookup_insert_eq.
Qed.

(** Data and service ports do not depend on labels. *)
Lemma configMapData_labelled f l lr : configMapData (f_set_labels f l) lr = configMapData f lr.
Proof. done. Qed.
Lemma serviceSpec_labelled f l : ss_Ports (serviceSpec (f_set_labels f l)) = ss_Ports (serviceSpec f).
Proof. unfold serviceSpec. cbn. by case_match. Qed.

Lemma GetOwnerReference_ok kd api name uid : name <> "" -> uid <> "" ->
  GetOwnerReference kd api name uid =
  Ok [{| or_Kind := kd; or_APIVersion := api; or_Name := name; or_UID := uid |}].
Proof. unfold GetOwnerReference. intros Hn%streq_false Hu%streq_false. by rewrite Hn, Hu. Qed.

Lemma run_label_function p f s w : m_heap s !! p = Some f ->
  run H' (label_function p) s w = (Done tt, Mem (<[p := labelled_function f]> (m_heap s)) (m_lr s), w).
Proof. intros Hp. unfold label_function. by rewrite run_bind, run_load, Hp. Qed.

Lemma run_choose_image c p f owners s w :
  m_heap s !! p = Some f -> mstr (config_Data c) "enable-build-step" <> "true" ->
  run H' (choose_image c p owners) s w = (Done (own_image f), s, w).
Proof.
  intros Hp Hb. unfold choose_image. rewrite run_bind, run_load, Hp. cbv zeta. fold (own_image f).
  rewrite (proj2 (streq_false _ _) Hb). destruct (own_image f =?s "") eqn:E; [|done].
  apply streq_true in E. by rewrite E.
Qed.

(** The reference to the function that its objects carry. *)
Definition function_owner (f : Function_) : list OwnerReference :=
  [{| or_Kind := funcKind; or_APIVersion := funcAPIVersion; or_Name := f_name f; or_UID := om_UID (f_Meta f) |}].

(** Every deployment that the controller puts together for [f] has [R]. *)
Definition always_deploys (c : FunctionController) (f : Function_) (lr : Langruntimes)
    (R : Deployment -> Prop) : Prop :=
  forall f' owners s tr, f_Spec f' = f_Spec f -> f_name f' = f_name f -> m_lr s = lr ->
    ensures (deploy_function f' (init_deployment f' owners) (own_image f')
      (mstr (config_Data c) "provision-image") (imagePullSecrets c) ≫= finish_deployment f')
      s tr (fun _ _ d => R d).

Definition deployed_with (R : Deployment -> Prop) (f : Function_) w : Prop :=
  exists d d', stored w KDeployment (f_namespace f) (f_name f) = Some d' /\ R d /\
    realises d d'.

(** The names are kubeless's own afterwards. *)
Definition held_names (f : Function_) w : Prop :=
  ours_or_absent H' KConfigMap (f_namespace f) (f_name f) w /\
  ours_or_absent H' KService (f_namespace f) (f_name f) w /\
  exists d, stored w KDeployment (f_namespace f) (f_name f) = Some d /\ own_deployment (f_name f) d.

Lemma held_names_available f w : Patching H' -> held_names f w -> available f w.
Proof. intros HP (? & ? & d & ? & ?). split_and!; [done..|]. right. split; [done|]. by exists d. Qed.

(** The function's objects aside, nothing has changed. *)
Definition apart_from_objects w w' : Prop :=
  forall k ns n, k <> KConfigMap -> k <> KService -> k <> KDeployment -> k <> KHPA -> k <> KServiceMonitor ->
    stored w' k ns n = stored w k ns n.

Lemma ensureK8sResources_provides R c p f data s w :
  always_deploys c f (m_lr s) R -> servable c p f data s w ->
  exists w' s', run H' (ensureK8sResources c p) s w = (Done tt, s', w') /\ fulfilled f data w' /\
    deployed_with R f w' /\ held_names f w' /\ scaled H' c f (function_owner f) w w' /\ apart_from_objects w w'.
Proof.
  intros HR [[Hp Hdel] [Hname Huid] [Hcfg Hbuild] [Hdata [Hh Hsrc]] (Hcm & Hsvc & Hdpm) Hscale].
  set (f1 := labelled_function f). set (s1 := Mem (<[p := f1]> (m_heap s)) (m_lr s)).
  set (owners := function_owner f).
  assert (Hp1 : m_heap s1 !! p = Some f1) by apply lookup_insert_eq.
  destruct (configmap_converges H' p f1 owners data s1 w Hp1) as (w1 & cm & E1 & Hs1 & Hd1 & _ & _ & Hb1 & Ho1);
    [done|exact Hdata|exact Hcm|].
  set (f2 := labelled f1). set (s2 := relabel p f1 s1) in *.
  assert (Hp2 : m_heap s2 !! p = Some f2) by apply lookup_insert_eq.
  destruct (service_converges H' p f2 owners s2 w1 Hp2) as (w2 & svc & E2 & Hs2 & Hports & _ & _ & Hb2 & Ho2).
  { done. }
  { intros o Ho. change (stored w1 KService (f_namespace f) (f_name f) = Some o) in Ho.
    rewrite (other_kind _ _ _ _ _ _ _ _ Hb1) in Ho by done. by apply Hsvc. }
  set (f3 := labelled f2). set (s3 := relabel p f2 s2) in *.
  assert (Hp3 : m_heap s3 !! p = Some f3) by apply lookup_insert_eq.
  destruct (labelled_controlled f) as [Hctl Hsame]. fold f1 in Hctl, Hsame. fold f2 f3 in Hctl, Hsame.
  destruct (EnsureFuncDeployment_provides H' R p f3 owners (own_image f3) (mstr (config_Data c) "provision-image")
    (imagePullSecrets c) s3 w2 (fun tr => HR f3 owners s3 tr eq_refl eq_refl eq_refl) Hp3 Hctl Hh)
    as (w3 & s4 & d & d' & E3 & Hheap & Hd & HRd & Ha & Hown & Hs3 & Hb3).
  { destruct Hsrc as [(c0 & Hc0 & Himg)|[lr' [? ? ? ? ? ?]]]; [left|right; exists lr'; by split].
    unfold own_image. change (ps_Containers (dpm_podspec (fs_Deployment (f_Spec f3)))) with (ps_Containers (dpm_podspec (fs_Deployment (f_Spec f)))).
    by destruct (ps_Containers _); simplify_eq/=. }
  { unfold deployment_free. rewrite (other_kind _ _ _ _ _ _ _ _ Hb2), (other_kind _ _ _ _ _ _ _ _ Hb1) by done. exact Hdpm. }
  assert (Hkeep : forall k ns n, k <> KConfigMap -> k <> KService -> k <> KDeployment -> stored w3 k ns n = stored w k ns n).
  { intros k ns n ? ? ?. by rewrite (other_kind _ _ _ _ _ _ _ _ Hb3), (other_kind _ _ _ _ _ _ _ _ Hb2), (other_kind _ _ _ _ _ _ _ _ Hb1). }
  destruct (run_autoscale H' c p f3 owners s4 w3) as (w4 & s5 & E4 & Hscaled & Hap); [by rewrite Hheap| |].
  { apply (scalable_same H' c f w w3); [intros; by rewrite Hkeep..|exact Hscale]. }
  assert (Hk4 : forall k ns n, k <> KHPA -> k <> KServiceMonitor -> stored w4 k ns n = stored w3 k ns n) by exact Hap.
  exists w4, s5. split; [|split; [|split; [exists d, d'; by rewrite Hk4|split; [|split]]]].
  - unfold ensureK8sResources. eapply run_then; [by apply run_label_function|]. unfold merge_template. rewrite Hcfg.
    eapply run_then; [done|]. eapply run_then with (a := f1) (s1 := s1) (w1 := w); [rewrite run_load; cbn [m_heap]; by rewrite lookup_insert_eq|].
    eapply run_then with (a := owners).
    { rewrite run_lift. by rewrite GetOwnerReference_ok. }
    eapply run_then; [exact E1|]. eapply run_then; [exact E2|].
    eapply run_then; [by apply run_choose_image|]. eapply run_then; [exact E3|].
    exact E4.
  - destruct Hd as (_ & Hdn & Hdl & Hsel & Hlabels & Hserves & _). split.
    + exists cm. split; [|done]. rewrite Hk4, (other_kind _ _ _ _ _ _ _ _ Hb3), (other_kind _ _ _ _ _ _ _ _ Hb2) by done. exact Hs1.
    + exists svc. rewrite Hk4, (other_kind _ _ _ _ _ _ _ _ Hb3) by done. split; [exact Hs2|].
      rewrite Hports. unfold f2, labelled, f1, labelled_function. by rewrite !serviceSpec_labelled.
    + exists d'. rewrite Hk4 by done. split; [exact Hs3|]. rewrite (re_selector _ _ Ha). split.
      { destruct Hsel as (m & -> & Hm). exists m. split; [done|]. intros k v Hk. by apply (re_template _ _ Ha), Hm. }
      split; [apply (re_template _ _ Ha), Hlabels, Hctl|]. by eapply serves_realised.
  - split; [|split; [|exists d'; by rewrite Hk4]].
    + intros o. rewrite Hk4, (other_kind _ _ _ _ _ _ _ _ Hb3), (other_kind _ _ _ _ _ _ _ _ Hb2) by done. apply Ho1.
    + intros o. rewrite Hk4, (other_kind _ _ _ _ _ _ _ _ Hb3) by done. apply Ho2.
  - eapply scaled_from; [|exact Hscaled]. intros. by rewrite Hkeep.
  - intros k ns n ?????. by rewrite Hk4, Hkeep.
Qed.

(** Writing the function resource does not matter. *)
Lemma servable_update c p f data s w w' :
  same_but stored KFunction (f_namespace f) (f_name f) w w' -> servable c p f data s w -> servable c p f data s w'.
Proof.
  intros Hb [Hc Hn Hcfg Hsrc (Hcm & Hsvc & Hd) Hs].
  pose proof (fun k ns n => other_kind KFunction _ _ _ _ k ns n Hb) as Ho.
  split; [done..| |].
  - unfold available, ours_or_absent, deployment_free. rewrite !Ho by done. done.
  - eapply scalable_same; [intros; by apply Ho..|exact Hs].
Qed.

Lemma has_finalizer_added f : FunctionObjHasFinalizer (with_finalizer f) functionFinalizer = true.
Proof.
  unfold FunctionObjHasFinalizer. cbn. rewrite existsb_app. simpl. by rewrite orb_true_r.
Qed.

(** The processing of a key, with what is known of the deployment. *)
Lemma processItem_provides_with R c key ns name p f data s w
    (Hkey : SplitMetaNamespaceKey key = Ok (ns, name))
    (Hidx : H' (IndexerGetByKey key) w = (Ok (Some p), w))
    (Hst : stored w KFunction (f_namespace f) (f_name f) = Some f)
    (HR : always_deploys c f (m_lr s) R) (Hsv : servable c p f data s w) :
  exists w' s', run H' (processItem c key) s w = (Done tt, s', w') /\ fulfilled f data w' /\
    deployed_with R f w' /\ held_names f w' /\ scaled H' c f (function_owner f) w w' /\
    exists f', stored w' KFunction (f_namespace f) (f_name f) = Some f' /\ f_Spec f' = f_Spec f /\
      FunctionObjHasFinalizer f' functionFinalizer = true.
Proof.
  pose proof Hsv as [[Hp Hdel] _ _ _ _ _].
  assert (exists w0 f', run H' (if negb (FunctionObjHasFinalizer f functionFinalizer)
      then FunctionObjAddFinalizer f functionFinalizer else mret tt) s w = (Done tt, s, w0) /\
    servable c p f data s w0 /\
    (forall k ns' n', k <> KFunction -> stored w0 k ns' n' = stored w k ns' n') /\ stored w0 KFunction (f_namespace f) (f_name f) = Some f' /\
    f_Spec f' = f_Spec f /\ FunctionObjHasFinalizer f' functionFinalizer = true)
    as (w0 & f' & E0 & Hsv0 & Hk0 & Hst0 & Hspec & Hfin).
  { destruct (FunctionObjHasFinalizer f functionFinalizer) eqn:Ef; simpl; [by exists w, f|].
    destruct (api_update w KFunction (f_namespace f) (with_finalizer f) f Hst) as (f' & w0 & E & Ha & Hs & Hb).
    { split; [by right|done]. }
    exists w0, f'. unfold FunctionObjAddFinalizer, UpdateFunctionCustomResource. fold (with_finalizer f).
    split_and!.
    - change (f_namespace (with_finalizer f)) with (f_namespace f). by rewrite E.
    - by eapply servable_update.
    - intros k ns' n' Hk. by eapply other_kind.
    - change (obj_name KFunction (with_finalizer f)) with (f_name f) in Hs. rewrite Hs.
      unfold finalized. cbn. by rewrite Hdel.
    - by destruct Ha as [_ Ha].
    - destruct Ha as [(_ & _ & _ & _ & Hf & _) _]. unfold FunctionObjHasFinalizer in *. simpl in Hf. rewrite Hf.
      apply (has_finalizer_added f). }
  destruct (ensureK8sResources_provides R c p f data s w0 HR Hsv0) as (w' & s' & E & Hff & Hdw & Hheld & Hscaled & Hkeep).
  exists w', s'. split; [|split; [exact Hff|split; [exact Hdw|split; [exact Hheld|split]]]].
  - unfold processItem. eapply run_then; [by rewrite run_lift, Hkey|]. cbv beta iota.
    eapply run_then; [unfold indexer_get, call; cbn; by rewrite Hidx|]. cbv beta iota.
    eapply run_then; [by rewrite run_load, Hp|]. rewrite Hdel. by eapply run_then.
  - eapply scaled_from; [|exact Hscaled]. intros. by apply Hk0.
  - exists f'. by rewrite Hkeep.
Qed.

(** C5. On a lawful server, processing the key of a servable function ends
    normally: the config map holds its source under its file name, the service
    its ports; the deployment -- a new one, or the function's own one on a
    server that applies patches -- selects its own pods, which carry the
    function's label, and its first container listens on the target port, is told module,
    handler and runtime, and is probed; the stored function has the
    controller's finalizer; and there is the autoscaler it asks for, with its
    service monitor if it scales by a custom metric, or no autoscaler. *)
Theorem processItem_provides c key ns name p f data s w
    (Hkey : SplitMetaNamespaceKey key = Ok (ns, name))
    (Hidx : H' (IndexerGetByKey key) w = (Ok (Some p), w))
    (Hst : stored w KFunction (f_namespace f) (f_name f) = Some f)
    (Hsv : servable c p f data s w) :
  exists w' s', run H' (processItem c key) s w = (Done tt, s', w') /\ fulfilled f data w' /\
    scaled H' c f (function_owner f) w w' /\
    exists f', stored w' KFunction (f_namespace f) (f_name f) = Some f' /\ f_Spec f' = f_Spec f /\
      FunctionObjHasFinalizer f' functionFinalizer = true.
Proof.
  destruct (processItem_provides_with (fun _ => True) c key ns name p f data s w Hkey Hidx Hst)
    as (w' & s' & E & Hf & _ & _ & Hsc & Hst'); [intros ? ? ? ? _ _ _; apply ensures_true|done|eauto 10].
Qed.

End Reconciles.

(** ** A function to serve, which scales by its calls *)
Import Concrete.

Module ServeSample.
Definition data : gmap string string :=
  match configMapData ScalingSample.function test_runtimes with Ok d => d | Error _ => ∅ end.
End ServeSample.

Lemma processItem_provides_witness :
  exists w' s', run serve (processItem controller "default/foo") (memory ScalingSample.function) (server ScalingSample.function)
      = (Done tt, s', w') /\ fulfilled serve ScalingSample.function ServeSample.data w' /\
    exists h, w_store w' KHPA !! ("default", "foo") = Some h /\ hs_MaxReplicas (hpa_Spec h) = 3%Z.
Proof.
  destruct (processItem_provides serve controller "default/foo" "default" "foo" 1%positive ScalingSample.function
    ServeSample.data (memory ScalingSample.function) (server ScalingSample.function)) as (w' & s' & E & Hf & [(h & Hh & Hspec & _) _] & _).
  - reflexivity.
  - reflexivity.
  - reflexivity.
  - split; [by split|split; discriminate|split; [reflexivity|by vm_compute]| |
      split_and!; [intros o [=]|intros o [=]|left; reflexivity]|split; [discriminate|split; [reflexivity|split; [by split|intros o [=]]]]].
    split; [reflexivity|]. split; [by eexists _, _|]. right. exists test_runtimes.
    split; [by eexists _, _|reflexivity|right; by eexists|by eexists| |].
    + intros S. reflexivity.
    + eexists. split; [reflexivity|]. by apply (bool_decide_unpack _).
  - exists w', s'. split; [exact E|]. split; [exact Hf|]. exists h. split; [exact Hh|by rewrite Hspec].
Defined.
