(* ===== verification/ImageBuilder.v ===== *)
(** * The image builder (pkg/function-image-builder)

    A function image is its runtime's image with one more layer, the tar of the
    function.  The build job pulls the base image into a directory of
    content-addressed files with skopeo, [AddTarToLayer] adds the layer there,
    and skopeo pushes the result. *)
From S2P Require Import Prelude GoStrings GoRegexp GoCodec GoProg World K8sUtil.

(** ** Data (layer.go, manifest.go, description.go) *)

Record Layer := { Size : Z; Sha256 : string }.

Record layer := { l_MediaType : string; l_Size : Z; l_Digest : string }.

Record Manifest := {
  SchemaVersion : Z; MediaType : string; m_Config : layer; Layers : list layer }.

Definition zero_manifest : Manifest :=
  {| SchemaVersion := 0; MediaType := "";
     m_Config := {| l_MediaType := ""; l_Size := 0; l_Digest := "" |}; Layers := [] |}.

(** The container configuration: the fields the program resets and, as one
    value, the others. *)
Record Config := { Hostname : string; cfg_Image : string; cfg_Rest : string }.

Record HistoryEntry := {
  h_Created : string; h_CreatedBy : string; h_Comment : string; h_EmptyLayer : bool }.

Record Rootfs := { rfs_Type : string; DiffIds : list string }.

(** [d_Rest] are the fields the program carries along. *)
Record Description := {
  d_Config : Config; d_Container : string; d_ContainerConfig : Config; d_Created : string;
  d_History : list HistoryEntry; d_Rootfs : Rootfs; d_Rest : string }.

(** encoding/json at these types. [Unmarshal] into a manifest gives what the
    variable holds afterwards and the error. *)
Class ImageJson := {
  json_Unmarshal_manifest : string -> Manifest -> Manifest * option gerror;
  json_Marshal_manifest : Manifest -> result string;
  json_Unmarshal_description : string -> result Description;
  json_Marshal_description : Description -> result string }.

Definition digest_of (sha : string) : string := "sha256:" +:+ sha.

(** ** Manifest *)

(** An error of [json.Unmarshal] is dropped: [Manifest.New] returns nil. *)
Definition Manifest_New `{ImageJson} (m : Manifest) (content : result string) : result Manifest :=
  match content with
  | Error e => Error e
  | Ok c => Ok (fst (json_Unmarshal_manifest c m))
  end.

Definition UpdateConfig (m : Manifest) (newConfig : Layer) : Manifest :=
  {| SchemaVersion := SchemaVersion m; MediaType := MediaType m;
     m_Config := {| l_MediaType := l_MediaType (m_Config m); l_Size := Size newConfig;
                    l_Digest := digest_of (Sha256 newConfig) |};
     Layers := Layers m |}.

Definition new_layer (l : Layer) : layer :=
  {| l_MediaType := "application/vnd.docker.image.rootfs.diff.tar.gzip"; l_Size := Size l;
     l_Digest := digest_of (Sha256 l) |}.

Definition Manifest_AddLayer (m : Manifest) (newLayer : Layer) : Manifest :=
  {| SchemaVersion := SchemaVersion m; MediaType := MediaType m; m_Config := m_Config m;
     Layers := Layers m ++ [new_layer newLayer] |}.

(** ** Description *)
Section Operations.
Context {S : Type} `{ImageJson}.

Definition reset_config (c : Config) : Config :=
  {| Hostname := ""; cfg_Image := ""; cfg_Rest := cfg_Rest c |}.

(** The description with the layer, at the two times read. *)
Definition with_layer (d : Description) (newLayer : Layer) (now now' : string) : Description :=
  {| d_Config := reset_config (d_Config d); d_Container := "";
     d_ContainerConfig := reset_config (d_ContainerConfig d); d_Created := now;
     d_History := d_History d ++ [{| h_Created := now'; h_CreatedBy := "";
        h_Comment := "Created by Kubeless"; h_EmptyLayer := false |}];
     d_Rootfs := {| rfs_Type := rfs_Type (d_Rootfs d);
                    DiffIds := DiffIds (d_Rootfs d) ++ [digest_of (Sha256 newLayer)] |};
     d_Rest := d_Rest d |}.

Definition Description_AddLayer (d : Description) (newLayer : Layer) : go S Description :=
  now ← time_now;
  now' ← time_now;
  mret (with_layer d newLayer now now').

(** [json.Marshal] of the description. *)
Definition Description_Content (d : Description) : result string := json_Marshal_description d.

(** The layer of some content. *)
Definition layer_of (content : string) : Layer :=
  {| Size := int64 (Z.of_nat (String.length content)); Sha256 := sha256_hex content |}.

Definition ToLayer (d : Description) : result Layer :=
  content ← Description_Content d;
  Ok (layer_of content).

(** ** Files (layer_builder.go) *)

(** [io.Copy] reads the source after the destination was created. *)
Definition copyReader (src : go S (result string)) (dst : string) : go S unit :=
  must (file_create dst);;
  content ← must src;
  must (file_write dst content);;
  must (file_sync dst).

Definition copyFile (src dst : string) : go S unit :=
  must (file_open src);;
  copyReader (file_read src) dst.

(** [getLayer] with [Layer.New] inlined: digest of the content, size by stat. *)
Definition getLayer (file : string) : go S Layer :=
  must (file_open file);;
  fContent ← must (file_read file);
  size ← must (file_stat file);
  mret {| Size := size; Sha256 := sha256_hex fContent |}.

Definition saveNewDescription (content dir contentChecksum : string) : go S unit :=
  copyReader (mret (Ok content)) (path_Join [dir; contentChecksum]).

Definition updateDescription (descriptionPath : string) (newLayer : Layer) : go S Description :=
  content ← file_read descriptionPath;
  match (content ≫= json_Unmarshal_description) with
  | Error e => Throw (Errorf ("Unable to parse image description: " +:+ err_msg e))
  | Ok d => Description_AddLayer d newLayer
  end.

Definition described {A} (msg : string) (r : result A) : result A :=
  match r with Ok a => Ok a | Error e => Error (Errorf (msg +:+ err_msg e)) end.

(** [ioutil.WriteFile] creates or truncates, then writes. *)
Definition AddTarToLayer (imageDir tarFile : string) : go S unit :=
  tarLayer ← getLayer tarFile;
  let destFile := path_Join [imageDir; Sha256 tarLayer] in
  r ← attempt (copyFile tarFile destFile);
  lift (described "Failed to copy tar file: " r);;
  let manifestPath := path_Join [imageDir; "manifest.json"] in
  must (file_open manifestPath);;
  content ← file_read manifestPath;
  m ← lift (described "Failed to parse image manifest: " (Manifest_New zero_manifest content));
  let descriptionPath :=
    path_Join [imageDir; Replace (l_Digest (m_Config m)) "sha256:" ""] in
  must (file_open descriptionPath);;
  description ← updateDescription descriptionPath tarLayer;
  descriptionLayer ← lift (described "Unable to generate layer from description: "
                             (ToLayer description));
  descriptionContent ← lift (Description_Content description);
  saveNewDescription descriptionContent imageDir (Sha256 descriptionLayer);;
  let m := Manifest_AddLayer (UpdateConfig m descriptionLayer) tarLayer in
  mBytes ← lift (json_Marshal_manifest m);
  must (file_create manifestPath);;
  must (file_write manifestPath mBytes).

(** ** The command (image_builder.go) *)

(** The output of the command is copied to standard output and error. *)
Definition runCommand (command : string) (args : list string) : go S unit :=
  must (run_command command args).

Definition skopeo_args (src dst srcCreds dstCreds : string) (insecure : bool) : list string :=
  ["copy"] ++ (if srcCreds =?s "" then [] else ["--src-creds"; srcCreds])
  ++ (if dstCreds =?s "" then [] else ["--dest-creds"; dstCreds])
  ++ (if insecure then ["--src-tls-verify=false"; "--dest-tls-verify=false"] else [])
  ++ [src; dst].

Definition skopeoCopy (src dst srcCreds dstCreds : string) (insecure : bool) : go S unit :=
  runCommand "skopeo" (skopeo_args src dst srcCreds dstCreds insecure).

(** The flags of add-layer, at their defaults unless given. *)
Record layer_flags := {
  lf_insecure : bool; lf_src : string; lf_src_creds : string; lf_dst : string;
  lf_dst_creds : string; lf_cwd : string }.

(** [if err != nil { log.Fatal(err) }]. *)
Definition or_fatal {A} (p : go S A) : go S A :=
  r ← attempt p; match r with Ok a => mret a | Error e => Fatal (err_msg e) end.

Definition layerCmd (flags : layer_flags) (args : list string) : go S unit :=
  match args with
  | [layerTar] =>
      if lf_src flags =?s "" then
        Fatal "Need specify the source image using the flag --src"
      else if lf_dst flags =?s "" then
        Fatal "Need specify the destination image using the flag --dst"
      else
        workDir ← (if lf_cwd flags =?s "" then or_fatal (must temp_dir) else mret (lf_cwd flags));
        or_fatal (skopeoCopy (lf_src flags) ("dir://" +:+ workDir) (lf_src_creds flags)
                    (lf_dst_creds flags) (lf_insecure flags));;
        or_fatal (AddTarToLayer workDir layerTar);;
        or_fatal (skopeoCopy ("dir://" +:+ workDir) (lf_dst flags) (lf_src_creds flags)
                    (lf_dst_creds flags) (lf_insecure flags))
  | _ => Fatal "Need exactly one argument - layer tar"
  end.

End Operations.

(** ** A file system *)

(** 7-bit text: a digest, a time. *)
Definition ascii (s : string) : Prop :=
  forall c, c ∈ chars s -> (Ascii.nat_of_ascii c < 128)%nat.

Lemma ascii_check s :
  bool_decide (Forall (fun c => Ascii.nat_of_ascii c < 128)%nat (chars s)) = true -> ascii s.
Proof. intros Hs%bool_decide_eq_true. unfold ascii. by apply Forall_forall. Qed.

Class FileSystem {W : Type} (H : handler resp W) := {
  contents : W -> string -> option string;
  fs_read w p c : contents w p = Some c -> H (FileRead p) w = (Ok c, w);
  fs_open w p c : contents w p = Some c -> H (FileOpen p) w = (Ok tt, w);
  fs_stat w p c : contents w p = Some c ->
    H (FileStat p) w = (Ok (int64 (Z.of_nat (String.length c))), w);
  fs_create w p : exists w', H (FileCreate p) w = (Ok tt, w') /\
    contents w' p = Some "" /\ (forall q, q <> p -> contents w' q = contents w q);
  fs_write w p c : exists w', H (FileWrite p c) w = (Ok tt, w') /\
    contents w' p = Some c /\ (forall q, q <> p -> contents w' q = contents w q);
  fs_sync w p : exists w', H (FileSync p) w = (Ok tt, w') /\
    (forall q, contents w' q = contents w q);
  fs_now w : exists t w', H TimeNow w = (t, w') /\ ascii t /\ (forall q, contents w' q = contents w q) }.

#[export] Program Instance serve_files : FileSystem serve := {|
  contents w p := w_files w !! p
|}.
Next Obligation. intros w p c E. simpl in *. by rewrite E. Qed.
Next Obligation. intros w p c E. simpl in *. by rewrite E. Qed.
Next Obligation. intros w p c E. simpl in *. by rewrite E. Qed.
Next Obligation.
  intros w p. eexists. split; [done|]. simpl. split; [apply lookup_insert_eq|].
  intros q Hq. by rewrite lookup_insert_ne.
Qed.
Next Obligation.
  intros w p c. eexists. split; [done|]. simpl. split; [apply lookup_insert_eq|].
  intros q Hq. by rewrite lookup_insert_ne.
Qed.
Next Obligation. intros w p. by eexists. Qed.
Next Obligation.
  intros w. eexists _, _. split_and!; [done| |done]. by apply ascii_check.
Qed.

(** ** An image directory *)

Section Text.
Variable text : string -> Prop.

Definition text_layer (l : layer) : Prop :=
  text (l_MediaType l) /\ (- 2^63 <= l_Size l < 2^63)%Z /\ text (l_Digest l).

Definition text_manifest (m : Manifest) : Prop :=
  text (MediaType m) /\ text_layer (m_Config m) /\ Forall text_layer (Layers m).

Definition text_config (c : Config) : Prop :=
  text (Hostname c) /\ text (cfg_Image c) /\ text (cfg_Rest c).

Definition text_entry (h : HistoryEntry) : Prop :=
  text (h_Created h) /\ text (h_CreatedBy h) /\ text (h_Comment h).

Definition text_description (d : Description) : Prop :=
  text_config (d_Config d) /\ text (d_Container d) /\ text_config (d_ContainerConfig d) /\
  text (d_Created d) /\ Forall text_entry (d_History d) /\ text (rfs_Type (d_Rootfs d)) /\
  Forall text (DiffIds (d_Rootfs d)) /\ text (d_Rest d).

End Text.

(** encoding/json replaces what is not UTF-8, so marshalling can be undone for
    UTF-8 strings ([text]), and what it parsed has such strings only. *)
Class ImageJsonLaws `{ImageJson} := {
  text : string -> Prop;
  text_ascii s : ascii s -> text s;
  manifest_roundtrip m : text_manifest text m -> exists c, json_Marshal_manifest m = Ok c /\
    json_Unmarshal_manifest c zero_manifest = (m, None);
  manifest_text c m : json_Unmarshal_manifest c zero_manifest = (m, None) -> text_manifest text m;
  description_roundtrip d : text_description text d -> exists c, json_Marshal_description d = Ok c /\
    json_Unmarshal_description c = Ok d;
  description_text c d : json_Unmarshal_description c = Ok d -> text_description text d }.

Section Consistency.
Context `{ImageJsonLaws}.
Implicit Types (fc : string -> option string).

(** The file a digest names in the directory. *)
Definition addressed (dir : string) fc (digest content : string) : Prop :=
  digest = digest_of (sha256_hex content) /\
  fc (path_Join [dir; sha256_hex content]) = Some content.

(** The manifest and the description it names parse, every digest in the
    manifest is the digest of the file of that name, and there are as many
    layers as there are diff IDs. *)
Record image_ok (dir : string) fc (m : Manifest) (d : Description) : Prop := {
  ok_manifest : exists c, fc (path_Join [dir; "manifest.json"]) = Some c /\
    json_Unmarshal_manifest c zero_manifest = (m, None);
  ok_description : exists c, addressed dir fc (l_Digest (m_Config m)) c /\
    json_Unmarshal_description c = Ok d;
  ok_layers : forall l, l ∈ Layers m -> exists c, addressed dir fc (l_Digest l) c;
  ok_diffs : length (Layers m) = length (DiffIds (d_Rootfs d)) }.

Lemma strip_digest sha : lacks ":"%char sha -> Replace (digest_of sha) "sha256:" "" = sha.
Proof. apply Replace_prefix. apply (bool_decide_unpack (_ ∈ _)). vm_compute. exact Logic.I. Qed.

Lemma manifest_plain : plain "manifest.json".
Proof. split; [lacks_done|done]. Qed.

(** Writing a content-addressed file keeps every other one in its place. *)
Lemma addressed_write dir fc fc' content digest c :
  dir <> "" -> fc' (path_Join [dir; sha256_hex content]) = Some content ->
  (forall q, q <> path_Join [dir; sha256_hex content] -> fc' q = fc q) ->
  addressed dir fc digest c -> exists c', addressed dir fc' digest c'.
Proof.
  intros Hdir Hw Hother [-> Hc].
  destruct (decide (sha256_hex c = sha256_hex content)) as [E|Hne].
  - exists content. split; [by rewrite E|done].
  - exists c. split; [done|]. rewrite Hother; [done|].
    destruct (path_Join_prefix dir Hdir) as [pre Hpre].
    rewrite !Hpre by apply sha256_hex_plain. intros E%string_app_inj_l. done.
Qed.

Lemma manifest_path dir c :
  dir <> "" -> path_Join [dir; "manifest.json"] <> path_Join [dir; sha256_hex c].
Proof.
  intros Hdir. destruct (path_Join_prefix dir Hdir) as [pre Hpre].
  rewrite !Hpre by (apply sha256_hex_plain || apply manifest_plain).
  intros E%string_app_inj_l. pose proof (sha256_hex_length c) as Hl. by rewrite <- E in Hl.
Qed.

Lemma addressed_other dir fc fc' p digest c :
  (forall q, q <> p -> fc' q = fc q) -> (forall x, p <> path_Join [dir; sha256_hex x]) ->
  addressed dir fc digest c -> addressed dir fc' digest c.
Proof. intros Ho Hp [-> Hc]. split; [done|]. rewrite Ho; [done|]. intros E. by apply (Hp c). Qed.

(** ** The strings of the result are text *)

Lemma ascii_app a b : ascii a -> ascii b -> ascii (a +:+ b).
Proof. intros Ha Hb c. rewrite chars_app, elem_of_app. intros [?|?]; eauto. Qed.

Lemma sha256_hex_ascii s : ascii (sha256_hex s).
Proof.
  intros c Hc. assert (c ∈ chars hex_digits) as Hin.
  { destruct (decide (c ∈ chars hex_digits)) as [|Hn]; [done|].
    by destruct (sha256_hex_lacks c s Hn). }
  revert Hin. by apply (ascii_check hex_digits).
Qed.

Lemma digest_text s : text (digest_of (sha256_hex s)).
Proof.
  apply text_ascii, ascii_app; [by apply ascii_check|apply sha256_hex_ascii].
Qed.

Lemma layer_text mt c :
  text mt ->
  text_layer text {| l_MediaType := mt; l_Size := Size (layer_of c); l_Digest := digest_of (sha256_hex c) |}.
Proof. intros Hmt. split; [done|]. split; [apply int64_range|apply digest_text]. Qed.

Lemma manifest_with_layer m c T :
  text_manifest text m ->
  text_manifest text (Manifest_AddLayer (UpdateConfig m (layer_of c)) (layer_of T)).
Proof.
  intros (Hm & (Hc & _) & Hl). split; [done|]. split; [by apply layer_text|].
  apply Forall_app. split; [done|]. apply Forall_singleton, layer_text. by apply text_ascii, ascii_check.
Qed.

Lemma description_with_layer d T t t' :
  text_description text d -> ascii t -> ascii t' ->
  text_description text (with_layer d (layer_of T) t t').
Proof.
  intros ((_ & _ & Hc) & Hn & (_ & _ & Hcc) & _ & Hh & Ht & Hd & Hr) ? ?.
  unfold text_description, text_config. simpl.
  split_and!; try done; try (by apply text_ascii, ascii_check); try (by apply text_ascii);
    (apply Forall_app; split; [done|]; apply Forall_singleton); [|apply digest_text].
  split_and!; [by apply text_ascii|by apply text_ascii, ascii_check..].
Qed.

Section Run.
Context {W S : Type} (H' : handler resp W) `{!FileSystem H'}.
Implicit Types (w : W) (s : S).

Lemma run_copyReader (src : go S (result string)) dst content s w :
  (forall w', (forall q, q <> dst -> contents w' q = contents w q) ->
     run H' src s w' = (Done (Ok content), s, w')) ->
  exists w', run H' (copyReader src dst) s w = (Done tt, s, w') /\ contents w' dst = Some content /\
    (forall q, q <> dst -> contents w' q = contents w q).
Proof.
  intros Hsrc. destruct (fs_create w dst) as (w1 & E1 & Hd1 & Ho1).
  destruct (fs_write w1 dst content) as (w2 & E2 & Hd2 & Ho2).
  destruct (fs_sync w2 dst) as (w3 & E3 & Ho3). exists w3. split_and!.
  - unfold copyReader, must, file_create, file_write, file_sync.
    rewrite run_bind. cbn [run mbind prog_mbind prog_bind call]. rewrite E1. cbn [run lift].
    change (prog_bind src lift) with (src ≫= lift).
    rewrite run_bind, run_bind, Hsrc by done. cbn. rewrite E2. cbn. by rewrite E3.
  - by rewrite Ho3.
  - intros q Hq. by rewrite Ho3, Ho2, Ho1.
Qed.

Lemma run_copyFile src dst content s w :
  src <> dst -> contents w src = Some content ->
  exists w', run H' (copyFile src dst) s w = (Done tt, s, w') /\ contents w' dst = Some content /\
    (forall q, q <> dst -> contents w' q = contents w q).
Proof.
  intros Hne Hsrc. destruct (run_copyReader (file_read src) dst content s w) as (w' & E & Hw).
  { intros w' Ho. unfold file_read. cbn. by rewrite (fs_read w' src content) by (by rewrite Ho). }
  exists w'. split; [|done]. unfold copyFile, must, file_open. rewrite run_bind.
  cbn [run prog_bind call]. rewrite (fs_open w src content Hsrc). cbn [run lift]. exact E.
Qed.

Lemma run_getLayer file content s w :
  contents w file = Some content ->
  run H' (getLayer file) s w = (Done (layer_of content), s, w).
Proof.
  intros Hc. unfold getLayer, must, file_open, file_read, file_stat. cbn.
  rewrite (fs_open w file content Hc). cbn. rewrite (fs_read w file content Hc). cbn.
  by rewrite (fs_stat w file content Hc).
Qed.

Lemma run_updateDescription path c d l s w :
  contents w path = Some c -> json_Unmarshal_description c = Ok d ->
  exists t t' w', run H' (updateDescription path l) s w = (Done (with_layer d l t t'), s, w') /\
    ascii t /\ ascii t' /\ (forall q, contents w' q = contents w q).
Proof.
  intros Hc Hd. destruct (fs_now w) as (t & w1 & E1 & Ht & Ho1).
  destruct (fs_now w1) as (t' & w2 & E2 & Ht' & Ho2). exists t, t', w2.
  split_and!; try done; [|intros q; by rewrite Ho2].
  unfold updateDescription, file_read. cbn. rewrite (fs_read w path c Hc). cbn. rewrite Hd.
  unfold Description_AddLayer, time_now. cbn. rewrite E1. cbn. by rewrite E2.
Qed.

Lemma run_writeFile path c s w :
  exists w', run H' (must (file_create path);; must (file_write path c)) s w = (Done tt, s, w') /\
    contents w' path = Some c /\ (forall q, q <> path -> contents w' q = contents w q).
Proof.
  destruct (fs_create w path) as (w1 & E1 & _ & Ho1).
  destruct (fs_write w1 path c) as (w2 & E2 & Hc2 & Ho2). exists w2. split_and!; [|done|].
  - unfold must, file_create, file_write. cbn. rewrite E1. cbn. by rewrite E2.
  - intros q Hq. by rewrite Ho2, Ho1.
Qed.

Lemma run_must_open path c s w :
  contents w path = Some c -> run H' (must (file_open path)) s w = (Done tt, s, w).
Proof. intros Hc. unfold must, file_open. cbn. by rewrite (fs_open w path c Hc). Qed.

Lemma run_file_read path c s w :
  contents w path = Some c -> run H' (file_read path) s w = (Done (Ok c), s, w).
Proof. intros Hc. unfold file_read. cbn. by rewrite (fs_read w path c Hc). Qed.

(** What [AddTarToLayer] leaves behind: the files that changed. *)
Lemma run_AddTarToLayer dir tarFile T m d s w :
  dir <> "" -> contents w tarFile = Some T -> tarFile <> path_Join [dir; sha256_hex T] ->
  (forall c, contents w (path_Join [dir; sha256_hex T]) = Some c -> c = T) ->
  image_ok dir (contents w) m d ->
  exists w' t t' dc mc, let d' := with_layer d (layer_of T) t t' in
    let m' := Manifest_AddLayer (UpdateConfig m (layer_of dc)) (layer_of T) in
    run H' (AddTarToLayer dir tarFile) s w = (Done tt, s, w') /\
    json_Unmarshal_description dc = Ok d' /\
    json_Unmarshal_manifest mc zero_manifest = (m', None) /\
    forall q, contents w' q =
      if decide (q = path_Join [dir; "manifest.json"]) then Some mc
      else if decide (q = path_Join [dir; sha256_hex dc]) then Some dc
      else if decide (q = path_Join [dir; sha256_hex T]) then Some T
      else contents w q.
Proof.
  intros Hdir HT Hne Hcoll [(mc & Hmc & Hm) (c & [Hdig Hc] & Hd) _ _].
  set (dest := path_Join [dir; sha256_hex T]) in *.
  destruct (run_copyFile tarFile dest T s w Hne HT) as (w1 & E1 & Hd1 & Ho1).
  assert (contents w1 (path_Join [dir; sha256_hex c]) = Some c) as Hc1.
  { destruct (decide (path_Join [dir; sha256_hex c] = dest)) as [E|Hn].
    - rewrite E in *. rewrite Hd1. f_equal. symmetry. by apply Hcoll.
    - by rewrite Ho1. }
  assert (contents w1 (path_Join [dir; "manifest.json"]) = Some mc) as Hm1.
  { rewrite Ho1; [done|]. by apply manifest_path. }
  destruct (run_updateDescription _ c d (layer_of T) s w1 Hc1 Hd)
    as (t & t' & w2 & E2 & Ht & Ht' & Ho2).
  set (d' := with_layer d (layer_of T) t t') in *.
  destruct (description_roundtrip d') as (dc & Hdc & Hdc').
  { apply description_with_layer; eauto using description_text. }
  destruct (run_copyReader (mret (Ok dc)) (path_Join [dir; sha256_hex dc]) dc s w2)
    as (w3 & E3 & Hd3 & Ho3); [done|].
  set (m' := Manifest_AddLayer (UpdateConfig m (layer_of dc)) (layer_of T)) in *.
  destruct (manifest_roundtrip m') as (mc' & Hmc' & Hm').
  { eapply manifest_with_layer, manifest_text; eauto. }
  destruct (run_writeFile (path_Join [dir; "manifest.json"]) mc' s w3) as (w4 & E4 & Hm4 & Ho4).
  exists w4, t, t', dc, mc'. split_and!; try done.
  - unfold AddTarToLayer. rewrite run_bind, (run_getLayer _ T) by done.
    simpl Sha256. fold dest. rewrite run_bind, run_attempt, E1.
    rewrite run_bind, run_lift. simpl described.
    rewrite run_bind, (run_must_open _ mc) by done.
    rewrite run_bind, (run_file_read _ mc) by done.
    rewrite run_bind, run_lift. simpl Manifest_New. rewrite Hm. cbv beta iota delta [described fst].
    rewrite Hdig, strip_digest by (apply sha256_hex_lacks; lacks_done).
    rewrite run_bind, (run_must_open _ c) by done.
    assert (ToLayer d' = Ok (layer_of dc)) as EL by (unfold ToLayer, Description_Content; by rewrite Hdc).
    rewrite run_bind, E2, run_bind, run_lift, EL. cbv beta iota delta [described].
    rewrite run_bind, run_lift. unfold Description_Content. rewrite Hdc.
    unfold saveNewDescription. simpl Sha256. rewrite run_bind, E3.
    rewrite run_bind, run_lift. fold m'. rewrite Hmc'. exact E4.
  - intros q. repeat case_decide; subst; eauto.
    + by rewrite Ho4.
    + by rewrite Ho4, Ho3, Ho2.
    + by rewrite Ho4, Ho3, Ho2, Ho1.
Qed.

(** C20. Adding the function's tar to an image directory succeeds and keeps the
    directory consistent: the manifest and the description it names parse,
    they are the old ones with one more layer (the tar) and its diff ID, every
    digest names a file with that digest, and the tar is stored under its own
    unless the new description collides with it. *)
Theorem AddTarToLayer_ok dir tarFile T m d s w :
  dir <> "" -> contents w tarFile = Some T -> tarFile <> path_Join [dir; sha256_hex T] ->
  (forall c, contents w (path_Join [dir; sha256_hex T]) = Some c -> c = T) ->
  image_ok dir (contents w) m d ->
  exists w' t t' dc, let d' := with_layer d (layer_of T) t t' in
    run H' (AddTarToLayer dir tarFile) s w = (Done tt, s, w') /\
    image_ok dir (contents w') (Manifest_AddLayer (UpdateConfig m (layer_of dc)) (layer_of T)) d' /\
    json_Unmarshal_description dc = Ok d' /\
    (sha256_hex dc <> sha256_hex T -> contents w' (path_Join [dir; sha256_hex T]) = Some T).
Proof.
  intros Hdir HT Hne Hcoll Hok.
  destruct (run_AddTarToLayer dir tarFile T m d s w Hdir HT Hne Hcoll Hok)
    as (w' & t & t' & dc & mc & Hrun & Hdc & Hmc & Hw). exists w', t, t', dc.
  assert (forall c, contents w' (path_Join [dir; sha256_hex c]) =
    if decide (sha256_hex c = sha256_hex dc) then Some dc
    else if decide (sha256_hex c = sha256_hex T) then Some T
    else contents w (path_Join [dir; sha256_hex c])) as Hsha.
  { intros c. rewrite Hw. destruct (path_Join_prefix dir Hdir) as [pre Hpre].
    rewrite decide_False by (intros E; by apply (manifest_path dir c)).
    rewrite !Hpre by apply sha256_hex_plain.
    repeat case_decide; try done; try congruence;
      match goal with E : _ +:+ _ = _ +:+ _ |- _ => apply string_app_inj_l in E end; congruence. }
  assert (forall digest c, addressed dir (contents w) digest c ->
    exists c', addressed dir (contents w') digest c') as Hkeep.
  { intros digest c [-> Hc]. specialize (Hsha c) as Hc'. repeat case_decide.
    - exists dc. unfold addressed. by rewrite <- H1.
    - exists T. unfold addressed. by rewrite <- H2.
    - exists c. by rewrite <- Hc' in Hc. }
  split_and!; [done| |done|].
  - destruct Hok as [_ _ Hl Hlen]. split; simpl.
    + exists mc. split; [|done]. rewrite Hw. by rewrite decide_True.
    + exists dc. split; [|done]. split; [done|]. by rewrite Hsha, decide_True.
    + intros l [Hin| ->%list_elem_of_singleton]%elem_of_app.
      * destruct (Hl l Hin) as [c Hc]. eauto.
      * specialize (Hsha T). repeat case_decide; try done.
        -- exists dc. unfold addressed. simpl. by rewrite <- H1.
        -- by exists T.
    + by rewrite !length_app, Hlen.
  - intros Hn. by rewrite Hsha, decide_False, decide_True.
Qed.

End Run.

End Consistency.

(** ** An image directory to evaluate on *)
Module Image.

#[export] Instance layer_eq : EqDecision layer. Proof. solve_decision. Defined.
#[export] Instance Manifest_eq : EqDecision Manifest. Proof. solve_decision. Defined.
#[export] Instance Config_eq : EqDecision Config. Proof. solve_decision. Defined.
#[export] Instance HistoryEntry_eq : EqDecision HistoryEntry. Proof. solve_decision. Defined.
#[export] Instance Rootfs_eq : EqDecision Rootfs. Proof. solve_decision. Defined.
#[export] Instance Description_eq : EqDecision Description. Proof. solve_decision. Defined.

#[export] Program Instance layer_countable : Countable layer :=
  inj_countable' (fun l => (l_MediaType l, l_Size l, l_Digest l))
    (fun '(a, b, c) => {| l_MediaType := a; l_Size := b; l_Digest := c |}) _.
Next Obligation. by intros []. Qed.
#[export] Program Instance Manifest_countable : Countable Manifest :=
  inj_countable' (fun m => (SchemaVersion m, MediaType m, m_Config m, Layers m))
    (fun '(a, b, c, d) => {| SchemaVersion := a; MediaType := b; m_Config := c; Layers := d |}) _.
Next Obligation. by intros []. Qed.
#[export] Program Instance Config_countable : Countable Config :=
  inj_countable' (fun c => (Hostname c, cfg_Image c, cfg_Rest c))
    (fun '(a, b, c) => {| Hostname := a; cfg_Image := b; cfg_Rest := c |}) _.
Next Obligation. by intros []. Qed.
#[export] Program Instance HistoryEntry_countable : Countable HistoryEntry :=
  inj_countable' (fun h => (h_Created h, h_CreatedBy h, h_Comment h, h_EmptyLayer h))
    (fun '(a, b, c, d) =>
       {| h_Created := a; h_CreatedBy := b; h_Comment := c; h_EmptyLayer := d |}) _.
Next Obligation. by intros []. Qed.
#[export] Program Instance Rootfs_countable : Countable Rootfs :=
  inj_countable' (fun r => (rfs_Type r, DiffIds r))
    (fun '(a, b) => {| rfs_Type := a; DiffIds := b |}) _.
Next Obligation. by intros []. Qed.
#[export] Program Instance Description_countable : Countable Description :=
  inj_countable' (fun d => (d_Config d, d_Container d, d_ContainerConfig d, d_Created d,
                            d_History d, d_Rootfs d, d_Rest d))
    (fun '(a, b, c, d, e, f, g) =>
       {| d_Config := a; d_Container := b; d_ContainerConfig := c; d_Created := d;
          d_History := e; d_Rootfs := f; d_Rest := g |}) _.
Next Obligation. by intros []. Qed.

(** A text for a value: the bits of its code. *)
Fixpoint bits (p : positive) : string :=
  match p with xH => "" | xO q => "0" +:+ bits q | xI q => "1" +:+ bits q end.
Fixpoint unbits (s : string) : positive :=
  match s with
  | "" => xH
  | String c s' => if Ascii.eqb c "0"%char then xO (unbits s') else xI (unbits s')
  end.
Lemma unbits_bits p : unbits (bits p) = p.
Proof. induction p; simpl; by f_equal. Qed.

Definition sizes_ok (m : Manifest) : bool :=
  forallb (fun l => (- 2^63 <=? l_Size l)%Z && (l_Size l <? 2^63)%Z) (m_Config m :: Layers m).

#[export] Instance json : ImageJson := {|
  json_Unmarshal_manifest c m0 :=
    match decode (unbits c) with
    | Some m => if sizes_ok m then (m, None) else (m0, Some (Errorf "number out of range"))
    | None => (m0, Some (Errorf "syntax error"))
    end;
  json_Marshal_manifest m := Ok (bits (encode m));
  json_Unmarshal_description c :=
    match decode (unbits c) with Some d => Ok d | None => Error (Errorf "syntax error") end;
  json_Marshal_description d := Ok (bits (encode d)) |}.

Lemma sizes_ok_text m : sizes_ok m = true <-> text_manifest (fun _ => True) m.
Proof.
  unfold sizes_ok. rewrite <- Is_true_true, forallb_True, Forall_cons.
  assert (forall l, Is_true ((- 2^63 <=? l_Size l)%Z && (l_Size l <? 2^63)%Z) <->
    text_layer (fun _ => True) l) as Hl.
  { intros l. unfold text_layer. rewrite Is_true_true, andb_true_iff, Z.leb_le, Z.ltb_lt. tauto. }
  unfold text_manifest. rewrite Hl, (Forall_proper _ _ (fun l => Hl l) _ _ eq_refl). tauto.
Qed.

#[export] Program Instance json_laws : ImageJsonLaws := {| text _ := True |}.
Next Obligation. done. Qed.
Next Obligation.
  intros m Hm%sizes_ok_text. exists (bits (encode m)). split; [done|].
  cbn -[sizes_ok decode encode]. by rewrite unbits_bits, decode_encode, Hm.
Qed.
Next Obligation.
  intros c m. cbn -[sizes_ok decode encode]. destruct (decode (unbits c)) as [m'|]; [|done].
  destruct (sizes_ok m') eqn:E; [|done]. intros [= <-]. by apply sizes_ok_text.
Qed.
Next Obligation.
  intros d _. exists (bits (encode d)). split; [done|].
  cbn -[decode encode]. by rewrite unbits_bits, decode_encode.
Qed.
Next Obligation.
  intros c d _. repeat split; by (try apply Forall_true).
Qed.

(** A base image without layers, and the tar of a function. *)
Definition base_config : Config := {| Hostname := "h"; cfg_Image := "i"; cfg_Rest := "" |}.
Definition base_description : Description :=
  {| d_Config := base_config; d_Container := "c"; d_ContainerConfig := base_config;
     d_Created := ""; d_History := []; d_Rootfs := {| rfs_Type := "layers"; DiffIds := [] |};
     d_Rest := "" |}.
Definition description_file : string := Eval vm_compute in bits (encode base_description).
Definition description_sha : string := Eval vm_compute in sha256_hex description_file.
Definition base_manifest : Manifest :=
  {| SchemaVersion := 2; MediaType := "m";
     m_Config := {| l_MediaType := "c"; l_Size := 7; l_Digest := digest_of description_sha |};
     Layers := [] |}.
Definition manifest_file : string := Eval vm_compute in bits (encode base_manifest).
Definition files : world :=
  w_set_files empty_world
    {[ "img/manifest.json" := manifest_file; "img/" +:+ description_sha := description_file;
       "layer.tar" := "tar" ]}.
End Image.
Import Image.

Lemma AddTarToLayer_ok_witness :
  exists w' m' d', run serve (AddTarToLayer "img" "layer.tar") tt Image.files = (Done tt, tt, w') /\
    image_ok "img" (contents w') m' d' /\
    Layers m' = [new_layer (layer_of "tar")] /\ DiffIds (d_Rootfs d') = [digest_of (sha256_hex "tar")].
Proof.
  destruct (AddTarToLayer_ok serve "img" "layer.tar" "tar" Image.base_manifest Image.base_description
    tt Image.files) as (w' & t & t' & dc & Hrun & Hok & _).
  - done.
  - vm_compute. reflexivity.
  - vm_compute. discriminate.
  - intros c. vm_compute. discriminate.
  - split.
    + exists Image.manifest_file. split; vm_compute; reflexivity.
    + exists Image.description_file. split; [split|]; vm_compute; reflexivity.
    + simpl. intros l []%elem_of_nil.
    + reflexivity.
  - eexists w', _, _. split; [exact Hrun|]. split; [exact Hok|]. split; reflexivity.
Defined.
