(* ===== verification/Proxy.v ===== *)
(** * The function proxy (pkg/function-proxy)

    Every function of a native runtime is served through this proxy: it bounds
    the time of a call, counts calls and failures, and ends the process after
    a timeout.  A call is two concurrent goroutines and a channel, so a request
    is a state machine here; the server interleaves any number of them. *)
From S2P Require Import Prelude GoStrings GoProg World LangRuntime.

(** ** Configuration ([init] of proxy-utils.go) *)

Record proxy_config := { funcPort : string; intTimeout : Z; intShutdownTimeout : Z }.

(** A variable that is not set has its default; a number that does not parse
    panics. *)
Definition proxy_init `{OsEnv} : outcome proxy_config :=
  let timeout := if os_Getenv "FUNC_TIMEOUT" =?s "" then "180" else os_Getenv "FUNC_TIMEOUT" in
  let port := if os_Getenv "FUNC_PORT" =?s "" then "8080" else os_Getenv "FUNC_PORT" in
  let shutdown :=
    if os_Getenv "SHUTDOWN_TIMEOUT" =?s "" then "10" else os_Getenv "SHUTDOWN_TIMEOUT" in
  match Atoi timeout with
  | Error e => Panicked (err_msg e)
  | Ok t =>
      match Atoi shutdown with
      | Error e => Panicked (err_msg e)
      | Ok d => Done {| funcPort := port; intTimeout := t; intShutdownTimeout := d |}
      end
  end.

(** [NewServer]: the address listened on. *)
Definition NewServer_Addr (c : proxy_config) : string := ":" +:+ funcPort c.

(** ** Headers *)

Abbreviation header := (gmap string (list string)).

Definition lower_char (c : Ascii.ascii) : Ascii.ascii :=
  let n := Ascii.nat_of_ascii c in
  if (Nat.leb 65 n && Nat.leb n 90)%bool then Ascii.ascii_of_nat (n + 32) else c.

(** A token of RFC 7230, as a method or a header name has to be. *)
Definition token_char (c : Ascii.ascii) : bool :=
  let n := Ascii.nat_of_ascii c in
  (Nat.leb 48 n && Nat.leb n 57) || (Nat.leb 65 n && Nat.leb n 90)
  || (Nat.leb 97 n && Nat.leb n 122) || char_in "!#$%&'*+-.^_`|~" c.

Definition is_token (s : string) : bool := negb (s =?s "") && forallb token_char (chars s).

Fixpoint canonical_from (upper : bool) (s : string) : string :=
  match s with
  | "" => ""
  | String c s' => String (if upper then upper_char c else lower_char c)
                     (canonical_from (Ascii.eqb c "-"%char) s')
  end.

(** [textproto.CanonicalMIMEHeaderKey]. *)
Definition CanonicalMIMEHeaderKey (s : string) : string :=
  if forallb token_char (chars s) then canonical_from true s else s.

(** [http.Header.Add]. *)
Definition header_Add (h : header) (k v : string) : header :=
  let k := CanonicalMIMEHeaderKey k in <[k := default [] (h !! k) ++ [v]]> h.

Definition copyHeaders `{MapRange} (dst src : header) : header :=
  foldl (fun dst '(k, vv) => foldl (fun dst v => header_Add dst k v) dst vv) dst
    (map_range (Some src)).

Lemma header_Add_all h k vv :
  CanonicalMIMEHeaderKey k = k ->
  foldl (fun dst v => header_Add dst k v) h vv =
  match vv with [] => h | _ => <[k := default [] (h !! k) ++ vv]> h end.
Proof.
  intros Hk. revert h. induction vv as [|v vv IH]; intros h; [done|]. simpl. rewrite IH.
  unfold header_Add. rewrite Hk. destruct vv as [|v' vv]; [done|].
  rewrite lookup_insert_eq, insert_insert_eq. simpl. by rewrite <- app_assoc.
Qed.

(** A parsed request: canonical names, no name without a value. *)
Definition header_wf (h : header) : Prop :=
  map_Forall (fun k vv => CanonicalMIMEHeaderKey k = k /\ vv <> []) h.

Lemma copy_entries (l : list (string * list string)) (dst : header) :
  NoDup l.*1 -> Forall (fun '(k, vv) => CanonicalMIMEHeaderKey k = k /\ vv <> []) l ->
  (forall k, k ∈ l.*1 -> dst !! k = None) ->
  foldl (fun dst '(k, vv) => foldl (fun dst v => header_Add dst k v) dst vv) dst l =
  list_to_map l ∪ dst.
Proof.
  revert dst. induction l as [|[k vv] l IH]; intros dst Hnd Hwf Hnone; simpl.
  { by rewrite (left_id ∅ _). }
  apply NoDup_cons in Hnd as [Hk Hnd]. apply Forall_cons in Hwf as [[Hc Hvv] Hwf].
  rewrite header_Add_all by done. destruct vv as [|v vv]; [done|].
  rewrite Hnone by (by left). simpl. rewrite IH; [|done..|].
  - rewrite <- insert_union_l, insert_union_r; [done|]. by apply not_elem_of_list_to_map.
  - intros k' Hk'. rewrite lookup_insert_ne by (intros ->; done). apply Hnone. by right.
Qed.

(** Whatever order the map is visited in, the headers of a request are
    copied to the request for the function unchanged. *)
Theorem copyHeaders_id `{MapRange} (src : header) :
  header_wf src -> copyHeaders ∅ src = src.
Proof.
  intros Hwf. unfold copyHeaders. pose proof (map_range_perm (Some src)) as Hp. simpl in Hp.
  rewrite copy_entries.
  - rewrite (right_id ∅ _), (list_to_map_proper _ (map_to_list src)).
    + apply list_to_map_to_list.
    + rewrite Hp. apply NoDup_fst_map_to_list.
    + exact Hp.
  - rewrite Hp. apply NoDup_fst_map_to_list.
  - rewrite Hp. apply Forall_forall. intros [k vv] Hin%elem_of_map_to_list. by apply Hwf.
  - intros k _. apply lookup_empty.
Qed.

Lemma copyHeaders_id_witness :
  copyHeaders (H := canonical_range) ∅ {[ "Content-Type" := ["text/plain"]; "Event-Id" := ["a"; "b"] ]} =
  {[ "Content-Type" := ["text/plain"]; "Event-Id" := ["a"; "b"] ]}.
Proof.
  apply (copyHeaders_id (H := canonical_range)). apply map_Forall_insert; [done|].
  split; [split; [reflexivity|discriminate]|]. apply map_Forall_singleton. split; [reflexivity|discriminate].
Defined.

(** ** Forwarding a request (proxy.go) *)

Record Request := {
  r_RemoteAddr : string; r_Method : string; r_RequestURI : string; r_Proto : string;
  r_UserAgent : string; r_Header : header; r_Body : string; r_ContentLength : Z }.

(** What the client sends, and what it gets: status, and the body as
    [ioutil.ReadAll] returns it. *)
Record ClientRequest := {
  cr_Method : string; cr_URL : string; cr_Header : header; cr_Body : string;
  cr_ContentLength : Z }.

Record ClientResponse := { re_Status : Z; re_Body : result string }.

(** [http.NewRequest] and the headers: an empty method is GET, and a method
    has to be a token. *)
Definition forward `{MapRange} (r : Request) : result ClientRequest :=
  let method := if r_Method r =?s "" then "GET" else r_Method r in
  if is_token method then
    Ok {| cr_Method := method; cr_URL := "http://localhost:8090";
          cr_Header := copyHeaders ∅ (r_Header r); cr_Body := r_Body r;
          cr_ContentLength := r_ContentLength r |}
  else Error (Errorf ("net/http: invalid method " +:+ method)).

(** [handle], for the answer the client got. *)
Definition handle `{MapRange} (r : Request) (answer : ClientRequest -> result ClientResponse) :
    result string :=
  req ← forward r;
  response ← answer req;
  re_Body response.

(** [health]: the response is read before the error is tested. *)
Definition health {S : Type} : go S (Z * string) :=
  rr ← (http_get "http://localhost:8090/healthz" None : go S (result http_response));
  match rr with
  | Error _ => Panic nil_deref
  | Ok _ => mret (200%Z, "OK")
  end.

(** ** One request ([Handler], [logReq]) *)

(** The goroutine that calls the function: [Observed] is ready to send. *)
Inductive goroutine :=
  | Starting | Running | Returned (pack : result string) | Observed (pack : result string)
  | Sent.

Inductive reply := RBody (res : string) | RError (err : gerror) | RTimeout.

(** The serving goroutine: in the [select], in one of its branches, done with
    [Handler], done with [logReq]. *)
Inductive serving :=
  | Waiting | Chosen (c : reply) | Counted (c : reply) | Headed (c : reply)
  | Replied (c : reply) | Logged (c : reply).

(** A request being served: the channel of capacity one, whether the deadline
    of the context has passed, and the response writer of [logReq], whose
    status is 200 until [WriteHeader]. *)
Record call_state := {
  request : Request; runner : goroutine; funcChannel : option (result string); expired : bool;
  server_side : serving; statusCode : Z; body : string }.

Definition new_call (r : Request) : call_state :=
  {| request := r; runner := Starting; funcChannel := None; expired := false;
     server_side := Waiting; statusCode := 200; body := "" |}.

Definition set_runner (q : call_state) (g : goroutine) (ch : option (result string)) : call_state :=
  {| request := request q; runner := g; funcChannel := ch; expired := expired q;
     server_side := server_side q; statusCode := statusCode q; body := body q |}.
Definition set_expired (q : call_state) : call_state :=
  {| request := request q; runner := runner q; funcChannel := funcChannel q; expired := true;
     server_side := server_side q; statusCode := statusCode q; body := body q |}.
Definition set_serving (q : call_state) (ch : option (result string)) (c : serving) : call_state :=
  {| request := request q; runner := runner q; funcChannel := ch; expired := expired q;
     server_side := c; statusCode := statusCode q; body := body q |}.
Definition write_header (q : call_state) (code : Z) (c : serving) : call_state :=
  {| request := request q; runner := runner q; funcChannel := funcChannel q; expired := expired q;
     server_side := c; statusCode := code; body := body q |}.
Definition write_body (q : call_state) (b : string) (c : serving) : call_state :=
  {| request := request q; runner := runner q; funcChannel := funcChannel q; expired := expired q;
     server_side := c; statusCode := statusCode q; body := body q +:+ b |}.

Definition code (c : reply) : Z :=
  match c with RBody _ => 200 | RError _ => 500 | RTimeout => 408 end.
Definition reply_text (c : reply) : string :=
  match c with
  | RBody res => res | RError e => "Error: " +:+ err_msg e | RTimeout => "Timeout exceeded"
  end.

(** The metrics of the proxy, by method. *)
Inductive metric := function_calls_total | function_duration_seconds | function_failures_total.

Inductive action :=
  | CallsInc | HandleReturns (r : result string) | ObserveDuration | SendPack  (* the goroutine *)
  | DeadlinePasses
  | ReceivePack | ContextDone | FailuresInc | WriteHeader | WriteBody | LogReq.

(** One step of a request, with the metric it counts.  A disabled action
    gives [None]: sending waits for room in the channel, the [select] for a
    pack or for the deadline. *)
Definition step (a : action) (q : call_state) : option (option metric * call_state) :=
  match a, runner q, server_side q with
  | CallsInc, Starting, _ => Some (Some function_calls_total, set_runner q Running (funcChannel q))
  | HandleReturns r, Running, _ => Some (None, set_runner q (Returned r) (funcChannel q))
  | ObserveDuration, Returned r, _ =>
      Some (Some function_duration_seconds, set_runner q (Observed r) (funcChannel q))
  | SendPack, Observed r, _ =>
      match funcChannel q with
      | None => Some (None, set_runner q Sent (Some r))
      | Some _ => None
      end
  | DeadlinePasses, _, _ => if expired q then None else Some (None, set_expired q)
  | ReceivePack, _, Waiting =>
      match funcChannel q with
      | Some (Ok res) => Some (None, set_serving q None (Chosen (RBody res)))
      | Some (Error e) => Some (None, set_serving q None (Chosen (RError e)))
      | None => None
      end
  | ContextDone, _, Waiting =>
      if expired q then Some (None, set_serving q (funcChannel q) (Chosen RTimeout)) else None
  | FailuresInc, _, Chosen (RBody _) => None
  | FailuresInc, _, Chosen c =>
      Some (Some function_failures_total, set_serving q (funcChannel q) (Counted c))
  | WriteHeader, _, Counted c => Some (None, write_header q (code c) (Headed c))
  | WriteBody, _, Chosen (RBody res) => Some (None, write_body q res (Replied (RBody res)))
  | WriteBody, _, Headed c => Some (None, write_body q (reply_text c) (Replied c))
  | LogReq, _, Replied c => Some (None, set_serving q (funcChannel q) (Logged c))
  | _, _, _ => None
  end.

(** ** The server *)

#[export] Instance metric_eq : EqDecision metric. Proof. solve_decision. Defined.
#[export] Instance metric_countable : Countable metric.
Proof.
  refine (inj_countable (fun m => match m with function_calls_total => 0%nat
      | function_duration_seconds => 1%nat | function_failures_total => 2%nat end)
    (fun n => match n with 0%nat => Some function_calls_total
      | 1%nat => Some function_duration_seconds | _ => Some function_failures_total end) _).
  by intros [].
Defined.

(** [armed]: a request timed out, a goroutine will end the process after a
    second. *)
Record server := {
  calls : gmap nat call_state; metrics : gmap (metric * string) nat;
  armed : bool; exited : bool }.

Definition start : server := {| calls := ∅; metrics := ∅; armed := false; exited := false |}.

Definition counter (s : server) (m : metric) (method : string) : nat :=
  default 0%nat (metrics s !! (m, method)).

Definition count_metric (s : server) (ev : option metric) (method : string) :
    gmap (metric * string) nat :=
  match ev with
  | Some m => <[(m, method) := S (counter s m method)]> (metrics s)
  | None => metrics s
  end.

(** [logReq] starts the exit when the status is 408. *)
Definition arms (a : action) (q : call_state) : bool :=
  match a with LogReq => Z.eqb (statusCode q) 408 | _ => false end.

Inductive server_action := Accept (id : nat) (r : Request) | Act (id : nat) (a : action) | Exit.

Definition server_step (a : server_action) (s : server) : option server :=
  if exited s then None else
  match a with
  | Accept id r =>
      match calls s !! id with
      | None => Some {| calls := <[id := new_call r]> (calls s); metrics := metrics s;
                        armed := armed s; exited := false |}
      | Some _ => None
      end
  | Act id a =>
      q ← calls s !! id;
      '(ev, q') ← step a q;
      Some {| calls := <[id := q']> (calls s);
              metrics := count_metric s ev (r_Method (request q));
              armed := armed s || arms a q; exited := false |}
  | Exit =>
      if armed s then Some {| calls := calls s; metrics := metrics s; armed := true; exited := true |}
      else None
  end.

(** ** Every reachable state *)

Definition failure (c : reply) : bool := match c with RBody _ => false | _ => true end.

(** Whether a request has been counted by a metric. *)
Definition counted (m : metric) (q : call_state) : bool :=
  match m with
  | function_calls_total => match runner q with Starting => false | _ => true end
  | function_duration_seconds => match runner q with Observed _ | Sent => true | _ => false end
  | function_failures_total =>
      match server_side q with
      | Counted c | Headed c | Replied c | Logged c => failure c
      | _ => false
      end
  end.

(** How many requests satisfy a predicate. *)
Definition how_many (P : call_state -> bool) (m : gmap nat call_state) : nat :=
  size (filter (fun kv => P kv.2 = true) m).

Lemma how_many_insert P m id q :
  m !! id = None -> how_many P (<[id := q]> m) = (Nat.b2n (P q) + how_many P m)%nat.
Proof.
  intros Hid. unfold how_many. destruct (P q) eqn:E.
  - rewrite map_filter_insert_True by done. rewrite map_size_insert_None; [done|].
    by rewrite map_lookup_filter, Hid.
  - by rewrite map_filter_insert_not' by (simpl; congruence).
Qed.

Lemma how_many_update P m id q q' :
  m !! id = Some q ->
  (Nat.b2n (P q) + how_many P (<[id := q']> m) = Nat.b2n (P q') + how_many P m)%nat.
Proof.
  intros Hid. rewrite <- (insert_delete_id m id q) at 2 by done.
  rewrite <- insert_delete_eq, !how_many_insert by apply lookup_delete_eq. lia.
Qed.

Lemma step_request a q ev q' : step a q = Some (ev, q') -> request q' = request q.
Proof. unfold step. intros H. repeat case_match; simplify_eq/=; done. Qed.

(** A step changes what a metric counts exactly when it increments it. *)
Lemma step_counted a q ev q' m :
  step a q = Some (ev, q') ->
  Nat.b2n (counted m q') = (Nat.b2n (counted m q) + Nat.b2n (bool_decide (ev = Some m)))%nat.
Proof.
  unfold step. intros H. destruct m; repeat case_match; simplify_eq/=; unfold counted; simpl;
    repeat match goal with E : runner _ = _ |- _ => rewrite E | E : server_side _ = _ |- _ => rewrite E end;
    by simpl.
Qed.

Section Reachable.
(** What the function may return for a request. *)
Context (returns : Request -> result string -> Prop).

Definition allowed (a : server_action) (s : server) : Prop :=
  match a with
  | Act id (HandleReturns r) => forall q, calls s !! id = Some q -> returns (request q) r
  | _ => True
  end.

Inductive reachable : server -> Prop :=
  | reach_start : reachable start
  | reach_step s a s' :
      reachable s -> allowed a s -> server_step a s = Some s' -> reachable s'.

(** The reason of a reply. *)
Definition justified (q : call_state) (c : reply) : Prop :=
  match c with
  | RBody res => returns (request q) (Ok res)
  | RError e => returns (request q) (Error e)
  | RTimeout => expired q = true
  end.

Lemma justified_mono q q' c :
  request q' = request q -> (expired q = true -> expired q' = true) ->
  justified q c -> justified q' c.
Proof. intros Hr He. destruct c; simpl; rewrite ?Hr; auto. Qed.

Record call_inv (q : call_state) : Prop := {
  inv_pack r : runner q = Returned r \/ runner q = Observed r \/ funcChannel q = Some r ->
    returns (request q) r;
  inv_room : runner q <> Sent -> funcChannel q = None;
  inv_sent : runner q = Sent -> server_side q = Waiting -> funcChannel q <> None;
  inv_reply :
    match server_side q with
    | Waiting => statusCode q = 200%Z /\ body q = ""
    | Chosen c => statusCode q = 200%Z /\ body q = "" /\ justified q c
    | Counted c => statusCode q = 200%Z /\ body q = "" /\ justified q c /\ failure c = true
    | Headed c => statusCode q = code c /\ body q = "" /\ justified q c /\ failure c = true
    | Replied c | Logged c => statusCode q = code c /\ body q = reply_text c /\ justified q c
    end }.

Lemma step_inv a q ev q' :
  (forall r, a = HandleReturns r -> returns (request q) r) ->
  step a q = Some (ev, q') -> call_inv q -> call_inv q'.
Proof.
  intros Hret Hstep [Hp Hr Hs Hc]. unfold step in Hstep.
  repeat case_match; simplify_eq/=;
    repeat match goal with E : runner _ = _ |- _ => rewrite E in * | E : server_side _ = _ |- _ => rewrite E in * end;
    split; simpl;
    repeat match goal with E : runner _ = _ |- _ => rewrite E | E : server_side _ = _ |- _ => rewrite E end;
    simpl; first
      [ solve [intuition congruence]
      | solve [destruct_and!; split_and!; try done;
          try match goal with E : body _ = "" |- _ => by rewrite E end;
          apply (justified_mono q); simpl; auto]
      | solve [intuition eauto]
      | naive_solver ].
Qed.
Lemma new_call_inv r : call_inv (new_call r).
Proof. split; simpl; naive_solver. Qed.

Record server_inv (s : server) : Prop := {
  inv_calls : map_Forall (fun _ q => call_inv q) (calls s);
  inv_metrics m method : counter s m method =
    how_many (fun q => counted m q && (r_Method (request q) =?s method)) (calls s);
  inv_armed : armed s = true <->
    exists id q, calls s !! id = Some q /\ server_side q = Logged RTimeout;
  inv_exited : exited s = true -> armed s = true }.

Lemma counter_count s ev method m method' :
  default 0%nat (count_metric s ev method !! (m, method')) =
  (counter s m method' + Nat.b2n (bool_decide (ev = Some m) && (method =?s method')))%nat.
Proof.
  unfold counter, streq. destruct ev as [m'|]; simpl; [|by rewrite Nat.add_0_r].
  destruct (decide ((m', method) = (m, method'))) as [[= -> ->]|Hne].
  - rewrite lookup_insert_eq, !bool_decide_true by done. simpl. unfold counter. lia.
  - rewrite lookup_insert_ne by done. repeat case_bool_decide; simpl; try lia. congruence.
Qed.

Lemma step_logged a q ev q' :
  call_inv q -> step a q = Some (ev, q') ->
  server_side q' = Logged RTimeout <-> server_side q = Logged RTimeout \/ arms a q = true.
Proof.
  intros [_ _ _ Hc] Hstep. unfold step in Hstep. unfold arms.
  repeat case_match; simplify_eq/=; try intuition congruence.
  all: destruct Hc as (Hcode & _); rewrite Hcode;
    match goal with c : reply |- _ => destruct c end; simpl; intuition congruence.
Qed.

Lemma server_step_inv a s s' :
  allowed a s -> server_step a s = Some s' -> server_inv s -> server_inv s'.
Proof.
  intros Hal Hstep [Hq Hm Ha _]. unfold server_step in Hstep.
  destruct (exited s); [done|]. destruct a as [id r|id a|].
  - destruct (calls s !! id) eqn:Hid; simplify_eq/=. split; simpl.
    + by apply map_Forall_insert_2; [apply new_call_inv|].
    + intros m method. rewrite how_many_insert by done. unfold counter in *. simpl. rewrite Hm.
      by destruct m.
    + rewrite Ha. split; intros (i & q & Hi & Hl); exists i, q.
      * split; [|done]. rewrite lookup_insert_ne; [done|]. congruence.
      * destruct (decide (id = i)) as [<-|Hne].
        -- rewrite lookup_insert_eq in Hi. by simplify_eq/=.
        -- by rewrite lookup_insert_ne in Hi.
    + done.
  - destruct (calls s !! id) as [q|] eqn:Hid; simpl in Hstep; [|done].
    destruct (step a q) as [[ev q']|] eqn:Hs; simplify_eq/=.
    assert (call_inv q) as Hinv by (by eapply map_Forall_lookup_1 in Hq).
    split; simpl.
    + apply map_Forall_insert_2; [|done]. eapply step_inv; [|done..]. intros r ->. by apply Hal.
    + intros m method. unfold counter at 1. simpl. rewrite counter_count, Hm.
      pose proof (how_many_update
        (fun q => counted m q && (r_Method (request q) =?s method)) _ _ _ q' Hid) as Hn.
      pose proof (step_counted _ _ _ _ m Hs) as Hc. cbv beta in Hn. rewrite (step_request _ _ _ _ Hs) in Hn.
      destruct (r_Method (request q) =?s method); rewrite ?andb_true_r, ?andb_false_r in *; simpl in *; lia.
    + rewrite orb_true_iff, Ha. pose proof (step_logged _ _ _ _ Hinv Hs) as Hl. split.
      * intros [(i & p & Hi & Hp)|Harm].
        -- destruct (decide (id = i)) as [<-|Hne].
           ++ exists id, q'. rewrite lookup_insert_eq. naive_solver.
           ++ exists i, p. by rewrite lookup_insert_ne.
        -- exists id, q'. rewrite lookup_insert_eq. naive_solver.
      * intros (i & p & Hi & Hp). destruct (decide (id = i)) as [<-|Hne].
        -- rewrite lookup_insert_eq in Hi. simplify_eq. apply Hl in Hp as [Hp|Hp]; [left|by right]; eauto.
        -- rewrite lookup_insert_ne in Hi by done. left. eauto.
    + done.
  - destruct (armed s) eqn:E; simplify_eq/=. split; simpl; [done|done|by rewrite <- Ha|done].
Qed.

Lemma reachable_inv s : reachable s -> server_inv s.
Proof.
  induction 1 as [|s a s' _ IH Hal Hstep]; [|by eapply server_step_inv].
  split; simpl; [apply map_Forall_empty|done| |done]. split; [done|]. intros (? & ? & ? & _). done.
Qed.

(** C16. A served request got one reply, for its own reason: 200 with what the
    function returned for it, 500 with the error the function returned, or
    408, then only because its deadline passed. *)
Theorem Handler_replies s id q c :
  reachable s -> calls s !! id = Some q -> server_side q = Logged c ->
  (statusCode q = 200%Z /\ returns (request q) (Ok (body q))) \/
  (statusCode q = 500%Z /\ exists e, returns (request q) (Error e) /\ body q = "Error: " +:+ err_msg e) \/
  (statusCode q = 408%Z /\ expired q = true /\ body q = "Timeout exceeded").
Proof.
  intros [Hq _ _ _]%reachable_inv Hid Hl. apply (map_Forall_lookup_1 _ _ _ _ Hq) in Hid as [_ _ _ Hc].
  rewrite Hl in Hc. destruct Hc as (Hcode & Hbody & Hj).
  destruct c; simpl in *; [left|right; left|right; right]; rewrite ?Hbody; eauto.
Qed.

(** Steps of one request. *)
Definition act (q : call_state) (a : action) : option call_state := snd <$> step a q.
Definition acts (l : list action) (q : call_state) : option call_state :=
  foldl (fun o a => q ← o; act q a) (Some q) l.

(** The given actions lead to the reply. *)
Ltac reply_by l :=
  exists l; unfold acts, act, step; simpl;
  repeat match goal with
  | E : server_side _ = _ |- _ => progress rewrite E
  | E : funcChannel _ = _ |- _ => progress rewrite E
  | E : expired _ = _ |- _ => progress rewrite E
  | |- context [match runner ?q with _ => _ end] => destruct (runner q)
  end; simpl; eexists _, _; (split; [lia|split; reflexivity]).

(** C17. Nothing blocks for good: the goroutine that calls the function can
    always go on unless the function is running or it is done (sending never
    waits, also after a timeout), and once the pack is sent or the deadline
    has passed, at most five steps of the serving goroutine send the reply. *)
Theorem Handler_never_blocks s id q :
  reachable s -> calls s !! id = Some q ->
  (runner q = Running \/ runner q = Sent \/
     Exists (fun a => is_Some (act q a)) [CallsInc; ObserveDuration; SendPack]) /\
  (expired q = true \/ runner q = Sent ->
   exists l q' c, (length l <= 5)%nat /\ acts l q = Some q' /\ server_side q' = Logged c).
Proof.
  intros [Hq _ _ _]%reachable_inv Hid. apply (map_Forall_lookup_1 _ _ _ _ Hq) in Hid as [_ Hroom Hsent Hc].
  split.
  - rewrite !Exists_cons. unfold act, step.
    destruct (runner q) eqn:E; [right; right|by left|right; right|right; right|by right; left];
      rewrite ?Hroom by done.
    + left. simpl. by eexists.
    + right. left. simpl. by eexists.
    + right. right. left. simpl. by eexists.
  - intros Hgo. destruct (server_side q) as [|c|c|c|c|c] eqn:E.
    + destruct Hgo as [Hex|Hs].
      * reply_by [ContextDone; FailuresInc; WriteHeader; WriteBody; LogReq].
      * specialize (Hsent Hs eq_refl). destruct (funcChannel q) as [[res|e]|] eqn:F; [| |done].
        -- reply_by [ReceivePack; WriteBody; LogReq].
        -- reply_by [ReceivePack; FailuresInc; WriteHeader; WriteBody; LogReq].
    + destruct c; [reply_by [WriteBody; LogReq]|reply_by [FailuresInc; WriteHeader; WriteBody; LogReq]..].
    + reply_by [WriteHeader; WriteBody; LogReq].
    + reply_by [WriteBody; LogReq].
    + reply_by [LogReq].
    + exists [], q, c. simpl. split; [lia|done].
Qed.

(** C23. The metrics are exact in every interleaving: per method, the calls are
    the requests whose function was started, the durations the ones it
    returned for, the failures the ones answered by 500 or 408; and the exit that
    [logReq] forces happens only after a request timed out.  (What else ends the
    process is [ProxyMain]'s.) *)
Theorem metrics_exact s :
  reachable s ->
  (forall m method, counter s m method =
    how_many (fun q => counted m q && (r_Method (request q) =?s method)) (calls s)) /\
  (exited s = true -> exists id q, calls s !! id = Some q /\ statusCode q = 408%Z /\ expired q = true).
Proof.
  intros [Hq Hm Ha He]%reachable_inv. split; [done|]. intros Hex%He. apply Ha in Hex as (id & q & Hid & Hl).
  exists id, q. split; [done|]. apply (map_Forall_lookup_1 _ _ _ _ Hq) in Hid as [_ _ _ Hc].
  rewrite Hl in Hc. by destruct Hc as (? & _ & ?).
Qed.
End Reachable.

(** ** A request served, one timed out *)

Definition server_run (l : list server_action) (s : server) : option server :=
  foldl (fun o a => s ← o; server_step a s) (Some s) l.

Lemma server_run_reachable returns l s s' :
  (forall id r, Act id (HandleReturns r) ∈ l -> forall q, returns q r) ->
  reachable returns s -> server_run l s = Some s' -> reachable returns s'.
Proof.
  unfold server_run. revert s. induction l as [|a l IH]; intros s Hl Hs; simpl.
  { by intros [= <-]. }
  destruct (server_step a s) as [s1|] eqn:E.
  - apply IH; [intros id r Hin; apply (Hl id); by right|].
    eapply reach_step; [done| |done]. destruct a as [|id [| | | | | | | | | |]|]; simpl; try done.
    intros q _. apply (Hl id). by left.
  - intros H. exfalso. clear -H. induction l; simpl in H; done.
Qed.

(** A function answers through the proxy: whatever the status of its answer,
    its body is the reply. *)
Definition proxied `{MapRange} (r : Request) (x : result string) : Prop :=
  exists answer, x = handle r answer.

Module Sample.
Definition get_root : Request :=
  {| r_RemoteAddr := "10.0.0.1:80"; r_Method := "GET"; r_RequestURI := "/"; r_Proto := "HTTP/1.1";
     r_UserAgent := "curl"; r_Header := ∅; r_Body := ""; r_ContentLength := 0 |}.
Definition says_hello (_ : Request) (x : result string) : Prop := x = Ok "hello".

(** Call 0 is answered; call 1 reaches its deadline, its function returns
    later, and the process ends. *)
Definition trace : list server_action :=
  [Accept 0 get_root; Act 0 CallsInc; Accept 1 get_root; Act 1 CallsInc;
   Act 0 (HandleReturns (Ok "hello")); Act 0 ObserveDuration; Act 0 SendPack;
   Act 1 DeadlinePasses; Act 1 ContextDone; Act 0 ReceivePack; Act 1 FailuresInc; Act 0 WriteBody;
   Act 1 (HandleReturns (Ok "hello")); Act 1 WriteHeader; Act 1 WriteBody; Act 0 LogReq;
   Act 1 LogReq; Act 1 ObserveDuration; Act 1 SendPack; Exit].
Definition ended : server := default start (server_run trace start).

Lemma ended_reachable : reachable says_hello ended.
Proof.
  apply (server_run_reachable _ trace start).
  - intros id r Hin q. unfold says_hello.
    repeat (apply elem_of_cons in Hin as [E|Hin]; [by inv E|]). by apply elem_of_nil in Hin.
  - constructor.
  - vm_compute. reflexivity.
Qed.
End Sample.

Lemma Handler_replies_witness :
  exists q, calls Sample.ended !! 0%nat = Some q /\ statusCode q = 200%Z /\
    Sample.says_hello (request q) (Ok (body q)).
Proof.
  eexists. split; [vm_compute; reflexivity|].
  destruct (Handler_replies Sample.says_hello Sample.ended 0 _ (RBody "hello")
    Sample.ended_reachable eq_refl eq_refl) as [?|[(E & _)|(E & _)]]; [done| |];
    vm_compute in E; discriminate.
Defined.

Lemma Handler_never_blocks_witness :
  exists q, calls Sample.ended !! 1%nat = Some q /\ expired q = true /\ runner q = Sent /\
    exists l q' c, (length l <= 5)%nat /\ acts l q = Some q' /\ server_side q' = Logged c.
Proof.
  eexists. split; [vm_compute; reflexivity|]. split; [reflexivity|]. split; [reflexivity|].
  apply (Handler_never_blocks Sample.says_hello Sample.ended 1); [apply Sample.ended_reachable|reflexivity|by left].
Defined.

Lemma metrics_exact_witness :
  counter Sample.ended function_calls_total "GET" = 2%nat /\
  counter Sample.ended function_failures_total "GET" = 1%nat /\
  exists id q, calls Sample.ended !! id = Some q /\ statusCode q = 408%Z /\ expired q = true.
Proof.
  destruct (metrics_exact Sample.says_hello Sample.ended Sample.ended_reachable) as [Hm Hex].
  rewrite !Hm. split; [vm_compute; reflexivity|]. split; [vm_compute; reflexivity|].
  apply Hex. vm_compute. reflexivity.
Defined.

(** The status of the function's answer is not passed on. *)
Lemma handle_drops_status `{MapRange} r status body :
  is_token (r_Method r) = true ->
  handle r (fun _ => Ok {| re_Status := status; re_Body := Ok body |}) = Ok body.
Proof.
  intros Ht. unfold handle, forward. case_streq; [by rewrite H0 in Ht|]. by rewrite Ht.
Qed.

(** When the function does not respond, [health] fails on the nil response
    before it tests the error. *)
Lemma health_panics {S : Type} (s : S) :
  runs health s [] (fun _ tr o =>
    match tr with
    | [existT (HttpGet _ _) (Error _)] => o = Panicked nil_deref
    | _ => o = Done (200%Z, "OK")
    end).
Proof. intros [a|e]; done. Qed.

