(* ===== verification/ProxyMain.v ===== *)
(** * The process of the function proxy (main of pkg/function-proxy, GracefulShutdown)

    Around the server of [Proxy]: the routes of its multiplexer, the child
    process of the runtime, and the shutdown on a signal. *)
From S2P Require Import Prelude GoStrings GoProg World Proxy.

(** ** Routes ([main]) *)

Inductive route := ToFunction | ToHealth | ToMetrics | Redirect (path : string).

(** [cleanPath] of net/http: a clean path that is rooted and keeps a final slash. *)
Definition cleanPath (p : string) : string :=
  let p := if p =?s "" then "/" else if HasPrefix p "/" then p else "/" +:+ p in
  let np := Clean p in
  if HasSuffix p "/" && negb (np =?s "/") then np +:+ "/" else np.

(** [http.ServeMux] with the three patterns: the two paths without a final
    slash match themselves only, "/" the rest; a path that is not clean is
    redirected, except for CONNECT. *)
Definition mux (method path : string) : route :=
  if negb (method =?s "CONNECT") && negb (cleanPath path =?s path) then Redirect (cleanPath path)
  else if path =?s "/healthz" then ToHealth
  else if path =?s "/metrics" then ToMetrics
  else ToFunction.

(** ** The server of net/http

    What happens at the server that [main] starts: a request begins, its handler
    returns, [ListenAndServe] returns, [Shutdown] is called and returns. *)
Inductive listen_error := ErrServerClosed | OtherError (e : gerror).

Inductive net_event :=
  | RequestStarts (id : nat) | HandlerReturns (id : nat) | ListenReturns (err : listen_error)
  | ShutdownCalled | ShutdownReturns (err : option gerror).

(** [http.Server] as documented, on the history of its events: [Shutdown]
    "gracefully shuts down the server without interrupting any active
    connections": it returns nil only when none is active, so that every handler
    that was started has returned, and can then return; [ListenAndServe] gives
    ErrServerClosed only after a call of [Shutdown]. *)
Class HttpServer := {
  admits : list net_event -> net_event -> Prop;
  shutdown_waits h : admits h (ShutdownReturns None) ->
    forall id, RequestStarts id ∈ h -> HandlerReturns id ∈ h;
  shutdown_returns h : ShutdownCalled ∈ h -> (forall err, ShutdownReturns err ∉ h) ->
    (forall id, RequestStarts id ∈ h -> HandlerReturns id ∈ h) -> admits h (ShutdownReturns None);
  closed_by_shutdown h : admits h (ListenReturns ErrServerClosed) -> ShutdownCalled ∈ h }.

(** ** The process *)

Inductive ending :=
  | Stopped               (* "Server stopped", main returns *)
  | NotStopped (e : gerror) (* "Error: ...", main returns *)
  | Killed (msg : string) (* log.Fatal or a panic in a goroutine *).

(** Where [main] is: in [<-stop], before [server.Shutdown], in it. *)
Inductive main_at := WaitingSignal | Signalled | ShuttingDown.

(** The goroutine of [startNativeDaemon] has the result of the runtime's
    process, that of [ListenAndServe] its error, when they have returned. *)
Record process := Process {
  p_server : server; p_history : list net_event; p_daemon : option (result unit); p_listener : option listen_error;
  p_main : main_at; p_ended : option ending }.


Inductive process_action :=
  | Serve (a : server_action)          (* a request begins, one goes on, logReq's exit *)
  | DaemonReturns (args : string) (r : result unit)    (* cmd.Run of the shell command *)
  | ListenerReturns (err : listen_error)     (* server.ListenAndServe *)
  | Signal                             (* SIGINT or SIGTERM *)
  | CallShutdown
  | ReturnShutdown (err : option gerror).

(** What an action of the handlers is for the server around them. *)
Definition net_of (a : server_action) : list net_event :=
  match a with
  | Accept id _ => [RequestStarts id]
  | Act id LogReq => [HandlerReturns id]
  | _ => []
  end.

Definition process_step (a : process_action) (p : process) : option process :=
  if p_ended p then None else
  match a with
  | Serve a =>
      s ← server_step a (p_server p);
      Some {| p_server := s; p_history := p_history p ++ net_of a; p_daemon := p_daemon p; p_listener := p_listener p;
              p_main := p_main p; p_ended := if exited s then Some (Killed "Request timeout. Forcing exit") else None |}
  | DaemonReturns args r =>
      match p_daemon p with
      | Some _ => None
      | None =>
          Some {| p_server := p_server p; p_history := p_history p; p_daemon := Some r; p_listener := p_listener p;
                  p_main := p_main p;
                  p_ended := match r with
                             | Ok _ => None
                             | Error e => Some (Killed ("Unable to run " +:+ args +:+ ". Received " +:+ err_msg e)) end |}
      end
  | ListenerReturns err =>
      match p_listener p with
      | Some _ => None
      | None =>
          Some {| p_server := p_server p; p_history := p_history p ++ [ListenReturns err]; p_daemon := p_daemon p;
                  p_listener := Some err; p_main := p_main p;
                  p_ended := match err with
                             | ErrServerClosed => None
                             | OtherError e => Some (Killed (err_msg e)) end |}
      end
  | Signal =>
      match p_main p with
      | WaitingSignal => Some {| p_server := p_server p; p_history := p_history p; p_daemon := p_daemon p;
                                 p_listener := p_listener p; p_main := Signalled; p_ended := None |}
      | _ => None
      end
  | CallShutdown =>
      match p_main p with
      | Signalled => Some {| p_server := p_server p; p_history := p_history p ++ [ShutdownCalled]; p_daemon := p_daemon p;
                             p_listener := p_listener p; p_main := ShuttingDown; p_ended := None |}
      | _ => None
      end
  | ReturnShutdown err =>
      match p_main p with
      | ShuttingDown =>
          Some {| p_server := p_server p; p_history := p_history p ++ [ShutdownReturns err]; p_daemon := p_daemon p;
                  p_listener := p_listener p; p_main := ShuttingDown;
                  p_ended := Some (match err with None => Stopped | Some e => NotStopped e end) |}
      | _ => None
      end
  end.

(** ** How the process ends *)
Section Process.
Context `{HttpServer} (returns : Request -> result string -> Prop).















End Process.

(** ** The child process of the runtime

    When it ends without an error, nobody notices: the proxy goes on to accept
    requests. *)
Lemma daemon_exit_unnoticed p p' args r id :
  process_step (DaemonReturns args (Ok tt)) p = Some p' ->
  exited (p_server p) = false -> calls (p_server p) !! id = None ->
  exists p'', process_step (Serve (Accept id r)) p' = Some p''.
Proof.
  unfold process_step. destruct (p_ended p); [done|]. destruct (p_daemon p); [done|]. intros [= <-] He Hid.
  simpl. unfold server_step. rewrite He, Hid. simpl. by eexists.
Qed.

(** ** A process that is told to stop while it serves a request *)

Definition is_shutdown (e : net_event) : bool := match e with ShutdownCalled => true | _ => false end.
Definition is_return (e : net_event) : bool := match e with ShutdownReturns _ => true | _ => false end.
Definition returned (h : list net_event) (id : nat) : bool :=
  existsb (fun e => match e with HandlerReturns i => Nat.eqb i id | _ => false end) h.
Definition all_returned (h : list net_event) : bool :=
  forallb (fun e => match e with RequestStarts id => returned h id | _ => true end) h.

(** A server that refuses requests once it is told to stop. *)
Module ShutdownSample.
Definition server_admits (h : list net_event) (e : net_event) : bool :=
  match e with
  | RequestStarts _ => negb (existsb is_shutdown h)
  | ListenReturns ErrServerClosed => existsb is_shutdown h
  | ShutdownReturns None => existsb is_shutdown h && all_returned h
  | _ => true
  end.

Lemma returned_spec h id : returned h id = true <-> HandlerReturns id ∈ h.
Proof.
  unfold returned. rewrite existsb_exists. setoid_rewrite <- list_elem_of_In. split.
  - intros (e & Hin & He). destruct e; try done. apply Nat.eqb_eq in He. by subst.
  - intros Hin. eexists. split; [exact Hin|]. apply Nat.eqb_refl.
Qed.

Lemma shutdown_spec h : existsb is_shutdown h = true <-> ShutdownCalled ∈ h.
Proof.
  rewrite existsb_exists. setoid_rewrite <- list_elem_of_In. split.
  - intros (e & Hin & He). by destruct e.
  - intros Hin. by eexists.
Qed.

Lemma all_returned_spec h : all_returned h = true <-> forall id, RequestStarts id ∈ h -> HandlerReturns id ∈ h.
Proof.
  unfold all_returned. rewrite forallb_forall. setoid_rewrite <- list_elem_of_In. split.
  - intros Ha id Hin. apply returned_spec. exact (Ha _ Hin).
  - intros Ha e Hin. destruct e; try done. by apply returned_spec, Ha.
Qed.

#[export] Program Instance http_server : HttpServer := {| admits h e := server_admits h e = true |}.
Next Obligation. intros h [_ Ha]%andb_true_iff. by apply all_returned_spec. Qed.
Next Obligation.
  intros h Hc _ Ha. simpl. apply andb_true_iff. by rewrite shutdown_spec, all_returned_spec.
Qed.
Next Obligation. intros h Hc. by apply shutdown_spec. Qed.

End ShutdownSample.
Import ShutdownSample.





Example mux_routes :
  mux "GET" "/healthz" = ToHealth /\ mux "POST" "/a/b" = ToFunction /\ mux "GET" "/a//b" = Redirect "/a/b" /\
  mux "GET" "/healthz/" = ToFunction.
Proof. vm_compute. done. Qed.
