(* ===== verification/Exec.v ===== *)
(** * Remote commands over a websocket (pkg/utils/exec.go)

    [RoundTripCallback] copies standard input to the connection and messages
    from the connection to standard output and error, in two goroutines that
    report errors through one channel.  It is a transition system: an action
    is a step of a goroutine together with what the reader, the connection or
    a writer answered. *)
From S2P Require Import Prelude GoStrings.

Definition stdinChannel : Ascii.ascii := Ascii.ascii_of_nat 0.
Definition stdoutChannel : Ascii.ascii := Ascii.ascii_of_nat 1.
Definition stderrChannel : Ascii.ascii := Ascii.ascii_of_nat 2.
Definition errChannel : Ascii.ascii := Ascii.ascii_of_nat 3.

(** Which of the streams are not nil. *)
Record Cmd := { Stdin : bool; Stdout : bool; Stderr : bool }.

(** [io.EOF] is an error the loops end on. *)
Inductive io_error := EOF | IOError (e : gerror).

(** The standard input goroutine: about to read, to send what was read, to
    report an error, to close the connection, done.  [reads] is what the reader
    delivered, [sent] the messages given to the connection. *)
Inductive stdin_state :=
  | SRead | SSend (data : string) (err : option io_error) | SReport (e : gerror) | SClose | SDone.
Record stdin_side := {
  stdin_g : stdin_state; reads : list string; sent : list string; closed : bool }.

(** The receiving goroutine; [received] is what the connection delivered, [out]
    and [errs] what the writers were given. *)
Inductive recv_state := RReceive | RWrite | RReport (e : gerror) | RDone.
Record recv_side := { recv_g : recv_state; received : list string; out : string; errs : string }.

(** What the environment answers. *)
Inductive stdin_action :=
  | StdinRead (data : string) (err : option io_error) | StdinSent (err2 : option io_error)
  | StdinReport | StdinClose.
Inductive recv_action :=
  | Receive (m : string + io_error) | Written (err : option gerror) | RecvReport.

(** A step of a goroutine, with the error it sends on the channel. *)
Definition stdin_step (a : stdin_action) (s : stdin_side) : option (stdin_side * option gerror) :=
  match a, stdin_g s with
  | StdinRead data err, SRead =>
      if Nat.leb (String.length data) 1024 then
        Some ({| stdin_g := SSend data err; reads := reads s ++ [data]; sent := sent s;
                 closed := closed s |}, None)
      else None
  | StdinSent err2, SSend data err =>
      let err := match err with None => err2 | Some _ => err end in
      Some ({| stdin_g := match err with
                          | None => SRead | Some EOF => SClose | Some (IOError e) => SReport e
                          end;
               reads := reads s; sent := sent s ++ [String stdinChannel data];
               closed := closed s |}, None)
  | StdinReport, SReport e =>
      Some ({| stdin_g := SDone; reads := reads s; sent := sent s; closed := closed s |}, Some e)
  | StdinClose, SClose =>
      Some ({| stdin_g := SDone; reads := reads s; sent := sent s; closed := true |}, None)
  | _, _ => None
  end.

Definition recv_go (s : recv_side) (g : recv_state) (m o e : string) : recv_side :=
  {| recv_g := g; received := received s ++ [m]; out := out s +:+ o; errs := errs s +:+ e |}.

(** A message: its first byte names the channel. *)
Definition recv_message (c : Cmd) (m : string) (s : recv_side) : recv_side :=
  match m with
  | "" => recv_go s RReceive m "" ""
  | String ch p =>
      if Ascii.eqb ch stdoutChannel then
        if Stdout c then recv_go s RWrite m p "" else recv_go s RReceive m "" ""
      else if Ascii.eqb ch stderrChannel then
        if Stderr c then recv_go s RWrite m "" p else recv_go s RReceive m "" ""
      else if Ascii.eqb ch errChannel then
        recv_go s (RReport (Errorf ("Error from remote command: " +:+ p))) m "" ""
      else recv_go s RReceive m "" ""
  end.

Definition recv_set (s : recv_side) (g : recv_state) : recv_side :=
  {| recv_g := g; received := received s; out := out s; errs := errs s |}.

Definition recv_step (c : Cmd) (a : recv_action) (s : recv_side) :
    option (recv_side * option gerror) :=
  match a, recv_g s with
  | Receive (inr EOF), RReceive => Some (recv_set s RDone, None)
  | Receive (inr (IOError e)), RReceive => Some (recv_set s (RReport e), None)
  | Receive (inl m), RReceive => Some (recv_message c m s, None)
  | Written None, RWrite => Some (recv_set s RReceive, None)
  | Written (Some e), RWrite => Some (recv_set s (RReport e), None)
  | RecvReport, RReport e => Some (recv_set s RDone, Some e)
  | _, _ => None
  end.

(** Both goroutines, the channel (of capacity three) and the result, once
    [RoundTripCallback] has returned. *)
Record exec_state := {
  input : stdin_side; output : recv_side; errChan : list gerror;
  callback_err : option (option gerror) }.

Definition exec_start (c : Cmd) : exec_state :=
  {| input := {| stdin_g := if Stdin c then SRead else SDone; reads := []; sent := []; closed := false |};
     output := {| recv_g := RReceive; received := []; out := ""; errs := "" |};
     errChan := []; callback_err := None |}.

(** A send waits while the channel is full. *)
Definition chan_send (ch : list gerror) (e : option gerror) : option (list gerror) :=
  match e with
  | None => Some ch
  | Some e => if Nat.ltb (length ch) 3 then Some (ch ++ [e]) else None
  end.

Inductive exec_action := In (a : stdin_action) | Out (a : recv_action) | WaitDone.

Definition exec_step (c : Cmd) (a : exec_action) (s : exec_state) : option exec_state :=
  match a with
  | In a =>
      '(i, e) ← stdin_step a (input s);
      ch ← chan_send (errChan s) e;
      Some {| input := i; output := output s; errChan := ch; callback_err := callback_err s |}
  | Out a =>
      '(o, e) ← recv_step c a (output s);
      ch ← chan_send (errChan s) e;
      Some {| input := input s; output := o; errChan := ch; callback_err := callback_err s |}
  | WaitDone =>
      (* wg.Wait, close, and the first error or nil *)
      match stdin_g (input s), recv_g (output s), callback_err s with
      | SDone, RDone, None =>
          Some {| input := input s; output := output s; errChan := tail (errChan s);
                  callback_err := Some (head (errChan s)) |}
      | _, _, _ => None
      end
  end.

Inductive exec_reachable (c : Cmd) : exec_state -> Prop :=
  | exec_init : exec_reachable c (exec_start c)
  | exec_next s a s' : exec_reachable c s -> exec_step c a s = Some s' -> exec_reachable c s'.

(** ** Every interleaving *)

(** What a stream is given: the payloads of its channel. *)
Definition payload (on : bool) (channel : Ascii.ascii) (m : string) : string :=
  match m with String c p => if (Ascii.eqb c channel && on)%bool then p else "" | "" => "" end.
Definition routed (on : bool) (channel : Ascii.ascii) (ms : list string) : string :=
  foldr (fun m acc => payload on channel m +:+ acc) "" ms.

Lemma routed_snoc on ch ms m : routed on ch (ms ++ [m]) = routed on ch ms +:+ payload on ch m.
Proof.
  unfold routed. induction ms as [|m' ms IH]; simpl; [apply string_app_empty_r|].
  by rewrite IH, string_app_assoc.
Qed.

(** Still to report: the errors a side has not sent yet. *)
Definition pending_in (g : stdin_state) : nat := match g with SDone => 0 | _ => 1 end.
Definition pending_out (g : recv_state) : nat := match g with RDone => 0 | _ => 1 end.

Record exec_inv (c : Cmd) (s : exec_state) : Prop := {
  inv_chan : (length (errChan s) + pending_in (stdin_g (input s))
              + pending_out (recv_g (output s)) <= 2)%nat;
  inv_sent_reads : (String stdinChannel <$> reads (input s)) = sent (input s) ++
    match stdin_g (input s) with SSend data _ => [String stdinChannel data] | _ => [] end;
  inv_out : out (output s) = routed (Stdout c) stdoutChannel (received (output s));
  inv_errs : errs (output s) = routed (Stderr c) stderrChannel (received (output s)) }.

Lemma stdin_step_inv a i i' e :
  stdin_step a i = Some (i', e) ->
  (String stdinChannel <$> reads i) = sent i ++
    match stdin_g i with SSend data _ => [String stdinChannel data] | _ => [] end ->
  (String stdinChannel <$> reads i') = sent i' ++
    match stdin_g i' with SSend data _ => [String stdinChannel data] | _ => [] end /\
  (length (option_list e) + pending_in (stdin_g i') <= pending_in (stdin_g i))%nat.
Proof.
  intros Hs Hi. unfold stdin_step in Hs.
  destruct a as [data err|err2| |], (stdin_g i) as [|d er|e0| |] eqn:G; simplify_eq/=;
    rewrite ?app_nil_r in *.
  - case_match; simplify_eq/=. rewrite fmap_app, Hi. by split; [|lia].
  - rewrite Hi. split; [|repeat case_match; simpl; lia].
    destruct er as [[]|]; [..|destruct err2 as [[]|]]; by rewrite app_nil_r.
  - by split; [|lia].
  - by split; [|lia].
Qed.

Lemma recv_step_inv c a o o' e :
  recv_step c a o = Some (o', e) ->
  (out o = routed (Stdout c) stdoutChannel (received o) ->
   out o' = routed (Stdout c) stdoutChannel (received o')) /\
  (errs o = routed (Stderr c) stderrChannel (received o) ->
   errs o' = routed (Stderr c) stderrChannel (received o')) /\
  (length (option_list e) + pending_out (recv_g o') <= pending_out (recv_g o))%nat.
Proof.
  intros Hs. unfold recv_step in Hs.
  destruct a as [[m|[|e0]]|[e0|]|], (recv_g o) as [| |e1|] eqn:G; simplify_eq/=; try (split_and!; [done..|lia]).
  destruct m as [|ch p]; simpl.
  { rewrite !routed_snoc. simpl. split_and!; [by intros ->|by intros ->|lia]. }
  destruct (Ascii.eqb_spec ch stdoutChannel) as [->|H1];
    [|destruct (Ascii.eqb_spec ch stderrChannel) as [->|H2];
      [|destruct (Ascii.eqb_spec ch errChannel) as [->|H3]]];
    destruct (Stdout c) eqn:E1, (Stderr c) eqn:E2; simpl; rewrite !routed_snoc; simpl;
    rewrite ?(proj2 (Ascii.eqb_neq _ _) H1), ?(proj2 (Ascii.eqb_neq _ _) H2);
    split_and!; try lia; by intros ->.
Qed.

Lemma chan_send_length ch e ch' : chan_send ch e = Some ch' ->
  length ch' = (length ch + length (option_list e))%nat.
Proof.
  destruct e as [e|]; simpl; [|intros [= <-]; by rewrite Nat.add_0_r].
  case_match; [|done]. intros [= <-]. by rewrite length_app.
Qed.

Lemma exec_reachable_inv c s : exec_reachable c s -> exec_inv c s.
Proof.
  induction 1 as [|s a s' _ [Hch Hsent Ho He] Hstep].
  { split; simpl; [|by destruct (Stdin c)|done|done]. destruct (Stdin c); simpl; lia. }
  destruct a as [a|a|]; simpl in Hstep.
  - destruct (stdin_step a (input s)) as [[i e]|] eqn:E; simpl in Hstep; [|done].
    destruct (chan_send (errChan s) e) as [ch|] eqn:Hc; simplify_eq/=.
    apply chan_send_length in Hc. destruct (stdin_step_inv _ _ _ _ E Hsent) as [Hs Hl].
    split; simpl; [lia|done|done|done].
  - destruct (recv_step c a (output s)) as [[o e]|] eqn:E; simpl in Hstep; [|done].
    destruct (chan_send (errChan s) e) as [ch|] eqn:Hc; simplify_eq/=.
    apply chan_send_length in Hc. destruct (recv_step_inv _ _ _ _ _ E) as (Hs & He' & Hl).
    split; simpl; [lia|done|auto|auto].
  - destruct (stdin_g (input s)) eqn:E1, (recv_g (output s)) eqn:E2, (callback_err s) eqn:E3;
      simplify_eq/=. split; simpl; rewrite ?E1, ?E2; simpl; [|done..].
    destruct (errChan s); simpl in *; lia.
Qed.

(** C26. At every moment of every interleaving: an error report is never
    blocked by a full channel, since each goroutine sends at most one, and
    when both are done the callback can return, with the first error
    reported or nil. *)
Theorem RoundTripCallback_never_blocks c s :
  exec_reachable c s ->
  (forall e, stdin_g (input s) = SReport e -> is_Some (exec_step c (In StdinReport) s)) /\
  (forall e, recv_g (output s) = RReport e -> is_Some (exec_step c (Out RecvReport) s)) /\
  (stdin_g (input s) = SDone -> recv_g (output s) = RDone -> callback_err s = None ->
   exists s', exec_step c WaitDone s = Some s' /\ callback_err s' = Some (head (errChan s))) /\
  (length (errChan s) <= 2)%nat.
Proof.
  intros [Hch _ _ _]%exec_reachable_inv. split_and!.
  - intros e E. rewrite E in Hch. simpl in *. rewrite E. simpl.
    destruct (Nat.ltb_spec (length (errChan s)) 3); [by eexists|lia].
  - intros e E. rewrite E in Hch. simpl in *. rewrite E. simpl.
    destruct (Nat.ltb_spec (length (errChan s)) 3); [by eexists|lia].
  - intros E1 E2 E3. simpl. rewrite E1, E2, E3. by eexists.
  - lia.
Qed.

(** C25. Streams are routed faithfully: standard output and standard error get
    the payloads of their own channel, in order and nothing else, and the
    connection gets what was read from standard input, in order, each
    message under the channel byte of standard input. *)
Theorem RoundTripCallback_routes c s :
  exec_reachable c s ->
  out (output s) = routed (Stdout c) stdoutChannel (received (output s)) /\
  errs (output s) = routed (Stderr c) stderrChannel (received (output s)) /\
  exists last, (String stdinChannel <$> reads (input s)) = sent (input s) ++ last /\
    (length last <= 1)%nat /\ (stdin_g (input s) = SRead \/ stdin_g (input s) = SDone -> last = []).
Proof.
  intros [_ Hs Ho He]%exec_reachable_inv. split_and!; [done..|].
  eexists. split; [exact Hs|]. split; [destruct (stdin_g (input s)); simpl; lia|].
  by intros [-> | ->].
Qed.

(** ** A run to evaluate on *)

Definition exec_run (c : Cmd) (l : list exec_action) : option exec_state :=
  foldl (fun o a => s ← o; exec_step c a s) (Some (exec_start c)) l.

Lemma exec_run_reachable c l s : exec_run c l = Some s -> exec_reachable c s.
Proof.
  unfold exec_run. revert s. induction l as [|a l IH] using rev_ind; intros s; simpl.
  { intros [= <-]. constructor. }
  rewrite foldl_app. simpl. destruct (foldl _ _ l) as [s0|] eqn:E; [|done]. simpl.
  intros Hs. eapply exec_next; [by apply IH|done].
Qed.

Module ExecSample.
Definition cmd : Cmd := {| Stdin := true; Stdout := true; Stderr := false |}.
(** Both goroutines fail. *)
Definition trace : list exec_action :=
  [In (StdinRead "ls" None); Out (Receive (inl (String stdoutChannel "a "))); Out (Written None);
   In (StdinSent (Some (IOError (Errorf "broken pipe")))); Out (Receive (inl ""));
   Out (Receive (inl (String stderrChannel "x"))); Out (Receive (inl (String stdoutChannel "b")));
   Out (Written None); In StdinReport; Out (Receive (inl (String errChannel "exit 1")))].
Definition state : exec_state := default (exec_start cmd) (exec_run cmd trace).
Lemma state_reachable : exec_reachable cmd state.
Proof. apply (exec_run_reachable cmd trace). vm_compute. reflexivity. Qed.
End ExecSample.

Lemma RoundTripCallback_never_blocks_witness :
  errChan ExecSample.state = [Errorf "broken pipe"] /\
  is_Some (exec_step ExecSample.cmd (Out RecvReport) ExecSample.state).
Proof.
  split; [vm_compute; reflexivity|].
  eapply (RoundTripCallback_never_blocks ExecSample.cmd); [apply ExecSample.state_reachable|].
  vm_compute. reflexivity.
Defined.

Lemma RoundTripCallback_routes_witness :
  out (output ExecSample.state) = "a b" /\ sent (input ExecSample.state) = [String stdinChannel "ls"].
Proof.
  destruct (RoundTripCallback_routes ExecSample.cmd _ ExecSample.state_reachable) as (-> & _ & last & E & _ & Hl).
  split; [vm_compute; reflexivity|]. rewrite Hl in E by (right; vm_compute; reflexivity).
  rewrite app_nil_r in E. by rewrite <- E.
Defined.

(** ** Opening the connection *)

(** A URL: its scheme and what follows it. *)
Record request_url := { u_Scheme : string; u_Rest : string }.

(** [Exec], for the URL that client-go builds for the pod's exec subresource:
    the scheme becomes the one of a websocket. *)
Definition Exec (url : request_url) : result request_url :=
  if u_Scheme url =?s "http" then Ok {| u_Scheme := "ws"; u_Rest := u_Rest url |}
  else if u_Scheme url =?s "https" then Ok {| u_Scheme := "wss"; u_Rest := u_Rest url |}
  else Error (Errorf ("Unrecognised URL scheme in " +:+ u_Scheme url +:+ u_Rest url)).

(** The configuration of golang.org/x/net/websocket. *)
Record ws_config := {
  ws_Location : string; ws_Origin : string; ws_TlsConfig : string;
  ws_Header : list (string * string); ws_Protocol : list string }.

(** [RoundTrip]: the websocket library is a parameter. *)
Definition RoundTrip {Conn Resp : Type} (NewConfig : string -> string -> result ws_config)
    (DialConfig : ws_config -> result Conn) (Do : Conn -> result Resp)
    (TLSConfig url referer : string) (header : list (string * string)) : result Resp :=
  let referrer := if referer =?s "" then "http://localhost/" else referer in
  wsconf ← NewConfig url referrer;
  conn ← DialConfig {| ws_Location := ws_Location wsconf; ws_Origin := ws_Origin wsconf;
                       ws_TlsConfig := TLSConfig; ws_Header := header;
                       ws_Protocol := ["channel.k8s.io"] |};
  Do conn.
