(* ===== verification/Metrics.v ===== *)
(** * Metrics of functions (pkg/utils/metrics.go, cmd/kubeless/function/top.go)

    [kubeless top] asks every function for its Prometheus metrics, in parallel
    and for five seconds at most, and prints them sorted by function. *)
From Stdlib Require Import Sorting.Sorted Sorting.Permutation.
From S2P Require Import Prelude GoStrings GoProg KubeTypes World Ensure.

From Stdlib Require Import Floats.SpecFloat.

(** ** Numbers

    [float64] as in IEEE 754, with correctly rounded division. *)
Abbreviation float64 := spec_float.
Definition f_zero : float64 := S754_zero false.
Definition f_gtb (a b : float64) : bool := SFltb b a.
Definition f_div (a b : float64) : float64 := SFdiv 53 1024 a b.

Record Metric := {
  FunctionName : string; Namespace : string; Method : string; Message : string;
  TotalCalls : float64; TotalFailures : float64; TotalDurationSeconds : float64;
  AvgDurationSeconds : float64 }.

Definition new_metric (namespace functionName method message : string) : Metric :=
  {| FunctionName := functionName; Namespace := namespace; Method := method; Message := message;
     TotalCalls := f_zero; TotalFailures := f_zero; TotalDurationSeconds := f_zero;
     AvgDurationSeconds := f_zero |}.

(** A metric of prometheus/client_model: its labels, and what
    [GetCounter().GetValue()] and [GetHistogram().GetSampleSum()] give (0 when
    absent). *)
Record prom_metric := {
  pm_Label : list (string * string); pm_Counter : float64; pm_SampleSum : float64 }.

(** The text parser of prometheus/common: the metrics of every family. *)
Class PromText := TextToMetricFamilies : string -> result (gmap string (list prom_metric)).

Definition failures_family := "function_failures_total".
Definition duration_family := "function_duration_seconds".
Definition calls_family := "function_calls_total".
Definition metricsOfInterest : list string := [duration_family; calls_family; failures_family].

Definition set_failures (x : Metric) (v : float64) : Metric :=
  {| FunctionName := FunctionName x; Namespace := Namespace x; Method := Method x;
     Message := Message x; TotalCalls := TotalCalls x; TotalFailures := v;
     TotalDurationSeconds := TotalDurationSeconds x; AvgDurationSeconds := AvgDurationSeconds x |}.
Definition set_duration (x : Metric) (v : float64) : Metric :=
  {| FunctionName := FunctionName x; Namespace := Namespace x; Method := Method x;
     Message := Message x; TotalCalls := TotalCalls x; TotalFailures := TotalFailures x;
     TotalDurationSeconds := v; AvgDurationSeconds := AvgDurationSeconds x |}.
Definition set_calls (x : Metric) (v : float64) : Metric :=
  {| FunctionName := FunctionName x; Namespace := Namespace x; Method := Method x;
     Message := Message x; TotalCalls := v; TotalFailures := TotalFailures x;
     TotalDurationSeconds := TotalDurationSeconds x;
     AvgDurationSeconds :=
       if f_gtb v f_zero then f_div (TotalDurationSeconds x) v else AvgDurationSeconds x |}.

Section Parse.
Context (namespace functionName : string).

(** The body of the innermost loop, for a label "method" of that value. *)
Definition visit_method (m : string) (metric : prom_metric) (tmp : gmap string Metric)
    (value : string) : gmap string Metric :=
  let x := default (new_metric namespace functionName value "") (tmp !! value) in
  let x := if m =?s failures_family then set_failures x (pm_Counter metric) else x in
  let x := if m =?s duration_family then set_duration x (pm_SampleSum metric) else x in
  let x := if m =?s calls_family then set_calls x (pm_Counter metric) else x in
  <[value := x]> tmp.

Definition visit_labels (m : string) (tmp : gmap string Metric) (metric : prom_metric) :
    gmap string Metric :=
  foldl (fun tmp '(name, value) =>
    if name =?s "method" then visit_method m metric tmp value else tmp) tmp (pm_Label metric).

Definition visit_family (data : gmap string (list prom_metric)) (tmp : gmap string Metric)
    (m : string) : gmap string Metric :=
  foldl (visit_labels m) tmp (default [] (data !! m)).

Definition parseMetrics `{PromText} `{MapRange} (rawMetrics : string) : result (list Metric) :=
  parsedData ← TextToMetricFamilies rawMetrics;
  let tmp := foldl (visit_family parsedData) ∅ metricsOfInterest in
  let tmp := if Nat.eqb (size tmp) 0 then {["" := new_metric namespace functionName "" ""]} else tmp in
  Ok (map snd (map_range (Some tmp))).

(** ** What the table means

    The samples of a family for a method, in the order of the text. *)
Definition samples (data : gmap string (list prom_metric)) (m : string)
    (value : prom_metric -> float64) (method : string) : list float64 :=
  metric ← default [] (data !! m);
  '(n, v) ← pm_Label metric;
  if ((n =?s "method") && (v =?s method))%bool then [value metric] else [].

Definition latest (l : list float64) : float64 := default f_zero (last l).

(** The row of a method: the latest value of each family; the average is taken
    over the latest positive number of calls. *)
Definition row (data : gmap string (list prom_metric)) (method : string) : Metric :=
  let duration := latest (samples data duration_family pm_SampleSum method) in
  let calls := samples data calls_family pm_Counter method in
  {| FunctionName := functionName; Namespace := namespace; Method := method; Message := "";
     TotalCalls := latest calls;
     TotalFailures := latest (samples data failures_family pm_Counter method);
     TotalDurationSeconds := duration;
     AvgDurationSeconds :=
       match last (filter (fun c => f_gtb c f_zero = true) calls) with
       | Some c => f_div duration c
       | None => f_zero
       end |}.

(** The methods that occur in a family of interest. *)
Definition occurs (data : gmap string (list prom_metric)) (method : string) : Prop :=
  exists m, m ∈ metricsOfInterest /\ samples data m pm_Counter method <> [].

(** The samples of all methods, flattened. *)
Definition entries (metrics : list prom_metric) : list (string * prom_metric) :=
  metric ← metrics;
  '(n, v) ← pm_Label metric;
  if n =?s "method" then [(v, metric)] else [].

Definition of_method (method : string) (l : list (string * prom_metric)) : list prom_metric :=
  map snd (filter (fun e => e.1 = method) l).

Lemma entries_cons metric metrics :
  entries (metric :: metrics) =
  ('(n, v) ← pm_Label metric; if n =?s "method" then [(v, metric)] else []) ++ entries metrics.
Proof. done. Qed.

Lemma samples_entries data m value method :
  samples data m value method = map value (of_method method (entries (default [] (data !! m)))).
Proof.
  unfold samples. generalize (default [] (data !! m)) as metrics. intros metrics. unfold of_method.
  induction metrics as [|metric metrics IH]; [done|].
  rewrite entries_cons, filter_app, !map_app, <- IH. clear IH.
  rewrite bind_cons. f_equal.
  induction (pm_Label metric) as [|[n v] l IH]; [done|].
  rewrite !bind_cons, filter_app, !map_app, <- IH. f_equal.
  unfold streq. repeat case_bool_decide; simpl; try done.
  - rewrite filter_cons_True by done. done.
  - rewrite filter_cons_False by done. done.
Qed.

Lemma visit_family_entries data tmp m :
  visit_family data tmp m =
  foldl (fun tmp e => visit_method m e.2 tmp e.1) tmp (entries (default [] (data !! m))).
Proof.
  unfold visit_family. generalize (default [] (data !! m)) as metrics. intros metrics. revert tmp.
  induction metrics as [|metric metrics IH]; intros tmp; [done|].
  rewrite entries_cons, foldl_app. simpl. rewrite IH. f_equal. unfold visit_labels. clear IH.
  revert tmp. induction (pm_Label metric) as [|[n v] l IH]; intros tmp; [done|].
  rewrite bind_cons, foldl_app. cbn [foldl]. rewrite IH. by destruct (n =?s "method").
Qed.

(** What a sample does to the row of its method. *)
Definition sample (m : string) (x : Metric) (metric : prom_metric) : Metric :=
  let x := if m =?s failures_family then set_failures x (pm_Counter metric) else x in
  let x := if m =?s duration_family then set_duration x (pm_SampleSum metric) else x in
  if m =?s calls_family then set_calls x (pm_Counter metric) else x.

Lemma visits_lookup m l tmp method :
  foldl (fun tmp e => visit_method m e.2 tmp e.1) tmp l !! method =
  match of_method method l with
  | [] => tmp !! method
  | ms => Some (foldl (sample m)
            (default (new_metric namespace functionName method "") (tmp !! method)) ms)
  end.
Proof.
  unfold of_method. revert tmp. induction l as [|[v metric] l IH]; intros tmp; [done|].
  cbn [foldl fst snd]. rewrite IH. unfold visit_method. destruct (decide (v = method)) as [->|Hne].
  - rewrite filter_cons_True by done. rewrite lookup_insert_eq. by destruct (filter _ l).
  - rewrite filter_cons_False, lookup_insert_ne by done. done.
Qed.

Lemma sample_failures x ms :
  foldl (sample failures_family) x ms =
  match last ms with Some s => set_failures x (pm_Counter s) | None => x end.
Proof.
  induction ms as [|s ms IH] using rev_ind; [done|].
  rewrite foldl_app, last_snoc, IH. by destruct (last ms).
Qed.

Lemma sample_duration x ms :
  foldl (sample duration_family) x ms =
  match last ms with Some s => set_duration x (pm_SampleSum s) | None => x end.
Proof.
  induction ms as [|s ms IH] using rev_ind; [done|].
  rewrite foldl_app, last_snoc, IH. by destruct (last ms).
Qed.

Lemma sample_calls x ms :
  foldl (sample calls_family) x ms =
  {| FunctionName := FunctionName x; Namespace := Namespace x; Method := Method x;
     Message := Message x;
     TotalCalls := default (TotalCalls x) (last (map pm_Counter ms));
     TotalFailures := TotalFailures x; TotalDurationSeconds := TotalDurationSeconds x;
     AvgDurationSeconds :=
       match last (filter (fun c => f_gtb c f_zero = true) (map pm_Counter ms)) with
       | Some c => f_div (TotalDurationSeconds x) c
       | None => AvgDurationSeconds x
       end |}.
Proof.
  induction ms as [|s ms IH] using rev_ind; [by destruct x|].
  rewrite foldl_app, map_app, IH. cbn [map foldl]. rewrite filter_app, last_snoc. unfold sample, set_calls. simpl.
  destruct (f_gtb (pm_Counter s) f_zero) eqn:E.
  - by rewrite filter_cons_True, filter_nil, last_snoc.
  - rewrite filter_cons_False by congruence. by rewrite filter_nil, app_nil_r.
Qed.

Lemma last_fmap {A B} (f : A -> B) l : last (map f l) = f <$> last l.
Proof. induction l as [|x [|y l] IH]; [done..|]. exact IH. Qed.

(** Before the fallback row: the rows of the methods that occur. *)
Lemma families_lookup data method :
  foldl (visit_family data) ∅ metricsOfInterest !! method =
  match of_method method (entries (default [] (data !! duration_family))) ++
        of_method method (entries (default [] (data !! calls_family))) ++
        of_method method (entries (default [] (data !! failures_family))) with
  | [] => None
  | _ => Some (row data method)
  end.
Proof.
  unfold metricsOfInterest, row. cbn [foldl]. rewrite !visit_family_entries, !samples_entries.
  generalize (entries (default [] (data !! duration_family))) as ld.
  generalize (entries (default [] (data !! calls_family))) as lc.
  generalize (entries (default [] (data !! failures_family))) as lf. intros lf lc ld.
  rewrite visits_lookup, visits_lookup, visits_lookup, lookup_empty. unfold latest.
  generalize (of_method method lf) as fs. generalize (of_method method lc) as cs.
  generalize (of_method method ld) as ds. intros ds cs fs. rewrite !last_fmap.
  assert (forall x l, exists y, last (x :: l : list prom_metric) = Some y) as Hlast.
  { intros x l. destruct (last (x :: l)) eqn:E; [eauto|]. by apply last_None in E. }
  destruct ds as [|d ds], cs as [|c cs], fs as [|f fs]; [done|..];
    rewrite ?sample_failures, ?sample_calls, ?sample_duration, ?last_fmap;
    repeat match goal with
    | |- context [last (?x :: ?l)] =>
        let y := fresh "y" in let E := fresh "E" in
        destruct (Hlast x l) as [y E]; rewrite E in *; clear E
    end; done.
Qed.

Lemma families_occurs data method :
  is_Some (foldl (visit_family data) ∅ metricsOfInterest !! method) <-> occurs data method.
Proof.
  rewrite families_lookup. unfold occurs, metricsOfInterest. setoid_rewrite samples_entries.
  assert (forall l, map pm_Counter l <> [] <-> l <> []) as Hmap by (by intros []).
  setoid_rewrite Hmap. split.
  - intros [x E]. destruct (of_method method (entries (default [] (data !! duration_family)))) eqn:E1;
      [destruct (of_method method (entries (default [] (data !! calls_family)))) eqn:E2|].
    + exists failures_family. split; [set_solver|]. by intros E3; rewrite E3 in E.
    + exists calls_family. split; [set_solver|]. by rewrite E2.
    + exists duration_family. split; [set_solver|]. by rewrite E1.
  - intros (m & Hm & Hne). destruct (_ ++ _ ++ _) eqn:E; [|by eexists]. exfalso. apply Hne.
    apply app_nil in E as [E1 [E2 E3]%app_nil].
    repeat (apply elem_of_cons in Hm as [->|Hm]; [done|]). by apply elem_of_nil in Hm.
Qed.

(** C38. The rows for a function: one per method that occurs in its metrics,
    with the latest value of each family and the average over the latest
    positive number of calls, in any order; a function never called has one
    row without a method. *)
Theorem parseMetrics_rows `{PromText} `{MapRange} raw data :
  TextToMetricFamilies raw = Ok data ->
  exists rows, parseMetrics raw = Ok rows /\ NoDup (map Method rows) /\
    forall x, x ∈ rows <->
      (exists method, occurs data method /\ x = row data method) \/
      (forall method, ~ occurs data method) /\ x = new_metric namespace functionName "" "".
Proof.
  intros Hraw. unfold parseMetrics. rewrite Hraw. cbv beta iota zeta delta [mbind result_bind].
  set (tmp := foldl (visit_family data) ∅ metricsOfInterest).
  assert (forall method x, tmp !! method = Some x -> x = row data method) as Hrow.
  { intros method x. unfold tmp. rewrite families_lookup. by case_match; intros [= <-]. }
  assert (forall method, is_Some (tmp !! method) <-> occurs data method) as Hocc
    by (intros; apply families_occurs).
  clearbody tmp. eexists. split; [reflexivity|].
  destruct (Nat.eqb_spec (size tmp) 0) as [E|E].
  - apply map_size_empty_inv in E as ->.
    match goal with |- context [map_range (Some ?m)] =>
      pose proof (map_range_perm (Some m)) as Hp; change (mmap (Some m)) with m in Hp end.
    rewrite map_to_list_singleton in Hp. apply Permutation_singleton_r in Hp as ->. simpl.
    split; [apply NoDup_singleton|]. intros x. rewrite list_elem_of_singleton. split.
    + intros ->. right. split; [|done]. intros method Ho%Hocc. rewrite lookup_empty in Ho. by destruct Ho.
    + intros [(method & Ho%Hocc & _)|[_ ?]]; [|done]. rewrite lookup_empty in Ho. by destruct Ho.
  - pose proof (map_range_perm (Some tmp)) as Hp. simpl in Hp.
    assert (map Method (map snd (map_range (Some tmp))) = (map_range (Some tmp)).*1) as ->.
    { rewrite map_map. apply map_ext_in. intros [k x] Hin%list_elem_of_In. simpl.
      rewrite Hp in Hin. apply elem_of_map_to_list, Hrow in Hin as ->. done. }
    split; [rewrite Hp; apply NoDup_fst_map_to_list|].
    assert (exists method, occurs data method) as [method0 Hm0].
    { destruct (map_choose tmp) as (k & x & Hk); [by intros ->|]. exists k. apply Hocc. by eexists. }
    intros x. rewrite list_elem_of_fmap. setoid_rewrite Hp. split.
    + intros ([k y] & -> & Hin%elem_of_map_to_list). left. exists k. split; [|by apply Hrow].
      apply Hocc. by eexists.
    + intros [(method & Ho & ->)|[Hno _]]; [|by destruct (Hno method0)].
      apply Hocc in Ho as [y Hy]. exists (method, y). split; [by rewrite (Hrow _ _ Hy)|].
      by apply elem_of_map_to_list.
Qed.

End Parse.

Definition f_of_Z (z : Z) : float64 := binary_normalize 53 1024 z 0 false.

Module MetricsSample.
(** Two methods, one of them never counted. *)
Definition data : gmap string (list prom_metric) :=
  {[ duration_family := [{| pm_Label := [("method", "GET")]; pm_Counter := f_zero; pm_SampleSum := f_of_Z 10 |}];
     calls_family := [{| pm_Label := [("code", "x"); ("method", "GET")]; pm_Counter := f_of_Z 4;
                         pm_SampleSum := f_zero |};
                      {| pm_Label := [("method", "POST")]; pm_Counter := f_zero; pm_SampleSum := f_zero |}];
     "go_goroutines" := [{| pm_Label := []; pm_Counter := f_of_Z 9; pm_SampleSum := f_zero |}] ]}.
#[export] Instance parser : PromText := fun _ => Ok data.
End MetricsSample.

Lemma parseMetrics_rows_witness :
  exists rows x, parseMetrics (H := MetricsSample.parser) (H0 := canonical_range) "ns" "foo" "raw" = Ok rows /\
    x ∈ rows /\ Method x = "GET" /\ TotalCalls x = f_of_Z 4 /\
    AvgDurationSeconds x = f_div (f_of_Z 5) (f_of_Z 2).
Proof.
  destruct (parseMetrics_rows "ns" "foo" (H := MetricsSample.parser) (H0 := canonical_range) "raw"
    MetricsSample.data eq_refl) as (rows & Hrows & _ & Hin).
  exists rows, (row "ns" "foo" MetricsSample.data "GET"). split; [exact Hrows|]. split.
  - apply Hin. left. exists "GET". split; [|reflexivity]. exists calls_family.
    split; [right; left|vm_compute; discriminate].
  - vm_compute. repeat split.
Defined.

(** ** Asking a function *)

Section Retrieve.
Context {S : Type} `{PromText} `{MapRange}.

Definition GetRawMetrics (namespace functionName : string) : go S string :=
  port ← GetFunctionPort namespace functionName;
  must (service_proxy "GET" namespace (functionName +:+ ":" +:+ port) "/metrics" "" []).

(** [h] is the retriever, [GetRawMetrics] unless a test replaces it. *)
Definition GetFunctionMetrics (h : string -> string -> go S string)
    (namespace functionName : string) : go S (list Metric) :=
  res ← attempt (h namespace functionName);
  match res with
  | Error _ => mret [new_metric namespace functionName "" "Function does not expose metrics"]
  | Ok res =>
      match parseMetrics namespace functionName res with
      | Error _ => mret [new_metric namespace functionName "" "Unable to get function metrics"]
      | Ok metrics => mret metrics
      end
  end.

End Retrieve.
