(* ===== verification/Flags.v ===== *)
(** * Commands and their flags (cmd/kubeless)

    A command of the command line declares its flags, with defaults, in an
    [init] function; [Run] reads them with [cmd.Flags().GetString] and the
    like, which fail on a flag that is not declared or has another type
    (package spf13/pflag), and ends the process on every error. *)
From S2P Require Import Prelude GoStrings GoProg World.

Inductive flag_value :=
  | FString (s : string) | FBool (b : bool) | FInt32 (z : Z) | FInt64 (z : Z)
  | FStringSlice (l : list string) | FStringArray (l : list string).

Definition same_type (a b : flag_value) : bool :=
  match a, b with
  | FString _, FString _ | FBool _, FBool _ | FInt32 _, FInt32 _ | FInt64 _, FInt64 _
  | FStringSlice _, FStringSlice _ | FStringArray _, FStringArray _ => true
  | _, _ => false
  end.

Abbreviation declarations := (list (string * flag_value)).
Abbreviation flags := (gmap string flag_value).

(** The flags that [Run] sees: what was given on the command line, or the
    default. *)
Definition flag_or (given : flags) (n : string) (d : flag_value) : flag_value :=
  match given !! n with
  | Some v => if same_type v d then v else d
  | None => d
  end.

Definition flags_of (decl : declarations) (given : flags) : flags :=
  list_to_map ((fun '(n, d) => (n, flag_or given n d)) <$> decl).

Section Get.
Context (fs : flags).

Definition undefined_flag (n : string) : gerror := Errorf ("flag accessed but not defined: " +:+ n).
Definition wrong_type (n : string) : gerror := Errorf ("trying to get a value of the wrong type: " +:+ n).

Definition get_flag {A} (project : flag_value -> option A) (n : string) : result A :=
  match fs !! n with
  | Some v => match project v with Some a => Ok a | None => Error (wrong_type n) end
  | None => Error (undefined_flag n)
  end.

Definition as_string v := match v with FString s => Some s | _ => None end.
Definition as_bool v := match v with FBool b => Some b | _ => None end.
Definition as_int32 v := match v with FInt32 z => Some z | _ => None end.
Definition as_int64 v := match v with FInt64 z => Some z | _ => None end.
Definition as_slice v := match v with FStringSlice l => Some l | _ => None end.
Definition as_array v := match v with FStringArray l => Some l | _ => None end.

(** Read a flag, or end the process. *)
Context {S : Type}.
Definition fatal_flag {A} (r : result A) : go S A :=
  match r with Ok a => mret a | Error e => Fatal (err_msg e) end.

Definition GetString n : go S string := fatal_flag (get_flag as_string n).
Definition GetBool n : go S bool := fatal_flag (get_flag as_bool n).
Definition GetInt32 n : go S Z := fatal_flag (get_flag as_int32 n).
Definition GetInt64 n : go S Z := fatal_flag (get_flag as_int64 n).
Definition GetStringSlice n : go S (list string) := fatal_flag (get_flag as_slice n).
Definition GetStringArray n : go S (list string) := fatal_flag (get_flag as_array n).

End Get.

(** An error ends the process, with a message. *)
Definition fatal_with {S A : Type} (msg : string) (p : go S A) : go S A :=
  r ← attempt p;
  match r with Ok a => mret a | Error e => Fatal (msg +:+ err_msg e) end.

(** ** A declared flag can be read *)

Lemma flags_of_lookup decl given n :
  flags_of decl given !! n =
  match List.find (fun e => fst e =?s n) decl with
  | Some (_, d) => Some (flag_or given n d)
  | None => None
  end.
Proof.
  unfold flags_of. induction decl as [|[m d] decl IH]; [apply lookup_empty|].
  simpl. case_streq; subst.
  - apply lookup_insert_eq.
  - by rewrite lookup_insert_ne.
Qed.

Lemma flag_or_type given n d : same_type (flag_or given n d) d = true.
Proof.
  unfold flag_or. destruct (given !! n) as [v|]; [destruct (same_type v d) eqn:E; [done|]|]; by destruct d.
Qed.

(** A declared flag: the given value or the default. *)
Definition string_flag (given : flags) (n dflt : string) : string :=
  match given !! n with Some (FString s) => s | _ => dflt end.
Definition bool_flag (given : flags) (n : string) (dflt : bool) : bool :=
  match given !! n with Some (FBool b) => b | _ => dflt end.
Definition int32_flag (given : flags) (n : string) (dflt : Z) : Z :=
  match given !! n with Some (FInt32 z) => z | _ => dflt end.
Definition slice_flag (given : flags) (n : string) (dflt : list string) : list string :=
  match given !! n with Some (FStringSlice l) => l | _ => dflt end.

Section Declared.
Context {S : Type} (decl : declarations) (given : flags) (n : string).

Ltac read_flag := unfold get_flag, fatal_flag; rewrite flags_of_lookup; intros ->;
  unfold flag_or; by destruct (given !! n) as [[]|].

Lemma GetString_declared m d : List.find (fun e => fst e =?s n) decl = Some (m, FString d) ->
  GetString (S := S) (flags_of decl given) n = mret (string_flag given n d).
Proof. unfold GetString, string_flag. read_flag. Qed.
Lemma GetBool_declared m d : List.find (fun e => fst e =?s n) decl = Some (m, FBool d) ->
  GetBool (S := S) (flags_of decl given) n = mret (bool_flag given n d).
Proof. unfold GetBool, bool_flag. read_flag. Qed.
Lemma GetInt32_declared m d : List.find (fun e => fst e =?s n) decl = Some (m, FInt32 d) ->
  GetInt32 (S := S) (flags_of decl given) n = mret (int32_flag given n d).
Proof. unfold GetInt32, int32_flag. read_flag. Qed.
Lemma GetStringSlice_declared m d : List.find (fun e => fst e =?s n) decl = Some (m, FStringSlice d) ->
  GetStringSlice (S := S) (flags_of decl given) n = mret (slice_flag given n d).
Proof. unfold GetStringSlice, slice_flag. read_flag. Qed.

Lemma GetString_undeclared : List.find (fun e => fst e =?s n) decl = None ->
  GetString (S := S) (flags_of decl given) n = Fatal (err_msg (undefined_flag n)).
Proof. unfold GetString, get_flag, fatal_flag. rewrite flags_of_lookup. by intros ->. Qed.
End Declared.

(** Evaluate every flag of a command. *)
Ltac eval_flags :=
  repeat first
    [ erewrite GetString_declared by reflexivity
    | erewrite GetBool_declared by reflexivity
    | erewrite GetInt32_declared by reflexivity
    | erewrite GetStringSlice_declared by reflexivity ].

(** ** What the commands print *)

(** [json.MarshalIndent] and [yaml.Marshal] at a type. *)
Class Render (A : Type) := { json_text : A -> result string; yaml_text : A -> result string }.

(** [fmt.Println] of a table of package gosuri/uitable: the rows. *)
Class RenderTable := table_text : list (list string) -> string.
