(* ===== verification/FunctionCmd.v ===== *)
(** * Describing a function on the command line (cmd/kubeless/function/function.go)

    [kubeless function deploy] and [update] turn their flags into a function
    resource: [deploy] starts from an empty one, [update] from the one stored,
    whose values stay where no flag is given. *)
From S2P Require Import Prelude GoStrings GoCodec GoProg KubeTypes World K8sUtil Content.

(** [resource.ParseQuantity] of apimachinery, to the canonical text. *)
Class ParseQuantity := resource_ParseQuantity : string -> result Quantity.

(** ** Key-value arguments *)

Definition getKV (input : string) : string * string :=
  let pos := IndexAny input "=:" in
  if negb (pos =? -1)%Z then
    (string_take (Z.to_nat pos) input, string_drop (Z.to_nat (pos + 1)) input)
  else (input, "").

Definition parseLabel (labels : list string) : gmap string string :=
  foldl (fun funcLabels label => let '(k, v) := getKV label in <[k := v]> funcLabels) ∅ labels.

Definition parseEnv (envs : list string) : list EnvVar :=
  map (fun env => let '(k, v) := getKV env in {| ev_Name := k; ev_Value := v |}) envs.

Definition parseResource `{ParseQuantity} (input : string) : result Quantity :=
  if input =?s "" then Ok zero_quantity else resource_ParseQuantity input.

Definition parseNodeSelectors (nodeSelectors : list string) : gmap string string :=
  foldl (fun m nodeSelector => let '(k, v) := getKV nodeSelector in <[k := v]> m) ∅ nodeSelectors.

(** ** The function resource *)

(** The arguments of [getFunctionDescription], [defaultFunction] apart. *)
Record description_args := {
  a_funcName : string; a_ns : string; a_handler : string; a_file : string; a_deps : string;
  a_runtime : string; a_runtimeImage : string; a_mem : string; a_cpu : string;
  a_timeout : string; a_imagePullPolicy : string; a_serviceAccount : string;
  a_port : Z; a_servicePort : Z; a_headless : bool;
  a_envs : list string; a_labels : list string; a_secrets : list string;
  a_nodeSelectors : list string }.

(** [if given != "" { field = given }]. *)
Definition or_given (given previous : string) : string :=
  if given =?s "" then previous else given.

(** The first container of the default function, if it has one. *)
Definition default_container (defaultFunction : Function_) : option Container :=
  head (ps_Containers (dpm_podspec (fs_Deployment (f_Spec defaultFunction)))).

Definition description_env (a : description_args) (defaultFunction : Function_) : list EnvVar :=
  match parseEnv (a_envs a), default_container defaultFunction with
  | [], Some c => c_Env c
  | env, _ => env
  end.

(** The loop over the parsed labels writes each key once. *)
Definition description_labels (a : description_args) (defaultFunction : Function_) :
    gmap string string :=
  parseLabel (a_labels a) ∪ mmap (f_labels defaultFunction).

Definition prefix_error {A} (msg : string) (r : result A) : result A :=
  match r with Ok x => Ok x | Error e => Error (Errorf (msg +:+ err_msg e)) end.

Definition description_resources `{ParseQuantity} (a : description_args)
    (defaultFunction : Function_) : result ResourceRequirements :=
  if negb (a_mem a =?s "") || negb (a_cpu a =?s "") then
    funcMem ← prefix_error "Wrong format of the memory value: " (parseResource (a_mem a));
    funcCPU ← prefix_error "Wrong format for cpu value: " (parseResource (a_cpu a));
    let r := Some (<["memory" := funcMem]> {["cpu" := funcCPU]}) in
    Ok {| Limits := r; Requests := r |}
  else
    Ok (match default_container defaultFunction with
        | Some c => c_Resources c | None => zero_resources end).

Definition description_image (a : description_args) (defaultFunction : Function_) : string :=
  match default_container defaultFunction with
  | Some c => or_given (a_runtimeImage a) (c_Image c)
  | None => a_runtimeImage a
  end.

Definition description_container (a : description_args) (defaultFunction : Function_)
    (resources : ResourceRequirements) : Container :=
  {| c_Name := ""; c_Image := description_image a defaultFunction; c_Command := []; c_Args := [];
     c_WorkingDir := ""; c_Ports := []; c_Env := description_env a defaultFunction;
     c_Resources := resources;
     c_VolumeMounts :=
       match default_container defaultFunction with
       | Some c => c_VolumeMounts c | None => [] end ++
       map (fun secret => {| vm_Name := secret +:+ "-vol"; vm_ReadOnly := false;
                             vm_MountPath := "/" +:+ secret |}) (a_secrets a);
     c_LivenessProbe := None; c_ImagePullPolicy := a_imagePullPolicy a |}.

Definition secret_volumes (secrets : list string) : list Volume :=
  map (fun secret => {| vol_Name := secret +:+ "-vol"; vol_Source := SecretSource secret |}) secrets.

Definition description_service (a : description_args) (labels : gmap string string) : ServiceSpec :=
  {| ss_Ports :=
       [{| sp_Name := "http-function-port"; sp_Protocol := "TCP";
           sp_Port := if negb (a_servicePort a =? 0)%Z then a_servicePort a else a_port a;
           sp_TargetPort := FromInt (a_port a); sp_NodePort := 0 |}];
     ss_Selector := Some labels;
     ss_ClusterIP := if a_headless a then "None" else "";
     ss_Type := "ClusterIP" |}.

Definition description_node_selector (a : description_args) (defaultFunction : Function_) :
    gomap string :=
  let default := ps_NodeSelector (dpm_podspec (fs_Deployment (f_Spec defaultFunction))) in
  let given := parseNodeSelectors (a_nodeSelectors a) in
  if Nat.eqb (size given) 0 && negb (Nat.eqb (mlen default) 0) then default else Some given.

(** The pod of the function: one container, the default volumes and one for
    each secret. *)
Definition description_podspec (a : description_args) (defaultFunction : Function_)
    (resources : ResourceRequirements) : PodSpec :=
  let p := dpm_podspec (fs_Deployment (f_Spec defaultFunction)) in
  let p := ps_set_containers p [description_container a defaultFunction resources] in
  let p := ps_set_service_account p (or_given (a_serviceAccount a) (ps_ServiceAccountName p)) in
  let p := ps_set_volumes p (ps_Volumes p ++ secret_volumes (a_secrets a)) in
  ps_set_node_selector p (description_node_selector a defaultFunction).

(** The description, for the source and the resources. *)
Definition described_function (a : description_args) (defaultFunction : Function_)
    (source checksum contentType : string) (resources : ResourceRequirements) : Function_ :=
  let s := f_Spec defaultFunction in
  let labels := description_labels a defaultFunction in
  {| f_Type := {| tm_Kind := "Function"; tm_APIVersion := "kubeless.io/v1beta1" |};
     f_Meta := mk_meta (a_funcName a) (a_ns a) (Some labels) [];
     f_Spec := {|
       fs_Handler := or_given (a_handler a) (fs_Handler s);
       fs_Function := source; fs_FunctionContentType := contentType; fs_Checksum := checksum;
       fs_Runtime := or_given (a_runtime a) (fs_Runtime s);
       fs_Timeout := or_given (a_timeout a) (fs_Timeout s);
       fs_Deps := or_given (a_deps a) (fs_Deps s);
       fs_Deployment := dpm_set_podspec (fs_Deployment s)
                          (description_podspec a defaultFunction resources);
       fs_ServiceSpec := description_service a labels;
       fs_HorizontalPodAutoscaler := fs_HorizontalPodAutoscaler s |} |}.

Section Describe.
Context {S : Type} `{UrlParse} `{ParseQuantity}.

(** Source, checksum and content type of the file. *)
Definition description_source (a : description_args) (defaultFunction : Function_) :
    go S (string * string * string) :=
  let s := f_Spec defaultFunction in
  if a_file a =?s "" then mret (fs_Function s, fs_Checksum s, fs_FunctionContentType s)
  else
    contentType ← GetContentType (a_file a);
    '(functionContent, checksum) ← ParseContent (a_file a) contentType;
    mret (if Contains contentType "url" then a_file a else functionContent, checksum, contentType).

Definition getFunctionDescription (a : description_args) (defaultFunction : Function_) :
    go S Function_ :=
  '(source, checksum, contentType) ← description_source a defaultFunction;
  resources ← lift (description_resources a defaultFunction);
  mret (described_function a defaultFunction source checksum contentType resources).

(** ** Reading functions *)

Definition getDeploymentStatus (funcName ns : string) : go S string :=
  dpm ← must (kGet KDeployment ns funcName);
  let s := dpm_Status dpm in
  mret (Itoa (dst_ReadyReplicas s) +:+ "/" +:+ Itoa (dst_Replicas s) +:+
        (if (0 <? dst_ReadyReplicas s)%Z then " READY" else " NOT READY")).

Definition getFunctions (namespace functionName : string) : go S (list Function_) :=
  if functionName =?s "" then must (kList KFunction namespace "")
  else f ← must (kGet KFunction namespace functionName); mret [f].

End Describe.

(** ** Key-value arguments split at the first separator *)

Definition is_separator (c : Ascii.ascii) : bool := char_in "=:" c.
Definition no_separator (k : string) : Prop := forallb (fun c => negb (is_separator c)) (chars k) = true.

Lemma is_separator_spec c : is_separator c = true <-> c = "="%char \/ c = ":"%char.
Proof.
  unfold is_separator. split; [|by intros [-> | ->]].
  destruct c as [[] [] [] [] [] [] [] []]; vm_compute; intros; try done; auto.
Qed.

Lemma index_any_none n k : no_separator k -> index_any_from n k "=:" = None.
Proof.
  revert n. induction k as [|c k IH]; intros n Hk; [done|].
  apply andb_true_iff in Hk as [Hc Hk]. simpl. unfold is_separator in Hc.
  destruct (char_in "=:" c); [done|]. by apply IH.
Qed.

Lemma index_any_first n k c v :
  no_separator k -> is_separator c = true ->
  index_any_from n (k +:+ String c v) "=:" = Some (n + String.length k)%nat.
Proof.
  revert n. induction k as [|d k IH]; intros n Hk Hc; simpl.
  { unfold is_separator in Hc. by rewrite Hc, Nat.add_0_r. }
  apply andb_true_iff in Hk as [Hd Hk]. unfold is_separator in Hd.
  destruct (char_in "=:" d); [done|]. rewrite IH by done. f_equal. lia.
Qed.

Lemma getKV_none k : no_separator k -> getKV k = (k, "").
Proof. intros Hk. unfold getKV, IndexAny. by rewrite index_any_none. Qed.

Lemma getKV_pair k c v :
  no_separator k -> is_separator c = true -> getKV (k +:+ String c v) = (k, v).
Proof.
  intros Hk Hc. unfold getKV, IndexAny. rewrite index_any_first by done. simpl.
  rewrite (proj2 (Z.eqb_neq _ _)) by lia. simpl.
  rewrite Nat2Z.id, string_take_app. f_equal.
  replace (Z.to_nat (Z.of_nat (String.length k) + 1)) with (String.length (k +:+ String c "")).
  - replace (k +:+ String c v) with ((k +:+ String c "") +:+ v) by (by rewrite string_app_assoc).
    apply string_drop_app.
  - rewrite string_length_app. simpl. lia.
Qed.

Lemma split_separator s :
  no_separator s \/ exists k c v, s = k +:+ String c v /\ no_separator k /\ is_separator c = true.
Proof.
  induction s as [|d s IH]; [by left|]. destruct (is_separator d) eqn:Hd.
  { right. by exists "", d, s. }
  destruct IH as [Hs|(k & c & v & -> & Hk & Hc)]; [left|right; exists (String d k), c, v; split; [done|]; split; [|done]];
    unfold no_separator; simpl; by rewrite Hd.
Qed.

(** Arguments "key=value" and "key:value" are split at the first separator,
    whatever the value contains; without one the value is empty.  So writing
    a pair and reading it back gives the pair. *)
Theorem getKV_spec s k v :
  getKV s = (k, v) <->
  no_separator k /\ (s = k +:+ "=" +:+ v \/ s = k +:+ ":" +:+ v \/ (s = k /\ v = "")).
Proof.
  split.
  - intros Hs. destruct (split_separator s) as [Hn|(k' & c & v' & -> & Hk & Hc)].
    + rewrite getKV_none in Hs by done. simplify_eq. eauto.
    + rewrite getKV_pair in Hs by done. simplify_eq. split; [done|].
      apply is_separator_spec in Hc as [-> | ->]; auto.
  - intros [Hk [-> | [-> | [-> ->]]]]; [by apply getKV_pair|by apply getKV_pair|by apply getKV_none].
Qed.

(** The last argument with a key counts. *)
Definition pairs_last (l : list (string * string)) (key : string) : option string :=
  snd <$> last (filter (fun kv => kv.1 = key) l).

Lemma parseLabel_lookup labels key :
  parseLabel labels !! key = pairs_last (map getKV labels) key.
Proof.
  unfold parseLabel, pairs_last. induction labels as [|label labels IH] using rev_ind; [done|].
  rewrite foldl_app, map_app, filter_app. simpl. destruct (getKV label) as [k v].
  destruct (decide (k = key)) as [->|Hne].
  - by rewrite lookup_insert_eq, filter_cons_True, filter_nil, last_snoc.
  - by rewrite lookup_insert_ne, IH, filter_cons_False, filter_nil, app_nil_r.
Qed.

(** ** What a description is *)

(** A described function: one container, its service selects its labels and
    forwards to the container's port, and every secret is mounted from a
    volume of its own. *)
Record described (a : description_args) (d f : Function_) : Prop := {
  d_name : f_name f = a_funcName a /\ f_namespace f = a_ns a;
  d_labels : exists l, f_labels f = Some l /\ ss_Selector (fs_ServiceSpec (f_Spec f)) = Some l /\
    (forall k, l !! k = match pairs_last (map getKV (a_labels a)) k with
                        | Some v => Some v | None => mget (f_labels d) k end);
  d_port : exists p, ss_Ports (fs_ServiceSpec (f_Spec f)) = [p] /\
    sp_TargetPort p = FromInt (a_port a) /\
    ((0 < a_port a <= 65535)%Z -> (0 <= a_servicePort a <= 65535)%Z -> (0 < sp_Port p <= 65535)%Z);
  d_container : exists c, ps_Containers (dpm_podspec (fs_Deployment (f_Spec f))) = [c] /\
    (forall secret, secret ∈ a_secrets a ->
       SecretSource secret ∈ vol_Source <$> filter (fun v => vol_Name v = secret +:+ "-vol")
                               (ps_Volumes (dpm_podspec (fs_Deployment (f_Spec f)))) /\
       {| vm_Name := secret +:+ "-vol"; vm_ReadOnly := false; vm_MountPath := "/" +:+ secret |}
         ∈ c_VolumeMounts c);
  d_hpa : fs_HorizontalPodAutoscaler (f_Spec f) = fs_HorizontalPodAutoscaler (f_Spec d) }.

Lemma described_function_ok a d source checksum contentType resources :
  described a d (described_function a d source checksum contentType resources).
Proof.
  split; [done| | | |done].
  - eexists. split; [done|]. split; [done|]. intros k. unfold description_labels.
    rewrite lookup_union, parseLabel_lookup. unfold mget, mmap. simpl.
    destruct (pairs_last _ k); [by rewrite union_Some_l|].
    rewrite (left_id None _). by destruct (f_labels d).
  - eexists. split; [done|]. split; [done|]. simpl. intros ? ?.
    destruct (Z.eqb_spec (a_servicePort a) 0); simpl; lia.
  - eexists. split; [done|]. intros secret Hin. split.
    + apply list_elem_of_fmap. exists {| vol_Name := secret +:+ "-vol"; vol_Source := SecretSource secret |}.
      split; [done|]. apply list_elem_of_filter. split; [done|]. simpl. apply elem_of_app. right.
      unfold secret_volumes. apply list_elem_of_fmap. by exists secret.
    + simpl. apply elem_of_app. right. apply list_elem_of_fmap. by exists secret.
Qed.

(** Whatever is read from files and addresses, a description that is
    returned has the given name, labels that override the default function's,
    a service that selects exactly these labels with one port in range, one
    container, and a volume and a mount for every secret. *)
Theorem getFunctionDescription_described {S : Type} `{UrlParse} `{ParseQuantity} a d f :
  yields (getFunctionDescription a d : go S _) f -> described a d f.
Proof.
  unfold getFunctionDescription. intros ([[source checksum] contentType] & _ & Hf)%yields_bind.
  apply yields_bind in Hf as (resources & _ & ->). apply described_function_ok.
Qed.

(** No flag was given that changes the function. *)
Record nothing_given (a : description_args) : Prop := {
  n_strings : a_file a = "" /\ a_handler a = "" /\ a_deps a = "" /\ a_runtime a = "" /\
    a_runtimeImage a = "" /\ a_mem a = "" /\ a_cpu a = "" /\ a_serviceAccount a = "";
  n_lists : a_envs a = [] /\ a_labels a = [] /\ a_secrets a = [] /\ a_nodeSelectors a = [] }.

(** What an update without such flags keeps. *)
Record kept (d f : Function_) (c : Container) : Prop := {
  k_source : fs_Function (f_Spec f) = fs_Function (f_Spec d) /\
    fs_Checksum (f_Spec f) = fs_Checksum (f_Spec d) /\
    fs_FunctionContentType (f_Spec f) = fs_FunctionContentType (f_Spec d);
  k_spec : fs_Handler (f_Spec f) = fs_Handler (f_Spec d) /\ fs_Deps (f_Spec f) = fs_Deps (f_Spec d) /\
    fs_Runtime (f_Spec f) = fs_Runtime (f_Spec d) /\
    fs_HorizontalPodAutoscaler (f_Spec f) = fs_HorizontalPodAutoscaler (f_Spec d);
  k_labels : mmap (f_labels f) = mmap (f_labels d);
  k_pod : let p := dpm_podspec (fs_Deployment (f_Spec d)) in
    let p' := dpm_podspec (fs_Deployment (f_Spec f)) in
    ps_Volumes p' = ps_Volumes p /\ ps_ServiceAccountName p' = ps_ServiceAccountName p /\
    mmap (ps_NodeSelector p') = mmap (ps_NodeSelector p) /\
    ps_InitContainers p' = ps_InitContainers p;
  k_container : exists c', ps_Containers (dpm_podspec (fs_Deployment (f_Spec f))) = [c'] /\
    c_Env c' = c_Env c /\ c_Resources c' = c_Resources c /\ c_Image c' = c_Image c /\
    c_VolumeMounts c' = c_VolumeMounts c }.

Lemma described_function_kept a d source checksum contentType :
  let c := default zero_container (default_container d) in
  nothing_given a ->
  (source, checksum, contentType) =
    (fs_Function (f_Spec d), fs_Checksum (f_Spec d), fs_FunctionContentType (f_Spec d)) ->
  kept d (described_function a d source checksum contentType (c_Resources c)) c.
Proof.
  cbv zeta. intros [Hs (He & Hl & Hsec & Hn)] [= -> -> ->].
  destruct Hs as (Hfile & Hh & Hd & Hr & Hi & _ & _ & Hsa).
  split; simpl; rewrite ?Hh, ?Hd, ?Hr; [done|done| | |].
  - unfold description_labels. rewrite Hl. apply (left_id_L ∅ _).
  - rewrite Hsa, Hsec, app_nil_r. split_and!; [done|done| |done].
    unfold description_node_selector. rewrite Hn. simpl.
    destruct (ps_NodeSelector _) as [m|]; [|done]. simpl.
    destruct (Nat.eqb_spec (size m) 0) as [E%map_size_empty_inv|]; [by rewrite E|done].
  - eexists. split; [done|]. unfold description_container, description_env, description_image. simpl.
    rewrite He, Hsec, Hi. by destruct (default_container d); simpl; rewrite ?app_nil_r.
Qed.

(** C29. An update that gives no flag keeps source, checksum, handler, runtime,
    dependencies, labels, autoscaler, volumes, service account and node
    selector, and of the container -- the first one, or an empty one where there
    is none -- its environment, resources, image and mounts, and reads no file;
    but the time-out, the service and the pull policy are those of the flags. *)
Theorem getFunctionDescription_keeps {S : Type} `{UrlParse} `{ParseQuantity} a d (Ha : nothing_given a) :
  exists f c', getFunctionDescription a d = (mret f : go S _) /\
    kept d f (default zero_container (default_container d)) /\
    fs_Timeout (f_Spec f) = or_given (a_timeout a) (fs_Timeout (f_Spec d)) /\
    fs_ServiceSpec (f_Spec f) =
      {| ss_Ports := [{| sp_Name := "http-function-port"; sp_Protocol := "TCP";
           sp_Port := if (a_servicePort a =? 0)%Z then a_port a else a_servicePort a;
           sp_TargetPort := FromInt (a_port a); sp_NodePort := 0 |}];
         ss_Selector := Some (mmap (f_labels f)); ss_ClusterIP := if a_headless a then "None" else "";
         ss_Type := "ClusterIP" |} /\
    ps_Containers (dpm_podspec (fs_Deployment (f_Spec f))) = [c'] /\
    c_ImagePullPolicy c' = a_imagePullPolicy a.
Proof.
  do 2 eexists. split_and!; [|by apply described_function_kept|done| |done..].
  2: { cbn. unfold description_service. by destruct (a_servicePort a =? 0)%Z. }
  destruct Ha as [(Hfile & _ & _ & _ & _ & Hmem & Hcpu & _) _].
  unfold getFunctionDescription, description_source, description_resources.
  rewrite Hfile, Hmem, Hcpu. simpl. by destruct (default_container d).
Qed.

(** ** Descriptions to evaluate *)
Module DescriptionSample.
#[export] Instance urls : UrlParse := fun s => Error (Errorf "invalid").
#[export] Instance quantities : ParseQuantity := fun s => Ok s.
Definition args : description_args :=
  {| a_funcName := "foo"; a_ns := "default"; a_handler := ""; a_file := ""; a_deps := "";
     a_runtime := ""; a_runtimeImage := ""; a_mem := ""; a_cpu := ""; a_timeout := "180";
     a_imagePullPolicy := "Always"; a_serviceAccount := ""; a_port := 8080; a_servicePort := 0;
     a_headless := false; a_envs := []; a_labels := []; a_secrets := []; a_nodeSelectors := [] |}.
Definition with_secret : description_args :=
  {| a_funcName := "foo"; a_ns := "default"; a_handler := "foo.bar"; a_file := ""; a_deps := "";
     a_runtime := "python2.7"; a_runtimeImage := ""; a_mem := "128Mi"; a_cpu := ""; a_timeout := "180";
     a_imagePullPolicy := "Always"; a_serviceAccount := ""; a_port := 8080; a_servicePort := 80;
     a_headless := true; a_envs := ["A=1=2"; "B"]; a_labels := ["a=b"; "a:c"];
     a_secrets := ["s3"]; a_nodeSelectors := [] |}.
(** A stored function with an image. *)
Definition stored : Function_ :=
  f_set_deployment (f_set_labels zero_function (Some {["function" := "foo"]}))
    (dpm_set_podspec zero_deployment (ps_set_containers zero_podspec [container_set_image zero_container "img"])).
End DescriptionSample.

Lemma getFunctionDescription_described_witness :
  exists f, described DescriptionSample.with_secret DescriptionSample.stored f /\
    f_labels f = Some {["a" := "c"; "function" := "foo"]}.
Proof.
  eexists. split.
  - apply (getFunctionDescription_described (S := unit) (H := DescriptionSample.urls)
      (H0 := DescriptionSample.quantities)). vm_compute. reflexivity.
  - vm_compute. reflexivity.
Defined.

Lemma getFunctionDescription_keeps_witness :
  exists f, getFunctionDescription (H := DescriptionSample.urls) (H0 := DescriptionSample.quantities)
      DescriptionSample.args DescriptionSample.stored = (mret f : go unit _) /\
    kept DescriptionSample.stored f (container_set_image zero_container "img") /\
    fs_Timeout (f_Spec f) = "180" /\
    exists c', ps_Containers (dpm_podspec (fs_Deployment (f_Spec f))) = [c'] /\ c_ImagePullPolicy c' = "Always".
Proof.
  destruct (getFunctionDescription_keeps (S := unit) (H := DescriptionSample.urls)
    (H0 := DescriptionSample.quantities) DescriptionSample.args DescriptionSample.stored)
    as (f & c' & Hf & Hk & Ht & _ & Hc & Hpol).
  - split; repeat split.
  - exists f. split; [exact Hf|]. split; [exact Hk|]. split; [rewrite Ht; reflexivity|]. by exists c'.
Defined.
