(* ===== verification/FunctionRun.v ===== *)
(** * The function commands (cmd/kubeless/function)

    [Run] of [deploy], [update], [delete], [call], [list], [describe], [logs]
    and [top].  Messages of the logger are left out, a fatal one is the end of
    the process. *)
From S2P Require Import Prelude GoStrings GoCodec GoProg KubeTypes World K8sUtil Content.
From S2P Require Import LangRuntime Flags FunctionCmd Metrics.

(** ** Third-party code *)

(** [cron.ParseStandard] of robfig/cron: the error, if the schedule is invalid. *)
Class CronParse := cron_ParseStandard : string -> option gerror.

(** A cron job trigger of [deploy]: the zero payload is null. *)
Definition null_payload : payload := Ok "null".

(** A JSON object, as far as [parseDeps] looks into it. *)
Inductive json_leaf := LString (s : string) | LOther.
Inductive json_value := JNull | JObject (m : gmap string json_leaf) | JOther.
Class JsonObject := json_Unmarshal_object : string -> result (gmap string json_value).

(** [json.Marshal] of labels and of environment variables. *)
Class JsonValues := {
  json_Marshal_labels : gomap string -> result string;
  json_Marshal_env : list EnvVar -> result string }.

(** ** Flags ([init] of each file) *)

Definition deploy_flags : declarations :=
  [("runtime", FString ""); ("handler", FString ""); ("from-file", FString "");
   ("label", FStringSlice []); ("secrets", FStringSlice []); ("env", FStringSlice []);
   ("node-selectors", FStringSlice []); ("service-account", FString "");
   ("namespace", FString ""); ("dependencies", FString ""); ("schedule", FString "");
   ("memory", FString ""); ("cpu", FString ""); ("runtime-image", FString "");
   ("image-pull-policy", FString "Always"); ("timeout", FString "180");
   ("output", FString "yaml"); ("headless", FBool false); ("dryrun", FBool false);
   ("port", FInt32 8080); ("servicePort", FInt32 0)].

Definition update_flags : declarations :=
  [("runtime", FString ""); ("handler", FString ""); ("from-file", FString "");
   ("memory", FString ""); ("cpu", FString ""); ("label", FStringSlice []);
   ("secrets", FStringSlice []); ("env", FStringSlice []); ("node-selectors", FStringSlice []);
   ("service-account", FString ""); ("namespace", FString ""); ("dependencies", FString "");
   ("runtime-image", FString ""); ("image-pull-policy", FString "Always");
   ("timeout", FString "180"); ("headless", FBool false); ("port", FInt32 8080);
   ("servicePort", FInt32 0); ("dryrun", FBool false); ("output", FString "yaml")].

Definition namespace_flags : declarations := [("namespace", FString "")].
Definition call_flags : declarations := [("data", FString ""); ("namespace", FString "")].
Definition list_flags : declarations := [("out", FString ""); ("namespace", FString "")].
Definition logs_flags : declarations := [("follow", FBool false); ("namespace", FString "")].
Definition top_flags : declarations :=
  [("namespace", FString ""); ("function", FString ""); ("out", FString "")].

Section Commands.
Context {S : Type}.
Context `{OsEnv} `{YamlRuntimes} `{UrlParse} `{ParseQuantity} `{JsonFunction} `{CronParse}.
Context `{!Render Function_} `{!RenderTable}.

(** [ns == ""]: the namespace of the kubectl configuration. *)
Definition or_default_namespace (ns : string) : go S string :=
  if ns =?s "" then GetDefaultNamespace else mret ns.

Definition one_argument (args : list string) (what : string) : go S string :=
  match args with
  | [arg] => mret arg
  | _ => Fatal ("Need exactly one argument - " +:+ what)
  end.

Definition check_runtime (lr : Langruntimes) (runtime : string) : go S unit :=
  if negb (runtime =?s "") && negb (IsValidRuntime lr runtime) then
    Fatal ("Invalid runtime: " +:+ runtime +:+ ". Supported runtimes are: "
           +:+ Join (GetRuntimes lr) ", ")
  else mret tt.

Definition check_pull_policy (imagePullPolicy : string) : go S unit :=
  if negb (imagePullPolicy =?s "IfNotPresent") && negb (imagePullPolicy =?s "Always")
     && negb (imagePullPolicy =?s "Never")
  then Fatal "image-pull-policy must be {IfNotPresent|Always|Never}" else mret tt.

Definition check_port (port : Z) : go S unit :=
  if (port <=? 0)%Z || (65535 <? port)%Z then
    Fatal ("Invalid port number " +:+ Itoa port +:+ " specified") else mret tt.

Definition check_servicePort (servicePort : Z) : go S unit :=
  if (servicePort <? 0)%Z || (65535 <? servicePort)%Z then
    Fatal ("Invalid servicePort number " +:+ Itoa servicePort +:+ " specified") else mret tt.

(** The dependencies are read from the file of the flag. *)
Definition read_deps (deps : string) : go S string :=
  if deps =?s "" then mret ""
  else
    contentType ← fatal_with "" (GetContentType deps);
    '(funcDeps, _) ← fatal_with "" (ParseContent deps contentType);
    mret funcDeps.

(** The dry run prints the resource. *)
Definition print_dryrun (output : string) (f : Function_) : go S unit :=
  if output =?s "json" then j ← fatal_with "" (lift (json_text f)); println j
  else if output =?s "yaml" then y ← fatal_with "" (lift (yaml_text f)); println y
  else mret tt.

(** [GetKubelessConfig] fails without access to the configuration: the runtime
    is not checked then. *)
Definition deploy_runtime_check (runtime : string) : go S unit :=
  config ← attempt GetKubelessConfig;
  match config with
  | Error _ => mret tt
  | Ok config => lr ← ReadConfigMap (New (cm_Data config)); check_runtime lr runtime
  end.

Definition check_schedule (schedule : string) : go S unit :=
  if schedule =?s "" then mret tt
  else match cron_ParseStandard schedule with
       | Some err => Fatal ("Invalid value for --schedule. " +:+ err_msg err)
       | None => mret tt
       end.

(** The function that [deploy] starts from. *)
Definition deploy_default (funcName : string) : Function_ :=
  f_set_labels zero_function (Some {["created-by" := "kubeless"; "function" := funcName]}).

(** The trigger of [--schedule]; the client of the cron job repository is one
    call. *)
Definition create_schedule (funcName ns schedule : string) : go S unit :=
  if schedule =?s "" then mret tt
  else
    let t : CronJobTrigger payload :=
      {| ct_Type := {| tm_Kind := "CronJobTrigger"; tm_APIVersion := "kubeless.io/v1beta1" |};
         ct_Meta := mk_meta funcName ns
           (Some {["created-by" := "kubeless"; "function" := funcName]}) [];
         ct_FunctionName := funcName; ct_Schedule := schedule; ct_Payload := null_payload |} in
    fatal_with "" (must (new_for_config "cronjob-trigger" (RestConfig "" "")));;
    fatal_with ("Failed to deploy cron job trigger " +:+ funcName +:+ ". Received:")
      (must (kCreate KCronJobTrigger ns t));; mret tt.

(** The function is printed, or created with its schedule. *)
Definition deploy_submit (funcName ns schedule : string) (dryrun : bool) (output : string) (f : Function_) : go S unit :=
  if dryrun then print_dryrun output f
  else
    fatal_with "" GetKubelessClientOutCluster;;
    fatal_with ("Failed to deploy " +:+ funcName +:+ ". Received:") (CreateFunctionCustomResource f);;
    create_schedule funcName ns schedule.

Definition deployCmd (fs : flags) (args : list string) : go S unit :=
  GetClientOutOfCluster;;
  GetAPIExtensionsClientOutOfCluster;;
  funcName ← one_argument args "function name";
  runtime ← GetString fs "runtime";
  deploy_runtime_check runtime;;
  schedule ← GetString fs "schedule";
  check_schedule schedule;;
  labels ← GetStringSlice fs "label";
  envs ← GetStringSlice fs "env";
  handler ← GetString fs "handler";
  file ← GetString fs "from-file";
  ns ← GetString fs "namespace";
  ns ← or_default_namespace ns;
  deps ← GetString fs "dependencies";
  secrets ← GetStringSlice fs "secrets";
  serviceAccount ← GetString fs "service-account";
  runtimeImage ← GetString fs "runtime-image";
  imagePullPolicy ← GetString fs "image-pull-policy";
  check_pull_policy imagePullPolicy;;
  mem ← GetString fs "memory";
  cpu ← GetString fs "cpu";
  timeout ← GetString fs "timeout";
  output ← GetString fs "output";
  headless ← GetBool fs "headless";
  dryrun ← GetBool fs "dryrun";
  port ← GetInt32 fs "port";
  check_port port;;
  servicePort ← GetInt32 fs "servicePort";
  check_servicePort servicePort;;
  funcDeps ← read_deps deps;
  (if (runtime =?s "") && (runtimeImage =?s "") then
     Fatal "Either `--runtime` or `--runtime-image` flag must be specified." else mret tt);;
  (if negb (runtime =?s "") && (handler =?s "") then
     Fatal "You must specify handler for the runtime." else mret tt);;
  nodeSelectors ← GetStringSlice fs "node-selectors";
  f ← fatal_with "" (getFunctionDescription
    {| a_funcName := funcName; a_ns := ns; a_handler := handler; a_file := file;
       a_deps := funcDeps; a_runtime := runtime; a_runtimeImage := runtimeImage; a_mem := mem;
       a_cpu := cpu; a_timeout := timeout; a_imagePullPolicy := imagePullPolicy;
       a_serviceAccount := serviceAccount; a_port := port; a_servicePort := servicePort;
       a_headless := headless; a_envs := envs; a_labels := labels; a_secrets := secrets;
       a_nodeSelectors := nodeSelectors |} (deploy_default funcName));
  deploy_submit funcName ns schedule dryrun output f.

(** The function is printed, or patched. *)
Definition update_submit (dryrun : bool) (output : string) (f : Function_) : go S unit :=
  if dryrun then print_dryrun output f
  else
    fatal_with "" GetKubelessClientOutCluster;;
    fatal_with "" (PatchFunctionCustomResource f).

Definition updateCmd (fs : flags) (args : list string) : go S unit :=
  GetClientOutOfCluster;;
  GetAPIExtensionsClientOutOfCluster;;
  config ← fatal_with "Unable to read the configmap: " GetKubelessConfig;
  lr ← ReadConfigMap (New (cm_Data config));
  funcName ← one_argument args "function name";
  ns ← GetString fs "namespace";
  ns ← or_default_namespace ns;
  handler ← GetString fs "handler";
  file ← GetString fs "from-file";
  secrets ← GetStringSlice fs "secrets";
  serviceAccount ← GetString fs "service-account";
  runtime ← GetString fs "runtime";
  check_runtime lr runtime;;
  labels ← GetStringSlice fs "label";
  envs ← GetStringSlice fs "env";
  runtimeImage ← GetString fs "runtime-image";
  imagePullPolicy ← GetString fs "image-pull-policy";
  check_pull_policy imagePullPolicy;;
  mem ← GetString fs "memory";
  cpu ← GetString fs "cpu";
  timeout ← GetString fs "timeout";
  deps ← GetString fs "dependencies";
  funcDeps ← read_deps deps;
  headless ← GetBool fs "headless";
  port ← GetInt32 fs "port";
  check_port port;;
  servicePort ← GetInt32 fs "servicePort";
  check_servicePort servicePort;;
  output ← GetString fs "output";
  dryrun ← GetBool fs "dryrun";
  nodeSelectors ← GetStringSlice fs "node-selectors";
  previousFunction ← fatal_with "" (GetFunction funcName ns);
  f ← fatal_with "" (getFunctionDescription
    {| a_funcName := funcName; a_ns := ns; a_handler := handler; a_file := file;
       a_deps := funcDeps; a_runtime := runtime; a_runtimeImage := runtimeImage; a_mem := mem;
       a_cpu := cpu; a_timeout := timeout; a_imagePullPolicy := imagePullPolicy;
       a_serviceAccount := serviceAccount; a_port := port; a_servicePort := servicePort;
       a_headless := headless; a_envs := envs; a_labels := labels; a_secrets := secrets;
       a_nodeSelectors := nodeSelectors |} previousFunction);
  update_submit dryrun output f.

Definition deleteCmd (fs : flags) (args : list string) : go S unit :=
  funcName ← one_argument args "function name";
  ns ← GetString fs "namespace";
  ns ← or_default_namespace ns;
  fatal_with "" GetKubelessClientOutCluster;;
  fatal_with "" (DeleteFunctionCustomResource funcName ns).

End Commands.
