(* ===== verification/FunctionView.v ===== *)
(** * Commands that look at functions (cmd/kubeless/function)

    [list], [describe], [call], [logs] and [top].  A table is the list of its
    rows. *)
From Stdlib Require Import Sorting.Sorted.
From S2P Require Import Prelude GoStrings GoCodec GoProg KubeTypes World K8sUtil.
From S2P Require Import LangRuntime Flags FunctionCmd FunctionRun Metrics.

Section View.
Context {S : Type}.
Context `{OsEnv} `{MapRange} `{JsonObject} `{JsonValues} `{!RenderTable}.
Context `{!Render Function_} `{!Render (list Function_)} `{!Render (list Metric)}.

(** ** list *)

(** A type assertion that fails panics. *)
Fixpoint dependency_lines (l : list (string * json_leaf)) : go S (list string) :=
  match l with
  | [] => mret []
  | (pkg, LString ver) :: l => ls ← dependency_lines l; mret ((pkg +:+ ": " +:+ ver) :: ls)
  | (_, LOther) :: _ => Panic "interface conversion: interface {} is not string"
  end.

Definition newline : string := String (Ascii.ascii_of_nat 10) "".

Definition parseDeps (deps runtime : string) : go S string :=
  if deps =?s "" then mret ""
  else if Contains runtime "nodejs" then
    pkgjson ← lift (json_Unmarshal_object deps);
    match default JNull (pkgjson !! "dependencies") with
    | JNull => mret ""
    | JObject m => dependencies ← dependency_lines (map_range (Some m)); mret (Join dependencies newline)
    | JOther => Panic "interface conversion: interface {} is not map[string]interface {}"
    end
  else mret deps.

(** The status column: a missing deployment is not an error. *)
Definition status_column (f : Function_) : go S string :=
  status ← attempt (getDeploymentStatus (f_name f) (f_namespace f));
  match status with
  | Ok s => mret s
  | Error e => if IsNotFound e then mret "MISSING: Check controller logs" else Throw e
  end.

Fixpoint rows_of {A} (row : A -> go S (list (list string))) (l : list A) : go S (list (list string)) :=
  match l with
  | [] => mret []
  | x :: l => r ← row x; rs ← rows_of row l; mret (r ++ rs)
  end.

Definition function_row (f : Function_) : go S (list (list string)) :=
  status ← status_column f;
  deps ← parseDeps (fs_Deps (f_Spec f)) (fs_Runtime (f_Spec f));
  mret [[f_name f; f_namespace f; fs_Handler (f_Spec f); fs_Runtime (f_Spec f); deps; status]].

Definition env_lines (env : list EnvVar) : string :=
  foldr (fun e acc => ev_Name e +:+ " = " +:+ ev_Value e +:+ newline +:+ acc) "" env.

Definition label_lines (labels : gomap string) : string :=
  foldr (fun '(k, v) acc => k +:+ " : " +:+ v +:+ newline +:+ acc) "" (map_range labels).

(** The wide row reads the first container of the function's deployment. *)
Definition wide_row (f : Function_) : go S (list (list string)) :=
  deps ← parseDeps (fs_Deps (f_Spec f)) (fs_Runtime (f_Spec f));
  status ← status_column f;
  c ← index (ps_Containers (dpm_podspec (fs_Deployment (f_Spec f)))) 0;
  let requests := Requests (c_Resources c) in
  let mem := if Nat.eqb (mlen requests) 0 then "" else Memory requests in
  let label := if Nat.ltb 0 (mlen (f_labels f)) then label_lines (f_labels f) else "" in
  mret [[f_name f; f_namespace f; fs_Handler (f_Spec f); fs_Runtime (f_Spec f); deps; status; mem;
         env_lines (c_Env c); label]].

(** What [json] and [yaml] print, for a value with both texts. *)
Definition print_as {A} `{!Render A} (x : A) (output : string) : go S unit :=
  if output =?s "json" then b ← lift (json_text x); println b
  else if output =?s "yaml" then b ← lift (yaml_text x); println b
  else Throw (Errorf "Wrong output format. Please use only json|yaml").

Definition printFunctions (functions : list Function_) (output : string) : go S unit :=
  if output =?s "" then
    rows ← rows_of function_row functions;
    println (table_text
      (["NAME"; "NAMESPACE"; "HANDLER"; "RUNTIME"; "DEPENDENCIES"; "STATUS"] :: rows))
  else if output =?s "wide" then
    rows ← rows_of wide_row functions;
    println (table_text
      (["NAME"; "NAMESPACE"; "HANDLER"; "RUNTIME"; "TYPE"; "TOPIC"; "DEPENDENCIES"; "STATUS";
        "MEMORY"; "ENV"; "LABEL"; "SCHEDULE"] :: rows))
  else print_as functions output.

Fixpoint get_named (ns : string) (args : list string) : go S (list Function_) :=
  match args with
  | [] => mret []
  | arg :: args =>
      r ← kGet KFunction ns arg;
      match r with
      | Error e => Throw (Errorf ("Error listing function " +:+ arg +:+ ": " +:+ err_msg e))
      | Ok f => fs ← get_named ns args; mret (f :: fs)
      end
  end.

Definition doList (ns output : string) (args : list string) : go S unit :=
  functions ← (match args with [] => must (kList KFunction ns "") | _ => get_named ns args end);
  printFunctions functions output.

Definition listCmd (fs : flags) (args : list string) : go S unit :=
  output ← GetString fs "out";
  ns ← GetString fs "namespace";
  ns ← or_default_namespace ns;
  fatal_with "Can not list functions: " GetKubelessClientOutCluster;;
  GetClientOutOfCluster;;
  fatal_with "" (doList ns output args).

(** ** describe *)

Definition describe_print (f : Function_) (name output : string) : go S unit :=
  if output =?s "" then
    label ← lift (json_Marshal_labels (f_labels f));
    '(env, memory) ←
      (match default_container f with
       | Some c => b ← lift (json_Marshal_env (c_Env c)); mret (b, Memory (Requests (c_Resources c)))
       | None => mret ("", "")
       end);
    println (table_text
      [["Name:"; name]; ["Namespace:"; f_namespace f]; ["Handler:"; fs_Handler (f_Spec f)];
       ["Runtime:"; fs_Runtime (f_Spec f)]; ["Label:"; label]; ["Envvar:"; env];
       ["Memory:"; memory]; ["Dependencies:"; fs_Deps (f_Spec f)]])
  else if output =?s "json" then b ← lift (json_text f); println b
  else if output =?s "yaml" then b ← lift (yaml_text f); println b
  else println "Wrong output format. Please use only json|yaml".

Definition describeCmd (fs : flags) (args : list string) : go S unit :=
  funcName ← one_argument args "function name";
  ns ← GetString fs "namespace";
  ns ← or_default_namespace ns;
  output ← GetString fs "out";
  f ← fatal_with "Can not describe function: " (GetFunction funcName ns);
  fatal_with "Can not describe function: " (describe_print f funcName output).

(** ** call *)

Definition IsJSON (s : string) : bool := is_ok (json_Unmarshal_object s).

(** The port of the service: its name, or its number when it has none. *)
Definition call_port (svc : Service) : go S string :=
  p ← index (ss_Ports (svc_Spec svc)) 0;
  mret (if sp_Name p =?s "" then Itoa (sp_Port p) else sp_Name p).

Definition call_headers (data : string) : list (string * string) :=
  if data =?s "" then []
  else
    let t := if IsJSON data then "application/json" else "application/x-www-form-urlencoded" in
    [("Content-Type", t); ("event-type", t)].

Definition callCmd (fs : flags) (args : list string) : go S unit :=
  funcName ← one_argument args "function name";
  data ← GetString fs "data";
  ns ← GetString fs "namespace";
  ns ← or_default_namespace ns;
  GetClientOutOfCluster;;
  svc ← kGet KService ns funcName;
  match svc with
  | Error _ => Fatal ("Unable to find the service for " +:+ funcName)
  | Ok svc =>
      port ← call_port svc;
      timestamp ← time_now;
      eventID ← fatal_with "Unable to generate ID " (GetRandString 11);
      let headers := call_headers data ++
        [("event-id", eventID); ("event-time", timestamp); ("event-namespace", "cli.kubeless.io")] in
      res ← (if data =?s "" then
               service_proxy "GET" ns (funcName +:+ ":" +:+ port) "" "" headers
             else
               service_proxy "POST" ns (funcName +:+ ":" +:+ port) "/" data headers);
      match res with
      | Ok res => println res
      | Error e =>
          if Contains (err_msg e) "status code 408" then Fatal "Request timeout exceeded"
          else Fatal (Replace (err_msg e) "\n" newline)
      end
  end.

(** ** logs *)

Definition logsCmd (fs : flags) (args : list string) : go S unit :=
  funcName ← one_argument args "function name";
  follow ← GetBool fs "follow";
  ns ← GetString fs "namespace";
  ns ← or_default_namespace ns;
  GetClientOutOfCluster;;
  pods ← fatal_with "Can't find the function pod: " (GetPodsByLabel ns "function" funcName);
  readyPod ← fatal_with "No function pod is running: " (lift (GetReadyPod pods));
  log ← fatal_with "Getting log failed: " (must (pod_logs ns (om_Name (pod_Meta readyPod)) funcName follow));
  println log.

(** ** top *)

(** The answers that arrive before the timeout, in the order of their arrival,
    and [sort.Slice], which is not stable. *)
Class TopChoices := {
  arrivals : list Function_ -> list Function_;
  arrivals_sub l : exists late, l ≡ₚ arrivals l ++ late;
  sort_by_name : list Metric -> list Metric;
  sort_by_name_perm l : sort_by_name l ≡ₚ l;
  sort_by_name_sorted l :
    StronglySorted (fun a b => String.ltb (FunctionName b) (FunctionName a) = false) (sort_by_name l) }.

Context `{PromText} `{TopChoices}.

Fixpoint collect (h : string -> string -> go S string) (ns : string) (fs : list Function_) :
    go S (list Metric) :=
  match fs with
  | [] => mret []
  | f :: fs => r ← GetFunctionMetrics h ns (f_name f); rs ← collect h ns fs; mret (r ++ rs)
  end.

Definition metric_row (show : float64 -> string) (m : Metric) : list string :=
  if Message m =?s "" then
    [FunctionName m; Namespace m; Method m; show (TotalCalls m); show (TotalFailures m);
     show (TotalDurationSeconds m); show (AvgDurationSeconds m); ""]
  else [FunctionName m; Namespace m; ""; ""; ""; ""; ""; Message m].

Definition printTop (show : float64 -> string) (metrics : list Metric) (output : string) : go S unit :=
  if output =?s "" then
    println (table_text
      (["NAME"; "NAMESPACE"; "METHOD"; "TOTAL_CALLS"; "TOTAL_FAILURES"; "TOTAL_DURATION_SECONDS";
        "AVG_DURATION_SECONDS"; "MESSAGE"] :: map (metric_row show) metrics))
  else print_as metrics output.

(** The rows that [doTop] prints. *)
Definition top_metrics (h : string -> string -> go S string) (ns functionName : string) :
    go S (list Metric) :=
  functions ← attempt (getFunctions ns functionName);
  match functions with
  | Error e => Throw (Errorf ("Error listing functions: " +:+ err_msg e))
  | Ok functions => metrics ← collect h ns (arrivals functions); mret (sort_by_name metrics)
  end.

Definition doTop (show : float64 -> string) (h : string -> string -> go S string)
    (ns functionName output : string) : go S unit :=
  metrics ← top_metrics h ns functionName;
  printTop show metrics output.

(** The error of [GetKubelessClientOutCluster] is overwritten: the nil client
    is then used. *)
Definition topCmd (show : float64 -> string) (fs : flags) (args : list string) : go S unit :=
  functionName ← GetString fs "function";
  ns ← GetString fs "namespace";
  ns ← or_default_namespace ns;
  output ← GetString fs "out";
  GetClientOutOfCluster;;
  client ← attempt GetKubelessClientOutCluster;
  (match client with Error _ => Panic nil_deref | Ok _ => mret tt end);;
  fatal_with "" (doTop show GetRawMetrics ns functionName output).

End View.
