(* ===== verification/Autoscale.v ===== *)
(** * Autoscaling rules on the command line (cmd/kubeless/autoscale) *)
From S2P Require Import Prelude GoStrings GoProg KubeTypes World K8sUtil LangRuntime.
From S2P Require Import Flags FunctionCmd FunctionRun.

(** ** The rule *)

Definition autoscale_metric `{ParseQuantity} (name metric value : string) : result (list MetricSpec) :=
  if metric =?s "cpu" then
    i ← ParseInt value 32;
    Ok [{| ms_Type := ResourceMetricSourceType; ms_Object := None;
           ms_Resource := Some {| rm_Name := "cpu"; rm_TargetAverageUtilization := Some (int32 i) |} |}]
  else if metric =?s "qps" then
    q ← resource_ParseQuantity value;
    Ok [{| ms_Type := ObjectMetricSourceType;
           ms_Object := Some {| omt_Target := {| ref_Kind := "Service"; ref_Name := name; ref_APIVersion := "" |};
                                omt_MetricName := "function_calls"; omt_TargetValue := q |};
           ms_Resource := None |}]
  else Error (Errorf ("metric " +:+ metric +:+ " is not supported")).

Definition getHorizontalAutoscaleDefinition `{ParseQuantity} (name ns metric : string) (min max : Z)
    (value : string) (labels : gomap string) : result HPA :=
  m ← autoscale_metric name metric value;
  Ok {| hpa_Type := {| tm_Kind := "HorizontalPodAutoscaler"; tm_APIVersion := "autoscaling/v2beta1" |};
        hpa_Meta := mk_meta name ns labels [];
        hpa_Spec := {| hs_ScaleTargetRef :=
                         {| ref_Kind := "Deployment"; ref_Name := name; ref_APIVersion := "apps/v1beta1" |};
                       hs_MinReplicas := Some min; hs_MaxReplicas := max; hs_Metrics := m |} |}.

Section Autoscale.
Context {S : Type} `{OsEnv} `{ParseQuantity} `{!Render HPA} `{!RenderTable}.

(** ** create, delete *)

Definition autoscale_create_flags : declarations :=
  [("min", FInt32 1); ("max", FInt32 1); ("metric", FString "cpu"); ("value", FString "");
   ("namespace", FString "")].
Definition autoscale_list_flags : declarations := [("out", FString ""); ("namespace", FString "")].

Definition find_function (funcName ns : string) : go S Function_ :=
  function ← attempt (GetFunction funcName ns);
  match function with
  | Ok f => mret f
  | Error e => Fatal ("Unable to find the function " +:+ funcName +:+ ". Received " +:+ err_msg e +:+ ": ")
  end.

Definition autoscaleCreateCmd (fs : flags) (args : list string) : go S unit :=
  funcName ← one_argument args "function name";
  ns ← GetString fs "namespace";
  ns ← or_default_namespace ns;
  function ← find_function funcName ns;
  min ← GetInt32 fs "min";
  (if (min <=? 0)%Z then Fatal "min can't be negative or zero" else mret tt);;
  max ← GetInt32 fs "max";
  (if (max <? min)%Z then Fatal "max must be greater than or equal to min" else mret tt);;
  metric ← GetString fs "metric";
  (if negb (metric =?s "cpu") && negb (metric =?s "qps") then
     Fatal "only supported metrics: cpu, qps" else mret tt);;
  value ← GetString fs "value";
  hpa ← fatal_with "" (lift (getHorizontalAutoscaleDefinition funcName ns metric min max value
                               (f_labels function)));
  fatal_with "" GetKubelessClientOutCluster;;
  fatal_with "" (UpdateFunctionCustomResource (f_set_hpa function hpa)).

Definition autoscaleDeleteCmd (fs : flags) (args : list string) : go S unit :=
  funcName ← one_argument args "autoscale name";
  ns ← GetString fs "namespace";
  ns ← or_default_namespace ns;
  function ← find_function funcName ns;
  if negb (hpa_name (fs_HorizontalPodAutoscaler (f_Spec function)) =?s "") then
    fatal_with "" GetKubelessClientOutCluster;;
    fatal_with "" (UpdateFunctionCustomResource (f_set_hpa function zero_hpa))
  else Fatal ("Not found an autoscale definition for " +:+ funcName).

(** ** list *)

(** Metric and value of a row. *)
Definition metric_columns (m : MetricSpec) : go S (string * string) :=
  match ms_Object m, ms_Resource m with
  | Some o, _ => mret (omt_MetricName o, omt_TargetValue o)
  | None, Some r =>
      match rm_TargetAverageUtilization r with
      | Some u => mret (rm_Name r, Itoa u)
      | None => Panic nil_deref
      end
  | None, None => mret ("", "")
  end.

(** A rule without a metric is logged and left out. *)
Fixpoint autoscale_rows (ass : list HPA) : go S (list (list string)) :=
  match ass with
  | [] => mret []
  | i :: ass =>
      match hs_Metrics (hpa_Spec i) with
      | [] => autoscale_rows ass
      | m :: _ =>
          '(mname, v) ← metric_columns m;
          match hs_MinReplicas (hpa_Spec i) with
          | None => Panic nil_deref
          | Some min =>
              rows ← autoscale_rows ass;
              mret ([hpa_name i; hpa_namespace i; ref_Name (hs_ScaleTargetRef (hpa_Spec i));
                     Itoa min; Itoa (hs_MaxReplicas (hpa_Spec i)); mname; v] :: rows)
          end
      end
  end.

Fixpoint autoscale_texts (ass : list HPA) (output : string) : go S unit :=
  match ass with
  | [] => mret tt
  | i :: ass =>
      (if output =?s "json" then b ← lift (json_text i); println b
       else if output =?s "yaml" then b ← lift (yaml_text i); println b
       else Throw (Errorf "Wrong output format. Only accept json|yaml file"));;
      autoscale_texts ass output
  end.

Definition printAutoscale (ass : list HPA) (output : string) : go S unit :=
  if output =?s "" then
    rows ← autoscale_rows ass;
    println (table_text (["NAME"; "NAMESPACE"; "TARGET"; "MIN"; "MAX"; "METRIC"; "VALUE"] :: rows))
  else autoscale_texts ass output.

Definition doAutoscaleList (ns output : string) : go S unit :=
  asList ← must (kList KHPA ns "created-by=kubeless");
  printAutoscale asList output.

Definition autoscaleListCmd (fs : flags) (args : list string) : go S unit :=
  output ← GetString fs "out";
  ns ← GetString fs "namespace";
  ns ← or_default_namespace ns;
  GetClientOutOfCluster;;
  fatal_with "" (doAutoscaleList ns output).

End Autoscale.
