(* ===== verification/Topic.v ===== *)
(** * Kafka topics (cmd/kubeless/topic)

    The commands run the scripts of Kafka in its pod. *)
From S2P Require Import Prelude GoStrings GoProg KubeTypes World K8sUtil LangRuntime.
From S2P Require Import Flags FunctionRun Exec.

Section Topic.
Context {S : Type} `{OsEnv}.

Definition topic_flags : declarations := [("kafka-namespace", FString "kubeless")].
Definition topic_publish_flags : declarations :=
  [("data", FString ""); ("topic", FString "kubeless"); ("kafka-namespace", FString "kubeless")].

(** The URL of the API server: [Exec] refuses an unknown scheme before the
    connection is opened. *)
Context (server_url : request_url).

(** The first pod of Kafka, and the command in its container "broker". *)
Definition exec_in_kafka (ns : string) (command : list string) (stdin : option string) : go S unit :=
  pods ← attempt (GetPodsByLabel ns "kubeless" "kafka");
  match pods with
  | Error e => Throw (Errorf ("Can't find the kafka pod: " +:+ err_msg e))
  | Ok [] => Throw (Errorf "Can't find any kafka pod")
  | Ok (pod :: _) =>
      lift (Exec server_url);;
      must (pod_exec ns (om_Name (pod_Meta pod)) "broker" command stdin)
  end.

Definition execCommand (ctlNamespace : string) (command : list string) : go S unit :=
  exec_in_kafka ctlNamespace command None.

Definition kafka_topics (ctlNamespace : string) (args : list string) : list string :=
  ["bash"; "/opt/bitnami/kafka/bin/kafka-topics.sh";
   "--zookeeper"; "zookeeper." +:+ ctlNamespace +:+ ":2181"] ++ args.

Definition createTopic (ctlNamespace topicName : string) : go S unit :=
  execCommand ctlNamespace (kafka_topics ctlNamespace
    ["--replication-factor"; "1"; "--partitions"; "1"; "--create"; "--topic"; topicName]).
Definition deleteTopic (ctlNamespace topicName : string) : go S unit :=
  execCommand ctlNamespace (kafka_topics ctlNamespace ["--delete"; "--topic"; topicName]).
Definition listTopic (ctlNamespace : string) : go S unit :=
  execCommand ctlNamespace (kafka_topics ctlNamespace ["--list"]).

(** The message goes to the producer's standard input, one line. *)
Definition publishTopic (namespace topic data : string) : go S unit :=
  exec_in_kafka namespace
    ["bash"; "/opt/bitnami/kafka/bin/kafka-console-producer.sh";
     "--broker-list"; "localhost:9092"; "--topic"; topic]
    (Some (data +:+ String (Ascii.ascii_of_nat 10) "")).

Definition topicCreateCmd (fs : flags) (args : list string) : go S unit :=
  topicName ← one_argument args "topic name";
  ctlNamespace ← GetString fs "kafka-namespace";
  fatal_with "" BuildOutOfClusterConfig;;
  GetClientOutOfCluster;;
  fatal_with "" (createTopic ctlNamespace topicName).

Definition topicDeleteCmd (fs : flags) (args : list string) : go S unit :=
  topicName ← one_argument args "topic name";
  ctlNamespace ← GetString fs "kafka-namespace";
  fatal_with "" BuildOutOfClusterConfig;;
  GetClientOutOfCluster;;
  fatal_with "" (deleteTopic ctlNamespace topicName).

Definition topicListCmd (fs : flags) (args : list string) : go S unit :=
  ctlNamespace ← GetString fs "kafka-namespace";
  fatal_with "" BuildOutOfClusterConfig;;
  GetClientOutOfCluster;;
  fatal_with "" (listTopic ctlNamespace).

Definition topicPublishCmd (fs : flags) (args : list string) : go S unit :=
  data ← GetString fs "data";
  topic ← GetString fs "topic";
  ctlNamespace ← GetString fs "kafka-namespace";
  fatal_with "" BuildOutOfClusterConfig;;
  GetClientOutOfCluster;;
  fatal_with "" (publishTopic ctlNamespace topic data).

End Topic.
