(* ===== verification/Triggers.v ===== *)
(** * Triggers on the command line (cmd/kubeless/trigger)

    A trigger connects a function to HTTP routes, schedules, Kafka and NATS
    topics or Kinesis streams.  The resources and their clients belong to the
    repositories kubeless/*-trigger: making a client is one call, the resource
    calls are those of the API server. *)
From S2P Require Import Prelude GoStrings GoCodec GoProg KubeTypes World K8sUtil Content LangRuntime.
From S2P Require Import Flags FunctionCmd FunctionRun.

(** ** Third-party code *)

(** [http-trigger/pkg/utils.GetLocalHostname]. *)
Class HttpTriggerUtils := httpUtils_GetLocalHostname : rest_config -> string -> result string.

(** [metav1.ParseToLabelSelector], its [MatchLabels], and
    [metav1.FormatLabelSelector]. *)
Class LabelSelectors := {
  meta_ParseToLabelSelector : string -> result (gomap string);
  meta_FormatLabelSelector : LabelSelector -> string }.

(** [url.ParseRequestURI]. *)
Class RequestURI := url_ParseRequestURI : string -> result unit.

(** [json.Unmarshal] into a map, as the canonical text of the payload. *)
Class JsonPayload := json_Unmarshal_payload : string -> result string.

Section Triggers.
Context {S : Type}.
Context `{OsEnv} `{UrlParse} `{CronParse} `{HttpTriggerUtils} `{LabelSelectors} `{RequestURI}.
Context `{JsonPayload} `{!RenderTable}.
Context `{!Render HTTPTrigger} `{!Render (CronJobTrigger payload)} `{!Render TopicTrigger}.
Context `{!Render KinesisTrigger}.

(** ** What the commands share *)

Definition trigger_client (repository : string) : go S unit :=
  must (new_for_config repository (RestConfig "" "")).

Definition read_namespace (fs : flags) : go S string :=
  ns ← GetString fs "namespace"; or_default_namespace ns.

Definition no_client : string := "Can not create out-of-cluster client: ".

Definition fatal_from {A} (what name ns : string) (p : go S A) : go S A :=
  fatal_with (what +:+ name +:+ " in namespace " +:+ ns +:+ ". Error: ") p.

Definition print_fmt {A} `{!Render A} (output : string) (x : A) : go S unit :=
  res ← fatal_with "" (lift (DryRunFmt output (json_text x) (yaml_text x)));
  println res.

Definition trigger_meta (name ns : string) : ObjectMeta :=
  mk_meta name ns (Some {["created-by" := "kubeless"]}) [].

Definition trigger_type (kind : string) : TypeMeta :=
  {| tm_Kind := kind; tm_APIVersion := "kubeless.io/v1beta1" |}.

Definition find_trigger_function (functionName ns : string) : go S unit :=
  fatal_from "Unable to find Function " functionName ns (GetFunctionCustomResource functionName ns);;
  mret tt.

(** Dry run or write. *)
Definition submit {A} `{!Render A} (dryrun : bool) (output : string) (x : A) (write : go S unit) :
    go S unit :=
  if dryrun then print_fmt output x else write.

(** ** HTTP *)

Definition http_create_flags : declarations :=
  [("namespace", FString ""); ("function-name", FString ""); ("path", FString "");
   ("hostname", FString ""); ("enableTLSAcme", FBool false); ("gateway", FString "nginx");
   ("basic-auth-secret", FString ""); ("tls-secret", FString ""); ("dryrun", FBool false);
   ("output", FString "yaml"); ("cors-enable", FBool false)].

Definition http_update_flags : declarations :=
  [("namespace", FString ""); ("function-name", FString ""); ("path", FString "");
   ("hostname", FString ""); ("enableTLSAcme", FBool false); ("gateway", FString "");
   ("basic-auth-secret", FString ""); ("tls-secret", FString ""); ("dryrun", FBool false);
   ("output", FString "yaml")].

Definition both_tls : string := "Cannot specify both --enableTLSAcme and --tls-secret".

(** nginx is assumed to listen on the address of the cluster. *)
Definition http_hostname (hostName gateway functionName : string) : go S string :=
  hostName ←
    (if (hostName =?s "") && (gateway =?s "nginx") then
       config ← fatal_with "" BuildOutOfClusterConfig;
       fatal_with "" (lift (httpUtils_GetLocalHostname config functionName))
     else mret hostName);
  if hostName =?s "" then Fatal "The --hostname flag is required" else mret hostName.

Definition httpCreateCmd (fs : flags) (args : list string) : go S unit :=
  triggerName ← one_argument args "http trigger name";
  ns ← read_namespace fs;
  path ← GetString fs "path";
  functionName ← GetString fs "function-name";
  dryrun ← GetBool fs "dryrun";
  output ← GetString fs "output";
  fatal_with no_client GetKubelessClientOutCluster;;
  find_trigger_function functionName ns;;
  enableTLSAcme ← GetBool fs "enableTLSAcme";
  corsEnabled ← GetBool fs "cors-enable";
  tlsSecret ← GetString fs "tls-secret";
  (if enableTLSAcme && negb (tlsSecret =?s "") then Fatal both_tls else mret tt);;
  gateway ← GetString fs "gateway";
  (if negb (gateway =?s "nginx") && negb (gateway =?s "traefik") && negb (gateway =?s "kong") then
     Fatal ("Unsupported gateway " +:+ gateway) else mret tt);;
  hostName ← GetString fs "hostname";
  hostName ← http_hostname hostName gateway functionName;
  basicAuthSecret ← GetString fs "basic-auth-secret";
  let t := {| ht_Type := trigger_type "HTTPTrigger"; ht_Meta := trigger_meta triggerName ns;
              ht_FunctionName := functionName; ht_HostName := hostName; ht_TLSAcme := enableTLSAcme;
              ht_TLSSecret := tlsSecret; ht_Path := path; ht_BasicAuthSecret := basicAuthSecret;
              ht_Gateway := gateway; ht_CorsEnable := corsEnabled |} in
  submit dryrun output t
    (fatal_with no_client (trigger_client "http-trigger");;
     fatal_from "Failed to deploy HTTP trigger " triggerName ns (must (kCreate KHTTPTrigger ns t));;
     mret tt).

Definition httpUpdateCmd (fs : flags) (args : list string) : go S unit :=
  triggerName ← one_argument args "http trigger name";
  ns ← read_namespace fs;
  fatal_with no_client GetKubelessClientOutCluster;;
  fatal_with no_client (trigger_client "http-trigger");;
  t ← fatal_from "Unable to find HTTP trigger " triggerName ns (must (kGet KHTTPTrigger ns triggerName));
  functionName ← GetString fs "function-name";
  (if functionName =?s "" then mret tt else find_trigger_function functionName ns);;
  path ← GetString fs "path";
  hostName ← GetString fs "hostname";
  enableTLSAcme ← GetBool fs "enableTLSAcme";
  tlsSecret ← GetString fs "tls-secret";
  (if enableTLSAcme && negb (tlsSecret =?s "") then Fatal both_tls else mret tt);;
  gateway ← GetString fs "gateway";
  basicAuthSecret ← GetString fs "basic-auth-secret";
  dryrun ← GetBool fs "dryrun";
  output ← GetString fs "output";
  let t := {| ht_Type := ht_Type t; ht_Meta := ht_Meta t;
              ht_FunctionName := or_given functionName (ht_FunctionName t);
              ht_HostName := or_given hostName (ht_HostName t); ht_TLSAcme := enableTLSAcme;
              ht_TLSSecret := or_given tlsSecret (ht_TLSSecret t);
              ht_Path := or_given path (ht_Path t);
              ht_BasicAuthSecret := or_given basicAuthSecret (ht_BasicAuthSecret t);
              ht_Gateway := or_given gateway (ht_Gateway t); ht_CorsEnable := ht_CorsEnable t |} in
  submit dryrun output t
    (fatal_from "Failed to deploy HTTP trigger " triggerName ns
       (must (kUpdate KHTTPTrigger (om_Namespace (ht_Meta t)) t));; mret tt).

(** ** Cron jobs *)

Definition cronjob_create_flags : declarations :=
  [("namespace", FString ""); ("schedule", FString ""); ("function", FString "");
   ("dryrun", FBool false); ("output", FString "yaml"); ("payload", FString "");
   ("payload-from-file", FString "")].
(** [update] declares the same flags. *)
Definition cronjob_update_flags : declarations := cronjob_create_flags.

Definition parsePayloadContent (raw : string) : payload :=
  match json_Unmarshal_payload raw with
  | Ok p => Ok p
  | Error err =>
      Error (Errorf ("Found an error during JSON parsing on your payload: " +:+ err_msg err))
  end.

Definition getPayloadRawContent (file : string) : go S string :=
  contentType ← GetContentType file;
  '(content, _) ← ParseContent file contentType;
  let ext := filepath_Ext file in
  if negb (ext =?s ".json") then Throw (Errorf ("Sorry, we can't parse " +:+ ext +:+ " files yet"))
  else mret content.

(** The error of parsing is returned as the payload. *)
Definition parsePayload (content file : string) : go S payload :=
  if negb (file =?s "") then
    content ← getPayloadRawContent file; mret (parsePayloadContent content)
  else mret (parsePayloadContent content).

Definition invalid_schedule (schedule : string) : go S unit :=
  match cron_ParseStandard schedule with
  | Some err => Fatal ("Invalid value for --schedule. " +:+ err_msg err)
  | None => mret tt
  end.

Definition one_payload (payload payloadFromFile : string) : go S unit :=
  if negb (payload =?s "") && negb (payloadFromFile =?s "") then
    Fatal "You can't provide both raw payload and a payload file" else mret tt.

Definition cronjobCreateCmd (fs : flags) (args : list string) : go S unit :=
  triggerName ← one_argument args "cronjob trigger name";
  schedule ← GetString fs "schedule";
  invalid_schedule schedule;;
  ns ← read_namespace fs;
  functionName ← GetString fs "function";
  dryrun ← GetBool fs "dryrun";
  output ← GetString fs "output";
  payload ← GetString fs "payload";
  payloadFromFile ← GetString fs "payload-from-file";
  one_payload payload payloadFromFile;;
  fatal_with no_client GetKubelessClientOutCluster;;
  fatal_with no_client (trigger_client "cronjob-trigger");;
  find_trigger_function functionName ns;;
  parsedPayload ← fatal_from "Unable to parse the payload of Function " functionName ns
                    (parsePayload payload payloadFromFile);
  let t := {| ct_Type := trigger_type "CronJobTrigger"; ct_Meta := trigger_meta triggerName ns;
              ct_FunctionName := functionName; ct_Schedule := schedule; ct_Payload := parsedPayload |} in
  submit dryrun output t
    (fatal_from "Failed to create cronjob trigger object " triggerName ns
       (must (kCreate KCronJobTrigger ns t));; mret tt).

(** Every field is replaced, given or not. *)
Definition cronjobUpdateCmd (fs : flags) (args : list string) : go S unit :=
  triggerName ← one_argument args "cronjob trigger name";
  schedule ← GetString fs "schedule";
  (if schedule =?s "" then mret tt else invalid_schedule schedule);;
  ns ← read_namespace fs;
  functionName ← GetString fs "function";
  dryrun ← GetBool fs "dryrun";
  output ← GetString fs "output";
  payload ← GetString fs "payload";
  payloadFromFile ← GetString fs "payload-from-file";
  one_payload payload payloadFromFile;;
  fatal_with no_client GetKubelessClientOutCluster;;
  fatal_with no_client (trigger_client "cronjob-trigger");;
  fatal_from "Unable to find Function " triggerName ns (GetFunctionCustomResource functionName ns);;
  parsedPayload ← fatal_from "Unable to parse the payload of Function " functionName ns
                    (parsePayload payload payloadFromFile);
  t ← fatal_from "Unable to find Cronjob trigger " triggerName ns
        (must (kGet KCronJobTrigger ns triggerName));
  let t := {| ct_Type := ct_Type (t : CronJobTrigger World.payload); ct_Meta := ct_Meta t;
              ct_FunctionName := functionName; ct_Schedule := schedule; ct_Payload := parsedPayload |} in
  submit dryrun output t
    (fatal_from "Failed to update cronjob trigger object " triggerName ns
       (must (kUpdate KCronJobTrigger (om_Namespace (ct_Meta t)) t));; mret tt).

(** ** Kafka and NATS *)

Definition topic_create_flags : declarations :=
  [("namespace", FString ""); ("trigger-topic", FString ""); ("function-selector", FString "");
   ("dryrun", FBool false); ("output", FString "yaml")].
(** [update] declares the same flags. *)
Definition topic_update_flags : declarations := topic_create_flags.

Definition parse_selector (invalid functionSelector : string) : go S (gomap string) :=
  fatal_with invalid (lift (meta_ParseToLabelSelector functionSelector)).

Definition kafka_invalid : string := "Invalid lable selector specified ".
Definition nats_invalid : string := "Invalid label selector specified ".

(** An empty selector leaves the one of the trigger. *)
Definition or_selector (invalid functionSelector : string) (previous : LabelSelector) : go S LabelSelector :=
  if functionSelector =?s "" then mret previous
  else m ← parse_selector invalid functionSelector; mret {| MatchLabels := m |}.

Definition topic_trigger (kind name ns topic : string) (selector : gomap string) : TopicTrigger :=
  {| tt_Type := trigger_type kind; tt_Meta := trigger_meta name ns;
     tt_FunctionSelector := {| MatchLabels := selector |}; tt_Topic := topic |}.

Definition kafkaCreateCmd (fs : flags) (args : list string) : go S unit :=
  triggerName ← one_argument args "kafka trigger name";
  ns ← read_namespace fs;
  topic ← GetString fs "trigger-topic";
  functionSelector ← GetString fs "function-selector";
  dryrun ← GetBool fs "dryrun";
  output ← GetString fs "output";
  labelSelector ← parse_selector kafka_invalid functionSelector;
  let t := topic_trigger "KafkaTrigger" triggerName ns topic labelSelector in
  submit dryrun output t
    (fatal_with no_client (trigger_client "kafka-trigger");;
     fatal_from "Failed to create Kafka trigger object " triggerName ns
       (must (kCreate KKafkaTrigger ns t));; mret tt).

Definition kafkaUpdateCmd (fs : flags) (args : list string) : go S unit :=
  triggerName ← one_argument args "kafka trigger name";
  ns ← read_namespace fs;
  fatal_with no_client (trigger_client "kafka-trigger");;
  t ← fatal_from "Unable to find Kafka trigger " triggerName ns (must (kGet KKafkaTrigger ns triggerName));
  topic ← GetString fs "trigger-topic";
  functionSelector ← GetString fs "function-selector";
  dryrun ← GetBool fs "dryrun";
  output ← GetString fs "output";
  selector ← or_selector kafka_invalid functionSelector (tt_FunctionSelector t);
  let t := {| tt_Type := tt_Type t; tt_Meta := tt_Meta t; tt_FunctionSelector := selector;
              tt_Topic := or_given topic (tt_Topic t) |} in
  submit dryrun output t
    (fatal_from "Failed to update Kafka trigger object " triggerName ns
       (must (kUpdate KKafkaTrigger (om_Namespace (tt_Meta t)) t));; mret tt).

(** The client is made before the dry run. *)
Definition natsCreateCmd (fs : flags) (args : list string) : go S unit :=
  triggerName ← one_argument args "NATS trigger name";
  ns ← read_namespace fs;
  topic ← GetString fs "trigger-topic";
  functionSelector ← GetString fs "function-selector";
  dryrun ← GetBool fs "dryrun";
  output ← GetString fs "output";
  labelSelector ← parse_selector nats_invalid functionSelector;
  fatal_with no_client (trigger_client "nats-trigger");;
  let t := topic_trigger "NATSTrigger" triggerName ns topic labelSelector in
  submit dryrun output t
    (fatal_from "Failed to create NATS trigger object " triggerName ns
       (must (kCreate KNATSTrigger ns t));; mret tt).

Definition natsUpdateCmd (fs : flags) (args : list string) : go S unit :=
  triggerName ← one_argument args "NATS trigger name";
  ns ← read_namespace fs;
  fatal_with no_client (trigger_client "nats-trigger");;
  t ← fatal_from "Unable to find NATS trigger " triggerName ns (must (kGet KNATSTrigger ns triggerName));
  topic ← GetString fs "trigger-topic";
  functionSelector ← GetString fs "function-selector";
  selector ← or_selector nats_invalid functionSelector (tt_FunctionSelector t);
  dryrun ← GetBool fs "dryrun";
  output ← GetString fs "output";
  let t := {| tt_Type := tt_Type t; tt_Meta := tt_Meta t; tt_FunctionSelector := selector;
              tt_Topic := or_given topic (tt_Topic t) |} in
  submit dryrun output t
    (fatal_from "Failed to update NATS trigger object " triggerName ns
       (must (kUpdate KNATSTrigger (om_Namespace (tt_Meta t)) t));; mret tt).

Definition nats_publish_flags : declarations :=
  [("message", FString ""); ("topic", FString "kubeless"); ("url", FString "")].

Definition nats_publishTopic (topic message url : string) : go S unit :=
  fatal_with "" (must (nats_connect url));;
  must (nats_publish topic message).

Definition natsPublishCmd (fs : flags) (args : list string) : go S unit :=
  data ← GetString fs "message";
  topic ← GetString fs "topic";
  url ← GetString fs "url";
  fatal_with "Failed to publish message to topic: " (nats_publishTopic topic data url).

(** ** Kinesis *)

Definition kinesis_create_flags : declarations :=
  [("namespace", FString ""); ("stream", FString ""); ("aws-region", FString "");
   ("shard-id", FString ""); ("function-name", FString ""); ("secret", FString "");
   ("endpoint", FString ""); ("dryrun", FBool false); ("output", FString "yaml")].

(** No flag "namespace" and no flag "endpoint". *)
Definition kinesis_update_flags : declarations :=
  [("stream", FString ""); ("aws-region", FString ""); ("shard-id", FString "");
   ("function-name", FString ""); ("secret", FString ""); ("dryrun", FBool false);
   ("output", FString "yaml")].

Definition check_endpoint (endpointURL : string) : go S unit :=
  match url_ParseRequestURI endpointURL with
  | Ok _ => mret tt
  | Error err => Panic (err_msg err)
  end.

Definition kinesisCreateCmd (fs : flags) (args : list string) : go S unit :=
  triggerName ← one_argument args "Kinesis trigger name";
  ns ← read_namespace fs;
  functionName ← GetString fs "function-name";
  fatal_with no_client GetKubelessClientOutCluster;;
  find_trigger_function functionName ns;;
  streamName ← GetString fs "stream";
  regionName ← GetString fs "aws-region";
  shardID ← GetString fs "shard-id";
  secretName ← GetString fs "secret";
  endpointURL ← GetString fs "endpoint";
  (if endpointURL =?s "" then mret tt else check_endpoint endpointURL);;
  dryrun ← GetBool fs "dryrun";
  output ← GetString fs "output";
  GetClientOutOfCluster;;
  fatal_with "" (must (kGet KSecret ns secretName));;
  let t := {| kt_Type := trigger_type "KinesisTrigger"; kt_Meta := trigger_meta triggerName ns;
              kt_FunctionName := functionName; kt_Region := regionName; kt_Stream := streamName;
              kt_ShardID := shardID; kt_Secret := secretName; kt_Endpoint := endpointURL |} in
  submit dryrun output t
    (fatal_with no_client (trigger_client "kinesis-trigger");;
     fatal_from "Failed to create Kinesis trigger object " triggerName ns
       (must (kCreate KKinesisTrigger ns t));; mret tt).

(** The function is looked up but not stored. *)
Definition kinesisUpdateCmd (fs : flags) (args : list string) : go S unit :=
  triggerName ← one_argument args "Kinesis trigger name";
  ns ← read_namespace fs;
  fatal_with no_client GetKubelessClientOutCluster;;
  fatal_with no_client (trigger_client "kinesis-trigger");;
  t ← fatal_from "Unable to find Kinesis trigger " triggerName ns
        (must (kGet KKinesisTrigger ns triggerName));
  streamName ← GetString fs "stream";
  regionName ← GetString fs "aws-region";
  shardID ← GetString fs "shard-id";
  secretName ← GetString fs "secret";
  functionName ← GetString fs "function-name";
  (if functionName =?s "" then mret tt else find_trigger_function functionName ns);;
  dryrun ← GetBool fs "dryrun";
  output ← GetString fs "output";
  let t := {| kt_Type := kt_Type t; kt_Meta := kt_Meta t; kt_FunctionName := kt_FunctionName t;
              kt_Region := or_given regionName (kt_Region t);
              kt_Stream := or_given streamName (kt_Stream t);
              kt_ShardID := or_given shardID (kt_ShardID t);
              kt_Secret := or_given secretName (kt_Secret t); kt_Endpoint := kt_Endpoint t |} in
  submit dryrun output t
    (fatal_from "Failed to update Kinesis trigger object " triggerName ns
       (must (kUpdate KKinesisTrigger (om_Namespace (kt_Meta t)) t));; mret tt).

Definition kinesis_publish_flags : declarations :=
  [("stream", FString ""); ("aws-region", FString ""); ("partition-key", FString "");
   ("records", FStringArray []); ("endpoint", FString ""); ("secret", FString "");
   ("namespace", FString "")].

Definition kinesis_stream_flags : declarations :=
  [("stream-name", FString ""); ("aws-region", FString ""); ("shard-count", FInt64 1);
   ("endpoint", FString ""); ("secret", FString ""); ("namespace", FString "")].

(** The AWS keys of a secret; one that is not found is read as empty. *)
Definition aws_keys (ns secretName : string) : go S (string * string) :=
  r ← kGet KSecret ns secretName;
  let data := match r with Ok secret => sec_Data secret | Error _ => None end in
  let service := secretName +:+ " necessary to connect to AWS Kinesis service. Error: " +:+
                 match r with Ok _ => "<nil>" | Error e => err_msg e end in
  match mget data "aws_access_key_id" with
  | None => Fatal ("Error getting aws_access_key_id from the secret: " +:+ service)
  | Some k =>
      match mget data "aws_secret_access_key" with
      | None => Fatal ("Error getting aws_aaws_secret_access_keyccess_key_id from the secret: " +:+ service)
      | Some s => mret (k, s)
      end
  end.

Definition kinesisPublishCmd (fs : flags) (args : list string) : go S unit :=
  records ← GetStringArray fs "records";
  streamName ← GetString fs "stream";
  region ← GetString fs "aws-region";
  key ← GetString fs "partition-key";
  ns ← read_namespace fs;
  secretName ← GetString fs "secret";
  GetClientOutOfCluster;;
  '(accessKey, secretKey) ← aws_keys ns secretName;
  endpointURL ← GetString fs "endpoint";
  (if endpointURL =?s "" then mret tt else check_endpoint endpointURL);;
  r ← kinesis_put_records region endpointURL accessKey secretKey streamName
        (map (fun record => (record, key)) records);
  match r with
  | Ok _ => mret tt
  | Error err => Panic ("Failed to put to record in the stream. Error: " +:+ err_msg err)
  end.

(** The endpoint is parsed even when it is empty. *)
Definition kinesisStreamCmd (fs : flags) (args : list string) : go S unit :=
  regionName ← GetString fs "aws-region";
  shardCount ← GetInt64 fs "shard-count";
  endpointURL ← GetString fs "endpoint";
  check_endpoint endpointURL;;
  ns ← read_namespace fs;
  secretName ← GetString fs "secret";
  GetClientOutOfCluster;;
  '(accessKey, secretKey) ← aws_keys ns secretName;
  streamName ← GetString fs "stream-name";
  fatal_with "Failed to create Kinesis stream. Error: "
    (must (kinesis_create_stream regionName endpointURL accessKey secretKey streamName shardCount)).

(** ** delete and list *)

Definition delete_trigger (k : kind) (repository client_error what noun : string) (fs : flags) (args : list string) :
    go S unit :=
  triggerName ← one_argument args (what +:+ " trigger name");
  ns ← read_namespace fs;
  fatal_with client_error (trigger_client repository);;
  fatal_from ("Failed to delete " +:+ noun +:+ " trigger object ") triggerName ns
    (must (kDelete k ns triggerName)).

(** The argument of [http delete] is announced as a Kafka trigger's. *)
Definition httpDeleteCmd := delete_trigger KHTTPTrigger "http-trigger" no_client "Kafka" "HTTP".
Definition cronjobDeleteCmd := delete_trigger KCronJobTrigger "cronjob-trigger" "" "cronjob" "Cronjob".
Definition kafkaDeleteCmd := delete_trigger KKafkaTrigger "kafka-trigger" no_client "Kafka" "Kafka".
Definition natsDeleteCmd := delete_trigger KNATSTrigger "nats-trigger" no_client "NATS" "NATS".
Definition kinesisDeleteCmd := delete_trigger KKinesisTrigger "kinesis-trigger" no_client "Kinesis" "Kinesis".

Definition list_triggers (k : kind) (header : list string) (row : obj k -> list string) (ns : string) :
    go S unit :=
  items ← must (kList k ns "");
  println (table_text (header :: map row items)).

Definition http_doList : string -> go S unit :=
  list_triggers KHTTPTrigger ["NAME"; "NAMESPACE"; "FUNCTION NAME"]
    (fun t : HTTPTrigger => [om_Name (ht_Meta t); om_Namespace (ht_Meta t); ht_FunctionName t]).
Definition cronjob_doList : string -> go S unit :=
  list_triggers KCronJobTrigger ["NAME"; "NAMESPACE"; "SCHEDULE"; "FUNCTION NAME"]
    (fun t : CronJobTrigger payload =>
       [om_Name (ct_Meta t); om_Namespace (ct_Meta t); ct_Schedule t; ct_FunctionName t]).
Definition topic_row (t : TopicTrigger) : list string :=
  [om_Name (tt_Meta t); om_Namespace (tt_Meta t); tt_Topic t;
   meta_FormatLabelSelector (tt_FunctionSelector t)].
Definition kafka_doList : string -> go S unit :=
  list_triggers KKafkaTrigger ["NAME"; "NAMESPACE"; "TOPIC"; "FUNCTION SELECTOR"] topic_row.
Definition nats_doList : string -> go S unit :=
  list_triggers KNATSTrigger ["NAME"; "NAMESPACE"; "TOPIC"; "FUNCTION SELECTOR"] topic_row.
Definition kinesis_doList : string -> go S unit :=
  list_triggers KKinesisTrigger ["NAME"; "NAMESPACE"; "REGION"; "STREAM"; "SHARD"; "FUNCTION NAME"]
    (fun t : KinesisTrigger =>
       [om_Name (kt_Meta t); om_Namespace (kt_Meta t); kt_Region t; kt_Stream t; kt_ShardID t;
        kt_FunctionName t]).

Definition list_command (repository : string) (doList : string -> go S unit) (fs : flags)
    (args : list string) : go S unit :=
  ns ← read_namespace fs;
  fatal_with no_client (trigger_client repository);;
  fatal_with "" (doList ns).

Definition httpListCmd := list_command "http-trigger" http_doList.
Definition cronjobListCmd := list_command "cronjob-trigger" cronjob_doList.
Definition kafkaListCmd := list_command "kafka-trigger" kafka_doList.
Definition natsListCmd := list_command "nats-trigger" nats_doList.
Definition kinesisListCmd := list_command "kinesis-trigger" kinesis_doList.

End Triggers.
