(* ===== verification/CommandSafety.v ===== *)
(** * What the commands may write

    Tactics and lemmas on every request a command can make, whatever it reads
    ([asks], [backs]), and what [deploy] may create and [update] resets. *)
From S2P Require Import Prelude GoStrings GoCodec GoProg KubeTypes World K8sUtil Content LangRuntime.
From S2P Require Import Flags FunctionCmd FunctionRun Autoscale Triggers.

(** A request that changes nothing in the cluster. *)
Definition reads (o : op) : Prop :=
  match o with
  | ACreate _ _ _ | AUpdate _ _ _ | APatch _ _ _ _ | ADelete _ _ _ | ADeleteCollection _ _ _
  | RestDo _ _ _ _ | ServiceProxy _ _ _ _ _ _ | FileCreate _ | FileWrite _ _ | RunCommand _ _
  | PodExec _ _ _ _ _ | NatsPublish _ _ | KinesisPutRecords _ _ _ _ _ _
  | KinesisCreateStream _ _ _ _ _ _ | QueueGet | QueueDone _ | QueueForget _ | QueueNumRequeues _
  | QueueAddRateLimited _ | QueueAdd _ => False
  | _ => True
  end.

Create HintDb asks.

Lemma asks_call {S} P o : P o -> asks P (call o : go S _).
Proof. intros Ho. by split. Qed.

Lemma asks_fatal_with {S A} P msg (p : go S A) : asks P p -> asks P (fatal_with msg p).
Proof. intros Hp. apply asks_bind; [by apply asks_attempt|]. by intros []. Qed.

Ltac leaf := first [exact Logic.I | apply asks_lift | apply asks_index | match goal with HP : forall o, reads o -> _ |- _ => apply asks_call, HP; exact Logic.I end].
Ltac asks_auto :=
  repeat first
    [ solve [leaf] | progress intros | assumption | solve [auto with asks]
    | apply asks_fatal_with | keeps_step ].

Section Asks.
Context {S : Type} (P : op -> Prop) (HP : forall o, reads o -> P o).
Context `{OsEnv} `{YamlRuntimes} `{UrlParse} `{ParseQuantity}.

(** What only reads. *)
Lemma asks_BuildOutOfClusterConfig : asks P (BuildOutOfClusterConfig : go S _).
Proof. unfold BuildOutOfClusterConfig. asks_auto. Qed.
Hint Resolve asks_BuildOutOfClusterConfig : asks.

Lemma asks_fatal_clients config clientset what :
  asks P (config : go S _) -> asks P (fatal_clients config clientset what).
Proof. intros Hc. unfold fatal_clients. asks_auto. Qed.

Lemma asks_GetClientOutOfCluster : asks P (GetClientOutOfCluster : go S _).
Proof. apply asks_fatal_clients. auto with asks. Qed.
Lemma asks_GetAPIExtensionsClientOutOfCluster : asks P (GetAPIExtensionsClientOutOfCluster : go S _).
Proof. apply asks_fatal_clients. auto with asks. Qed.
Lemma asks_GetKubelessClientOutCluster : asks P (GetKubelessClientOutCluster : go S _).
Proof. unfold GetKubelessClientOutCluster. asks_auto. Qed.
Lemma asks_or_default_namespace ns : asks P (or_default_namespace ns : go S _).
Proof. unfold or_default_namespace, GetDefaultNamespace. asks_auto. Qed.
Lemma asks_GetKubelessConfig : asks P (GetKubelessConfig : go S _).
Proof. unfold GetKubelessConfig, getConfigLocation, GetAnnotationsFromCRD. asks_auto. Qed.
Lemma asks_ReadConfigMap l : asks P (ReadConfigMap l : go S _).
Proof. unfold ReadConfigMap. asks_auto. Qed.
Hint Resolve asks_GetClientOutOfCluster asks_GetAPIExtensionsClientOutOfCluster
  asks_GetKubelessClientOutCluster asks_or_default_namespace asks_GetKubelessConfig
  asks_ReadConfigMap : asks.

Lemma asks_GetFunction name ns : asks P (GetFunction name ns : go S _).
Proof. unfold GetFunction. asks_auto. Qed.
Lemma asks_GetContentType f : asks P (GetContentType f : go S _).
Proof. unfold GetContentType. asks_auto. Qed.
Lemma asks_ParseContent f t : asks P (ParseContent f t : go S _).
Proof. unfold ParseContent, getFileSha256. asks_auto. Qed.
Hint Resolve asks_GetFunction asks_GetContentType asks_ParseContent : asks.

Lemma asks_getFunctionDescription a d : asks P (getFunctionDescription a d : go S _).
Proof. unfold getFunctionDescription, description_source. asks_auto. Qed.
Lemma asks_read_deps deps : asks P (read_deps deps : go S _).
Proof. unfold read_deps. asks_auto. Qed.
Lemma asks_one_argument args what : asks P (one_argument args what : go S _).
Proof. unfold one_argument. asks_auto. Qed.
Lemma asks_deploy_runtime_check runtime : asks P (deploy_runtime_check runtime : go S _).
Proof. unfold deploy_runtime_check, check_runtime. asks_auto. Qed.
Lemma asks_print_dryrun `{!Render Function_} output f : asks P (print_dryrun output f : go S _).
Proof. unfold print_dryrun. asks_auto. Qed.

End Asks.

#[export] Hint Resolve asks_GetClientOutOfCluster asks_GetAPIExtensionsClientOutOfCluster
  asks_GetKubelessClientOutCluster asks_BuildOutOfClusterConfig asks_or_default_namespace
  asks_GetKubelessConfig asks_ReadConfigMap asks_GetFunction asks_getFunctionDescription
  asks_read_deps asks_one_argument asks_deploy_runtime_check asks_print_dryrun : asks.

(** Take the body of a command apart: read a flag, or go past a step whose
    result carries a fact. *)
Section FlagSteps.
Context {S A : Type} (Q : go S A -> Prop) (decl : declarations) (given : flags) (n m : string).

Lemma then_GetString d (f : string -> go S A) :
  List.find (fun e => fst e =?s n) decl = Some (m, FString d) ->
  Q (f (string_flag given n d)) -> Q (GetString (flags_of decl given) n ≫= f).
Proof. intros E Hf. by rewrite (GetString_declared decl given n m d E). Qed.
Lemma then_undeclared (f : string -> go S A) :
  List.find (fun e => fst e =?s n) decl = None ->
  Q (Fatal (err_msg (undefined_flag n))) -> Q (GetString (flags_of decl given) n ≫= f).
Proof. intros E Hf. by rewrite GetString_undeclared. Qed.
Lemma then_GetBool d (f : bool -> go S A) :
  List.find (fun e => fst e =?s n) decl = Some (m, FBool d) ->
  Q (f (bool_flag given n d)) -> Q (GetBool (flags_of decl given) n ≫= f).
Proof. intros E Hf. by rewrite (GetBool_declared decl given n m d E). Qed.
Lemma then_GetInt32 d (f : Z -> go S A) :
  List.find (fun e => fst e =?s n) decl = Some (m, FInt32 d) ->
  Q (f (int32_flag given n d)) -> Q (GetInt32 (flags_of decl given) n ≫= f).
Proof. intros E Hf. by rewrite (GetInt32_declared decl given n m d E). Qed.
Lemma then_GetStringSlice d (f : list string -> go S A) :
  List.find (fun e => fst e =?s n) decl = Some (m, FStringSlice d) ->
  Q (f (slice_flag given n d)) -> Q (GetStringSlice (flags_of decl given) n ≫= f).
Proof. intros E Hf. by rewrite (GetStringSlice_declared decl given n m d E). Qed.
End FlagSteps.

Ltac flag_step :=
  lazymatch goal with
  | |- ?Q (GetString _ _ ≫= _) => first [eapply (then_GetString Q); [reflexivity|] | eapply (then_undeclared Q); [reflexivity|]]
  | |- ?Q (GetBool _ _ ≫= _) => eapply (then_GetBool Q); [reflexivity|]
  | |- ?Q (GetInt32 _ _ ≫= _) => eapply (then_GetInt32 Q); [reflexivity|]
  | |- ?Q (GetStringSlice _ _ ≫= _) => eapply (then_GetStringSlice Q); [reflexivity|]
  end; cbv beta.
Ltac past H := apply asks_bind_yields; [|intros ?x H; cbv beta].
Tactic Notation "skip" := apply asks_bind; [|intros ?; cbv beta].

(** ** What is written rests on what was read *)

(** The answer to a read. *)
Definition answered (k : kind) (ns n : string) (x : obj k) : event resp := existT (AGet k ns n) (Ok x).

(** Every request either reads, or [W] relates it to an object that was read. *)
Definition backed (k : kind) (W : string -> string -> obj k -> op -> Prop) (tr : trace) : Prop :=
  Forall (fun e : event resp => reads (projT1 e) \/
    exists ns n x, answered k ns n x ∈ tr /\ W ns n x (projT1 e)) tr.

(** The trace only grows. *)
Lemma runs_extends {S A} (p : go S A) s tr : runs p s tr (fun _ tr' _ => tr `prefix_of` tr').
Proof. apply runs_frame. eapply runs_mono; [|apply runs_true]. intros. by apply prefix_app_r. Qed.

Section Backed.
Context {S : Type} (k : kind) (W : string -> string -> obj k -> op -> Prop).

Definition backs {A} (p : go S A) : Prop :=
  forall s tr, Forall (fun e : event resp => reads (projT1 e)) tr ->
    runs p s tr (fun _ tr' _ => backed k W tr').

Lemma backed_reads tr : Forall (fun e : event resp => reads (projT1 e)) tr -> backed k W tr.
Proof. intros Htr. eapply Forall_impl; [exact Htr|]. auto. Qed.

Lemma backs_asks {A} (p : go S A) : asks reads p -> backs p.
Proof. intros Hp s tr Htr. eapply runs_mono; [|by apply asks_runs]. intros. by apply backed_reads. Qed.

Lemma backs_bind {A B} (p : go S A) (f : A -> go S B) :
  asks reads p -> (forall a, yields p a -> backs (f a)) -> backs (p ≫= f).
Proof.
  unfold backs, mbind, prog_mbind.
  induction p as [| | | |c IH|s0 c IH|o c IH]; simpl; intros Hp Hf s tr Htr; try by apply backed_reads.
  - by apply Hf.
  - apply IH; [apply Hp|intros a Ha; apply Hf; eauto|done].
  - apply IH; [apply Hp|intros a Ha; apply Hf; eauto|done].
  - intros r. apply IH; [apply Hp|intros a Ha; apply Hf; eauto|].
    apply Forall_app. split; [done|]. apply Forall_singleton, Hp.
Qed.

(** After the read, [W] speaks of its answer. *)
Lemma backs_kGet {A} ns n (f : result (obj k) -> go S A) :
  (forall e, asks reads (f (Error e))) -> (forall x, asks (fun o => reads o \/ W ns n x o) (f (Ok x))) ->
  backs (kGet k ns n ≫= f).
Proof.
  intros He Hf s tr Htr. simpl. intros [x|e].
  - eapply runs_mono; [|apply runs_conj; [apply (asks_runs (fun o => reads o \/ W ns n x o)); [apply Hf|]
                                         |apply runs_extends]].
    + intros s' tr' o [Htr' Hin]. eapply Forall_impl; [exact Htr'|]. intros e [|HW]; [by left|right].
      exists ns, n, x. split; [|done]. eapply elem_of_prefix; [|exact Hin].
      apply elem_of_app. right. by left.
    + apply Forall_app. split; [|by apply Forall_singleton; left].
      eapply Forall_impl; [exact Htr|]. auto.
  - apply backs_asks; [apply He|]. apply Forall_app. split; [done|by apply Forall_singleton].
Qed.

Lemma backs_read {A} msg ns n (f : obj k -> go S A) :
  (forall x, asks (fun o => reads o \/ W ns n x o) (f x)) ->
  backs (fatal_with msg (must (kGet k ns n)) ≫= f).
Proof.
  intros Hf s tr Htr r.
  pose proof (backs_kGet ns n (fun r => match r with Ok x => f x | Error e => Fatal (msg +:+ err_msg e) end)
    (fun _ => Logic.I) Hf s tr Htr r) as Hr. by destruct r.
Qed.

Lemma backs_assoc {A B C} (p : go S A) (f : A -> go S B) (g : B -> go S C) :
  backs (p ≫= fun a => f a ≫= g) -> backs ((p ≫= f) ≫= g).
Proof.
  intros Hp s tr Htr. specialize (Hp s tr Htr). rewrite runs_bind in Hp. rewrite !runs_bind.
  eapply runs_mono; [|exact Hp]. intros s' tr' [a|e|m|m]; [|done..]. by rewrite runs_bind.
Qed.
End Backed.

(** Go past a step of a command that only reads. *)
Ltac step := apply backs_bind; [|intros ? _; cbv beta].
Ltac facts H := apply backs_bind; [|intros ?x H; cbv beta].

(** ** Facts that a check leaves behind *)

Lemma yields_fatal_with {S A} msg (p : go S A) a : yields (fatal_with msg p) a <-> yields p a.
Proof.
  unfold fatal_with. rewrite yields_bind. split.
  - intros ([b|e] & Hb & Ha); [|done]. rewrite yields_attempt in Hb. change (a = b) in Ha. by rewrite Ha.
  - intros Ha. exists (Ok a). rewrite yields_attempt. by split.
Qed.

Lemma yields_one_argument {S} args what name :
  yields (one_argument args what : go S string) name -> args = [name].
Proof. by destruct args as [|a [|b l]]; simpl; intros; subst. Qed.

Lemma yields_if_fatal {S} (b : bool) m u :
  yields (if b then Fatal m else mret tt : go S unit) u -> b = false.
Proof. by destruct b. Qed.

Lemma yields_check_port {S} port u : yields (check_port port : go S unit) u -> (0 < port <= 65535)%Z.
Proof. intros E%yields_if_fatal. apply orb_false_iff in E as [? ?]. lia. Qed.

Lemma yields_check_servicePort {S} port u :
  yields (check_servicePort port : go S unit) u -> (0 <= port <= 65535)%Z.
Proof. intros E%yields_if_fatal. apply orb_false_iff in E as [? ?]. lia. Qed.

Lemma yields_check_pull_policy {S} policy u :
  yields (check_pull_policy policy : go S unit) u -> policy ∈ ["IfNotPresent"; "Always"; "Never"].
Proof.
  intros E%yields_if_fatal. unfold streq in E.
  repeat case_bool_decide; subst; try done; repeat first [by left | right].
Qed.

Lemma yields_check_schedule {S} `{CronParse} schedule u :
  yields (check_schedule schedule : go S unit) u -> schedule = "" \/ cron_ParseStandard schedule = None.
Proof.
  unfold check_schedule. case_streq; [by left|]. destruct (cron_ParseStandard schedule); [done|by right].
Qed.

(** ** deploy *)

(** A function that may be created: valid ports and pull policy, a handler for
    its runtime or else an image, the labels of [deploy] unless overridden. *)
Record deployable (labels : list string) (f : Function_) : Prop := {
  ok_ports : exists p, ss_Ports (fs_ServiceSpec (f_Spec f)) = [p] /\ (0 < sp_Port p <= 65535)%Z /\
    exists t, sp_TargetPort p = FromInt t /\ (0 < t <= 65535)%Z;
  ok_container : exists c, ps_Containers (dpm_podspec (fs_Deployment (f_Spec f))) = [c] /\
    c_ImagePullPolicy c ∈ ["IfNotPresent"; "Always"; "Never"] /\
    (fs_Runtime (f_Spec f) = "" -> c_Image c <> "");
  ok_handler : fs_Runtime (f_Spec f) <> "" -> fs_Handler (f_Spec f) <> "";
  ok_labels : forall k, parseLabel labels !! k = None ->
    mget (f_labels f) k = mget (Some {["created-by" := "kubeless"; "function" := f_name f]}) k }.

Lemma deploy_description {S} `{UrlParse} `{ParseQuantity} a f :
  yields (getFunctionDescription a (deploy_default (a_funcName a)) : go S _) f ->
  (0 < a_port a <= 65535)%Z -> (0 <= a_servicePort a <= 65535)%Z ->
  a_imagePullPolicy a ∈ ["IfNotPresent"; "Always"; "Never"] ->
  (a_runtime a =?s "") && (a_runtimeImage a =?s "") = false ->
  negb (a_runtime a =?s "") && (a_handler a =?s "") = false ->
  deployable (a_labels a) f /\ f_name f = a_funcName a /\ f_namespace f = a_ns a.
Proof.
  unfold getFunctionDescription. intros ([[source checksum] contentType] & _ & Hf)%yields_bind.
  apply yields_bind in Hf as (resources & _ & ->). intros Hp Hsp Hpol Himg Hh. split; [|done].
  split; simpl.
  - eexists. split; [done|]. split; [|by eexists]. simpl. destruct (Z.eqb_spec (a_servicePort a) 0); simpl; lia.
  - eexists. split; [done|]. split; [done|]. unfold or_given. simpl. unfold description_image. simpl.
    case_streq; simpl in *; done.
  - unfold or_given. case_streq; simpl in *; done.
  - intros k Hk. unfold description_labels. by rewrite lookup_union, Hk, (left_id None _).
Qed.

Definition deploy_requests `{CronParse} (given : flags) (args : list string) (o : op) : Prop :=
  match o with
  | ACreate KFunction ns f =>
      bool_flag given "dryrun" false = false /\ args = [f_name f] /\ ns = f_namespace f /\
      deployable (slice_flag given "label" []) f
  | ACreate KCronJobTrigger ns t =>
      bool_flag given "dryrun" false = false /\ args = [om_Name (ct_Meta t)] /\
      ct_FunctionName t = om_Name (ct_Meta t) /\ ct_Schedule t <> "" /\
      cron_ParseStandard (ct_Schedule t) = None
  | o => reads o
  end.

Section Deploy.
Context {S : Type} `{OsEnv} `{YamlRuntimes} `{UrlParse} `{ParseQuantity} `{JsonFunction} `{CronParse}.
Context `{!Render Function_}.

Lemma asks_deployCmd given args :
  asks (deploy_requests given args) (deployCmd (flags_of deploy_flags given) args : go S _).
Proof.
  assert (forall o, reads o -> deploy_requests given args o) as HP by (by intros []).
  unfold deployCmd, deploy_submit. skip. { auto with asks. } skip. { auto with asks. }
  past Hname. { auto with asks. } apply yields_one_argument in Hname as ->. flag_step.
  skip. { auto with asks. } flag_step.
  past Hsched. { unfold check_schedule. asks_auto. }
  apply yields_check_schedule in Hsched. do 5 flag_step. skip. { auto with asks. } do 5 flag_step.
  past Hpol. { unfold check_pull_policy. asks_auto. }
  apply yields_check_pull_policy in Hpol. do 7 flag_step.
  past Hport. { unfold check_port. asks_auto. } apply yields_check_port in Hport. flag_step.
  past Hsp. { unfold check_servicePort. asks_auto. } apply yields_check_servicePort in Hsp.
  skip. { auto with asks. }
  past Himg. { asks_auto. } apply yields_if_fatal in Himg.
  past Hh. { asks_auto. } apply yields_if_fatal in Hh. flag_step.
  past Hf. { apply asks_fatal_with. auto with asks. }
  rewrite yields_fatal_with in Hf.
  apply deploy_description in Hf as (Hok & Hfn & Hns); [|done..]. simpl in Hok, Hfn, Hns.
  destruct (bool_flag given "dryrun" false) eqn:Hdry; [auto with asks|].
  skip. { apply asks_fatal_with. auto with asks. } skip.
  { apply asks_fatal_with. unfold CreateFunctionCustomResource. apply asks_bind; [|done].
    apply asks_must, asks_call. simpl. by rewrite Hfn, Hns. }
  unfold create_schedule. destruct (string_flag given "schedule" "" =?s "") eqn:E; [done|].
  apply streq_false in E. destruct Hsched as [|Hsched]; [done|]. cbv zeta.
  skip. { asks_auto. } skip; [|done]. apply asks_fatal_with, asks_must, asks_call. done.
Qed.

(** C21. Whatever it reads, [deploy] writes at most the function and, with a
    valid schedule, its cron job trigger, both only without --dryrun; the
    function has the name given, ports between 1 and 65535, a valid pull
    policy, a handler for its runtime or else an image, and the labels of
    kubeless except where overridden. *)
Theorem deploy_creates given args (s : S) :
  runs (deployCmd (flags_of deploy_flags given) args) s []
    (fun _ tr _ => Forall (fun e : event resp => deploy_requests given args (projT1 e)) tr).
Proof. apply (asks_runs (S := S)); [apply asks_deployCmd|constructor]. Qed.

(** ** update *)

Definition update_requests (given : flags) (args : list string) (o : op) : Prop :=
  match o with
  | APatch KFunction ns n data =>
      bool_flag given "dryrun" false = false /\ args = [n] /\
      exists a d, a_funcName a = n /\ a_ns a = ns /\
        a_timeout a = string_flag given "timeout" "180" /\ a_port a = int32_flag given "port" 8080 /\
        a_servicePort a = int32_flag given "servicePort" 0 /\
        a_headless a = bool_flag given "headless" false /\
        a_imagePullPolicy a = string_flag given "image-pull-policy" "Always" /\
        exists source checksum contentType resources,
          json_Marshal_function (described_function a d source checksum contentType resources) = Ok data
  | o => reads o
  end.

Lemma asks_updateCmd given args :
  asks (update_requests given args) (updateCmd (flags_of update_flags given) args : go S _).
Proof.
  assert (forall o, reads o -> update_requests given args o) as HP by (by intros []).
  unfold updateCmd, update_submit. do 4 (skip; [asks_auto|]).
  past Hname. { auto with asks. } apply yields_one_argument in Hname as ->. flag_step.
  skip. { auto with asks. } do 5 flag_step. skip. { unfold check_runtime. asks_auto. } do 4 flag_step.
  skip. { unfold check_pull_policy. asks_auto. } do 4 flag_step. skip. { auto with asks. } do 2 flag_step.
  skip. { unfold check_port. asks_auto. } flag_step. skip. { unfold check_servicePort. asks_auto. }
  do 3 flag_step. skip. { asks_auto. } past Hf. { apply asks_fatal_with. auto with asks. }
  rewrite yields_fatal_with in Hf.
  apply yields_bind in Hf as ([[source checksum] contentType] & _ & Hf).
  apply yields_bind in Hf as (resources & _ & Hf). cbn in Hf. subst.
  destruct (bool_flag given "dryrun" false) eqn:Hdry; [auto with asks|].
  skip. { apply asks_fatal_with. auto with asks. }
  apply asks_fatal_with. unfold PatchFunctionCustomResource. past Hdata. { apply asks_lift. }
  apply yields_lift in Hdata. skip; [|exact Logic.I]. apply asks_must, asks_call. simpl.
  split; [done|]. split; [done|]. eexists _, _. split_and!; [| | | | | | |by do 4 eexists]; done.
Qed.

(** A patch with the defaults of the flags. *)
Definition resetting (o : op) : Prop :=
  match o with
  | APatch KFunction _ _ data => exists f, json_Marshal_function f = Ok data /\
      fs_Timeout (f_Spec f) = "180" /\ ss_ClusterIP (fs_ServiceSpec (f_Spec f)) = "" /\
      sp_Port <$> ss_Ports (fs_ServiceSpec (f_Spec f)) = [8080%Z] /\
      c_ImagePullPolicy <$> ps_Containers (dpm_podspec (fs_Deployment (f_Spec f))) = ["Always"]
  | o => reads o
  end.

(** C39. An update that gives neither port nor time-out nor pull policy writes
    the defaults of the flags, whatever the function had: port 8080, no
    headless service, 180 seconds, pull policy Always. *)
Theorem update_resets given args (s : S) :
  given !! "port" = None -> given !! "servicePort" = None -> given !! "timeout" = None ->
  given !! "headless" = None -> given !! "image-pull-policy" = None ->
  runs (updateCmd (flags_of update_flags given) args) s []
    (fun _ tr _ => Forall (fun e : event resp => resetting (projT1 e)) tr).
Proof.
  intros Hp Hsp Ht Hh Hpol. apply (asks_runs (S := S)); [|constructor].
  eapply asks_mono; [|apply asks_updateCmd]. intros [] Ho; try done. simpl in *. destruct k; try done.
  destruct Ho as (_ & _ & a & d & _ & _ & Eto & Epo & Esp & Ehl & Epp & ? & ? & ? & ? & Hdata).
  eexists. split; [exact Hdata|]. unfold string_flag, int32_flag, bool_flag in *.
  rewrite Hp in Epo. rewrite Hsp in Esp. rewrite Ht in Eto. rewrite Hh in Ehl. rewrite Hpol in Epp.
  simpl. unfold or_given. rewrite Eto, Epo, Esp, Ehl, Epp. done.
Qed.

End Deploy.
