(* ===== verification/Cli.v ===== *)
(** * Commands on the installation (cmd/kubeless: version, completion,
    getserverconfig)

    What cobra does with the tree of commands and how it generates the
    completion scripts is third-party. *)
From S2P Require Import Prelude GoStrings GoProg KubeTypes World K8sUtil LangRuntime.
From S2P Require Import Flags FunctionRun CommandSafety.

(** [version.Version] is set by the build; cobra's generators of scripts. *)
Class Build := { Version : string; GenCompletion : string -> string }.

Section Cli.
Context {S : Type} `{OsEnv} `{YamlRuntimes} `{Build}.

Definition VersionCmd : go S unit := println ("Kubeless version: " +:+ Version).

(** [ExactValidArgs(1)]: exactly one argument, of the valid ones; the command
    then runs.  Other shells print nothing. *)
Definition ValidArgs : list string := ["bash"; "zsh"; "fish"; "powershell"].

Definition CompletionCmd (args : list string) : go S unit :=
  match args with
  | [shell] =>
      if existsb (fun v => shell =?s v) ValidArgs then println (GenCompletion shell)
      else Throw (Errorf "invalid argument for kubeless completion")
  | _ => Throw (Errorf "accepts 1 arg(s)")
  end.

(** The log is what this command is for: its two lines are printed. *)
Definition GetServerConfigCmd : go S unit :=
  GetClientOutOfCluster;;
  GetAPIExtensionsClientOutOfCluster;;
  config ← fatal_with "Unable to read the configmap: " GetKubelessConfig;
  lr ← ReadConfigMap (New (cm_Data config));
  println "Current Server Config:";;
  println ("Supported Runtimes are: " +:+ Join (GetRuntimes lr) ", ").

(** The two lines for a list of runtimes. *)
Definition announced (rs : list string) : trace :=
  [existT (Println "Current Server Config:") tt;
   existT (Println ("Supported Runtimes are: " +:+ Join rs ", ")) tt].

Lemma check_runtime_listed lr runtime (s : S) tr :
  runtime <> "" ->
  runs (check_runtime lr runtime) s tr (fun s' tr' o => s' = s /\ tr' = tr /\
    (o = Done tt <-> runtime ∈ GetRuntimes lr)).
Proof.
  intros Hne. unfold check_runtime. rewrite (proj2 (streq_false _ _) Hne). simpl.
  assert (IsValidRuntime lr runtime = true <-> runtime ∈ GetRuntimes lr) as Hv by apply existsb_streq.
  destruct (IsValidRuntime lr runtime); cbn; (split; [done|]; split; [done|]).
  - split; [intros _; by apply Hv|done].
  - split; [done|]. intros Hin. by apply Hv in Hin.
Qed.

Definition reads_only (tr : trace) : Prop := Forall (fun e : event resp => reads (projT1 e)) tr.

(** The configuration map is one that was read. *)
Lemma GetKubelessConfig_read (s : S) tr : reads_only tr ->
  runs GetKubelessConfig s tr (fun _ tr' o => reads_only tr' /\
    forall cm, o = Done cm -> exists ns n, answered KConfigMap ns n cm ∈ tr').
Proof.
  intros Htr. apply runs_conj; [apply asks_runs; [by apply asks_GetKubelessConfig|done]|].
  unfold GetKubelessConfig. apply runs_bind. eapply runs_mono; [|apply runs_true].
  intros s' tr' [[[ns n]|e]|e|m|m] _; try done. apply runs_bind. cbn. intros [cm|e]; [|done].
  intros cm' [= <-]. exists ns, n. apply elem_of_app. right. by left.
Qed.

(** [getserverconfig] only reads and prints, and when it returns the runtimes
    it announced last are those of a configuration map it read: a runtime is
    among them exactly if [deploy] and [update] accept it under that
    configuration. *)
Lemma GetServerConfigCmd_announces (s : S) :
  runs GetServerConfigCmd s [] (fun _ tr o => reads_only tr /\
    (o = Done tt -> exists tr0 ns n cm lr, tr = tr0 ++ announced (GetRuntimes lr) /\
       answered KConfigMap ns n cm ∈ tr0 /\ yields (ReadConfigMap (New (cm_Data cm)) : go S _) lr /\
       forall runtime (s' : S), runtime <> "" ->
         runs (check_runtime lr runtime) s' tr0 (fun _ _ o => o = Done tt <-> runtime ∈ GetRuntimes lr))).
Proof.
  apply runs_conj.
  { apply asks_runs; [|constructor]. unfold GetServerConfigCmd. assert (forall o, reads o -> reads o) as HP by done.
    apply asks_bind; [by apply asks_GetClientOutOfCluster|intros ?].
    apply asks_bind; [by apply asks_GetAPIExtensionsClientOutOfCluster|intros ?]. asks_auto. }
  unfold GetServerConfigCmd.
  apply runs_bind. eapply runs_mono; [|apply asks_runs, Forall_nil; [by apply asks_GetClientOutOfCluster|done]].
  intros s1 tr1 [[]|e|m|m] Hr1; try done.
  apply runs_bind. eapply runs_mono; [|apply asks_runs, Hr1; by apply asks_GetAPIExtensionsClientOutOfCluster].
  intros s2 tr2 [[]|e|m|m] Hr2; try done.
  apply runs_bind. unfold fatal_with. apply runs_bind, runs_attempt.
  eapply runs_mono; [|by apply GetKubelessConfig_read]. intros s3 tr3 [cm|e|m|m] [_ Hcm]; try done.
  destruct (Hcm cm eq_refl) as (ns & n & Hin). cbn.
  apply runs_bind. eapply runs_mono; [|apply runs_conj; [apply yields_runs|apply runs_extends]].
  intros s4 tr4 [lr|e|m|m] [Hlr Hp]; try done. cbn. intros [] [] _.
  exists tr4, ns, n, cm, lr. split; [by rewrite <- app_assoc|]. split_and!.
  - by eapply elem_of_prefix.
  - by apply Hlr.
  - intros runtime s' Hne. eapply runs_mono; [|by apply check_runtime_listed]. naive_solver.
Qed.

End Cli.
