(* ===== verification/ViewSafety.v ===== *)
(** * What the commands that look at functions ask and print

    [call] sends one request to the function's service; [list -o wide] needs a
    container in every function and prints rows that do not fit its header. *)
From S2P Require Import Prelude GoStrings GoCodec GoProg KubeTypes World K8sUtil LangRuntime.
From S2P Require Import Flags FunctionCmd FunctionRun FunctionView CommandSafety.

Section Call.
Context {S : Type} `{OsEnv} `{JsonObject} (given : flags) (args : list string).

(** The port of a service in an address: by name if it has one. *)
Definition address_port (p : ServicePort) : string :=
  if sp_Name p =?s "" then Itoa (sp_Port p) else sp_Name p.

Definition called (ns n : string) (svc : Service) (o : op) : Prop :=
  match o with
  | ServiceProxy verb ns' address path body headers =>
      let data := string_flag given "data" "" in
      args = [n] /\ ns' = ns /\
      (exists p, head (ss_Ports (svc_Spec svc)) = Some p /\ address = n +:+ ":" +:+ address_port p) /\
      ("event-namespace", "cli.kubeless.io") ∈ headers /\
      (if data =?s "" then verb = "GET" /\ body = "" /\ "Content-Type" ∉ headers.*1
       else verb = "POST" /\ path = "/" /\ body = data /\
         ("Content-Type", if IsJSON data then "application/json"
                          else "application/x-www-form-urlencoded") ∈ headers)
  | _ => False
  end.

Lemma backs_callCmd : backs KService called (callCmd (flags_of call_flags given) args : go S _).
Proof.
  assert (HP : forall o, reads o -> reads o) by done.
  unfold callCmd. facts Hname. { auto with asks. } apply yields_one_argument in Hname. do 2 flag_step.
  step. { auto with asks. } step. { auto with asks. } apply backs_kGet; [done|]. intros svc.
  past Hport. { unfold call_port. apply asks_bind; [apply asks_index|done]. }
  apply yields_bind in Hport as (p & Hp & Hport). unfold index in Hp. rewrite <- head_lookup in Hp.
  destruct (head _) as [p'|] eqn:Hhead; [|done]. cbn in Hp, Hport. subst p' x0.
  skip. { apply asks_call. by left. }
  skip. { unfold GetRandString, rand_read. apply asks_fatal_with, asks_bind; [|done]. apply asks_must, asks_call. by left. }
  cbv zeta. unfold call_headers. skip.
  - destruct (string_flag given "data" "" =?s "") eqn:E; apply asks_call; right; cbn; rewrite E;
      (split; [done|]; split; [done|]; split; [by exists p|]; split; [apply list_elem_of_In; simpl; auto 8|]).
    + split_and!; [done|done|]. rewrite !elem_of_cons, elem_of_nil. by intros [|[|[|[]]]].
    + split_and!; try done. apply list_elem_of_In. simpl. auto.
  - case_match; [apply asks_call; by left|]. by case_match.
Qed.

(** A call asks the address of the function's service, read before, at the
    name of its first port or else its number: without data a GET, with data a
    POST of exactly the data whose content type says whether it is a JSON
    object. *)
Theorem call_request (s : S) :
  runs (callCmd (flags_of call_flags given) args) s []
    (fun _ tr _ => backed KService called tr).
Proof. apply backs_callCmd. constructor. Qed.
End Call.

(** ** list -o wide *)

Section Wide.
Context {S : Type} `{OsEnv} `{MapRange} `{JsonObject} `{!RenderTable}.
Context `{!Render Function_} `{!Render (list Function_)}.

Lemma yields_wide_row f rows : yields (wide_row f : go S _) rows ->
  ps_Containers (dpm_podspec (fs_Deployment (f_Spec f))) <> [] /\
  exists row, rows = [row] /\ length row = 9%nat.
Proof.
  unfold wide_row. intros (deps & _ & Hr)%yields_bind. apply yields_bind in Hr as (status & _ & Hr).
  apply yields_bind in Hr as (c & Hc & Hr). cbn in Hr. subst. split; [|by eexists].
  intros E. by rewrite E in Hc.
Qed.

Lemma yields_wide_rows fs rows : yields (rows_of wide_row fs : go S _) rows ->
  length rows = length fs /\ Forall (fun row => length row = 9%nat) rows /\
  Forall (fun f => ps_Containers (dpm_podspec (fs_Deployment (f_Spec f))) <> []) fs.
Proof.
  revert rows. induction fs as [|f fs IH]; simpl; intros rows Hr; [subst; by split_and!|].
  apply yields_bind in Hr as (r & Hf%yields_wide_row & Hr). apply yields_bind in Hr as (rs & Hrs & Hr).
  cbn in Hr. subst. destruct Hf as (Hc & row & -> & Hlen). apply IH in Hrs as (Hl & Hrows & Hfs).
  simpl. split_and!; [by rewrite Hl|by constructor|by constructor].
Qed.

(** A table of a wide list: twelve titles over rows of nine columns. *)
Definition wide_table (fs : list Function_) (o : op) : Prop :=
  match o with
  | Println line => exists header rows, line = table_text (header :: rows) /\
      length header = 12%nat /\ Forall (fun row => length row = 9%nat) rows /\
      length rows = length fs /\
      Forall (fun f => ps_Containers (dpm_podspec (fs_Deployment (f_Spec f))) <> []) fs
  | o => reads o
  end.

Lemma asks_parseDeps P d r : asks P (parseDeps d r : go S _).
Proof.
  unfold parseDeps. repeat keeps_step. generalize (map_range (Some m)). intros l.
  induction l as [|[k [v|]] l IH]; simpl; repeat keeps_step; done.
Qed.

Lemma asks_rows P (row : Function_ -> go S (list (list string))) fs :
  (forall f, asks P (row f)) -> asks P (rows_of row fs).
Proof. intros Hrow. induction fs; simpl; repeat (first [apply asks_bind|intros ?]); done. Qed.

Lemma asks_wide_row P f : (forall ns n, P (AGet KDeployment ns n)) -> asks P (wide_row f : go S _).
Proof.
  intros HP. unfold wide_row, status_column, getDeploymentStatus. pose proof (asks_parseDeps P) as Hd.
  repeat first [apply Hd | apply asks_call, HP | progress intros | keeps_step].
Qed.

Lemma yields_wide_list fs u : yields (printFunctions fs "wide" : go S _) u ->
  Forall (fun f => ps_Containers (dpm_podspec (fs_Deployment (f_Spec f))) <> []) fs.
Proof. unfold printFunctions. simpl. by intros (rows & (_ & _ & Hfs)%yields_wide_rows & _)%yields_bind. Qed.

(** A wide list is printed, and ends normally, only when every function has
    a container in its deployment: one deployed without ends the process with a
    panic.  The rows have nine columns, the header twelve titles. *)
Theorem list_wide_table fs (s : S) :
  runs (printFunctions fs "wide") s []
    (fun _ tr o => Forall (fun e : event resp => wide_table fs (projT1 e)) tr /\
      (o = Done tt -> Forall (fun f => ps_Containers (dpm_podspec (fs_Deployment (f_Spec f))) <> []) fs)).
Proof.
  apply runs_conj; [|eapply runs_mono; [|apply yields_runs]; intros ??? Hy ->; eapply yields_wide_list; eauto].
  apply (asks_runs (S := S) (wide_table fs)); [|constructor]. unfold printFunctions. simpl.
  past Hrows. { apply asks_rows. intros f. by apply asks_wide_row. }
  apply yields_wide_rows in Hrows as (Hlen & Hrows & Hfs). apply asks_call. by eexists _, _.
Qed.
End Wide.
