(* ===== verification/TriggerSafety.v ===== *)
(** * What the trigger and autoscale commands may write

    A dry run writes nothing; a created trigger is well formed and its function
    was found; an update writes what was read with the given fields replaced. *)
From S2P Require Import Prelude GoStrings GoCodec GoProg KubeTypes World K8sUtil Content LangRuntime.
From S2P Require Import Flags FunctionCmd FunctionRun Autoscale Triggers CommandSafety.

Section Reads.
Context {S : Type} (P : op -> Prop) (HP : forall o, reads o -> P o).
Context `{OsEnv} `{UrlParse} `{HttpTriggerUtils} `{LabelSelectors} `{RequestURI} `{JsonPayload} `{CronParse}.

Lemma asks_trigger_client r : asks P (trigger_client r : go S _).
Proof. unfold trigger_client. asks_auto. Qed.
Lemma asks_fatal_from {A} what name ns (p : go S A) : asks P p -> asks P (fatal_from what name ns p).
Proof. apply asks_fatal_with. Qed.
Lemma asks_GetFunctionCustomResource fn ns : asks P (GetFunctionCustomResource fn ns : go S _).
Proof. unfold GetFunctionCustomResource. asks_auto. Qed.
Lemma asks_find_trigger_function fn ns : asks P (find_trigger_function fn ns : go S _).
Proof. unfold find_trigger_function, GetFunctionCustomResource. apply asks_bind; [|done]. apply asks_fatal_from. asks_auto. Qed.
Lemma asks_print_fmt {A} `{!Render A} output (x : A) : asks P (print_fmt output x : go S _).
Proof. unfold print_fmt. asks_auto. Qed.
Lemma asks_http_hostname h g fn : asks P (http_hostname h g fn : go S _).
Proof. unfold http_hostname. asks_auto. Qed.
Lemma asks_parsePayload c f : asks P (parsePayload c f : go S _).
Proof.
  unfold parsePayload, getPayloadRawContent.
  pose proof (asks_GetContentType (S := S) P HP) as Hct. pose proof (asks_ParseContent (S := S) P HP) as Hpc. asks_auto.
Qed.
Lemma asks_parse_selector i t : asks P (parse_selector i t : go S _).
Proof. unfold parse_selector. asks_auto. Qed.
Lemma asks_or_selector i t l : asks P (or_selector i t l : go S _).
Proof. unfold or_selector, parse_selector. asks_auto. Qed.
End Reads.

#[export] Hint Resolve asks_trigger_client asks_fatal_from asks_GetFunctionCustomResource
  asks_find_trigger_function asks_print_fmt
  asks_http_hostname asks_parsePayload asks_parse_selector asks_or_selector : asks.

(** ** Dry runs *)

Section DryRun.
Context {S : Type} `{OsEnv} `{YamlRuntimes} `{UrlParse} `{ParseQuantity} `{JsonFunction} `{CronParse}.
Context `{HttpTriggerUtils} `{LabelSelectors} `{RequestURI} `{JsonPayload} `{!Render Function_}.
Context `{!Render HTTPTrigger} `{!Render (CronJobTrigger payload)} `{!Render TopicTrigger}.
Context `{!Render KinesisTrigger} (given : flags) (args : list string).

(** What is not a read is asked only without --dryrun. *)
Definition unless_dryrun (o : op) : Prop := bool_flag given "dryrun" false = true -> reads o.

Lemma unless_dryrun_reads o : reads o -> unless_dryrun o.
Proof. by intros ? ?. Qed.

Lemma asks_submit {A} `{!Render A} dryrun output (x : A) (p : go S unit) :
  dryrun = bool_flag given "dryrun" false -> (dryrun = false -> asks unless_dryrun p) ->
  asks unless_dryrun (submit dryrun output x p).
Proof.
  intros E Hp. unfold submit. destruct dryrun; [|by apply Hp].
  apply asks_print_fmt, unless_dryrun_reads.
Qed.

Ltac command :=
  pose proof unless_dryrun_reads as HP;
  repeat first
    [ progress intros | flag_step
    | lazymatch goal with
      | |- asks _ (_ ≫= _) => apply asks_bind
      | |- asks _ (submit _ _ _ _) => apply asks_submit; [reflexivity|]
      | |- asks _ (fatal_from _ _ _ _) => apply asks_fatal_from
      | |- asks _ (fatal_with _ _) => apply asks_fatal_with
      | |- asks _ (must _) => apply asks_must
      | |- asks _ (if ?b then _ else _) => destruct b eqn:?
      | |- asks _ (mret _) => exact Logic.I
      | |- asks _ (match ?b with _ => _ end) => destruct b
      | |- asks _ (Fatal _) => exact Logic.I
      | |- asks _ (Panic _) => exact Logic.I
      end
    | solve [auto with asks]
    | (apply asks_call; unfold unless_dryrun; first [congruence|done]) ].

(** The commands with --dryrun, with the flags they declare. *)
Definition dryrun_commands : list (declarations * (flags -> list string -> go S unit)) :=
  [(deploy_flags, deployCmd); (update_flags, updateCmd);
   (http_create_flags, httpCreateCmd); (http_update_flags, httpUpdateCmd);
   (cronjob_create_flags, cronjobCreateCmd); (cronjob_update_flags, cronjobUpdateCmd);
   (topic_create_flags, kafkaCreateCmd); (topic_update_flags, kafkaUpdateCmd);
   (topic_create_flags, natsCreateCmd); (topic_update_flags, natsUpdateCmd);
   (kinesis_create_flags, kinesisCreateCmd); (kinesis_update_flags, kinesisUpdateCmd)].

Ltac unfold_command :=
  unfold httpCreateCmd, httpUpdateCmd, cronjobCreateCmd, cronjobUpdateCmd,
    kafkaCreateCmd, kafkaUpdateCmd, natsCreateCmd, natsUpdateCmd, kinesisCreateCmd,
    kinesisUpdateCmd, read_namespace, check_endpoint, invalid_schedule, one_payload.

Lemma asks_dryrun d cmd : (d, cmd) ∈ dryrun_commands -> asks unless_dryrun (cmd (flags_of d given) args).
Proof.
  unfold dryrun_commands. rewrite !elem_of_cons, elem_of_nil.
  intros Hin. repeat destruct Hin as [[= -> ->]|Hin]; [..|done]; [| |unfold_command; command..].
  - eapply asks_mono; [|apply asks_deployCmd]. intros o Ho Hd.
    destruct o; try done; destruct k; try done; destruct Ho; congruence.
  - eapply asks_mono; [|apply asks_updateCmd]. intros o Ho Hd.
    destruct o; try done; destruct k; try done; destruct Ho; congruence.
Qed.

(** C30. With --dryrun no command that creates or updates a function or a
    trigger changes anything in the cluster, whatever it reads there. *)
Theorem dryrun_writes_nothing d cmd (s : S) :
  (d, cmd) ∈ dryrun_commands -> bool_flag given "dryrun" false = true ->
  runs (cmd (flags_of d given) args) s []
    (fun _ tr _ => Forall (fun e : event resp => reads (projT1 e)) tr).
Proof.
  intros Hin Hd. apply (asks_runs (S := S) reads); [|constructor].
  eapply asks_mono; [|by apply asks_dryrun]. intros o Ho. by apply Ho.
Qed.

End DryRun.

(** ** HTTP triggers *)

Section HttpTriggers.
Context {S : Type} `{OsEnv} `{HttpTriggerUtils} `{!Render HTTPTrigger}.
Context (given : flags) (args : list string).

(** The new trigger of a function that was found. *)
Definition http_created (ns functionName : string) (f : Function_) (o : op) : Prop :=
  bool_flag given "dryrun" false = false /\
  match o with
  | ACreate KHTTPTrigger ns' t =>
      ns' = ns /\ om_Namespace (ht_Meta t) = ns /\ args = [om_Name (ht_Meta t)] /\
      mget (om_Labels (ht_Meta t)) "created-by" = Some "kubeless" /\
      ht_FunctionName t = functionName /\ ht_HostName t <> "" /\
      ht_Gateway t ∈ ["nginx"; "traefik"; "kong"] /\
      (ht_TLSAcme t = true -> ht_TLSSecret t = "")
  | _ => False
  end.

Lemma yields_http_hostname h g fn h' : yields (http_hostname h g fn : go S _) h' -> h' <> "".
Proof.
  unfold http_hostname. intros (h0 & _ & Hh)%yields_bind.
  destruct (h0 =?s "") eqn:E; [done|]. cbn in Hh. subst. by apply streq_false.
Qed.

Lemma backs_httpCreateCmd :
  backs KFunction http_created (httpCreateCmd (flags_of http_create_flags given) args : go S _).
Proof.
  assert (HP : forall o, reads o -> reads o) by done.
  unfold httpCreateCmd. facts Hname. { auto with asks. } apply yields_one_argument in Hname.
  step. { unfold read_namespace. flag_step. auto with asks. } do 4 flag_step.
  step. { apply asks_fatal_with. auto with asks. }
  unfold find_trigger_function. apply backs_assoc, backs_read. intros f. skip. { done. }
  do 3 flag_step. past Htls. { asks_auto. } flag_step. past Hgate. { asks_auto. } flag_step.
  past Hhost. { apply asks_http_hostname. by left. } apply yields_http_hostname in Hhost.
  flag_step. unfold submit. destruct (bool_flag given "dryrun" false) eqn:Hdry.
  { apply asks_print_fmt. by left. }
  skip. { apply asks_fatal_with, asks_trigger_client. by left. }
  skip; [|exact Logic.I]. apply asks_fatal_from, asks_must, asks_call. right. split; [done|].
  apply yields_if_fatal in Htls, Hgate. split_and!; [done|done|done|done|done|done| |].
  - simpl. unfold streq in Hgate. repeat case_bool_decide; try done;
      match goal with E : _ = _ |- _ => rewrite E end; repeat first [by left | right].
  - simpl. intros Hacme. rewrite Hacme in Htls. simpl in Htls.
    apply negb_false_iff in Htls. by apply streq_true.
Qed.

(** C36. An HTTP trigger is created only without --dryrun and after the server
    answered the read of its function; it has the name given, the namespace it
    is sent to, the label of kubeless, a host name and a gateway that is
    supported, and not both kinds of TLS. *)
Theorem http_create_valid (s : S) :
  runs (httpCreateCmd (flags_of http_create_flags given) args) s []
    (fun _ tr _ => backed KFunction http_created tr).
Proof. apply backs_httpCreateCmd. constructor. Qed.

(** A field of a flag: the value given, the one stored if there is none. *)
Definition merged (given_value previous field : string) : Prop :=
  field = (if given_value =?s "" then previous else given_value).

Definition http_updated (ns n : string) (t0 : HTTPTrigger) (o : op) : Prop :=
  bool_flag given "dryrun" false = false /\ args = [n] /\
  match o with
  | AUpdate KHTTPTrigger ns' t =>
      ns' = om_Namespace (ht_Meta t0) /\ ht_Type t = ht_Type t0 /\ ht_Meta t = ht_Meta t0 /\
      ht_CorsEnable t = ht_CorsEnable t0 /\
      merged (string_flag given "function-name" "") (ht_FunctionName t0) (ht_FunctionName t) /\
      merged (string_flag given "path" "") (ht_Path t0) (ht_Path t) /\
      merged (string_flag given "hostname" "") (ht_HostName t0) (ht_HostName t) /\
      merged (string_flag given "gateway" "") (ht_Gateway t0) (ht_Gateway t) /\
      merged (string_flag given "basic-auth-secret" "") (ht_BasicAuthSecret t0) (ht_BasicAuthSecret t) /\
      merged (string_flag given "tls-secret" "") (ht_TLSSecret t0) (ht_TLSSecret t) /\
      ht_TLSAcme t = bool_flag given "enableTLSAcme" false
  | _ => False
  end.

Lemma backs_httpUpdateCmd :
  backs KHTTPTrigger http_updated (httpUpdateCmd (flags_of http_update_flags given) args : go S _).
Proof.
  assert (HP : forall o, reads o -> reads o) by done.
  unfold httpUpdateCmd. facts Hname. { auto with asks. } apply yields_one_argument in Hname.
  step. { unfold read_namespace. flag_step. auto with asks. }
  step. { apply asks_fatal_with. auto with asks. } step. { apply asks_fatal_with. auto with asks. }
  apply backs_read. intros t0. pose proof (fun o => @or_introl (reads o) (http_updated a x t0 o)) as HP'.
  flag_step. skip. { case_match; [done|]. by apply asks_find_trigger_function. } do 4 flag_step.
  skip. { case_match; done. } do 4 flag_step. unfold submit.
  destruct (bool_flag given "dryrun" false) eqn:Hdry; [by apply asks_print_fmt|].
  skip; [|exact Logic.I]. apply asks_fatal_from, asks_must, asks_call. right. split_and!; done.
Qed.

(** An update of an HTTP trigger writes the trigger the server answered
    with: identity and CORS setting stay, every text field keeps its value
    unless its flag is given; but ACME is on exactly when the flag is, so an
    update without --enableTLSAcme turns it off. *)
Theorem http_update_merges (s : S) :
  runs (httpUpdateCmd (flags_of http_update_flags given) args) s []
    (fun _ tr _ => backed KHTTPTrigger http_updated tr).
Proof. apply backs_httpUpdateCmd. constructor. Qed.

End HttpTriggers.

Section OtherTriggers.
Context {S : Type} `{OsEnv} `{UrlParse} `{CronParse} `{LabelSelectors} `{JsonPayload} `{!Render TopicTrigger}.
Context `{!Render (CronJobTrigger payload)} `{!Render KinesisTrigger}.
Context (given : flags) (args : list string).

(** Schedule, function and payload are those of the flags, given or not; the
    payload may be the error of parsing it. *)
Definition cronjob_replaced (ns n : string) (t0 : CronJobTrigger payload) (o : op) : Prop :=
  bool_flag given "dryrun" false = false /\ args = [n] /\
  match o with
  | AUpdate KCronJobTrigger ns' t =>
      ns' = om_Namespace (ct_Meta t0) /\ ct_Type t = ct_Type t0 /\ ct_Meta t = ct_Meta t0 /\
      ct_Schedule t = string_flag given "schedule" "" /\
      (ct_Schedule t = "" \/ cron_ParseStandard (ct_Schedule t) = None) /\
      ct_FunctionName t = string_flag given "function" "" /\
      exists content, ct_Payload t = parsePayloadContent content /\
        (string_flag given "payload-from-file" "" = "" -> content = string_flag given "payload" "")
  | _ => False
  end.

Lemma yields_parsePayload content file p :
  yields (parsePayload content file : go S _) p ->
  exists c, p = parsePayloadContent c /\ (file = "" -> c = content).
Proof.
  unfold parsePayload. destruct (file =?s "") eqn:E; simpl.
  - intros ->. by exists content.
  - intros (c & _ & Hp)%yields_bind. cbn in Hp. subst. exists c. split; [done|].
    intros ->. by rewrite streq_refl in E.
Qed.

Lemma yields_update_schedule schedule u :
  yields (if schedule =?s "" then mret tt else invalid_schedule schedule : go S unit) u ->
  schedule = "" \/ cron_ParseStandard schedule = None.
Proof.
  case_streq; [by left|]. unfold invalid_schedule. destruct (cron_ParseStandard schedule); [done|by right].
Qed.

Lemma backs_cronjobUpdateCmd :
  backs KCronJobTrigger cronjob_replaced (cronjobUpdateCmd (flags_of cronjob_update_flags given) args : go S _).
Proof.
  assert (HP : forall o, reads o -> reads o) by done.
  unfold cronjobUpdateCmd. facts Hname. { auto with asks. } apply yields_one_argument in Hname.
  flag_step. facts Hsched. { unfold invalid_schedule. asks_auto. } apply yields_update_schedule in Hsched.
  step. { unfold read_namespace. flag_step. auto with asks. } do 5 flag_step.
  step. { unfold one_payload. asks_auto. }
  step. { apply asks_fatal_with. auto with asks. } step. { apply asks_fatal_with. auto with asks. }
  step. { apply asks_fatal_from. auto with asks. } facts Hp. { apply asks_fatal_from. auto with asks. }
  unfold fatal_from in Hp. rewrite yields_fatal_with in Hp. apply yields_parsePayload in Hp as (c & -> & Hc).
  apply backs_read. intros t0. unfold submit. destruct (bool_flag given "dryrun" false) eqn:Hdry.
  { apply asks_print_fmt. by left. }
  skip; [|exact Logic.I]. apply asks_fatal_from, asks_must, asks_call. right. split_and!; try done.
  by exists c.
Qed.

(** An update of a cron job trigger does not merge: schedule, function and
    payload become those of the flags.  Without --schedule the schedule is
    erased, and a payload that does not parse is stored as the error. *)
Theorem cronjob_update_replaces (s : S) :
  runs (cronjobUpdateCmd (flags_of cronjob_update_flags given) args) s []
    (fun _ tr _ => backed KCronJobTrigger cronjob_replaced tr).
Proof. apply backs_cronjobUpdateCmd. constructor. Qed.

(** The command declares no flag "namespace". *)
Lemma kinesisUpdateCmd_flags arg :
  kinesisUpdateCmd (flags_of kinesis_update_flags given) [arg] =
  (Fatal "flag accessed but not defined: namespace" : go S unit).
Proof.
  unfold kinesisUpdateCmd, read_namespace, one_argument. by rewrite (GetString_undeclared _ _ "namespace").
Qed.

(** The update of a Kinesis trigger always ends the process, whatever its
    arguments and flags, without a single request. *)
Theorem kinesis_update_never_works (s : S) :
  runs (kinesisUpdateCmd (flags_of kinesis_update_flags given) args) s []
    (fun _ tr o => tr = [] /\ exists m, o = Exited m).
Proof.
  destruct args as [|arg [|? ?]]; [simpl; eauto| |simpl; eauto].
  rewrite kinesisUpdateCmd_flags. simpl. eauto.
Qed.

(** ** Kafka and NATS *)

Definition topic_write (k : kind) (o : op) : option (string * TopicTrigger) :=
  match k, o with
  | KKafkaTrigger, AUpdate KKafkaTrigger ns t => Some (ns, t)
  | KNATSTrigger, AUpdate KNATSTrigger ns t => Some (ns, t)
  | _, _ => None
  end.

Definition topic_updated (k : kind) (n : string) (t0 : TopicTrigger) (o : op) : Prop :=
  bool_flag given "dryrun" false = false /\ args = [n] /\
  exists t, topic_write k o = Some (om_Namespace (tt_Meta t0), t) /\
    tt_Type t = tt_Type t0 /\ tt_Meta t = tt_Meta t0 /\
    merged (string_flag given "trigger-topic" "") (tt_Topic t0) (tt_Topic t) /\
    let selector := string_flag given "function-selector" "" in
    if selector =?s "" then tt_FunctionSelector t = tt_FunctionSelector t0
    else meta_ParseToLabelSelector selector = Ok (MatchLabels (tt_FunctionSelector t)).

Lemma yields_or_selector i text previous l :
  yields (or_selector i text previous : go S _) l ->
  if text =?s "" then l = previous else meta_ParseToLabelSelector text = Ok (MatchLabels l).
Proof.
  unfold or_selector, parse_selector. destruct (text =?s ""); [done|].
  intros (m & Hm & Hl)%yields_bind. rewrite yields_fatal_with, yields_lift in Hm. cbn in Hl. by subst.
Qed.

Ltac topic_update :=
  let Hname := fresh in let HP := fresh in
  assert (HP : forall o, reads o -> reads o) by done;
  facts Hname; [auto with asks|]; apply yields_one_argument in Hname;
  step; [unfold read_namespace; flag_step; auto with asks|];
  step; [apply asks_fatal_with; auto with asks|].

Lemma backs_kafkaUpdateCmd :
  backs KKafkaTrigger (fun _ => topic_updated KKafkaTrigger)
    (kafkaUpdateCmd (flags_of topic_update_flags given) args : go S _).
Proof.
  unfold kafkaUpdateCmd. topic_update. apply backs_read. intros t0. do 4 flag_step.
  past Hsel. { apply asks_or_selector. } apply yields_or_selector in Hsel.
  unfold submit. destruct (bool_flag given "dryrun" false) eqn:Hdry; [apply asks_print_fmt; by left|].
  skip; [|exact Logic.I]. apply asks_fatal_from, asks_must, asks_call. right.
  split; [done|]. split; [done|]. by eexists.
Qed.

Lemma backs_natsUpdateCmd :
  backs KNATSTrigger (fun _ => topic_updated KNATSTrigger)
    (natsUpdateCmd (flags_of topic_update_flags given) args : go S _).
Proof.
  unfold natsUpdateCmd. topic_update. apply backs_read. intros t0. do 2 flag_step.
  past Hsel. { apply asks_or_selector. } apply yields_or_selector in Hsel. do 2 flag_step.
  unfold submit. destruct (bool_flag given "dryrun" false) eqn:Hdry; [apply asks_print_fmt; by left|].
  skip; [|exact Logic.I]. apply asks_fatal_from, asks_must, asks_call. right.
  split; [done|]. split; [done|]. by eexists.
Qed.

(** An update of a Kafka or NATS trigger writes the trigger the server
    answered with: identity, topic and selector stay unless their flag is
    given, and a selector given is the parsed one. *)
Theorem topic_update_merges (s : S) :
  runs (kafkaUpdateCmd (flags_of topic_update_flags given) args) s []
    (fun _ tr _ => backed KKafkaTrigger (fun _ => topic_updated KKafkaTrigger) tr) /\
  runs (natsUpdateCmd (flags_of topic_update_flags given) args) s []
    (fun _ tr _ => backed KNATSTrigger (fun _ => topic_updated KNATSTrigger) tr).
Proof. split; [apply backs_kafkaUpdateCmd|apply backs_natsUpdateCmd]; constructor. Qed.

End OtherTriggers.

(** ** Autoscaling rules *)

Section AutoscaleRules.
Context {S : Type} `{OsEnv} `{ParseQuantity} `{!Render HPA} `{!RenderTable}.
Context (given : flags) (args : list string).

(** A rule with bounds in order and one metric that has a value. *)
Record valid_rule (f : Function_) (hpa : HPA) : Prop := {
  vr_bounds : exists min, hs_MinReplicas (hpa_Spec hpa) = Some min /\
    (0 < min <= hs_MaxReplicas (hpa_Spec hpa))%Z;
  vr_labels : om_Labels (hpa_Meta hpa) = f_labels f;
  vr_target : ref_Kind (hs_ScaleTargetRef (hpa_Spec hpa)) = "Deployment" /\
    ref_Name (hs_ScaleTargetRef (hpa_Spec hpa)) = hpa_name hpa;
  vr_metric : exists m, hs_Metrics (hpa_Spec hpa) = [m] /\
    match ms_Object m, ms_Resource m with
    | Some o, None => omt_MetricName o = "function_calls" /\
        omt_Target o = {| ref_Kind := "Service"; ref_Name := hpa_name hpa; ref_APIVersion := "" |}
    | None, Some r => rm_Name r = "cpu" /\ exists u, rm_TargetAverageUtilization r = Some u /\ (- 2^31 <= u < 2^31)%Z
    | _, _ => False
    end }.

Lemma rule_valid f name ns metric min max value hpa :
  (0 < min)%Z -> (min <= max)%Z ->
  getHorizontalAutoscaleDefinition name ns metric min max value (f_labels f) = Ok hpa ->
  valid_rule f hpa /\ hpa_name hpa = name /\ hpa_namespace hpa = ns.
Proof.
  intros Hmin Hmax. unfold getHorizontalAutoscaleDefinition.
  intros (ms & Hm & [= <-])%result_bind_ok. split; [|done]. split; simpl; [by eexists|done|done|].
  unfold autoscale_metric in Hm. destruct (metric =?s "cpu").
  - apply result_bind_ok in Hm as (i & _ & [= <-]). eexists. split; [done|]. simpl.
    split; [done|]. eexists. split; [done|]. apply int32_range.
  - destruct (metric =?s "qps"); [|done]. apply result_bind_ok in Hm as (q & _ & [= <-]).
    eexists. by split.
Qed.

Definition autoscale_requests (o : op) : Prop :=
  match o with
  | AUpdate KFunction ns f => ns = f_namespace f /\
      exists f0 hpa, f = f_set_hpa f0 hpa /\ valid_rule f0 hpa /\ args = [hpa_name hpa]
  | o => reads o
  end.

Lemma asks_autoscaleCreateCmd :
  asks autoscale_requests (autoscaleCreateCmd (flags_of autoscale_create_flags given) args : go S _).
Proof.
  assert (HP : forall o, reads o -> autoscale_requests o) by (by intros []).
  unfold autoscaleCreateCmd. past Hname. { auto with asks. } apply yields_one_argument in Hname.
  flag_step. skip. { auto with asks. }
  skip. { unfold find_function. skip; [|by case_match]. apply asks_attempt. auto with asks. }
  flag_step. past Hmin. { asks_auto. } apply yields_if_fatal in Hmin.
  flag_step. past Hmax. { asks_auto. } apply yields_if_fatal in Hmax.
  flag_step. skip. { asks_auto. } flag_step.
  past Hrule. { apply asks_fatal_with, asks_lift. } rewrite yields_fatal_with, yields_lift in Hrule.
  apply rule_valid in Hrule as (Hv & Hn & _); [|lia..].
  skip. { apply asks_fatal_with. auto with asks. }
  apply asks_fatal_with. unfold UpdateFunctionCustomResource. skip; [|exact Logic.I].
  apply asks_must, asks_call. split; [done|]. eexists _, _. split; [done|]. split; [done|]. by rewrite Hn.
Qed.

(** C37. Whatever it reads, the creation of an autoscaling rule writes only the
    function, with a rule whose bounds are 0 < min <= max, that targets the
    function's deployment and has exactly one metric: the CPU with a target in
    32 bits, or the calls of the function's service. *)
Theorem autoscale_create_bounds (s : S) :
  runs (autoscaleCreateCmd (flags_of autoscale_create_flags given) args) s []
    (fun _ tr _ => Forall (fun e : event resp => autoscale_requests (projT1 e)) tr).
Proof. apply (asks_runs (S := S) autoscale_requests); [apply asks_autoscaleCreateCmd|constructor]. Qed.

(** A rule that [create] makes is listed without a panic, in one row with
    its name, namespace, target, bounds and metric. *)
Theorem autoscale_rule_listed f hpas :
  Forall (valid_rule f) hpas ->
  exists rows, autoscale_rows hpas = (mret rows : go S _) /\
    Forall2 (fun hpa row => exists min metric value, hs_MinReplicas (hpa_Spec hpa) = Some min /\
      row = [hpa_name hpa; hpa_namespace hpa; hpa_name hpa; Itoa min;
             Itoa (hs_MaxReplicas (hpa_Spec hpa)); metric; value] /\
      metric ∈ ["cpu"; "function_calls"]) hpas rows.
Proof.
  induction 1 as [|hpa hpas Hv _ (rows & Hrows & Hall)]; [by exists []|].
  destruct Hv as [(min & Hmin & _) _ [_ Ht] (m & Hm & Hk)]. simpl. rewrite Hm, Hmin, Hrows, Ht.
  unfold metric_columns. destruct (ms_Object m) as [o|]; destruct (ms_Resource m) as [r|]; try done.
  - destruct Hk as [Hk _]. eexists. split; [done|]. constructor; [|done].
    eexists _, _, _. split; [done|]. split; [done|]. rewrite Hk. right. by left.
  - destruct Hk as [Hk (u & Hu & _)]. rewrite Hu. eexists. split; [done|]. constructor; [|done].
    eexists _, _, _. split; [done|]. split; [done|]. rewrite Hk. by left.
Qed.

End AutoscaleRules.
