(* ===== verification/CommandTree.v ===== *)
(** * The tree of commands (cmd/kubeless)

    [newRootCmd] and the [init] functions of the command packages put the tree
    together; cobra, a parameter, finds the command that is meant, parses its
    flags and runs it.  Each command of the tree may ask for one kind of
    change. *)
From stdpp Require Import sorting.
From S2P Require Import Prelude GoStrings GoCodec GoProg KubeTypes World K8sUtil Content LangRuntime.
From S2P Require Import Flags FunctionCmd FunctionRun Metrics FunctionView Autoscale Topic Triggers.
From S2P Require Import CommandSafety TriggerSafety ViewSafety Cli.
From S2P Require Exec Ensure Concrete.

(** The fields of cobra's [Command] that the program fills in; a command without
    [Run] only has subcommands. *)
Inductive Command (S : Type) : Type :=
  Cmd (Use : string) (Aliases : list string) (Flags : declarations)
      (Run : option (flags -> list string -> go S unit)) (Commands : list (Command S)).
Arguments Cmd {S} Use Aliases Flags Run Commands.

Section Tree.
Context {S : Type}.
Implicit Types c d : Command S.

Definition Use c : string := let 'Cmd u _ _ _ _ := c in u.
Definition Aliases c : list string := let 'Cmd _ a _ _ _ := c in a.
Definition Flags c : declarations := let 'Cmd _ _ f _ _ := c in f.
Definition Run c : option (flags -> list string -> go S unit) := let 'Cmd _ _ _ r _ := c in r.
Definition Commands c : list (Command S) := let 'Cmd _ _ _ _ cs := c in cs.

(** The first word of the usage line. *)
Definition Name c : string := hd "" (Split (Use c) " "%char).

(** The command under a path of names. *)
Fixpoint lookup_command (path : list string) c : option (Command S) :=
  match path with
  | [] => Some c
  | n :: path =>
      match List.find (fun d => Name d =?s n) (Commands c) with
      | Some d => lookup_command path d
      | None => None
      end
  end.

(** Every command of the tree with its path. *)
Fixpoint nodes c : list (list string * Command S) :=
  let 'Cmd _ _ _ _ cs := c in
  ([], c) :: flat_map (fun d => map (fun '(path, e) => (Name d :: path, e)) (nodes d)) cs.

Lemma lookup_command_nodes path c d : lookup_command path c = Some d -> (path, d) ∈ nodes c.
Proof.
  revert c. induction path as [|n path IH]; intros [u a f r cs]; simpl; [intros [= <-]; by left|].
  destruct (List.find _ cs) as [e|] eqn:E; [|done]. intros Hd.
  apply List.find_some in E as [Hin <-%streq_true]. right.
  rewrite list_elem_of_In, in_flat_map. exists e. split; [done|].
  rewrite in_map_iff. exists (path, d). split; [done|]. rewrite <- list_elem_of_In. by apply IH.
Qed.

End Tree.

(** What only goes to the terminal. *)
Definition prints (o : op) : Prop := match o with Println _ => True | _ => False end.

(** Cobra, as documented.  "AddCommand adds one or more commands to this parent
    command."  [Execute] finds the command that the arguments mean, parses its
    flags and runs its [Run]; else -- for help, wrong usage, a required flag
    that is missing -- it only prints.  When it finds no command it returns an
    error. *)
Class Cobra (S : Type) := {
  AddCommand : Command S -> list (Command S) -> Command S;
  Find : Command S -> list string -> result (list string * list string);
  ParseFlags : declarations -> list string -> result (flags * list string);
  HelpText : string -> string;
  Execute : Command S -> list string -> go S unit;
  AddCommand_adds c cs : AddCommand c cs = Cmd (Use c) (Aliases c) (Flags c) (Run c) (Commands c ++ cs);
  Execute_runs cmd argv : exists before : go S unit, asks prints before /\
    (Execute cmd argv = before \/
     exists path rest c run given args, Find cmd argv = Ok (path, rest) /\ lookup_command path cmd = Some c /\
       Run c = Some run /\ ParseFlags (Flags c) rest = Ok (given, args) /\
       Execute cmd argv = (before;; run (flags_of (Flags c) given) args));
  Execute_unknown cmd argv e (s : S) tr : Find cmd argv = Error e ->
    runs (Execute cmd argv) s tr (fun _ _ o => exists e', o = Failed e') }.

Section Kubeless.
Context {S : Type} `{!Cobra S} `{OsEnv} `{MapRange} `{YamlRuntimes} `{UrlParse} `{ParseQuantity} `{JsonFunction}
  `{CronParse} `{JsonObject} `{JsonValues} `{!RenderTable} `{PromText} `{TopChoices} `{Build}.
Context `{HttpTriggerUtils} `{LabelSelectors} `{RequestURI} `{JsonPayload}.
Context `{!Render Function_} `{!Render (list Function_)} `{!Render (list Metric)} `{!Render HPA}.
Context `{!Render HTTPTrigger} `{!Render (CronJobTrigger payload)} `{!Render TopicTrigger} `{!Render KinesisTrigger}.
Context (show : float64 -> string) (server_url : Exec.request_url).

(** ** The tree *)

Definition leaf_command (use : string) (aliases : list string) (decl : declarations)
    (run : flags -> list string -> go S unit) : Command S := Cmd use aliases decl (Some run) [].

(** [cmd.Help()]. *)
Definition group (use : string) : Command S :=
  Cmd use [] [] (Some (fun _ _ => println (HelpText use))) [].

Definition FunctionCmd : Command S :=
  AddCommand (group "function SUBCOMMAND")
    [leaf_command "deploy <function_name> FLAG" [] deploy_flags deployCmd;
     leaf_command "delete <function_name>" [] namespace_flags deleteCmd;
     leaf_command "list FLAG" ["ls"] list_flags listCmd;
     leaf_command "call <function_name> FLAG" [] call_flags callCmd;
     leaf_command "logs <function_name> FLAG" [] logs_flags logsCmd;
     leaf_command "describe FLAG" ["ls"] list_flags describeCmd;
     leaf_command "update <function_name> FLAG" [] update_flags updateCmd;
     leaf_command "top" ["stats"] top_flags (topCmd show)].

Definition TopicCmd : Command S :=
  AddCommand (group "topic SUBCOMMAND")
    [leaf_command "create <topic_name> FLAG" [] topic_flags (topicCreateCmd server_url);
     leaf_command "delete <topic_name>" [] topic_flags (topicDeleteCmd server_url);
     leaf_command "list FLAG" ["ls"] topic_flags (topicListCmd server_url);
     leaf_command "publish FLAG" [] topic_publish_flags (topicPublishCmd server_url)].

Definition AutoscaleCmd : Command S :=
  AddCommand (group "autoscale SUBCOMMAND")
    [leaf_command "create <name> FLAG" [] autoscale_create_flags autoscaleCreateCmd;
     leaf_command "list FLAG" ["ls"] autoscale_list_flags autoscaleListCmd;
     leaf_command "delete <name>" [] namespace_flags autoscaleDeleteCmd].

Definition HTTPTriggerCmd : Command S :=
  AddCommand (group "http SUBCOMMAND")
    [leaf_command "create <http_trigger_name> FLAG" [] http_create_flags httpCreateCmd;
     leaf_command "delete <http_trigger_name>" [] namespace_flags httpDeleteCmd;
     leaf_command "list FLAG" ["ls"] namespace_flags httpListCmd;
     leaf_command "update <http_trigger_name> FLAG" [] http_update_flags httpUpdateCmd].

Definition CronjobTriggerCmd : Command S :=
  AddCommand (group "cronjob SUBCOMMAND")
    [leaf_command "create <cronjob_trigger_name> FLAG" [] cronjob_create_flags cronjobCreateCmd;
     leaf_command "delete <cronjob_trigger_name>" [] namespace_flags cronjobDeleteCmd;
     leaf_command "list FLAG" ["ls"] namespace_flags cronjobListCmd;
     leaf_command "update <cronjob_trigger_name> FLAG" [] cronjob_update_flags cronjobUpdateCmd].

Definition KafkaTriggerCmd : Command S :=
  AddCommand (group "kafka SUBCOMMAND")
    [leaf_command "create <kafka_trigger_name> FLAG" [] topic_create_flags kafkaCreateCmd;
     leaf_command "delete <kafka_trigger_name>" [] namespace_flags kafkaDeleteCmd;
     leaf_command "list FLAG" ["ls"] namespace_flags kafkaListCmd;
     leaf_command "update <kafka_trigger_name> FLAG" [] topic_update_flags kafkaUpdateCmd].

Definition NATSTriggerCmd : Command S :=
  AddCommand (group "nats SUBCOMMAND")
    [leaf_command "create <nats_trigger_name> FLAG" [] topic_create_flags natsCreateCmd;
     leaf_command "delete <nats_trigger_name>" [] namespace_flags natsDeleteCmd;
     leaf_command "list FLAG" ["ls"] namespace_flags natsListCmd;
     leaf_command "update <nats_trigger_name> FLAG" [] topic_update_flags natsUpdateCmd;
     leaf_command "publish FLAG" [] nats_publish_flags natsPublishCmd].

Definition KinesisTriggerCmd : Command S :=
  AddCommand (group "kinesis SUBCOMMAND")
    [leaf_command "create <kinesis_trigger_name> FLAG" [] kinesis_create_flags kinesisCreateCmd;
     leaf_command "delete <kinesis_trigger_name>" [] namespace_flags kinesisDeleteCmd;
     leaf_command "list FLAG" ["ls"] namespace_flags kinesisListCmd;
     leaf_command "update <kinesis_trigger_name> FLAG" [] kinesis_update_flags kinesisUpdateCmd;
     leaf_command "publish FLAG" [] kinesis_publish_flags kinesisPublishCmd;
     leaf_command "create-stream <kinesis_streamr_name> FLAG" [] kinesis_stream_flags kinesisStreamCmd].

Definition TriggerCmd : Command S :=
  AddCommand (group "trigger SUBCOMMAND")
    [CronjobTriggerCmd; KafkaTriggerCmd; HTTPTriggerCmd; NATSTriggerCmd; KinesisTriggerCmd].

Definition newRootCmd : Command S :=
  AddCommand (Cmd "kubeless" [] [] None [])
    [FunctionCmd; TopicCmd; leaf_command "version" [] [] (fun _ _ => VersionCmd); AutoscaleCmd;
     leaf_command "get-server-config" [] [] (fun _ _ => GetServerConfigCmd); TriggerCmd;
     leaf_command "completion [bash|zsh|fish|powershell]" [] [] (fun _ => CompletionCmd)].

Definition main (argv : list string) : go S unit :=
  r ← attempt (Execute newRootCmd argv);
  match r with Ok _ => mret tt | Error _ => Fatal "exit status 1" end.

(** ** What a command may ask for *)

Definition trigger_kind (name : string) : option kind :=
  if name =?s "http" then Some KHTTPTrigger
  else if name =?s "cronjob" then Some KCronJobTrigger
  else if name =?s "kafka" then Some KKafkaTrigger
  else if name =?s "nats" then Some KNATSTrigger
  else if name =?s "kinesis" then Some KKinesisTrigger
  else None.

(** What the commands on topics run in a pod of Kafka. *)
Definition topic_command (verb ns : string) (command : list string) (stdin : option string) : Prop :=
  let script args :=
    ["bash"; "/opt/bitnami/kafka/bin/kafka-topics.sh"; "--zookeeper"; "zookeeper." +:+ ns +:+ ":2181"] ++ args in
  (verb = "list" /\ command = script ["--list"] /\ stdin = None) \/
  (exists topic, verb = "create" /\ stdin = None /\
     command = script ["--replication-factor"; "1"; "--partitions"; "1"; "--create"; "--topic"; topic]) \/
  (exists topic, verb = "delete" /\ stdin = None /\ command = script ["--delete"; "--topic"; topic]) \/
  (exists topic data, verb = "publish" /\ stdin = Some data /\
     command = ["bash"; "/opt/bitnami/kafka/bin/kafka-console-producer.sh"; "--broker-list"; "localhost:9092";
                "--topic"; topic]).

(** Beside reads: functions and triggers are created, updated and deleted by
    the commands of that name; [call] and [top] ask the proxy of the API
    server; the commands on topics run one script each in the broker of Kafka;
    messages and streams are for NATS and Kinesis. *)
Definition changes (path : list string) (o : op) : Prop :=
  match path, o with
  | ["function"; verb], ACreate k _ _ => verb = "deploy" /\ (k = KFunction \/ k = KCronJobTrigger)
  | ["function"; verb], APatch k _ _ _ => verb = "update" /\ k = KFunction
  | ["function"; verb], ADelete k _ _ => verb = "delete" /\ k = KFunction
  | ["function"; verb], ServiceProxy method _ _ path _ _ =>
      verb = "call" \/ (verb = "top" /\ method = "GET" /\ path = "/metrics")
  | ["autoscale"; verb], AUpdate k _ _ => (verb = "create" \/ verb = "delete") /\ k = KFunction
  | ["topic"; verb], PodExec ns _ container command stdin => container = "broker" /\ topic_command verb ns command stdin
  | ["trigger"; t; verb], ACreate k _ _ => verb = "create" /\ trigger_kind t = Some k
  | ["trigger"; t; verb], AUpdate k _ _ => verb = "update" /\ trigger_kind t = Some k
  | ["trigger"; t; verb], ADelete k _ _ => verb = "delete" /\ trigger_kind t = Some k
  | ["trigger"; t; verb], NatsPublish _ _ => t = "nats" /\ verb = "publish"
  | ["trigger"; t; verb], KinesisPutRecords _ _ _ _ _ _ => t = "kinesis" /\ verb = "publish"
  | ["trigger"; t; verb], KinesisCreateStream _ _ _ _ _ _ => t = "kinesis" /\ verb = "create-stream"
  | _, _ => False
  end.

Definition permitted (path : list string) (o : op) : Prop := reads o \/ changes path o.

(** The tree with its commands added. *)
Ltac grown :=
  unfold newRootCmd, FunctionCmd, TopicCmd, AutoscaleCmd, TriggerCmd, HTTPTriggerCmd, CronjobTriggerCmd, KafkaTriggerCmd,
    NATSTriggerCmd, KinesisTriggerCmd; rewrite !AddCommand_adds.

(** All commands, by their paths. *)
Lemma newRootCmd_nodes : (nodes newRootCmd).*1 =
  [[]; ["function"]; ["function"; "deploy"]; ["function"; "delete"]; ["function"; "list"]; ["function"; "call"];
   ["function"; "logs"]; ["function"; "describe"]; ["function"; "update"]; ["function"; "top"];
   ["topic"]; ["topic"; "create"]; ["topic"; "delete"]; ["topic"; "list"]; ["topic"; "publish"]; ["version"];
   ["autoscale"]; ["autoscale"; "create"]; ["autoscale"; "list"]; ["autoscale"; "delete"]; ["get-server-config"];
   ["trigger"];
   ["trigger"; "cronjob"]; ["trigger"; "cronjob"; "create"]; ["trigger"; "cronjob"; "delete"];
   ["trigger"; "cronjob"; "list"]; ["trigger"; "cronjob"; "update"];
   ["trigger"; "kafka"]; ["trigger"; "kafka"; "create"]; ["trigger"; "kafka"; "delete"];
   ["trigger"; "kafka"; "list"]; ["trigger"; "kafka"; "update"];
   ["trigger"; "http"]; ["trigger"; "http"; "create"]; ["trigger"; "http"; "delete"];
   ["trigger"; "http"; "list"]; ["trigger"; "http"; "update"];
   ["trigger"; "nats"]; ["trigger"; "nats"; "create"]; ["trigger"; "nats"; "delete"];
   ["trigger"; "nats"; "list"]; ["trigger"; "nats"; "update"]; ["trigger"; "nats"; "publish"];
   ["trigger"; "kinesis"]; ["trigger"; "kinesis"; "create"]; ["trigger"; "kinesis"; "delete"];
   ["trigger"; "kinesis"; "list"]; ["trigger"; "kinesis"; "update"]; ["trigger"; "kinesis"; "publish"];
   ["trigger"; "kinesis"; "create-stream"]; ["completion"]].
Proof. grown. reflexivity. Qed.

(** A command under its path asks for what is permitted there. *)
Definition obeys (path : list string) (decl : declarations) (cmd : flags -> list string -> go S unit) : Prop :=
  forall given args, asks (permitted path) (cmd (flags_of decl given) args).

Lemma permitted_reads path o : reads o -> permitted path o.
Proof. by left. Qed.

Ltac walk :=
  repeat first
    [ progress intros | flag_step
    | lazymatch goal with
      | |- asks _ (_ ≫= _) => apply asks_bind
      | |- asks _ (submit _ _ _ _) => unfold submit
      | |- asks _ (fatal_from _ _ _ _) => apply asks_fatal_from
      | |- asks _ (fatal_with _ _) => apply asks_fatal_with
      | |- asks _ (attempt _) => apply asks_attempt
      | |- asks _ (must _) => apply asks_must
      | |- asks _ (lift _) => apply asks_lift
      | |- asks _ (index _ _) => apply asks_index
      | |- asks _ (if ?b then _ else _) => destruct b eqn:?
      | |- asks _ (mret _) => exact Logic.I
      | |- asks _ (match ?b with _ => _ end) => destruct b
      | |- asks _ (Fatal _) => exact Logic.I
      | |- asks _ (Panic _) => exact Logic.I
      | |- asks _ (Throw _) => exact Logic.I
      end
    | solve [auto with asks]
    | (apply asks_call; first [left; exact Logic.I | right; simpl; first [done | by eauto 6]]) ].

Ltac command := pose proof permitted_reads as HP; intros ? ?; walk.

Lemma exec_in_kafka_obeys verb ns command stdin :
  topic_command verb ns command stdin ->
  asks (permitted ["topic"; verb]) (exec_in_kafka server_url ns command stdin : go S unit).
Proof.
  intros Hc. pose proof permitted_reads as HP. unfold exec_in_kafka, GetPodsByLabel. walk.
Qed.

Lemma topic_obeys :
  obeys ["topic"; "create"] topic_flags (topicCreateCmd server_url) /\
  obeys ["topic"; "delete"] topic_flags (topicDeleteCmd server_url) /\
  obeys ["topic"; "list"] topic_flags (topicListCmd server_url) /\
  obeys ["topic"; "publish"] topic_publish_flags (topicPublishCmd server_url).
Proof.
  unfold topicCreateCmd, topicDeleteCmd, topicListCmd, topicPublishCmd, createTopic, deleteTopic, listTopic, publishTopic,
    execCommand.
  split_and!; command; apply exec_in_kafka_obeys; unfold topic_command, kafka_topics; naive_solver.
Qed.

Lemma asks_autoscale_rows P ass : asks P (autoscale_rows ass : go S _).
Proof. induction ass; simpl; unfold metric_columns; walk. Qed.

Lemma asks_autoscale_texts P ass output : (forall o, reads o -> P o) -> asks P (autoscale_texts ass output : go S _).
Proof.
  intros HP. assert (forall l, asks P (println l : go S _)) by (intros l; apply asks_call, HP; exact Logic.I).
  induction ass; simpl; walk.
Qed.
Hint Resolve asks_autoscale_rows asks_autoscale_texts : asks.

Lemma autoscale_obeys :
  obeys ["autoscale"; "create"] autoscale_create_flags autoscaleCreateCmd /\
  obeys ["autoscale"; "list"] autoscale_list_flags autoscaleListCmd /\
  obeys ["autoscale"; "delete"] namespace_flags autoscaleDeleteCmd.
Proof.
  unfold autoscaleCreateCmd, autoscaleListCmd, autoscaleDeleteCmd, find_function, UpdateFunctionCustomResource,
    doAutoscaleList, printAutoscale.
  split_and!; command.
Qed.

Lemma triggers_obey :
  Forall (fun '(path, decl, cmd) => obeys path decl cmd)
    [(["trigger"; "http"; "create"], http_create_flags, httpCreateCmd);
     (["trigger"; "http"; "update"], http_update_flags, httpUpdateCmd);
     (["trigger"; "cronjob"; "create"], cronjob_create_flags, cronjobCreateCmd);
     (["trigger"; "cronjob"; "update"], cronjob_update_flags, cronjobUpdateCmd);
     (["trigger"; "kafka"; "create"], topic_create_flags, kafkaCreateCmd);
     (["trigger"; "kafka"; "update"], topic_update_flags, kafkaUpdateCmd);
     (["trigger"; "nats"; "create"], topic_create_flags, natsCreateCmd);
     (["trigger"; "nats"; "update"], topic_update_flags, natsUpdateCmd);
     (["trigger"; "nats"; "publish"], nats_publish_flags, natsPublishCmd);
     (["trigger"; "kinesis"; "create"], kinesis_create_flags, kinesisCreateCmd);
     (["trigger"; "kinesis"; "update"], kinesis_update_flags, kinesisUpdateCmd);
     (["trigger"; "kinesis"; "publish"], kinesis_publish_flags, kinesisPublishCmd);
     (["trigger"; "kinesis"; "create-stream"], kinesis_stream_flags, kinesisStreamCmd)].
Proof.
  unfold httpCreateCmd, httpUpdateCmd, cronjobCreateCmd, cronjobUpdateCmd, kafkaCreateCmd, kafkaUpdateCmd,
    natsCreateCmd, natsUpdateCmd, natsPublishCmd, nats_publishTopic, kinesisCreateCmd, kinesisUpdateCmd,
    kinesisPublishCmd, kinesisStreamCmd, GetStringArray, GetInt64, fatal_flag, aws_keys, read_namespace, check_endpoint, invalid_schedule, one_payload.
  repeat (apply Forall_cons; split; [command|]). constructor.
Qed.

Lemma trigger_delete_obeys t k repository client_error what noun :
  trigger_kind t = Some k ->
  obeys ["trigger"; t; "delete"] namespace_flags (delete_trigger k repository client_error what noun).
Proof. intros Hk. unfold delete_trigger, read_namespace. command. Qed.

Lemma trigger_list_obeys t k header row repository :
  obeys ["trigger"; t; "list"] namespace_flags (list_command repository (list_triggers k header row)).
Proof. unfold list_command, list_triggers, read_namespace. command. Qed.

(** The commands that look at functions. *)
Lemma asks_doList P ns output args : (forall o, reads o -> P o) -> asks P (doList ns output args : go S _).
Proof.
  intros HP. assert (forall l, asks P (println l : go S _)) by (intros l; apply asks_call, HP; exact Logic.I).
  assert (forall k ns n, asks P (kGet k ns n : go S _)) as Hget by (intros; apply asks_call, HP; exact Logic.I).
  assert (forall l, asks P (get_named ns l : go S _)) by (intros l; induction l; cbn [get_named]; walk; apply Hget).
  assert (forall f, asks P (wide_row f : go S _)) by (intros f; apply asks_wide_row; intros; apply HP; exact Logic.I).
  assert (forall f, asks P (function_row f : go S _)).
  { intros f. unfold function_row, status_column, getDeploymentStatus. pose proof (asks_parseDeps (S := S) P) as Hd. walk; apply Hget. }
  assert (forall row (l : list Function_), (forall f, asks P (row f)) -> asks P (rows_of row l : go S _)) by (intros; by apply asks_rows).
  unfold doList, printFunctions, print_as. walk. apply asks_call, HP. exact Logic.I.
Qed.

Lemma asks_top P ns name output :
  (forall o, reads o -> P o) -> (forall ns a h b, P (ServiceProxy "GET" ns a "/metrics" b h)) ->
  asks P (doTop show GetRawMetrics ns name output : go S _).
Proof.
  intros HP Hproxy. assert (forall l, asks P (println l : go S _)) by (intros l; apply asks_call, HP; exact Logic.I).
  assert (forall f, asks P (GetFunctionMetrics GetRawMetrics ns f : go S _)).
  { intros f. unfold GetFunctionMetrics, GetRawMetrics, Ensure.GetFunctionPort. walk; apply asks_call; [apply HP; exact Logic.I|apply Hproxy]. }
  assert (forall l, asks P (collect GetRawMetrics ns l : go S _)) by (intros l; induction l; cbn [collect]; walk).
  unfold doTop, top_metrics, printTop, print_as, getFunctions. walk; apply asks_call, HP; exact Logic.I.
Qed.

Lemma functions_obey :
  Forall (fun '(path, decl, cmd) => obeys path decl cmd)
    [(["function"; "deploy"], deploy_flags, deployCmd); (["function"; "delete"], namespace_flags, deleteCmd);
     (["function"; "list"], list_flags, listCmd); (["function"; "call"], call_flags, callCmd);
     (["function"; "logs"], logs_flags, logsCmd); (["function"; "describe"], list_flags, describeCmd);
     (["function"; "update"], update_flags, updateCmd); (["function"; "top"], top_flags, topCmd show)].
Proof.
  pose proof asks_doList as Hlist. pose proof asks_top as Htop.
  repeat (apply Forall_cons; split); [..|constructor].
  - intros given args. eapply asks_mono; [|apply asks_deployCmd].
    intros o Ho. destruct o; try (by left); destruct k; try done; right; simpl; auto.
  - unfold deleteCmd, DeleteFunctionCustomResource. command.
  - unfold listCmd. command.
  - unfold callCmd, call_port, GetRandString. command.
  - unfold logsCmd, GetPodsByLabel. command.
  - unfold describeCmd, describe_print. command.
  - intros given args. eapply asks_mono; [|apply asks_updateCmd].
    intros o Ho. destruct o; try (by left); destruct k; try done; right; by simpl.
  - unfold topCmd. command. apply Htop; [by left|]. intros. right. simpl. auto.
Qed.

(** Every command of the tree. *)
Lemma command_obeys path c run :
  (path, c) ∈ nodes newRootCmd -> Run c = Some run -> obeys path (Flags c) run.
Proof.
  destruct topic_obeys as (T1 & T2 & T3 & T4). destruct autoscale_obeys as (A1 & A2 & A3).
  pose proof functions_obey as HF. pose proof triggers_obey as HT.
  repeat match goal with H : Forall _ (_ :: _) |- _ => apply Forall_cons in H as [? H] end. clear HF HT.
  assert (forall p use, obeys p [] (fun _ _ => println (HelpText use))) as Hhelp by (intros ? ? ? ?; apply asks_call; by left).
  assert (obeys ["version"] [] (fun _ _ => VersionCmd)) by (intros ? ?; apply asks_call; by left).
  assert (obeys ["completion"] [] (fun _ => CompletionCmd)).
  { unfold CompletionCmd. command. }
  assert (obeys ["get-server-config"] [] (fun _ _ => GetServerConfigCmd)).
  { unfold GetServerConfigCmd. command. }
  intros Hin Hrun. revert Hin. grown. intros Hin. cbn -[leaf_command] in Hin.
  repeat (apply elem_of_cons in Hin as [[= -> ->]|Hin]; [first [discriminate | injection Hrun as <-; first [assumption | apply Hhelp
    | by apply trigger_delete_obeys | apply trigger_list_obeys]]|]).
  by apply elem_of_nil in Hin.
Qed.

Lemma Execute_obeys argv path rest :
  Find newRootCmd argv = Ok (path, rest) -> asks (permitted path) (Execute newRootCmd argv).
Proof.
  intros E. destruct (Execute_runs newRootCmd argv) as (before & Hb & Hrun).
  assert (asks (permitted path) before) as Hbefore by (eapply asks_mono; [|exact Hb]; intros []; by left).
  destruct Hrun as [->|(path' & rest' & c & run & given & args & E' & Hc & Hr & _ & ->)]; [done|].
  rewrite E in E'. injection E' as <- <-. apply lookup_command_nodes in Hc. apply asks_bind; [done|]. intros _.
  by apply (command_obeys path c run Hc Hr).
Qed.

(** C35. Whatever its arguments and whatever it is answered, kubeless changes
    nothing but what the command that cobra found is for: functions and
    triggers through the commands of that name, function resources through the
    autoscale commands, a topic through the script of Kafka for that command,
    run in the broker -- [topic list] only lists; no object that the controller
    makes -- config maps, services, deployments, autoscalers, jobs, secrets --
    and nothing at all through the commands that list, describe, log or
    announce.  When cobra finds no command nothing is asked, only printed, and
    the process ends with status 1. *)
Theorem kubeless_permitted argv (s : S) :
  runs (main argv) s [] (fun _ tr o =>
    match Find newRootCmd argv with
    | Ok (path, _) => Forall (fun e : event resp => permitted path (projT1 e)) tr
    | Error _ => Forall (fun e : event resp => prints (projT1 e)) tr /\ o = Exited "exit status 1"
    end).
Proof.
  destruct (Find newRootCmd argv) as [[path rest]|e] eqn:E.
  - apply (asks_runs (S := S) (permitted path)); [|constructor]. unfold main.
    apply asks_bind; [by apply asks_attempt, (Execute_obeys argv path rest)|]. by intros [].
  - unfold main. apply runs_conj.
    + apply (asks_runs (S := S) prints); [|constructor]. apply asks_bind; [|by intros []]. apply asks_attempt.
      destruct (Execute_runs newRootCmd argv) as (before & Hb & [->|Hrun]); [done|].
      destruct Hrun as (path' & rest' & c & run & given & args & E' & _). congruence.
    + apply runs_bind, runs_attempt. eapply runs_mono; [|by apply (Execute_unknown _ _ e)].
      by intros s' tr o [e' ->].
Qed.

(** The path of a command names no other, and leads to it. *)
Lemma newRootCmd_wf :
  NoDup (nodes newRootCmd).*1 /\
  forall path c, (path, c) ∈ nodes newRootCmd -> lookup_command path newRootCmd = Some c.
Proof.
  split; [rewrite newRootCmd_nodes; by apply (bool_decide_unpack _); vm_compute|].
  intros path c. grown. intros Hin. cbn -[leaf_command] in Hin.
  repeat (apply elem_of_cons in Hin as [[= -> ->]|Hin]; [reflexivity|]). by apply elem_of_nil in Hin.
Qed.

(** [ls] of a group is its first command of that alias: that of [describe] is
    the one of [list]. *)
Lemma alias_shadowed :
  (Name <$> filter (fun d : Command S => "ls" ∈ Aliases d) (Commands FunctionCmd)) = ["list"; "describe"].
Proof. grown. reflexivity. Qed.

End Kubeless.

(** ** A simple cobra *)
Module TreeSample.
Import Concrete.Concrete.

Section Sample.
Context {S : Type}.

(** The command under the longest path of names, and the arguments left. *)
Fixpoint descend (c : Command S) (argv : list string) : list string * list string :=
  match argv with
  | [] => ([], [])
  | n :: argv' =>
      match List.find (fun d => Name d =? n)%string (Commands c) with
      | Some d => let '(path, rest) := descend d argv' in (n :: path, rest)
      | None => ([], argv)
      end
  end.

Definition find_command (c : Command S) (argv : list string) : result (list string * list string) :=
  match descend c argv with
  | ([], n :: _) => Error (Errorf ("unknown command " +:+ n))
  | found => Ok found
  end.

(** Everything after the command is an argument. *)
Definition no_flags (decl : declarations) (rest : list string) : result (flags * list string) := Ok (∅, rest).
Definition usage (use : string) : string := "Usage: " +:+ use.

Definition execute (cmd : Command S) (argv : list string) : go S unit :=
  match find_command cmd argv with
  | Error e => println ("Error: " +:+ err_msg e);; Throw e
  | Ok (path, rest) =>
      match lookup_command path cmd with
      | None => Throw (Errorf "unknown command")
      | Some c =>
          match Run c with
          | Some run => run (flags_of (Flags c) ∅) rest
          | None => println (usage (Use c))
          end
      end
  end.

#[export] Program Instance cobra : Cobra S := {|
  AddCommand c cs := Cmd (Use c) (Aliases c) (Flags c) (Run c) (Commands c ++ cs);
  Find := find_command; ParseFlags := no_flags; HelpText := usage; Execute := execute |}.
Next Obligation. done. Qed.
Next Obligation.
  intros cmd argv. unfold execute. destruct (find_command cmd argv) as [[path rest]|e] eqn:E.
  2: { exists (println ("Error: " +:+ err_msg e);; Throw e). split; [by repeat split|by left]. }
  destruct (lookup_command path cmd) as [c|] eqn:Hc; [|by exists (Throw (Errorf "unknown command")); split; [|left]].
  destruct (Run c) as [run|] eqn:Hr; [|exists (println (usage (Use c))); by split; [repeat split|left]].
  exists (mret tt). split; [done|]. right. by exists path, rest, c, run, ∅, rest.
Qed.
Next Obligation. intros cmd argv e s tr E. unfold execute. rewrite E. by exists e. Qed.
End Sample.

#[local] Instance json_object : JsonObject := fun _ => Ok ∅.
#[local] Instance json_values : JsonValues := {| json_Marshal_labels _ := Ok "{}"; json_Marshal_env _ := Ok "[]" |}.
#[local] Instance build : Build := {| Version := "v1.0.8"; GenCompletion _ := "" |}.
#[local] Instance quantities : ParseQuantity := fun s => Ok s.
#[local] Instance crons : CronParse := fun _ => None.
#[local] Instance prometheus : PromText := fun _ => Ok ∅.
#[local] Instance http_utils : HttpTriggerUtils := fun c name => Ok name.
#[local] Instance selectors : LabelSelectors :=
  {| meta_ParseToLabelSelector _ := Ok None; meta_FormatLabelSelector _ := "" |}.
#[local] Instance uris : RequestURI := fun _ => Ok tt.
#[local] Instance payloads : JsonPayload := fun s => Ok s.
#[local] Instance texts {A} : Render A := {| json_text _ := Ok "{}"; yaml_text _ := Ok "" |}.
#[local] Instance tables : RenderTable := fun rows => "".

(** All metrics arrive; they are sorted by the order of strings. *)
Definition by_name (a b : Metric) : Prop := (FunctionName a ≤ FunctionName b)%string.
#[local] Instance by_name_dec : RelDecision by_name.
Proof. intros a b. unfold by_name. apply _. Defined.
#[local] Instance by_name_total : Total by_name.
Proof. intros a b. apply String.le_total. Qed.
#[local] Instance by_name_trans : Transitive by_name.
Proof. intros a b c. apply String.le_po. Qed.
Lemma by_name_spec a b : by_name a b -> String.ltb (FunctionName b) (FunctionName a) = false.
Proof.
  unfold by_name, String.le, String.leb, String.ltb. rewrite (String.compare_antisym (FunctionName b)).
  by destruct (String.compare _ _).
Qed.
#[local] Program Instance choices : TopChoices := {| arrivals l := l; sort_by_name := merge_sort by_name |}.
Next Obligation. intros l. exists []. by rewrite app_nil_r. Qed.
Next Obligation. intros l. apply merge_sort_Permutation. Qed.
Next Obligation.
  intros l. pose proof (StronglySorted_merge_sort by_name l) as Hs.
  induction Hs as [|a l' Hs IH Ha]; constructor; [done|]. eapply Forall_impl; [exact Ha|]. apply by_name_spec.
Qed.

(** [kubeless topic list]. *)
Definition api_server : Exec.request_url := {| Exec.u_Scheme := "https"; Exec.u_Rest := "cluster" |}.
Definition list_topics : go unit unit :=
  main (S := unit) (fun _ => "0") api_server ["topic"; "list"].

Lemma kubeless_permitted_witness :
  runs list_topics tt [] (fun _ tr _ =>
    forall ns pod container command stdin r, existT (PodExec ns pod container command stdin) r ∈ tr ->
      command = ["bash"; "/opt/bitnami/kafka/bin/kafka-topics.sh"; "--zookeeper"; "zookeeper." +:+ ns +:+ ":2181"; "--list"]).
Proof.
  eapply runs_mono; [|exact (kubeless_permitted (S := unit) (fun _ => "0") api_server ["topic"; "list"] tt)].
  intros s tr o Hp. cbv beta in Hp.
  assert (Find (newRootCmd (S := unit) (fun _ => "0") api_server) ["topic"; "list"] = Ok (["topic"; "list"], [])) as E
    by reflexivity.
  rewrite E in Hp.
  intros ns pod container command stdin r Hin. rewrite Forall_forall in Hp. destruct (Hp _ Hin) as [[]|[_ Hc]].
  destruct Hc as [(_ & -> & _)|[(? & Hv & _)|[(? & Hv & _)|(? & ? & Hv & _)]]]; [reflexivity|discriminate..].
Defined.

End TreeSample.
