(* ===== verification/CommandRuns.v ===== *)
(** * Commands that succeed

    On a server that accepts its clients, and with its files readable, [deploy]
    with valid flags creates exactly the function of its flags and files. *)
From S2P Require Import Prelude GoStrings GoCodec GoProg KubeTypes World K8sUtil Content LangRuntime.
From S2P Require Import Flags FunctionCmd FunctionRun CommandSafety.
From S2P Require PodSpec Concrete TriggerSafety.

(** A server that client sets can be made for. *)
Class Clients {W} (H : handler resp W) := {
  client_config w path : exists c, H (LoadClientConfig path) w = (Ok c, w);
  client_new w clientset c : H (NewForConfig clientset c) w = (Ok tt, w) }.

#[export] Program Instance serve_clients : Clients serve.
Next Obligation. intros. by eexists. Qed.
Next Obligation. done. Qed.

(** Local files that can be read. *)
Class Files {W} (H : handler resp W) := {
  file_bytes : W -> string -> option string;
  files_read w p b : file_bytes w p = Some b -> H (FileRead p) w = (Ok b, w);
  files_open w p b : file_bytes w p = Some b -> H (FileOpen p) w = (Ok tt, w) }.

#[export] Program Instance serve_files : Files serve := {| file_bytes w p := w_files w !! p |}.
Next Obligation. intros w p b Hb. simpl. by rewrite Hb. Qed.
Next Obligation. intros w p b Hb. simpl. by rewrite Hb. Qed.

(** Content type and content of a file. *)
Definition file_type (file bytes : string) : string :=
  (if utf8_ValidString bytes then "text" else "base64") +:+ getCompressionType file.

Definition file_content (file bytes : string) : string :=
  if file_type file bytes =?s "text" then bytes else base64_EncodeToString bytes.

Lemma file_type_local file bytes : Contains (file_type file bytes) "url" = false.
Proof.
  unfold file_type, getCompressionType. destruct (utf8_ValidString bytes), (existsb _ _), (HasSuffix file ".zip"); reflexivity.
Qed.

Section Deploys.
Context {W : Type} (H : handler resp W) `{!ApiServer H} `{!Clients H} `{!Files H}.
Context `{OsEnv} `{YamlRuntimes} `{UrlParse} `{ParseQuantity} `{JsonFunction} `{CronParse}.
Context `{!Render Function_}.
Context (given : flags) (name : string) (w : W).

(** Where a run gets to, from the world [w]. *)
Definition goes {A} (R : outcome A * unit * W) (p : go unit A) : Prop := run H p tt w = R.

Lemma goes_bind {A B} (p : go unit A) (f : A -> go unit B) a R :
  run H p tt w = (Done a, tt, w) -> goes R (f a) -> goes R (p ≫= f).
Proof. unfold goes. rewrite run_bind. by intros ->. Qed.

Lemma run_fatal_with {A} msg (p : go unit A) a : run H p tt w = (Done a, tt, w) ->
  run H (fatal_with msg p) tt w = (Done a, tt, w).
Proof. intros Hp. unfold fatal_with. by rewrite run_bind, run_attempt, Hp. Qed.

Lemma run_config : exists c, run H BuildOutOfClusterConfig tt w = (Done c, tt, w).
Proof.
  destruct (client_config w (if os_Getenv "KUBECONFIG" =?s "" then path_Join [home_dir; ".kube"; "config"] else ""))
    as [c Hc]. exists c. unfold BuildOutOfClusterConfig, must, load_client_config, call.
    cbn [prog_bind run]. by rewrite Hc.
Qed.

Lemma run_clients clientset what :
  run H (fatal_clients BuildOutOfClusterConfig clientset what) tt w = (Done tt, tt, w).
Proof.
  destruct run_config as [c Hc]. unfold fatal_clients. rewrite run_bind, run_attempt, Hc. simpl.
  by rewrite client_new.
Qed.

Lemma run_kubeless_client : run H GetKubelessClientOutCluster tt w = (Done tt, tt, w).
Proof.
  destruct run_config as [c Hc]. unfold GetKubelessClientOutCluster. rewrite run_bind, Hc. simpl.
  by rewrite client_new.
Qed.

(** The configuration names the runtime. *)
Record runtime_known (runtime : string) : Prop := {
  rk_check : exists ns n cm txt rs, run H getConfigLocation tt w = (Done (ns, n), tt, w) /\
    stored w KConfigMap ns n = Some cm /\ mget (cm_Data cm) "runtime-images" = Some txt /\
    yaml_Unmarshal_runtimes txt [] = Ok rs /\
    IsValidRuntime {| kubelessConfig := cm_Data cm; AvailableRuntimes := rs |} runtime = true }.

Lemma run_runtime_check runtime : runtime_known runtime ->
  run H (deploy_runtime_check runtime) tt w = (Done tt, tt, w).
Proof.
  intros [(ns & n & cm & txt & rs & Hloc & Hcm & Hdata & Hrs & Hv)].
  unfold deploy_runtime_check, GetKubelessConfig. rewrite run_bind, run_attempt, run_bind, run_attempt, Hloc.
  rewrite run_bind. unfold kGet, call. cbn [run]. rewrite api_get, Hcm. cbn [run mret prog_ret].
  unfold ReadConfigMap, LangRuntime.New. cbn [kubelessConfig AvailableRuntimes].
  rewrite run_bind, Hdata, Hrs. cbn [run mret prog_ret]. unfold check_runtime. rewrite Hv, andb_false_r. done.
Qed.

(** ** Local files *)

Lemma run_GetContentType file bytes :
  is_url file = false -> file_bytes w file = Some bytes ->
  run H (GetContentType file) tt w = (Done (file_type file bytes), tt, w).
Proof.
  intros Hu Hb. unfold GetContentType, must, file_read, call. rewrite Hu. cbn. by rewrite (files_read w file bytes Hb).
Qed.

Lemma run_ParseContent file bytes :
  file_bytes w file = Some bytes ->
  run H (ParseContent file (file_type file bytes)) tt w =
    (Done (file_content file bytes, getSha256 bytes), tt, w).
Proof.
  intros Hb. unfold ParseContent. rewrite file_type_local.
  unfold must, file_read, getFileSha256, must, file_open, file_read, call. cbn.
  rewrite (files_read w file bytes Hb). cbn. rewrite (files_open w file bytes Hb). cbn.
  by rewrite (files_read w file bytes Hb).
Qed.

(** A flag that names no file, or a local one: its content, checksum and
    content type. *)
Inductive file_ready : string -> string -> string -> string -> Prop :=
  | no_file_given : file_ready "" "" "" ""
  | local_file file bytes : file <> "" -> is_url file = false -> file_bytes w file = Some bytes ->
      file_ready file (file_content file bytes) (getSha256 bytes) (file_type file bytes).

Lemma run_read_deps file content sum ct : file_ready file content sum ct ->
  run H (read_deps file) tt w = (Done content, tt, w).
Proof.
  unfold read_deps. intros [|f bytes Hf Hu Hb]; [done|]. rewrite (proj2 (streq_false _ _) Hf).
  rewrite run_bind, (run_fatal_with _ _ _ (run_GetContentType f bytes Hu Hb)).
  by rewrite run_bind, (run_fatal_with _ _ _ (run_ParseContent f bytes Hb)).
Qed.

Lemma run_description_source a d content sum ct :
  file_ready (a_file a) content sum ct ->
  fs_Function (f_Spec d) = "" -> fs_Checksum (f_Spec d) = "" -> fs_FunctionContentType (f_Spec d) = "" ->
  run H (description_source a d) tt w = (Done (content, sum, ct), tt, w).
Proof.
  unfold description_source. intros Hfile Hsrc Hsum Hct. inversion Hfile as [|f bytes Hf Hu Hb]; subst.
  - rewrite streq_refl, Hsrc, Hsum, Hct. done.
  - rewrite (proj2 (streq_false _ _) Hf). rewrite run_bind, (run_GetContentType _ bytes Hu Hb).
    rewrite run_bind, (run_ParseContent _ bytes Hb), file_type_local. done.
Qed.

(** The description that the flags and the dependencies give. *)
Definition deploy_args (deps : string) : description_args :=
  {| a_funcName := name; a_ns := string_flag given "namespace" "";
     a_handler := string_flag given "handler" ""; a_file := string_flag given "from-file" "";
     a_deps := deps; a_runtime := string_flag given "runtime" ""; a_runtimeImage := string_flag given "runtime-image" "";
     a_mem := string_flag given "memory" ""; a_cpu := string_flag given "cpu" "";
     a_timeout := string_flag given "timeout" "180";
     a_imagePullPolicy := string_flag given "image-pull-policy" "Always";
     a_serviceAccount := string_flag given "service-account" "";
     a_port := int32_flag given "port" 8080; a_servicePort := int32_flag given "servicePort" 0;
     a_headless := bool_flag given "headless" false; a_envs := slice_flag given "env" [];
     a_labels := slice_flag given "label" []; a_secrets := slice_flag given "secrets" [];
     a_nodeSelectors := slice_flag given "node-selectors" [] |}.

Record deploy_flags_ok : Prop := {
  df_plain : string_flag given "schedule" "" = "" /\ bool_flag given "dryrun" false = false;
  df_namespace : string_flag given "namespace" "" <> "";
  df_runtime : string_flag given "runtime" "" <> "" /\ string_flag given "handler" "" <> "";
  df_policy : string_flag given "image-pull-policy" "Always" ∈ ["IfNotPresent"; "Always"; "Never"];
  df_ports : (0 < int32_flag given "port" 8080 <= 65535)%Z /\
    (0 <= int32_flag given "servicePort" 0 <= 65535)%Z;
  df_resources : exists r, description_resources (deploy_args "") (deploy_default name) = Ok r }.

Lemma run_checks policy port servicePort :
  policy ∈ ["IfNotPresent"; "Always"; "Never"] -> (0 < port <= 65535)%Z -> (0 <= servicePort <= 65535)%Z ->
  check_pull_policy policy = (mret tt : go unit unit) /\ check_port port = (mret tt : go unit unit) /\
  check_servicePort servicePort = (mret tt : go unit unit).
Proof.
  intros Hp Hport Hs. unfold check_pull_policy, check_port, check_servicePort. split_and!.
  - rewrite !elem_of_cons, elem_of_nil in Hp. by destruct Hp as [-> |[-> |[-> |[]]]].
  - rewrite (proj2 (Z.leb_gt _ _)), (proj2 (Z.ltb_ge _ _)) by lia. done.
  - rewrite !(proj2 (Z.ltb_ge _ _)) by lia. done.
Qed.

Lemma run_create msg f f' w' : H (ACreate KFunction (f_namespace f) f) w = (Ok f', w') ->
  run H (fatal_with msg (CreateFunctionCustomResource f)) tt w = (Done tt, tt, w').
Proof.
  intros Hc. unfold fatal_with, CreateFunctionCustomResource, must, kCreate, call.
  rewrite run_bind, run_attempt. cbn [prog_bind mbind prog_mbind run]. by rewrite Hc.
Qed.

Lemma run_deploy deps src sum ct depsSum depsCt :
  deploy_flags_ok -> runtime_known (string_flag given "runtime" "") ->
  file_ready (string_flag given "from-file" "") src sum ct ->
  file_ready (string_flag given "dependencies" "") deps depsSum depsCt ->
  stored w KFunction (string_flag given "namespace" "") name = None ->
  exists r w' f',
    let f := described_function (deploy_args deps) (deploy_default name) src sum ct r in
    run H (deployCmd (flags_of deploy_flags given) [name]) tt w = (Done tt, tt, w') /\
    accepts KFunction f f' /\ stored w' KFunction (string_flag given "namespace" "") name = Some f' /\
    same_but stored KFunction (string_flag given "namespace" "") name w w' /\
    description_resources (deploy_args deps) (deploy_default name) = Ok r.
Proof.
  intros [(Hsched & Hdry) Hns [Hrt Hh] Hpol [Hport Hsp] [r Hr]] Hrk Hfile Hdeps Hfree.
  destruct (run_checks _ _ _ Hpol Hport Hsp) as (Epol & Eport & Esp). exists r.
  set (f := described_function (deploy_args deps) (deploy_default name) src sum ct r).
  destruct (api_create_new w KFunction (string_flag given "namespace" "") f Hfree) as (f' & w' & Hc & Ha & Hs & Hb).
  exists w', f'. split; [|done].
  change (goes (Done tt, tt, w') (deployCmd (flags_of deploy_flags given) [name])).
  unfold deployCmd, deploy_submit. do 2 (eapply goes_bind; [apply run_clients|]). eapply goes_bind; [done|]. flag_step.
  eapply goes_bind; [by apply run_runtime_check|]. flag_step. rewrite Hsched.
  eapply goes_bind; [done|]. do 5 flag_step.
  eapply goes_bind. { unfold or_default_namespace. by rewrite (proj2 (streq_false _ _) Hns). }
  do 5 flag_step. rewrite Epol. eapply goes_bind; [done|]. do 7 flag_step. rewrite Eport.
  eapply goes_bind; [done|]. flag_step. rewrite Esp. eapply goes_bind; [done|].
  eapply goes_bind; [by eapply run_read_deps|]. rewrite (proj2 (streq_false _ _) Hrt), (proj2 (streq_false _ _) Hh).
  do 2 (eapply goes_bind; [done|]). flag_step.
  eapply goes_bind. { apply run_fatal_with with (a := f). change (goes (Done f, tt, w) (getFunctionDescription (deploy_args deps) (deploy_default name))).
    unfold getFunctionDescription. apply goes_bind with (a := (src, sum, ct)); [by apply run_description_source|].
    apply goes_bind with (a := r); [|done]. change (description_resources (deploy_args deps) (deploy_default name))
      with (description_resources (deploy_args "") (deploy_default name)). by rewrite run_lift, Hr. }
  rewrite Hdry. eapply goes_bind; [apply run_fatal_with, run_kubeless_client|].
  unfold goes. rewrite run_bind, (run_create _ f f' w' Hc). done.
Qed.

(** The function that the flags of [deploy] describe, field by field. *)
Record function_of_flags (deps src sum ct : string) (f : Function_) : Prop := {
  ff_name : f_name f = name /\ f_namespace f = string_flag given "namespace" "";
  ff_labels : exists l, f_labels f = Some l /\ ss_Selector (fs_ServiceSpec (f_Spec f)) = Some l /\
    forall k, l !! k = match pairs_last (map getKV (slice_flag given "label" [])) k with
                       | Some v => Some v
                       | None => if k =?s "created-by" then Some "kubeless"
                                 else if k =?s "function" then Some name else None
                       end;
  ff_source : fs_Function (f_Spec f) = src /\ fs_Checksum (f_Spec f) = sum /\
    fs_FunctionContentType (f_Spec f) = ct /\ fs_Deps (f_Spec f) = deps;
  ff_runtime : fs_Handler (f_Spec f) = string_flag given "handler" "" /\
    fs_Runtime (f_Spec f) = string_flag given "runtime" "" /\
    fs_Timeout (f_Spec f) = string_flag given "timeout" "180";
  ff_service : ss_Ports (fs_ServiceSpec (f_Spec f)) =
      [{| sp_Name := "http-function-port"; sp_Protocol := "TCP";
          sp_Port := if (int32_flag given "servicePort" 0 =? 0)%Z then int32_flag given "port" 8080
                     else int32_flag given "servicePort" 0;
          sp_TargetPort := FromInt (int32_flag given "port" 8080); sp_NodePort := 0 |}] /\
    ss_ClusterIP (fs_ServiceSpec (f_Spec f)) = (if bool_flag given "headless" false then "None" else "") /\
    ss_Type (fs_ServiceSpec (f_Spec f)) = "ClusterIP";
  ff_container : exists c, ps_Containers (dpm_podspec (fs_Deployment (f_Spec f))) = [c] /\
    c_Image c = string_flag given "runtime-image" "" /\
    c_ImagePullPolicy c = string_flag given "image-pull-policy" "Always" /\
    c_Env c = map (fun kv => {| ev_Name := kv.1; ev_Value := kv.2 |}) (map getKV (slice_flag given "env" [])) /\
    c_VolumeMounts c = map (fun secret => {| vm_Name := secret +:+ "-vol"; vm_ReadOnly := false;
        vm_MountPath := "/" +:+ secret |}) (slice_flag given "secrets" []) /\
    let mem := string_flag given "memory" "" in let cpu := string_flag given "cpu" "" in
    if (mem =?s "") && (cpu =?s "") then c_Resources c = zero_resources
    else exists qm qc, parseResource mem = Ok qm /\ parseResource cpu = Ok qc /\
      Limits (c_Resources c) = Some (<["memory" := qm]> {["cpu" := qc]}) /\ Requests (c_Resources c) = Limits (c_Resources c);
  ff_pod : let p := dpm_podspec (fs_Deployment (f_Spec f)) in
    ps_Volumes p = map (fun secret => {| vol_Name := secret +:+ "-vol"; vol_Source := SecretSource secret |})
      (slice_flag given "secrets" []) /\
    ps_ServiceAccountName p = string_flag given "service-account" "" /\
    ps_InitContainers p = [] /\
    exists l, ps_NodeSelector p = Some l /\ forall k, l !! k = pairs_last (map getKV (slice_flag given "node-selectors" [])) k;
  ff_hpa : fs_HorizontalPodAutoscaler (f_Spec f) = zero_hpa }.

Lemma parseNodeSelectors_lookup l k : parseNodeSelectors l !! k = pairs_last (map getKV l) k.
Proof. exact (parseLabel_lookup l k). Qed.

Lemma description_of_flags deps src sum ct r :
  description_resources (deploy_args deps) (deploy_default name) = Ok r ->
  function_of_flags deps src sum ct (described_function (deploy_args deps) (deploy_default name) src sum ct r).
Proof.
  intros Hr. assert (Hor : forall s, or_given s "" = s) by (intros s; unfold or_given; case_streq; by subst).
  split; cbn -[parseNodeSelectors or_given]; rewrite ?Hor.
  - done.
  - eexists. split; [done|]. split; [done|]. intros k. unfold description_labels. rewrite lookup_union, parseLabel_lookup.
    cbn. destruct (pairs_last _ k); [by rewrite union_Some_l|]. rewrite (left_id None _).
    destruct (k =?s "created-by") eqn:E1; [apply streq_true in E1 as ->; by rewrite lookup_insert_eq|].
    apply streq_false in E1. rewrite lookup_insert_ne by congruence.
    destruct (k =?s "function") eqn:E2; [apply streq_true in E2 as ->; by rewrite lookup_singleton_eq|].
    apply streq_false in E2. by rewrite lookup_singleton_ne by congruence.
  - done.
  - done.
  - by destruct (int32_flag given "servicePort" 0 =? 0)%Z.
  - eexists. split; [done|]. cbn. unfold description_image, description_env. cbn. split_and!; [done|done| |done|].
    + unfold parseEnv. destruct (slice_flag given "env" []) as [|e l]; [done|]. cbn. destruct (getKV e). cbn. f_equal.
      rewrite List.map_map. apply List.map_ext. intros x. by destruct (getKV x).
    + unfold description_resources in Hr. cbn in Hr.
      destruct (string_flag given "memory" "" =?s ""), (string_flag given "cpu" "" =?s ""); cbn in *;
        [by injection Hr as <-|..]; destruct (parseResource (string_flag given "memory" "")) as [qm|]; try done;
        destruct (parseResource (string_flag given "cpu" "")) as [qc|]; try done; cbn in Hr; injection Hr as <-;
        by exists qm, qc.
  - split_and!; [done|done|done|]. eexists. split; [|apply parseNodeSelectors_lookup].
    unfold description_node_selector. cbn. by rewrite andb_false_r.
  - done.
Qed.

(** C22. With a configured runtime, a handler, valid ports and pull policy,
    resources that parse, local files for source and dependencies or none, and
    no function of that name, [deploy] ends normally on every lawful server:
    the function that is stored has the name, namespace and labels and exactly
    the specification that the flags describe, field by field, with the content
    and the checksum of the files, and nothing else changes. *)
Theorem deploy_succeeds deps src sum ct depsSum depsCt
    (Hflags : deploy_flags_ok) (Hrk : runtime_known (string_flag given "runtime" ""))
    (Hfile : file_ready (string_flag given "from-file" "") src sum ct)
    (Hdeps : file_ready (string_flag given "dependencies" "") deps depsSum depsCt)
    (Hfree : stored w KFunction (string_flag given "namespace" "") name = None) :
  exists w' f', run H (deployCmd (flags_of deploy_flags given) [name]) tt w = (Done tt, tt, w') /\
    function_of_flags deps src sum ct f' /\
    stored w' KFunction (string_flag given "namespace" "") name = Some f' /\
    same_but stored KFunction (string_flag given "namespace" "") name w w'.
Proof.
  destruct (run_deploy _ _ _ _ _ _ Hflags Hrk Hfile Hdeps Hfree) as (r & w' & f' & Hrun & Ha & Hs & Hb & Hr).
  exists w', f'. split; [exact Hrun|]. split; [|done].
  destruct (description_of_flags deps src sum ct r Hr) as [[Hn Hns] Hl Hsrc Hrt Hsvc Hc Hp Hh].
  destruct Ha as [(An & Al & _ & _ & _ & _ & Ans) Aspec]. cbn [obj_meta same_contents] in *.
  split; rewrite ?Aspec; try done.
  - split; [unfold f_name in *; congruence|]. unfold f_namespace in *. rewrite Ans; [exact Hns|]. rewrite Hns. apply Hflags.
  - unfold f_labels in *. by rewrite Al.
Qed.

End Deploys.

(** ** A deployment to evaluate *)
Module DeploySample.
Import Concrete.Concrete.
#[export] Instance quantities : ParseQuantity := fun s => Ok s.
#[export] Instance crons : CronParse := fun _ => None.
#[export] Instance texts : Render Function_ := {| json_text _ := Ok "{}"; yaml_text _ := Ok "" |}.
(** Every configuration lists the runtimes of the tests. *)
#[export] Instance runtimes : YamlRuntimes := fun _ _ => Ok (AvailableRuntimes test_runtimes).
Definition given : flags :=
  {[ "runtime" := FString "python2.7"; "handler" := FString "foo.bar"; "namespace" := FString "default";
     "from-file" := FString "src/foo.py" ]}.
Definition source : string := "def bar(event, context): return 42".
Definition config_map : ConfigMap :=
  {| cm_Meta := mk_meta "kubeless-config" "kubeless" None []; cm_Data := Some {[ "runtime-images" := "[]" ]} |}.
Definition installed : world :=
  w_put (w_put (w_set_files empty_world {[ "src/foo.py" := source ]}) KConfigMap "kubeless" "kubeless-config" config_map)
    KCRD "" "functions.kubeless.io" {| crd_Meta := mk_meta "functions.kubeless.io" "" None [] |}.
End DeploySample.

Lemma deploy_succeeds_witness :
  exists w' f',
    run serve (deployCmd (H := Concrete.Concrete.env) (H0 := DeploySample.runtimes)
        (H1 := Concrete.Concrete.url_parse) (H2 := DeploySample.quantities)
        (H4 := DeploySample.crons) (Render0 := DeploySample.texts)
      (flags_of deploy_flags DeploySample.given) ["foo"]) tt DeploySample.installed = (Done tt, tt, w') /\
    fs_Function (f_Spec f') = DeploySample.source /\ fs_Handler (f_Spec f') = "foo.bar" /\
    fs_Timeout (f_Spec f') = "180" /\ w_store w' KFunction !! ("default", "foo") = Some f'.
Proof.
  destruct (deploy_succeeds serve (H0 := Concrete.Concrete.env) (H1 := DeploySample.runtimes)
      (H2 := Concrete.Concrete.url_parse) (H3 := DeploySample.quantities)
      (H5 := DeploySample.crons) (Render0 := DeploySample.texts) DeploySample.given "foo" DeploySample.installed
      "" DeploySample.source (getSha256 DeploySample.source) "text" "" "")
    as (w' & f' & Hrun & [_ _ (Hsrc & _) (Hh & _ & Ht) _ _ _ _] & Hs & _).
  - split; [by vm_compute|discriminate|by split|by vm_compute; right; left|by vm_compute|by eexists].
  - split. eexists "kubeless", "kubeless-config", DeploySample.config_map, "[]", _.
    split; [reflexivity|]. split; [reflexivity|].
    split; [reflexivity|]. split; [reflexivity|reflexivity].
  - exact (local_file serve DeploySample.installed "src/foo.py" DeploySample.source ltac:(discriminate) eq_refl eq_refl).
  - exact (no_file_given serve DeploySample.installed).
  - reflexivity.
  - exists w', f'. split; [exact Hrun|]. split; [exact Hsrc|]. split; [exact Hh|]. split; [exact Ht|exact Hs].
Defined.

(** ** An update and a dry run to evaluate *)
Module UpdateSample.
Import Concrete.Concrete DeploySample.
Definition given : flags := {[ "handler" := FString "foo.other"; "namespace" := FString "default" ]}.
Definition dry : flags := <[ "dryrun" := FBool true ]> given.
Definition world_with_function : world := w_put installed KFunction "default" "foo" PodSpec.test_function.
Definition update (g : flags) : go unit unit :=
  updateCmd (H := env) (H0 := runtimes) (H1 := url_parse) (H2 := quantities) (H3 := json_function)
    (Render0 := texts) (flags_of update_flags g) ["foo"].
(** The requests that change something. *)
Definition is_patch (e : event resp) : bool := match projT1 e with APatch _ _ _ _ => true | _ => false end.
End UpdateSample.

(** The update does reach the patch. *)
Lemma update_resets_witness :
  existsb UpdateSample.is_patch
    (run_trace serve (UpdateSample.update UpdateSample.given) tt UpdateSample.world_with_function) = true /\
  Forall (fun e : event resp => resetting (H3 := Concrete.Concrete.json_function) (projT1 e))
    (run_trace serve (UpdateSample.update UpdateSample.given) tt UpdateSample.world_with_function).
Proof.
  split; [reflexivity|].
  pose proof (runs_run serve _ _ UpdateSample.world_with_function _ _
    (update_resets (S := unit) (H := Concrete.Concrete.env) (H0 := DeploySample.runtimes)
       (H1 := Concrete.Concrete.url_parse) (H2 := DeploySample.quantities)
       (H3 := Concrete.Concrete.json_function) (Render0 := DeploySample.texts)
       UpdateSample.given ["foo"] tt eq_refl eq_refl eq_refl eq_refl eq_refl)) as Hr.
  exact Hr.
Defined.

(** ** Triggers and rules to evaluate *)
Module TriggerSample.
Import Concrete.Concrete DeploySample.
Import Triggers.
#[export] Instance http_utils : HttpTriggerUtils := fun c name => Ok (name +:+ ".local").
#[export] Instance selectors : LabelSelectors :=
  {| meta_ParseToLabelSelector s := let '(k, v) := getKV s in Ok (Some {[ k := v ]});
     meta_FormatLabelSelector _ := "" |}.
#[export] Instance uris : RequestURI := fun _ => Ok tt.
#[export] Instance payloads : JsonPayload := fun s => Ok s.
#[export] Instance any_text {A} : Render A := {| json_text _ := Ok "{}"; yaml_text _ := Ok "a: b" |}.
#[export] Instance tables : RenderTable := fun rows => Itoa (Z.of_nat (length rows)).
Definition dry_http : flags :=
  {[ "dryrun" := FBool true; "function-name" := FString "foo"; "namespace" := FString "default" ]}.
Definition create : go unit unit :=
  httpCreateCmd (flags_of http_create_flags dry_http) ["bar"].
(** A rule of [autoscale create]. *)
Definition rule : HPA :=
  match Autoscale.getHorizontalAutoscaleDefinition "foo" "default" "cpu" 1 3 "70" (f_labels PodSpec.test_function) with
  | Ok h => h | Error _ => zero_hpa end.
End TriggerSample.

(** The dry run prints the trigger and ends normally. *)
Lemma dryrun_writes_nothing_witness :
  fst (fst (run serve TriggerSample.create tt UpdateSample.world_with_function)) = Done tt /\
  w_out (snd (run serve TriggerSample.create tt UpdateSample.world_with_function)) = ["a: b"] /\
  Forall (fun e : event resp => reads (projT1 e))
    (run_trace serve TriggerSample.create tt UpdateSample.world_with_function).
Proof.
  split; [reflexivity|]. split; [reflexivity|].
  pose proof (runs_run serve _ _ UpdateSample.world_with_function _ _
    (TriggerSafety.dryrun_writes_nothing (S := unit) (H := Concrete.Concrete.env) (H0 := DeploySample.runtimes)
       (H1 := Concrete.Concrete.url_parse) (H2 := DeploySample.quantities)
       (H3 := Concrete.Concrete.json_function) (H4 := DeploySample.crons)
       (H5 := TriggerSample.http_utils) (H6 := TriggerSample.selectors) (H7 := TriggerSample.uris)
       (H8 := TriggerSample.payloads) (Render0 := TriggerSample.any_text)
       (Render1 := TriggerSample.any_text) (Render2 := TriggerSample.any_text)
       (Render3 := TriggerSample.any_text) (Render4 := TriggerSample.any_text)
       TriggerSample.dry_http ["bar"] _ _ tt
       ltac:(right; right; left) ltac:(reflexivity))) as Hr.
  exact Hr.
Defined.

Lemma autoscale_rule_listed_witness :
  Autoscale.autoscale_rows [TriggerSample.rule] =
    (mret [["foo"; "default"; "foo"; "1"; "3"; "cpu"; "70"]] : go unit _).
Proof.
  destruct (TriggerSafety.autoscale_rule_listed (S := unit) PodSpec.test_function [TriggerSample.rule])
    as (rows & Hrows & _).
  - constructor; [|constructor]. split; [by eexists|reflexivity|by split|].
    eexists. split; [reflexivity|]. simpl. split; [reflexivity|]. eexists. split; [reflexivity|apply int32_range].
  - rewrite Hrows. vm_compute in Hrows. congruence.
Defined.
