(* ===== verification/Sources.v ===== *)
(** * Every kind of source

    The command line takes a file, an archive or an address, and computes
    content, checksum and content type; the controller stores them in the config
    map; the commands of the "prepare" container make the original bytes out of
    them again. *)
From S2P Require Import Prelude GoStrings GoRegexp GoCodec GoProg KubeTypes World LangRuntime Memory K8sUtil.
From S2P Require Import Content PodSpec Ensure Provision Flags FunctionCmd CommandRuns.
From S2P Require Concrete.

Section Sources.
Context {W : Type} (H : handler resp W) `{!Files H} `{UrlParse}.
(** What addresses serve, and the archive tools. *)
Context (web : string -> option string) (unzip untar : string -> string -> files -> option files).

(** The bytes that a file name or an address stands for, and its content type;
    the address serves the same bytes to the command line and in the pod. *)
Inductive source_of (w : W) : string -> string -> string -> Prop :=
  | local_source file bytes :
      is_url file = false -> file_bytes w file = Some bytes ->
      source_of w file bytes (file_type file bytes)
  | remote_source file bytes u r :
      is_url file = true -> url_Parse file = Ok u -> H (HttpGet (url_String u) None) w = (Ok r, w) ->
      hr_Body r = Ok bytes -> web file = Some bytes ->
      source_of w file bytes ("url" +:+ getCompressionType (default "" (Split file "?"%char !! 0%nat))).

(** An archive that is a text, too, is not understood ([text_archive_breaks]). *)
Definition understood (ct : string) : Prop := ct <> "text+zip" /\ ct <> "text+compressedtar".

(** A path outside /tmp. *)
Definition lasting (k : string) : Prop := forall m, k <> "/tmp/" +:+ m.

Lemma compression_cases f :
  getCompressionType f = "" \/ getCompressionType f = "+zip" \/ getCompressionType f = "+compressedtar".
Proof. unfold getCompressionType. destruct (existsb _ _), (HasSuffix f ".zip"); auto. Qed.

(** The content types there are. *)
Lemma source_type w file bytes ct : source_of w file bytes ct -> understood ct ->
  ct ∈ ["text"; "base64"; "base64+zip"; "base64+compressedtar"; "url"; "url+zip"; "url+compressedtar"].
Proof.
  intros Hs [Hz Ht]. inversion Hs as [f b Hu Hb Ef Eb Ec|f b u r Hu Hp Hg Hb Hw Ef Eb Ec]; subst; clear Hs.
  - unfold file_type in *. destruct (compression_cases file) as [E|[E|E]]; rewrite E in *;
      destruct (utf8_ValidString bytes); simpl in *; first [done|set_solver].
  - destruct (compression_cases (default "" (Split file "?"%char !! 0%nat))) as [E|[E|E]]; rewrite E; set_solver.
Qed.

Lemma run_address w file u r bytes :
  is_url file = true -> url_Parse file = Ok u -> H (HttpGet (url_String u) None) w = (Ok r, w) -> hr_Body r = Ok bytes ->
  let ct := "url" +:+ getCompressionType (default "" (Split file "?"%char !! 0%nat)) in
  run H (GetContentType file) tt w = (Done ct, tt, w) /\ Contains ct "url" = true /\
  run H (ParseContent file ct) tt w = (Done (bytes, getSha256 bytes), tt, w).
Proof.
  intros Hu Hp Hg Hb. cbv zeta.
  assert (Contains ("url" +:+ getCompressionType (default "" (Split file "?"%char !! 0%nat))) "url" = true) as Hurl.
  { by destruct (compression_cases (default "" (Split file "?"%char !! 0%nat))) as [E|[E|E]]; rewrite E. }
  split_and!; [|done|].
  - unfold GetContentType, index. rewrite Hu. pose proof (Split_nonempty file "?"%char) as Hne.
    by destruct (Split file "?"%char).
  - unfold ParseContent, must, http_get, call. rewrite Hurl. rewrite run_bind, run_lift, Hp. cbn.
    rewrite Hg. cbn. by rewrite Hb.
Qed.

(** What the command line computes. *)
Lemma run_source w a d bytes ct :
  a_file a <> "" -> source_of w (a_file a) bytes ct -> understood ct ->
  exists src, run H (description_source a d) tt w = (Done (src, getSha256 bytes, ct), tt, w) /\
    if Contains ct "url" then web src = Some bytes
    else src = encode (if Contains ct "base64" then "base64" else ct) bytes.
Proof.
  intros Hne Hs Hund. pose proof (source_type _ _ _ _ Hs Hund) as Hct. unfold description_source.
  rewrite (proj2 (streq_false _ _) Hne). inversion Hs as [f b Hu Hb Ef Eb Ec|f b u r Hu Hp Hg Hb Hw Ef Eb Ec]; subst.
  - exists (file_content (a_file a) bytes). rewrite run_bind, (run_GetContentType H w _ bytes Hu Hb).
    rewrite run_bind, (run_ParseContent H w _ bytes Hb), file_type_local. split; [done|].
    unfold file_content, encode. rewrite !elem_of_cons, elem_of_nil in Hct.
    destruct Hct as [->|[->|[->|[->|[Hx|[Hx|[Hx|[]]]]]]]]; try done.
    all: pose proof (file_type_local (a_file a) bytes) as Hl; by rewrite Hx in Hl.
  - destruct (run_address w _ u r bytes Hu Hp Hg Hb) as (E1 & Hurl & E2).
    exists (a_file a). rewrite Hurl. split; [|done].
    by rewrite run_bind, E1, run_bind, E2, Hurl.
Qed.

(** The commands that fetch a source of an understood type make the original
    bytes out of what the config map holds, and the check lets them pass. *)
Lemma fetch_restores ct bytes src name fs :
  ct ∈ ["text"; "base64"; "base64+zip"; "base64+compressedtar"; "url"; "url+zip"; "url+compressedtar"] ->
  (if Contains ct "url" then web src = Some bytes
   else src = encode (if Contains ct "base64" then "base64" else ct) bytes) ->
  plain name -> fs !! path_Join ["/src"; name] = Some src ->
  exists fetch file fs1, fetch_plan ct src (path_Join ["/src"; name]) = Some (fetch, file) /\
    exec_all web unzip untar (fetch ++ [Verify (sha256_hex bytes) file]) fs = Some fs1 /\
    fs1 !! file = Some bytes /\ forall k, lasting k -> fs1 !! k = fs !! k.
Proof.
  intros Hct Hsrc Hn Hfs. set (origin := path_Join ["/src"; name]) in *.
  assert (exists fetch file, fetch_plan ct src origin = Some (fetch, file)) as (fetch & file & Hf).
  { unfold fetch_plan. rewrite !elem_of_cons, elem_of_nil in Hct.
    destruct Hct as [->|[->|[->|[->|[->|[->|[->|[]]]]]]]]; by do 2 eexists. }
  assert (fetched web ct src origin fs = Some bytes) as Hb.
  { unfold fetched. rewrite Hfs. rewrite !elem_of_cons, elem_of_nil in Hct.
    destruct Hct as [->|[->|[->|[->|[->|[->|[->|[]]]]]]]]; simpl in Hsrc |- *; subst; try done; apply base64_roundtrip. }
  destruct (fetch_leaves web unzip untar _ _ _ _ _ fs Hf) as [Hleft Htmp].
  assert (exists fs1, exec_all web unzip untar fetch fs = Some fs1) as [fs1 E].
  { unfold fetch_plan in Hf. unfold fetched in Hb. rewrite Hfs in Hb.
    repeat case_match; simplify_eq/=; rewrite ?Hfs; simpl;
      try match goal with E : web _ = Some _ |- _ => rewrite E | E : base64_Decode _ = Some _ |- _ => rewrite E end; by eexists. }
  exists fetch, file. eexists. rewrite exec_all_app, E. cbn. split; [done|]. rewrite (Hleft fs1 E), Hb. cbn. rewrite streq_refl. cbn.
  split_and!; [done| |].
  - rewrite lookup_insert_ne; [by rewrite (Hleft fs1 E)|]. assert (origin <> "/tmp/func.sha256") as Ho by (unfold origin; by rewrite (join_src name Hn)).
    clearbody origin. unfold fetch_plan in Hf. repeat case_match; simplify_eq/=; congruence.
  - intros k Hk. rewrite lookup_insert_ne by (intros <-; by apply (Hk "func.sha256")).
    by eapply (Htmp fetch []); [rewrite app_nil_r|..].
Qed.

(** ** Into the runtime volume *)

(** What the bytes become there: an archive is unpacked, anything else is put
    under the name of the module. *)
Definition install (ct bytes name : string) (fs : files) : option files :=
  if Contains ct "zip" then unzip bytes "/kubeless" fs
  else if Contains ct "compressedtar" then untar bytes "/kubeless" fs
  else Some (<[path_Join ["/kubeless"; name] := bytes]> fs).

(** The dependencies are beside it, under the name the runtime gives them. *)
Record with_deps (f : Function_) (lr : Langruntimes) (fs fs' : files) : Prop := {
  wd_there info : GetRuntimeInfo lr (fs_Runtime (f_Spec f)) = Ok info -> ri_DepName info <> "" ->
    fs' !! path_Join ["/kubeless"; ri_DepName info] = Some (fs_Deps (f_Spec f));
  wd_rest k : (forall info, GetRuntimeInfo lr (fs_Runtime (f_Spec f)) = Ok info -> ri_DepName info <> "" ->
      k <> path_Join ["/kubeless"; ri_DepName info]) -> fs' !! k = fs !! k }.

Lemma exec_deps f lr ct fs :
  Contains ct "deps" = false ->
  (forall info, GetRuntimeInfo lr (fs_Runtime (f_Spec f)) = Ok info -> ri_DepName info <> "" ->
     plain (ri_DepName info) /\ fs !! src_path (ri_DepName info) = Some (fs_Deps (f_Spec f))) ->
  exists fs', exec_all web unzip untar (deps_plan ct (fs_Runtime (f_Spec f)) "/src" "/kubeless" lr) fs = Some fs' /\
    with_deps f lr fs fs'.
Proof.
  intros Hct Hdeps. unfold deps_plan. destruct (GetRuntimeInfo lr (fs_Runtime (f_Spec f))) as [info|] eqn:Hi.
  2: { exists fs. split; [done|]. split; [intros info E; by rewrite Hi in E|done]. }
  destruct (ri_DepName info =?s "") eqn:Ed.
  { apply streq_true in Ed. exists fs. split; [done|]. split; [|done]. intros i E. rewrite Hi in E. by injection E as <-. }
  apply streq_false in Ed. destruct (Hdeps info eq_refl Ed) as [Hp Hl].
  rewrite Hct. cbn [negb andb exec_all exec]. rewrite (join_src _ Hp), Hl. cbn. eexists. split; [done|]. split.
  - intros i E _. rewrite Hi in E. injection E as <-. apply lookup_insert_eq.
  - intros k Hk. rewrite lookup_insert_ne; [done|]. intros E. by apply (Hk info Hi Ed).
Qed.

Lemma place_installs ct bytes handler runtime lr name file fs1 :
  getFileName handler ct runtime lr = Ok name -> fs1 !! file = Some bytes ->
  exists place, place_plan ct file "/kubeless" handler runtime lr = Some place /\
    exec web unzip untar place fs1 = install ct bytes name fs1.
Proof.
  intros Hname Hfile. unfold place_plan, install. rewrite Hname.
  destruct (Contains ct "zip"); [|destruct (Contains ct "compressedtar")]; (eexists; split; [done|]); cbn [exec];
    rewrite Hfile; done.
Qed.

(** C8.  The source reaches the pod, whatever its kind: take a local file or an
    address -- a text, binary data, a zip or tar archive that is not also a valid
    text -- and let the command line compute source, checksum and content type;
    put them into a function, let the controller write the config map and show it
    in the source volume.  Then the prepare container for it runs a plan that
    restores the original bytes and, with nothing else changed outside /tmp, puts
    them into the runtime volume under the name of the module, or unpacks them
    there, with the dependencies beside them; it fails only if the archive tool
    does. *)
Theorem source_reaches_pod w a d bytes ct
    (Hfile : a_file a <> "") (Hs : source_of w (a_file a) bytes ct) (Hund : understood ct) :
  exists src, run H (description_source a d) tt w = (Done (src, getSha256 bytes, ct), tt, w) /\
    forall f lr data name fs,
      fs_Function (f_Spec f) = src -> fs_Checksum (f_Spec f) = getSha256 bytes ->
      fs_FunctionContentType (f_Spec f) = ct -> fs_Handler (f_Spec f) <> "" ->
      getFileName (fs_Handler (f_Spec f)) ct (fs_Runtime (f_Spec f)) lr = Ok name -> plain name ->
      (forall info, GetRuntimeInfo lr (fs_Runtime (f_Spec f)) = Ok info -> ri_DepName info <> "" ->
         plain (ri_DepName info) /\ ri_DepName info <> name) ->
      configMapData f lr = Ok data -> shows data "/src" fs ->
      exists plan fs1,
        (forall S image runtimeVolume depsVolume resources (s : S) tr,
           vm_MountPath runtimeVolume = "/kubeless" -> vm_MountPath depsVolume = "/src" ->
           runs (getProvisionContainer src (getSha256 bytes) name (fs_Handler (f_Spec f)) ct (fs_Runtime (f_Spec f))
                   image runtimeVolume depsVolume resources lr) s tr
             (fun _ _ o => exists c, o = Done c /\ runs_plan plan c)) /\
        (forall k, lasting k -> fs1 !! k = fs !! k) /\
        match install ct bytes name fs1 with
        | None => exec_all web unzip untar plan fs = None
        | Some fs2 =>
            (forall k, fs2 !! src_path k = fs1 !! src_path k) ->
            exists fs', exec_all web unzip untar plan fs = Some fs' /\ with_deps f lr fs2 fs' /\
              (Contains ct "zip" = false -> Contains ct "compressedtar" = false ->
                 fs' !! path_Join ["/kubeless"; name] = Some bytes)
        end.
Proof.
  destruct (run_source w a d bytes ct Hfile Hs Hund) as (src & Hrun & Hsrc). exists src. split; [done|].
  pose proof (source_type _ _ _ _ Hs Hund) as Hct.
  intros f lr data name fs Hf Hsum Hfct Hh Hname Hplain Hdeps Hdata Hshow.
  destruct (configMapData_entries f lr data name) as [Hsrcd Hdep]; [done|by rewrite Hfct|done| |].
  { intros info Hi Hd. by apply Hdeps. }
  pose proof (Hshow name _ Hsrcd) as Hfs. rewrite Hf in Hfs.
  destruct (fetch_restores ct bytes src name fs Hct Hsrc Hplain Hfs) as (fetch & file & fs1 & Ef & Ex & Hb & Hlast).
  destruct (place_installs ct bytes (fs_Handler (f_Spec f)) (fs_Runtime (f_Spec f)) lr name file fs1 Hname Hb)
    as (place & Ep & Epx).
  set (deps := deps_plan ct (fs_Runtime (f_Spec f)) "/src" "/kubeless" lr).
  set (plan := (fetch ++ [Verify (sha256_hex bytes) file]) ++ place :: deps).
  assert (Hplan : provision_plan src (getSha256 bytes) name (fs_Handler (f_Spec f)) ct (fs_Runtime (f_Spec f))
    "/kubeless" "/src" lr = Some plan).
  { unfold provision_plan. rewrite Ef. cbn [mbind option_bind]. unfold getSha256.
    rewrite (verify_plan_digest _ _ (sha256_hex_lacks ":"%char bytes ltac:(lacks_done))). cbn [mbind option_bind].
    rewrite Ep. cbn [mbind option_bind]. unfold plan. by rewrite <- app_assoc. }
  exists plan, fs1. split; [|split; [done|]].
  - intros S image rv dv resources s tr Er Ed.
    eapply runs_mono; [|apply provision_container_runs; rewrite Er, Ed; exact Hplan].
    intros s' tr' o (_ & _ & c & -> & Hc & _). by exists c.
  - unfold plan. rewrite exec_all_app, Ex. cbn [mbind option_bind exec_all]. rewrite Epx.
    destruct (install ct bytes name fs1) as [fs2|] eqn:Ei; [|done]. cbn [mbind option_bind]. intros Hkeep.
    destruct (exec_deps f lr ct fs2) as (fs' & E' & Hwd).
    { rewrite !elem_of_cons, elem_of_nil in Hct. by destruct Hct as [->|[->|[->|[->|[->|[->|[->|[]]]]]]]]. }
    { intros info Hi Hd. destruct (Hdeps info Hi Hd) as [Hp _]. split; [done|].
      rewrite Hkeep, Hlast by done. rewrite <- (join_src _ Hp). by apply Hshow, Hdep. }
    exists fs'. split; [done|]. split; [done|]. intros Hz Ht. unfold install in Ei. rewrite Hz, Ht in Ei.
    injection Ei as <-. rewrite (wd_rest _ _ _ _ Hwd); [apply lookup_insert_eq|].
    intros info Hi Hd. destruct (Hdeps info Hi Hd) as [Hp Hne]. rewrite !join_kubeless by done.
    intros E%kubeless_path_inj. done.
Qed.

End Sources.

(** ** An archive *)
Module ArchiveSample.
Definition packed : string := String (Ascii.ascii_of_nat 255) "PK".
Definition world : world := w_set_files empty_world {[ "src/foo.zip" := packed; "src/text.zip" := "PK" ]}.
Definition args (file : string) : description_args :=
  {| a_funcName := "foo"; a_ns := "default"; a_handler := "foo.bar"; a_file := file; a_deps := "";
     a_runtime := "python2.7"; a_runtimeImage := ""; a_mem := ""; a_cpu := ""; a_timeout := "180";
     a_imagePullPolicy := "Always"; a_serviceAccount := ""; a_port := 8080; a_servicePort := 0;
     a_headless := false; a_envs := []; a_labels := []; a_secrets := []; a_nodeSelectors := [] |}.
Definition no_address : string -> option string := fun _ => None.
Definition unpack (archive dir : string) (fs : files) : option files :=
  Some (<[path_Join [dir; "inside.py"] := archive]> fs).
Definition no_tar (archive dir : string) (fs : files) : option files := None.
Definition compute (file : string) : outcome (string * string * string) :=
  fst (fst (run serve (description_source (H := Concrete.Concrete.url_parse) (args file) zero_function) tt world)).
(** The function that is stored, and its config map in the source volume. *)
Definition function : Function_ :=
  {| f_Type := f_Type test_function; f_Meta := f_Meta test_function;
     f_Spec := {| fs_Handler := "foo.bar"; fs_Function := base64_EncodeToString packed;
       fs_FunctionContentType := "base64+zip"; fs_Checksum := getSha256 packed; fs_Runtime := "python2.7";
       fs_Timeout := "180"; fs_Deps := "deps"; fs_Deployment := zero_deployment;
       fs_ServiceSpec := zero_service_spec; fs_HorizontalPodAutoscaler := zero_hpa |} |}.
Definition data : gmap string string :=
  <["requirements.txt" := "deps"]> (<["foo" := base64_EncodeToString packed]> {[ "handler" := "foo.bar" ]}).
Definition volume : files :=
  {[ "/src/foo" := base64_EncodeToString packed; "/src/requirements.txt" := "deps"; "/src/handler" := "foo.bar" ]}.
End ArchiveSample.

Lemma compute_archive : ArchiveSample.compute "src/foo.zip" =
  Done (base64_EncodeToString ArchiveSample.packed, getSha256 ArchiveSample.packed, "base64+zip").
Proof. vm_compute. reflexivity. Qed.

Lemma source_reaches_pod_witness :
  exists plan fs',
    runs (getProvisionContainer (base64_EncodeToString ArchiveSample.packed) (getSha256 ArchiveSample.packed) "foo" "foo.bar"
        "base64+zip" "python2.7" "unzip" (getRuntimeVolumeMount "foo")
        {| vm_Name := "foo-deps"; vm_ReadOnly := false; vm_MountPath := "/src" |} zero_resources test_runtimes) tt []
      (fun _ _ o => exists c, o = Done c /\ runs_plan plan c) /\
    exec_all ArchiveSample.no_address ArchiveSample.unpack ArchiveSample.no_tar plan ArchiveSample.volume = Some fs' /\
    fs' !! path_Join ["/kubeless"; "requirements.txt"] = Some "deps".
Proof.
  destruct (source_reaches_pod serve (H0 := Concrete.Concrete.url_parse) ArchiveSample.no_address ArchiveSample.unpack
    ArchiveSample.no_tar ArchiveSample.world (ArchiveSample.args "src/foo.zip") zero_function ArchiveSample.packed "base64+zip")
    as (src & E & Hgo).
  - discriminate.
  - replace "base64+zip" with (file_type "src/foo.zip" ArchiveSample.packed) by (vm_compute; reflexivity).
    constructor; vm_compute; reflexivity.
  - split; discriminate.
  - assert (src = base64_EncodeToString ArchiveSample.packed) as ->.
    { pose proof compute_archive as Hc. unfold ArchiveSample.compute in Hc. rewrite E in Hc.
      exact (f_equal (fun o => match o with Done (x, _, _) => x | _ => src end) Hc). }
    clear E. destruct (Hgo ArchiveSample.function test_runtimes ArchiveSample.data "foo" ArchiveSample.volume)
      as (plan & fs1 & Hrun & Hlast & Hend).
    + reflexivity.
    + reflexivity.
    + reflexivity.
    + discriminate.
    + reflexivity.
    + split; [lacks_done|done].
    + intros info Hi Hd. vm_compute in Hi. injection Hi as <-. split; [split; [lacks_done|done]|discriminate].
    + vm_compute. reflexivity.
    + clear. unfold shows. apply map_Forall_to_list. vm_compute. repeat constructor.
    + exists plan.
      change (install ArchiveSample.unpack ArchiveSample.no_tar "base64+zip" ArchiveSample.packed "foo" fs1)
        with (Some (<["/kubeless/inside.py" := ArchiveSample.packed]> fs1)) in Hend. cbv iota beta in Hend.
      destruct Hend as (fs' & Ex & Hwd & _); [intros k; by apply lookup_insert_ne|].
      exists fs'. split; [by apply Hrun|]. split; [exact Ex|].
      destruct (GetRuntimeInfo test_runtimes "python2.7") as [info|e] eqn:Hi; [|vm_compute in Hi; discriminate].
      pose proof (wd_there _ _ _ _ Hwd info Hi) as Ht. vm_compute in Hi. injection Hi as <-. by apply Ht.
Defined.

(** An archive whose bytes are a valid text is sent as base64 under the type of
    a text, which nobody decodes: the check fails. *)
Example text_archive_breaks :
  ArchiveSample.compute "src/text.zip" = Done (base64_EncodeToString "PK", getSha256 "PK", "text+zip") /\
  forall unzip untar, exists plan,
    provision_plan (base64_EncodeToString "PK") (getSha256 "PK") "foo" "foo.bar" "text+zip" "python2.7"
      "/kubeless" "/src" test_runtimes = Some plan /\
    exec_all ArchiveSample.no_address unzip untar plan {[ "/src/foo" := base64_EncodeToString "PK" ]} = None.
Proof.
  split; [vm_compute; reflexivity|]. intros unzip untar. eexists. split; [vm_compute; reflexivity|]. vm_compute. reflexivity.
Qed.
