(* ===== verification/EndToEnd.v ===== *)
(** * From the command line to the pod

    The command line, the API server, the informer's event, the queue and the
    controller together: a source file given to [deploy] ends up, byte by
    byte, where the function's container looks for it. *)
From S2P Require Import Prelude GoStrings GoCodec GoProg KubeTypes World LangRuntime Memory K8sUtil.
From S2P Require Import Content PodSpec Ensure EnsureSpec Controller Provision Scaling Patching Deployed Fulfil Converge.
From S2P Require Import Ordering Worker Flags FunctionCmd FunctionRun CommandSafety CommandRuns.
From S2P Require Concrete Registry.

(** Requests to the queue leave the stored objects and the informer alone. *)
Class QueueApart {W} (H : handler resp W) `{!ApiServer H} := {
  queue_stored w o : queue_op o = true ->
    forall k ns n, stored (snd (H o w)) k ns n = stored w k ns n;
  queue_indexer w o key : queue_op o = true ->
    H (IndexerGetByKey key) (snd (H o w)) = (fst (H (IndexerGetByKey key) w), snd (H o w)) }.

#[export] Program Instance serve_apart : QueueApart serve.
Next Obligation. intros w o Ho k ns n. destruct o; try done; simpl; by repeat case_match. Qed.
Next Obligation. intros w o key Ho. destruct o; try done; simpl; by repeat case_match. Qed.

(** A function without an image of its own is deployed from its source. *)
Definition fresh_image (f : Function_) : Prop :=
  fs_Handler (f_Spec f) <> "" /\ fs_Function (f_Spec f) <> "" /\ spec_image f = "".

(** What the pods of the function get to see of a source file. *)
Definition pod_gets `{IntOrStringValue} {W} (H' : handler resp W) `{!ApiServer H'} (f : Function_)
    (fname bytes : string) (w : W) : Prop :=
  exists cm data d plan,
    stored w KConfigMap (f_namespace f) (f_name f) = Some cm /\ cm_Data cm = Some data /\
    stored w KDeployment (f_namespace f) (f_name f) = Some d /\
    equipped (f_name f) plan d /\ serves f d /\
    forall web unzip untar fs, shows data "/src" fs ->
      exists fs', exec_all web unzip untar plan fs = Some fs' /\
        fs' !! path_Join ["/kubeless"; fname] = Some bytes.

Section Deploys.
Context `{YamlRuntimes} `{MapRange} `{OsEnv} `{IntOrStringValue} `{JsonDeployment} `{Mergo}
  `{UrlParse} `{Registry.RegistryJson} `{CacheKeys} `{YamlDeployment} `{SemanticEqual}.
Context {W : Type} (H' : handler resp W) `{!ApiServer H'}.
Implicit Types (w : W) (s : mem).

Lemma always_equipped c f lr plan :
  fresh_image f -> plan_of lr f = Some plan ->
  always_deploys c f lr (equipped (f_name f) plan).
Proof.
  intros (Hh & Hf & Hi) Hplan f' owners s tr Hs Hn Hlr.
  replace (own_image f') with (spec_image f') by done. unfold spec_image in *. rewrite Hs, Hi.
  eapply ensures_bind with (M := fun _ _ d => equipped (f_name f') plan d).
  - apply deploy_function_equips; [by rewrite Hs|by rewrite Hs|unfold spec_image; by rewrite Hs|].
    unfold plan_of in *. by rewrite Hs, Hlr.
  - intros s' tr' d Hd. rewrite <- Hn. by apply finish_deployment_equips.
Qed.

Lemma configMapData_total f lr fname :
  getFileName (fs_Handler (f_Spec f)) (fs_FunctionContentType (f_Spec f)) (fs_Runtime (f_Spec f)) lr = Ok fname ->
  exists data, configMapData f lr = Ok data.
Proof.
  unfold configMapData. intros ->. cbn. repeat case_match; by eexists.
Qed.

(** A function whose source is [bytes], to be run by an image of its runtime. *)
Record sourced_from (f : Function_) (bytes : string) : Prop := {
  sf_named : f_name f <> "" /\ om_DeletionTimestamp (f_Meta f) = None;
  sf_handler : exists m h, splitHandler (fs_Handler (f_Spec f)) = Ok (m, h);
  sf_type : let ct := fs_FunctionContentType (f_Spec f) in
    (ct = "text" \/ ct = "base64") /\ fs_Function (f_Spec f) = encode ct bytes;
  sf_bytes : bytes <> "" /\ fs_Checksum (f_Spec f) = getSha256 bytes;
  sf_plain : spec_image f = "" }.

(** A controller, with the informer's store in [s], that can serve [f]: it has
    the runtime, with a file name for the module and one for the dependencies,
    and no template or build step; secrets of the runtime's images do not clash
    with volumes of the function. *)
Record controller_ready (c : FunctionController) (s : mem) (p : positive) (key fname : string)
    (f : Function_) : Prop := {
  cr_cached : m_heap s !! p = Some f;
  cr_key : MetaNamespaceKeyFunc (f_Meta f) = Ok key /\ SplitMetaNamespaceKey key = Ok (f_namespace f, f_name f);
  cr_uid : om_UID (f_Meta f) <> "";
  cr_config : mget (config_Data c) "deployment" = None /\ mstr (config_Data c) "enable-build-step" <> "true";
  cr_runtime : exists lr' rv rv', findRuntimeVersion (m_lr s) (fs_Runtime (f_Spec f)) = Ok rv /\
    reread (m_lr s) lr' /\ findRuntimeVersion lr' (fs_Runtime (f_Spec f)) = Ok rv' /\
    compatible (image_secrets rv') (base_volumes f);
  cr_file : getFileName (fs_Handler (f_Spec f)) (fs_FunctionContentType (f_Spec f)) (fs_Runtime (f_Spec f)) (m_lr s)
      = Ok fname /\ plain fname;
  cr_deps : forall info, GetRuntimeInfo (m_lr s) (fs_Runtime (f_Spec f)) = Ok info ->
    ri_DepName info <> "" -> plain (ri_DepName info) /\ ri_DepName info <> fname }.

(** The names of the function's objects are free or the controller's own, its
    autoscaler can be put there or taken away, and again. *)
Definition clear (c : FunctionController) (f : Function_) w : Prop :=
  available H' f w /\ scalable H' c f w /\ steady f.

Lemma encode_nonempty ct bytes : ct = "text" \/ ct = "base64" -> bytes <> "" -> encode ct bytes <> "".
Proof.
  intros Hct Hb E. destruct Hct as [-> | ->]; [exact (Hb E)|]. apply Hb.
  change (encode "base64" bytes) with (base64_EncodeToString bytes) in E.
  pose proof (base64_roundtrip bytes) as Hr. rewrite E in Hr.
  change (base64_Decode "") with (Some "") in Hr. congruence.
Qed.

Lemma ready_servable c s p key fname f bytes w :
  controller_ready c s p key fname f -> sourced_from f bytes -> clear c f w ->
  fresh_image f /\ exists data, servable H' c p f data s w.
Proof.
  intros [Hp Hk Hu Hc (lr' & rv & rv' & Hrv & Hre & Hrv' & Hcomp) [Hfile Hplain] _]
    [[Hn Hd] (m & h & Hh) [Hct Hsrc] [Hb Hsum] Hi] (Hav & Hscale & _).
  split.
  - split_and!; [|rewrite Hsrc; by apply encode_nonempty|done]. intros E. rewrite E in Hh. by vm_compute in Hh.
  - destruct (configMapData_total f (m_lr s) fname Hfile) as [data Hdata]. exists data. split; [done..| |done|done].
    split; [done|]. split; [eauto|]. right. exists lr'. split; [eauto| |rewrite Hsum; right; by eexists|eauto|done|eauto].
    by destruct Hct as [-> | ->].
Qed.

(** The source of a function that is processed reaches its pods, and the names
    are the controller's own afterwards. *)
Lemma processItem_pod_gets c key p f s w bytes fname
    (Hidx : H' (IndexerGetByKey key) w = (Ok (Some p), w))
    (Hst : stored w KFunction (f_namespace f) (f_name f) = Some f)
    (Hready : controller_ready c s p key fname f) (Hsrc : sourced_from f bytes) (Hclear : clear c f w) :
  exists w' s', run H' (processItem c key) s w = (Done tt, s', w') /\ pod_gets H' f fname bytes w' /\
    held_names H' f w' /\ (Patching H' -> clear c f w') /\
    exists f', stored w' KFunction (f_namespace f) (f_name f) = Some f' /\ f_Spec f' = f_Spec f /\
      FunctionObjHasFinalizer f' functionFinalizer = true.
Proof.
  destruct (ready_servable c s p key fname f bytes w Hready Hsrc Hclear) as [Himg [data Hsv]].
  destruct Hready as [_ [_ Hkey] _ _ (lr' & _ & _ & _ & Hre & _) [Hname Hplain] Hdeps].
  destruct Hsrc as [_ _ [Hct Hfn] [_ Hsum] _].
  destruct (plan_exists (fs_Function (f_Spec f)) bytes (fs_FunctionContentType (f_Spec f)) fname (fs_Handler (f_Spec f))
    (fs_Runtime (f_Spec f)) (m_lr s) Hct Hname) as [plan Hplan].
  assert (plan_of (m_lr s) f = Some plan) as Hpo.
  { unfold plan_of. cbv zeta. by rewrite Hname, Hsum. }
  destruct (processItem_provides_with H' _ c key _ _ p f data s w Hkey Hidx Hst
    (always_equipped c f (m_lr s) plan Himg Hpo) Hsv)
    as (w' & s' & E & Hff & (d & d' & Hd & He & Ha) & Hheld & Hscaled & Hst').
  exists w', s'. split; [done|]. split; [|split; [done|split; [|done]]].
  - destruct Hff as [(cm & Hcm & Hdata) _ (d2 & Hd2 & _ & _ & Hserves)]. rewrite Hd in Hd2. simplify_eq.
    exists cm, data, d2, plan. split_and!; [done|done|done|by eapply equipped_realised|done|].
    intros web unzip untar fs Hshow.
    destruct (source_arrives web unzip untar f (fs_FunctionContentType (f_Spec f)) bytes (m_lr s) data fname fs)
      as (plan' & fs' & Hp' & Hx & Hb & _); [done..|apply Himg|done|done|apply Hsv|done|done|].
    rewrite Hsum in Hp'. rewrite Hplan in Hp'. simplify_eq. by exists fs'.
  - intros HP. split; [by apply held_names_available|]. destruct Hclear as (_ & Hscale & Hsteady).
    split; [by eapply scaled_steady|done].
Qed.

(** ** The event of a new function *)
Section Event.
Context `{!WorkQueue H'} `{!QueueApart H'}.

Definition same_objects w w' : Prop := forall k ns n, stored w' k ns n = stored w k ns n.

(** With an idle worker, the event of a function leads to its processing. *)
Lemma run_event c key s w :
  pending w = [] ->
  exists w0, same_objects w w0 /\
    H' (IndexerGetByKey key) w0 = (fst (H' (IndexerGetByKey key) w), w0) /\
    forall s' w', run H' (processItem c key) s w0 = (Done tt, s', w') ->
      exists w2, run H' (queue_add key;; processNextItem c) s w = (Done true, s', w2) /\
        same_objects w' w2 /\ pending w2 = [].
Proof.
  intros Hidle. destruct (queue_add_law w key) as (wa & Ea & Hpa & _).
  rewrite Hidle in Hpa. change (enqueue key []) with [key] in Hpa.
  destruct (queue_next wa key [] Hpa) as (w0 & E0 & Hp0 & _).
  pose proof (queue_stored w (QueueAdd key) eq_refl) as Hsa. rewrite Ea in Hsa. simpl in Hsa.
  pose proof (queue_stored wa QueueGet eq_refl) as Hs0. rewrite E0 in Hs0. simpl in Hs0.
  pose proof (queue_indexer w (QueueAdd key) key eq_refl) as Hia. rewrite Ea in Hia. simpl in Hia.
  pose proof (queue_indexer wa QueueGet key eq_refl) as Hi0. rewrite E0 in Hi0. simpl in Hi0.
  exists w0. split; [intros k ns n; by rewrite Hs0, Hsa|]. split; [by rewrite Hi0, Hia|]. intros s' w' Hrun.
  pose proof (run_no_queue H' (processItem c key) s w0 (processItem_no_queue c key)) as [Hpq _].
  rewrite Hrun in Hpq. simpl in Hpq. rewrite Hp0 in Hpq.
  destruct (queue_forget_law w' key) as (wf & Ef & Hpf & _).
  pose proof (queue_stored w' (QueueForget key) eq_refl) as Hsf. rewrite Ef in Hsf. simpl in Hsf.
  destruct (queue_done_law wf key) as (wd & Ed & Hpd & _).
  pose proof (queue_stored wf (QueueDone key) eq_refl) as Hsd. rewrite Ed in Hsd. simpl in Hsd.
  exists wd. split; [|split; [intros k ns n; by rewrite Hsd, Hsf|congruence]].
  rewrite run_bind. unfold queue_add, call. cbn [run].
  rewrite Ea. cbn [run mret prog_ret]. unfold processNextItem. rewrite run_bind. unfold queue_get, call.
  cbn [run]. rewrite E0. cbn [run mret prog_ret].
  rewrite run_deferred, run_bind, run_attempt, Hrun. unfold queue_forget, call. cbn.
  by rewrite Ef, Ed.
Qed.

Lemma pod_gets_same w w' f fname bytes :
  same_objects w w' -> pod_gets H' f fname bytes w -> pod_gets H' f fname bytes w'.
Proof.
  intros Hsame (cm & data & d & plan & Hcm & Hdata & Hd & Hrest).
  exists cm, data, d, plan. rewrite !Hsame. done.
Qed.

Lemma clear_same c w w' f : same_objects w w' -> clear c f w -> clear c f w'.
Proof.
  intros Hsame (Ha & Hs & Hst). split; [|split; [|done]].
  - revert Ha. unfold available, ours_or_absent, deployment_free. by rewrite !Hsame.
  - eapply scalable_same; [intros; apply Hsame..|exact Hs].
Qed.

(** The function itself does not matter, but for its name and its rule. *)
Lemma clear_renewed c w w' f f' :
  f_name f' = f_name f -> f_namespace f' = f_namespace f -> autoscaler f' = autoscaler f ->
  (forall k ns n, k <> KFunction -> stored w' k ns n = stored w k ns n) -> clear c f w -> clear c f' w'.
Proof.
  intros Hn Hns Ha Hsame. unfold clear, available, ours_or_absent, deployment_free, scalable, steady,
    wants_autoscaler, custom_metric, removable. by rewrite Hn, Hns, Ha, !Hsame.
Qed.

(** The key of a function that is put on the queue of an idle controller is
    processed, and its source reaches the pods. *)
Lemma event_delivers c s p key fname f bytes w (notify : go mem unit)
    (Hnotify : notify = queue_add key) (Hidle : pending w = [])
    (Hidx : fst (H' (IndexerGetByKey key) w) = Ok (Some p))
    (Hst : stored w KFunction (f_namespace f) (f_name f) = Some f)
    (Hready : controller_ready c s p key fname f) (Hsrc : sourced_from f bytes) (Hclear : clear c f w) :
  exists w2 s2, run H' (notify;; processNextItem c) s w = (Done true, s2, w2) /\ pending w2 = [] /\
    pod_gets H' f fname bytes w2 /\ (Patching H' -> clear c f w2) /\
    exists f', stored w2 KFunction (f_namespace f) (f_name f) = Some f' /\ f_Spec f' = f_Spec f /\
      FunctionObjHasFinalizer f' functionFinalizer = true.
Proof.
  destruct (run_event c key s w Hidle) as (w0 & Hsame & Hidx0 & Hgo).
  destruct (processItem_pod_gets c key p f s w0 bytes fname) as (w' & s' & E & Hpod & _ & Hcl & f' & Hst' & Hspec & Hfin);
    [by rewrite Hidx0, Hidx|by rewrite Hsame|done|done|by eapply clear_same|].
  destruct (Hgo s' w' E) as (w2 & E2 & Hsame2 & Hp2).
  exists w2, s'. subst notify. split_and!; [done|done|by eapply pod_gets_same| |].
  - intros HP. eapply clear_same; [exact Hsame2|by apply Hcl].
  - exists f'. by rewrite Hsame2.
Qed.

Lemma AddFunc_key f key : MetaNamespaceKeyFunc (f_Meta f) = Ok key -> AddFunc f = (queue_add key : go mem unit).
Proof. unfold AddFunc, add_key. by intros ->. Qed.

Lemma UpdateFunc_key old f key :
  MetaNamespaceKeyFunc (f_Meta f) = Ok key -> functionObjChanged old f = true ->
  UpdateFunc old f = (queue_add key : go mem unit).
Proof. unfold UpdateFunc. by intros -> ->. Qed.

End Event.

(** ** The whole way *)
Section Whole.
Context `{ParseQuantity} `{JsonFunction} `{CronParse} `{!Render Function_}.
Context `{!Clients H'} `{!Files H'} `{!WorkQueue H'} `{!QueueApart H'}.
Context (given : flags) (name mod_ func : string).

Let ns := string_flag given "namespace" "".
Let runtime := string_flag given "runtime" "".

(** The source file of the flags. *)
Record source_file_flags (bytes : string) : Prop := {
  so_plain : getCompressionType (string_flag given "from-file" "") = "";
  so_bytes : bytes <> "";
  so_handler : splitHandler (string_flag given "handler" "") = Ok (mod_, func);
  so_image : string_flag given "runtime-image" "" = "" }.

Definition readable w (file bytes : string) : Prop :=
  file <> "" /\ is_url file = false /\ file_bytes w file = Some bytes.

Lemma plain_file_type file bytes : getCompressionType file = "" ->
  (file_type file bytes = "text" \/ file_type file bytes = "base64") /\
  file_content file bytes = encode (file_type file bytes) bytes.
Proof.
  intros Hc. unfold file_content, encode. split; [|done]. unfold file_type. rewrite Hc.
  destruct (utf8_ValidString bytes); auto.
Qed.

(** The function that [deploy] stores for a source file. *)
Lemma deployed_sourced f a r (deps bytes : string) :
  let file := string_flag given "from-file" "" in
  a = deploy_args given name deps ->
  accepts KFunction (described_function a (deploy_default name) (file_content file bytes) (getSha256 bytes)
    (file_type file bytes) r) f ->
  source_file_flags bytes -> string_flag given "runtime" "" <> "" -> name <> "" -> ns <> "" ->
  (f_namespace f = ns /\ f_name f = name) /\ sourced_from f bytes /\ wants_autoscaler f = false.
Proof.
  intros file -> [(Hn & _ & _ & _ & _ & Hdel & Hns) Hspec] [Hc Hb Hsplit Himg] Hrt Hname Hnsne.
  destruct (plain_file_type file bytes Hc) as [Hct Henc]. simpl in Hspec.
  assert (Hh0 : string_flag given "handler" "" <> "") by (intros E; rewrite E in Hsplit; by vm_compute in Hsplit).
  split; [split; [by apply Hns|exact Hn]|].
  split; [|unfold wants_autoscaler, autoscaler; by rewrite Hspec]. split; rewrite ?Hspec; cbn [described_function f_Spec fs_Handler
    fs_FunctionContentType fs_Function fs_Checksum fs_HorizontalPodAutoscaler].
  - split; [by replace (f_name f) with name|]. simpl in Hdel. by destruct (om_DeletionTimestamp (f_Meta f)).
  - simpl. unfold or_given. rewrite (proj2 (streq_false _ _) Hh0). eauto.
  - split; [exact Hct|exact Henc].
  - done.
  - unfold spec_image. rewrite Hspec. exact Himg.
Qed.

(** C1. A source file that is deployed reaches the function's pods.  On a
    lawful server [deploy] with a readable file stores the function; and once
    the informer has it, a ready and idle controller that gets the event of the
    new function ends its next step normally, with the queue drained, the
    finalizer on the function, a config map, and a deployment whose first container runs
    a plan that, on whatever files the config map is shown with, succeeds and
    leaves the very bytes of the file in the volume that the function's
    container sees, under the name of its module; that container is told the
    module and the handler of the flags. *)
Theorem deploy_reaches_pod w bytes deps depsSum depsCt
    (Hname : name <> "")
    (Hflags : deploy_flags_ok given name) (Hknown : runtime_known H' w runtime)
    (Hsrc : source_file_flags bytes) (Hfile : readable w (string_flag given "from-file" "") bytes)
    (Hdeps : file_ready H' w (string_flag given "dependencies" "") deps depsSum depsCt)
    (Hfree : forall k, stored w k ns name = None) :
  exists w1 f, run H' (deployCmd (flags_of deploy_flags given) [name]) tt w = (Done tt, tt, w1) /\
    stored w1 KFunction ns name = Some f /\ fs_Handler (f_Spec f) = string_flag given "handler" "" /\
    forall w1' c s p key fname, same_objects w1 w1' -> pending w1' = [] ->
      fst (H' (IndexerGetByKey key) w1') = Ok (Some p) -> controller_ready c s p key fname f ->
      exists w2 s2, run H' (AddFunc f;; processNextItem c) s w1' = (Done true, s2, w2) /\
        pending w2 = [] /\ pod_gets H' f fname bytes w2 /\
        exists f', stored w2 KFunction ns name = Some f' /\ f_Spec f' = f_Spec f /\
          FunctionObjHasFinalizer f' functionFinalizer = true.
Proof.
  destruct Hfile as (Hf0 & Hu & Hb).
  destruct (run_deploy H' given name w deps _ _ _ depsSum depsCt Hflags Hknown (local_file H' w _ bytes Hf0 Hu Hb) Hdeps (Hfree _))
    as (r & w1 & f & Hrun & Ha & Hst & Hbut & _).
  destruct (deployed_sourced f _ r deps bytes eq_refl Ha Hsrc) as ([Hfns Hfn] & Hs & Hauto); [apply Hflags|done|apply Hflags|].
  exists w1, f. split; [done|]. split; [done|]. split.
  { destruct Ha as [_ Hspec]. simpl in Hspec. rewrite Hspec. simpl. unfold or_given.
    destruct (string_flag given "handler" "" =?s "") eqn:E; [|done]. apply streq_true in E.
    pose proof (so_handler _ Hsrc) as Hh. rewrite E in Hh. by vm_compute in Hh. }
  intros w1' c s p key fname Hsame1 Hidle Hidx Hready.
  assert (Hfree1 : forall k, k <> KFunction -> stored w1' k ns name = None).
  { intros k Hk. rewrite Hsame1, Hbut by congruence. apply Hfree. }
  destruct (event_delivers c s p key fname f bytes w1' (AddFunc f)) as (w2 & s2 & E & Hp & Hpod & _ & f' & Hst');
    [apply AddFunc_key, Hready|done|done|by rewrite Hfns, Hfn, Hsame1|done|done| |].
  { unfold clear, available, ours_or_absent, deployment_free, scalable, steady, removable.
    rewrite Hauto, Hfns, Hfn, !Hfree1 by done. split_and!; [done|done|by left|done..]. }
  exists w2, s2. rewrite Hfns, Hfn in Hst'. split_and!; [done|done|done|]. by exists f'.
Qed.

End Whole.

End Deploys.

(** ** A file on its way *)
Module WaySample.
Import Concrete.Concrete DeploySample.
Definition deploy : go unit unit :=
  deployCmd (H := env) (H0 := runtimes) (H1 := url_parse) (H2 := quantities) (H4 := crons)
    (Render0 := texts) (flags_of deploy_flags given) ["foo"].
(** The server and the function after [deploy]. *)
Definition deployed : world := snd (run serve deploy tt installed).
Definition function : Function_ := default zero_function (w_store deployed KFunction !! ("default", "foo")).
(** The informer knows the function. *)
Definition informed : world := w_set_indexer deployed {[ "default/foo" := 1%positive ]}.
Definition memory : mem := Mem {[ 1%positive := function ]} test_runtimes.
Definition step : go mem bool :=
  AddFunc function;; processNextItem (H := runtimes) (H1 := env) controller.
End WaySample.

Import Concrete.Concrete.

Lemma sample_ready :
  controller_ready (H := DeploySample.runtimes) controller WaySample.memory 1%positive "default/foo" "foo.py"
    WaySample.function.
Proof.
  split; [apply lookup_singleton_eq|split; vm_compute; reflexivity|by vm_compute|split; by vm_compute| | |].
  - eexists test_runtimes, _, _. split; [reflexivity|]. split; [intros S; reflexivity|].
    split; [reflexivity|].
    replace (base_volumes WaySample.function) with [{| vol_Name := "foo"; vol_Source := EmptyDir |};
      {| vol_Name := "foo-deps"; vol_Source := ConfigMapSource "foo" |}] by (vm_compute; reflexivity).
    by apply (bool_decide_unpack _).
  - split; [vm_compute; reflexivity|]. split; [lacks_done|done].
  - intros info E Hd. vm_compute in E. injection E as <-. split; [split; [lacks_done|done]|done].
Qed.

Lemma deploy_reaches_pod_witness :
  fst (fst (run serve WaySample.deploy tt DeploySample.installed)) = Done tt /\
  exists w2 s2, run serve WaySample.step WaySample.memory WaySample.informed = (Done true, s2, w2) /\
    pod_gets serve WaySample.function "foo.py" DeploySample.source w2.
Proof.
  destruct (deploy_reaches_pod (H := DeploySample.runtimes) (H0 := Concrete.Concrete.ranges)
      (H1 := Concrete.Concrete.env) (H6 := Concrete.Concrete.registry_json) (H10 := DeploySample.quantities)
      (H12 := DeploySample.crons) (Render0 := DeploySample.texts) serve DeploySample.given "foo" "foo" "bar"
      DeploySample.installed DeploySample.source "" "" "") as (w1 & f & Hrun & Hst & _ & Hgo).
  - discriminate.
  - split; [by vm_compute|discriminate|by split|by vm_compute; right; left|by vm_compute|by eexists].
  - split. eexists "kubeless", "kubeless-config", DeploySample.config_map, "[]", _.
    split; [reflexivity|]. split; [reflexivity|].
    split; [reflexivity|]. split; [reflexivity|reflexivity].
  - split; [reflexivity|discriminate|reflexivity|reflexivity].
  - split; [discriminate|]. by split.
  - exact (no_file_given serve DeploySample.installed).
  - intros k. by destruct k.
  - change (run serve WaySample.deploy tt DeploySample.installed = (Done tt, tt, w1)) in Hrun.
    assert (w1 = WaySample.deployed) as -> by (unfold WaySample.deployed; by rewrite Hrun).
    assert (f = WaySample.function) as ->.
    { symmetry. exact (f_equal (default zero_function) Hst). }
    split; [by rewrite Hrun|].
    destruct (Hgo WaySample.informed Concrete.Concrete.controller WaySample.memory 1%positive "default/foo" "foo.py")
      as (w2 & s2 & E & _ & Hpod & _).
    + intros k ns n. reflexivity.
    + reflexivity.
    + reflexivity.
    + exact sample_ready.
    + exists w2, s2. split; [exact E|exact Hpod].
Defined.
