(* ===== verification/Redeploy.v ===== *)
(** * From an update to the pod

    A function that is deployed and then updated with another source file: the
    command line patches the function, the controller notices, and patches the
    deployment that exists; the pods get the new bytes. *)
From S2P Require Import Prelude GoStrings GoCodec GoProg KubeTypes World LangRuntime Memory K8sUtil.
From S2P Require Import Content PodSpec Ensure EnsureSpec Controller Provision Scaling Patching Deployed Fulfil Converge.
From S2P Require Import Ordering Worker Flags FunctionCmd FunctionRun CommandSafety CommandRuns EndToEnd.
From S2P Require Concrete Registry MergeServer.

(** ** The command *)
Section Update.
Context {W : Type} (H : handler resp W) `{!ApiServer H} `{!Clients H} `{!Files H}.
Context `{OsEnv} `{YamlRuntimes} `{UrlParse} `{ParseQuantity} `{JsonFunction} `{!FunctionPatching H}.
Context `{!Render Function_}.
Context (given : flags) (name : string) (w : W).

(** The configuration can be read, and a runtime that is given is in it. *)
Record configured (runtime : string) : Prop := {
  co_config : exists ns n cm txt rs, run H getConfigLocation tt w = (Done (ns, n), tt, w) /\
    stored w KConfigMap ns n = Some cm /\ mget (cm_Data cm) "runtime-images" = Some txt /\
    yaml_Unmarshal_runtimes txt [] = Ok rs /\
    (runtime = "" \/ IsValidRuntime {| kubelessConfig := cm_Data cm; AvailableRuntimes := rs |} runtime = true) }.

Record update_flags_ok (old : Function_) : Prop := {
  uf_dryrun : bool_flag given "dryrun" false = false;
  uf_namespace : string_flag given "namespace" "" <> "";
  uf_policy : string_flag given "image-pull-policy" "Always" ∈ ["IfNotPresent"; "Always"; "Never"];
  uf_ports : (0 < int32_flag given "port" 8080 <= 65535)%Z /\
    (0 <= int32_flag given "servicePort" 0 <= 65535)%Z;
  uf_resources : exists r, description_resources (deploy_args given name "") old = Ok r }.

Lemma run_config_read runtime : configured runtime ->
  exists cm lr, run H GetKubelessConfig tt w = (Done cm, tt, w) /\
    run H (ReadConfigMap (New (cm_Data cm))) tt w = (Done lr, tt, w) /\
    run H (check_runtime lr runtime) tt w = (Done tt, tt, w).
Proof.
  intros [(ns & n & cm & txt & rs & Hloc & Hcm & Hdata & Hrs & Hv)]. exists cm. eexists. split_and!.
  - unfold GetKubelessConfig. rewrite run_bind, run_attempt, Hloc, run_bind. unfold kGet, call. cbn [run].
    by rewrite api_get, Hcm.
  - unfold ReadConfigMap, LangRuntime.New. cbn [kubelessConfig AvailableRuntimes]. by rewrite Hdata, Hrs.
  - unfold check_runtime. destruct Hv as [->|Hv]; [by rewrite streq_refl|]. by rewrite Hv, andb_false_r.
Qed.

Lemma run_GetFunction ns old : stored w KFunction ns name = Some old ->
  run H (GetFunction name ns) tt w = (Done old, tt, w).
Proof.
  intros Hold. unfold GetFunction. rewrite run_bind, run_kubeless_client by done.
  rewrite run_bind. unfold kGet, call. cbn [run]. by rewrite api_get, Hold.
Qed.

Lemma run_update old deps bytes depsSum depsCt (Hok : update_flags_ok old)
    (Hrt : configured (string_flag given "runtime" ""))
    (Hfile : readable H w (string_flag given "from-file" "") bytes)
    (Hdeps : file_ready H w (string_flag given "dependencies" "") deps depsSum depsCt)
    (Hold : stored w KFunction (string_flag given "namespace" "") name = Some old) :
  let file := string_flag given "from-file" "" in
  exists r w' f', 
    let f := described_function (deploy_args given name deps) old (file_content file bytes) (getSha256 bytes)
      (file_type file bytes) r in
    run H (updateCmd (flags_of update_flags given) [name]) tt w = (Done tt, tt, w') /\
    function_patched old f f' /\ stored w' KFunction (string_flag given "namespace" "") name = Some f' /\
    same_but stored KFunction (string_flag given "namespace" "") name w w'.
Proof.
  cbv zeta. destruct Hok as [Hdry Hns Hpol [Hport Hsp] [r Hr]]. destruct Hfile as (Hf0 & Hu & Hb). exists r.
  destruct (run_checks _ _ _ Hpol Hport Hsp) as (Epol & Eport & Esp).
  destruct (run_config_read _ Hrt) as (cm & lr & Ecm & Elr & Echeck).
  set (f := described_function (deploy_args given name deps) old (file_content (string_flag given "from-file" "") bytes) (getSha256 bytes)
      (file_type (string_flag given "from-file" "") bytes) r).
  destruct (function_marshal_total f) as [data Hdata].
  destruct (api_patch_function w _ _ old f data Hold Hdata eq_refl eq_refl) as (f' & w' & Ep & Hp & Hst & Hbut).
  exists w', f'. split; [|done].
  change (goes H w (Done tt, tt, w') (updateCmd (flags_of update_flags given) [name])).
  unfold updateCmd, update_submit. do 2 (eapply goes_bind; [by apply run_clients|]).
  eapply goes_bind; [by apply run_fatal_with|]. eapply goes_bind; [exact Elr|]. eapply goes_bind; [done|]. flag_step.
  eapply goes_bind. { unfold or_default_namespace. by rewrite (proj2 (streq_false _ _) Hns). }
  do 5 flag_step. eapply goes_bind; [exact Echeck|]. do 4 flag_step. rewrite Epol. eapply goes_bind; [done|].
  do 4 flag_step. eapply goes_bind; [by eapply run_read_deps|]. do 2 flag_step. rewrite Eport. eapply goes_bind; [done|].
  flag_step. rewrite Esp. eapply goes_bind; [done|]. do 3 flag_step.
  eapply goes_bind; [by apply run_fatal_with, run_GetFunction|].
  eapply goes_bind. { apply run_fatal_with with (a := f).
    change (goes H w (Done f, tt, w) (getFunctionDescription (deploy_args given name deps) old)).
    unfold getFunctionDescription. apply goes_bind with (a := (file_content (string_flag given "from-file" "") bytes, getSha256 bytes, file_type (string_flag given "from-file" "") bytes)).
    { unfold description_source. change (a_file (deploy_args given name deps)) with (string_flag given "from-file" "").
      rewrite (proj2 (streq_false _ _) Hf0). rewrite run_bind, (run_GetContentType H w _ bytes Hu Hb).
      by rewrite run_bind, (run_ParseContent H w _ bytes Hb), file_type_local. }
    apply goes_bind with (a := r); [|done]. change (description_resources (deploy_args given name deps) old)
      with (description_resources (deploy_args given name "") old). by rewrite run_lift, Hr. }
  rewrite Hdry. eapply goes_bind; [by apply run_fatal_with, run_kubeless_client|].
  unfold goes, fatal_with. rewrite run_bind, run_attempt. unfold PatchFunctionCustomResource.
  rewrite run_bind, run_lift, Hdata. unfold must, kPatch, call. cbn [prog_bind mbind prog_mbind run].
  change (f_namespace f) with (string_flag given "namespace" ""). change (f_name f) with name. by rewrite Ep.
Qed.

End Update.

(** ** The whole way *)
Section Whole.
Context `{YamlRuntimes} `{MapRange} `{OsEnv} `{IntOrStringValue} `{JsonDeployment} `{Mergo}
  `{UrlParse} `{Registry.RegistryJson} `{CacheKeys} `{YamlDeployment} `{SemanticEqual}.
Context `{ParseQuantity} `{JsonFunction} `{!Render Function_}.
Context {W : Type} (H' : handler resp W) `{!ApiServer H'} `{!Clients H'} `{!Files H'} `{!WorkQueue H'}
  `{!QueueApart H'} `{!Patching H'} `{!FunctionPatching H'}.
Context (given : flags) (name : string).
Implicit Types (w : W) (s : mem).

Let ns := string_flag given "namespace" "".
Let file := string_flag given "from-file" "".

(** The function in the cluster, run by an image of its runtime, and a new
    source for its handler, or for the one of the flags. *)
Record updatable (old : Function_) (bytes : string) : Prop := {
  up_name : f_name old = name /\ f_namespace old = ns /\ name <> "";
  up_alive : om_DeletionTimestamp (f_Meta old) = None;
  up_image : spec_image old = "" /\ string_flag given "runtime-image" "" = "";
  up_handler : exists m h, splitHandler (or_given (string_flag given "handler" "") (fs_Handler (f_Spec old))) = Ok (m, h);
  up_source : getCompressionType file = "" /\ bytes <> "" /\ fs_Function (f_Spec old) <> file_content file bytes }.

Lemma updated_sourced old f bytes deps r :
  updatable old bytes ->
  function_patched old (described_function (deploy_args given name deps) old (file_content file bytes)
    (getSha256 bytes) (file_type file bytes) r) f ->
  (f_namespace f = ns /\ f_name f = name) /\ sourced_from f bytes /\ functionObjChanged old f = true /\
    autoscaler f = autoscaler old.
Proof.
  intros [(Hn & Hns & Hne) Hdel [Himg Hri] (m & h & Hh) (Hc & Hb & Hdiff)]
    [(En & Ens & _ & _ & Ed) _ ((Ehandler & Efun & Ect & Esum) & _) Ecs _ _ Ehpa Ever].
  destruct (plain_file_type file bytes Hc) as [Hct Henc]. simpl in Ehandler, Efun, Ect, Esum.
  assert (Hd : om_DeletionTimestamp (f_Meta f) = None).
  { rewrite Hdel in Ed. simpl in Ed. by destruct (om_DeletionTimestamp (f_Meta f)). }
  assert (Hsrc : fs_Function (f_Spec old) <> fs_Function (f_Spec f)) by (by rewrite Efun).
  split; [split; congruence|]. split.
  - split; [split; congruence|rewrite Ehandler; eauto|by rewrite Ect, Efun|by rewrite Esum|].
    unfold spec_image in *. rewrite Ecs. simpl. unfold description_image, default_container. simpl. rewrite Hri.
      destruct (ps_Containers (dpm_podspec (fs_Deployment (f_Spec old)))) as [|c cs]; [done|exact Himg].
  - split; [|by apply Ehpa]. unfold functionObjChanged. rewrite Hdel, Hd. simpl.
    rewrite (proj2 (streq_false _ _)); [|intros E; apply Ever; congruence].
    by rewrite (proj2 (streq_false _ _) Hsrc).
Qed.

(** C2. An updated source file reaches the pods of a function that is deployed.
    On a lawful server that applies patches, [update] with a readable file
    patches the function; the event of the change is not dropped, and a ready
    and idle controller that gets it ends its next step normally, with a
    deployment -- the one there was, patched, or a new one -- whose first
    container runs a plan that leaves the very bytes of the new file where the
    function's container sees them; afterwards the names are the controller's
    own again, so that this can be repeated with any number of updates. *)
Theorem update_reaches_pod c w old bytes deps depsSum depsCt
    (Hold : stored w KFunction ns name = Some old) (Hup : updatable old bytes) (Hclear : clear H' c old w)
    (Hflags : update_flags_ok given name old) (Hconf : configured H' w (string_flag given "runtime" ""))
    (Hfile : readable H' w file bytes)
    (Hdeps : file_ready H' w (string_flag given "dependencies" "") deps depsSum depsCt) :
  exists w1 f, run H' (updateCmd (flags_of update_flags given) [name]) tt w = (Done tt, tt, w1) /\
    stored w1 KFunction ns name = Some f /\
    (exists r, function_patched old (described_function (deploy_args given name deps) old
       (file_content file bytes) (getSha256 bytes) (file_type file bytes) r) f) /\
    forall w1' s p key fname, same_objects H' w1 w1' -> pending w1' = [] ->
      fst (H' (IndexerGetByKey key) w1') = Ok (Some p) -> controller_ready c s p key fname f ->
      exists w2 s2, run H' (UpdateFunc old f;; processNextItem c) s w1' = (Done true, s2, w2) /\
        pending w2 = [] /\ pod_gets H' f fname bytes w2 /\ clear H' c f w2 /\
        exists f', stored w2 KFunction ns name = Some f' /\ f_Spec f' = f_Spec f /\
          FunctionObjHasFinalizer f' functionFinalizer = true.
Proof.
  destruct (run_update H' given name w old deps bytes depsSum depsCt Hflags Hconf Hfile Hdeps Hold)
    as (r & w1 & f & Hrun & Hp & Hst & Hbut).
  destruct (updated_sourced old f bytes deps r Hup Hp) as ((Hfns & Hfn) & Hsrc & Hchanged & Hauto).
  exists w1, f. split; [done|]. split; [done|]. split; [by exists r|]. intros w1' s p key fname Hsame Hidle Hidx Hready.
  assert (Hclear1 : clear H' c f w1').
  { eapply clear_same; [exact Hsame|]. destruct (up_name _ _ Hup) as (Hon & Hons & _).
    apply (clear_renewed H' c w w1 old f); [congruence|congruence|exact Hauto| |exact Hclear].
    intros k ns' n' Hk. by eapply other_kind. }
  destruct (event_delivers H' c s p key fname f bytes w1' (UpdateFunc old f)) as (w2 & s2 & E & Hp2 & Hpod & Hcl & f' & Hst');
    [by apply UpdateFunc_key; [apply Hready|]|done|done|by rewrite Hfns, Hfn, Hsame|done|done|done|].
  exists w2, s2. rewrite Hfns, Hfn in Hst'. split_and!; [done|done|done|by apply Hcl|]. by exists f'.
Qed.

End Whole.

(** ** An update on its way *)
Import MergeServer Concrete.Concrete.

#[export] Program Instance merging_clients : Clients merging.
Next Obligation. intros. by eexists. Qed.
Next Obligation. done. Qed.

#[export] Program Instance merging_files : Files merging := {| file_bytes w p := w_files w !! p |}.
Next Obligation. intros w p b Hb. simpl. by rewrite Hb. Qed.
Next Obligation. intros w p b Hb. simpl. by rewrite Hb. Qed.

#[export] Program Instance merging_apart : QueueApart merging.
Next Obligation.
  intros w o Ho k ns n. rewrite (merging_other o) by by apply merged_not_queue.
  by apply (queue_stored (H := serve)).
Qed.
Next Obligation.
  intros w o key Ho. rewrite (merging_other o) by by apply merged_not_queue.
  by apply (queue_indexer (H := serve)).
Qed.

Module UpdateWaySample.
Definition source : string := "def bar(event, context): return 43".
(** The cluster after the function was deployed and processed, and a new file. *)
Definition processed : world := snd (run serve WaySample.step WaySample.memory WaySample.informed).
Definition before : world := w_set_files processed (<["src/new.py" := source]> (w_files processed)).
Definition old : Function_ := default zero_function (w_store before KFunction !! ("default", "foo")).
Definition given : flags := {[ "from-file" := FString "src/new.py"; "namespace" := FString "default" ]}.
Definition update : go unit unit :=
  updateCmd (H := env) (H0 := DeploySample.runtimes) (H1 := url_parse) (H2 := DeploySample.quantities)
    (H3 := Numbered.json_function) (Render0 := DeploySample.texts) (flags_of update_flags given) ["foo"].
Definition react (f : Function_) : go mem bool :=
  UpdateFunc old f;; processNextItem (H := DeploySample.runtimes) (H1 := env) (H3 := Numbered.json) controller.

End UpdateWaySample.

(** Free, or an object of kubeless that is not being deleted; the controller's
    own deployment. *)
Definition ours (w : world) (ns name : string) (k : kind) : bool :=
  match w_store w k !! (ns, name) with
  | Some o => bool_decide (obj_name k o = name) && hasDefaultLabel (om_Labels (obj_meta k o)) &&
              bool_decide (om_DeletionTimestamp (obj_meta k o) = None)
  | None => true
  end.

Definition own (w : world) (ns name : string) : bool :=
  match w_store w KDeployment !! (ns, name) with
  | Some d => bool_decide (om_Name (dpm_Meta d) = name) && hasDefaultLabel (om_Labels (dpm_Meta d)) &&
              bool_decide (ds_Selector (dpm_Spec d) = Some (own_selector name))
  | None => false
  end.

Lemma ours_spec w ns name k : ours w ns name k = true -> ours_or_absent merging k ns name w.
Proof.
  unfold ours. intros Ho o Hs. change (w_store w k !! (ns, name) = Some o) in Hs.
  rewrite Hs in Ho. apply andb_true_iff in Ho as [[Hn%bool_decide_eq_true Hl]%andb_true_iff Hd%bool_decide_eq_true]. done.
Qed.

Lemma own_spec w ns name : own w ns name = true ->
  exists d, stored (H := merging) w KDeployment ns name = Some d /\ own_deployment name d.
Proof.
  unfold own. destruct (w_store w KDeployment !! (ns, name)) as [d|] eqn:E; [|intros [=]].
  intros [[Hn%bool_decide_eq_true Hl]%andb_true_iff Hs%bool_decide_eq_true]%andb_true_iff.
  exists d. split; [exact E|done].
Qed.

Module UpdatedSample.
Import UpdateWaySample.
(** The informer has the updated function, the controller is idle. *)
Definition informed (w : world) : world :=
  w_set_queue (w_set_indexer w {[ "default/foo" := 1%positive ]}) {| q_items := []; q_requeues := ∅ |}.
Definition memory (f : Function_) : mem := Mem {[ 1%positive := f ]} test_runtimes.
Definition described (old : Function_) (r : ResourceRequirements) : Function_ :=
  described_function (deploy_args given "foo" "") old (file_content "src/new.py" source) (getSha256 source)
    (file_type "src/new.py" source) r.

(** What the command line and the controller left of the function before. *)
Record as_deployed (old : Function_) : Prop := {
  ad_name : f_name old = "foo" /\ f_namespace old = "default" /\ om_UID (f_Meta old) = "foo-uid";
  ad_alive : om_DeletionTimestamp (f_Meta old) = None;
  ad_spec : fs_Runtime (f_Spec old) = "python2.7" /\ fs_Handler (f_Spec old) = "foo.bar";
  ad_volumes : ps_Volumes (dpm_podspec (fs_Deployment (f_Spec old))) = [] }.

Lemma old_as_deployed : as_deployed old.
Proof. split; [split_and!| |split|]; vm_compute; reflexivity. Qed.
End UpdatedSample.


Lemma updated_ready old f r :
  UpdatedSample.as_deployed old -> function_patched old (UpdatedSample.described old r) f ->
  controller_ready (H := DeploySample.runtimes) controller (UpdatedSample.memory f) 1%positive "default/foo" "foo.py" f.
Proof.
  intros [(En & Ens & Eu) _ (Er & Eh) Evol] [(Hn & Hns & Hu & _) _ ((Hh & _ & Hct & _) & Hrt & _) _ Hv _ _ _].
  rewrite En in Hn. rewrite Ens in Hns. rewrite Eu in Hu.
  change (fs_Handler (f_Spec (UpdatedSample.described old r))) with (fs_Handler (f_Spec old)) in Hh.
  change (fs_Runtime (f_Spec (UpdatedSample.described old r))) with (fs_Runtime (f_Spec old)) in Hrt.
  change (fs_FunctionContentType (f_Spec (UpdatedSample.described old r))) with "text" in Hct.
  change (ps_Volumes (dpm_podspec (fs_Deployment (f_Spec (UpdatedSample.described old r)))))
    with (ps_Volumes (dpm_podspec (fs_Deployment (f_Spec old))) ++ []) in Hv.
  rewrite Eh in Hh. rewrite Er in Hrt. rewrite Evol in Hv. cbn in Hv. clear En Ens Eu Er Eh Evol.
  split.
  - apply lookup_singleton_eq.
  - rewrite Hns, Hn. split; [|vm_compute; reflexivity]. unfold f_name, f_namespace in *. simpl.
    unfold cache_keys. simpl. by rewrite Hns, Hn.
  - by rewrite Hu.
  - split; by vm_compute.
  - rewrite Hrt. eexists test_runtimes, _, _. split; [reflexivity|]. split; [intros S; reflexivity|].
    split; [reflexivity|].
    replace (base_volumes f) with [{| vol_Name := "foo"; vol_Source := EmptyDir |};
      {| vol_Name := "foo-deps"; vol_Source := ConfigMapSource "foo" |}]
      by (unfold base_volumes; rewrite Hv, Hn; reflexivity).
    by apply (bool_decide_unpack _).
  - rewrite Hh, Hct, Hrt. split; [vm_compute; reflexivity|]. split; [lacks_done|done].
  - rewrite Hrt. intros info E Hd. vm_compute in E. injection E as <-. split; [split; [lacks_done|done]|done].
Qed.

Lemma updated_updatable old :
  UpdatedSample.as_deployed old -> spec_image old = "" ->
  fs_Function (f_Spec old) <> file_content "src/new.py" UpdateWaySample.source ->
  updatable UpdateWaySample.given "foo" old UpdateWaySample.source.
Proof.
  intros [(En & Ens & _) Hal (_ & Eh) _] Himg Hdiff.
  split; [split_and!; [exact En|exact Ens|discriminate]|exact Hal|split; [exact Himg|reflexivity]| |].
  - change (string_flag UpdateWaySample.given "handler" "") with "". cbn. rewrite Eh. by eexists _, _.
  - split_and!; [reflexivity|discriminate|exact Hdiff].
Qed.

Lemma before_clear : clear (H3 := Numbered.json) merging controller UpdateWaySample.old UpdateWaySample.before.
Proof.
  destruct UpdatedSample.old_as_deployed as [(En & Ens & _) _ _ _].
  unfold clear, available. rewrite En, Ens. split; [split|].
  - apply ours_spec. vm_compute. reflexivity.
  - split; [apply ours_spec; vm_compute; reflexivity|].
    right. split; [exact merging_patches|]. apply own_spec. vm_compute. reflexivity.
  - unfold steady, scalable, removable. replace (wants_autoscaler UpdateWaySample.old) with false by (vm_compute; reflexivity).
    rewrite En, Ens. split; [|discriminate]. split; [|intros _]; intros o Ho; vm_compute in Ho; discriminate.
Qed.

Lemma config_location w :
  w_store w KCRD !! ("", "functions.kubeless.io") = w_store DeploySample.installed KCRD !! ("", "functions.kubeless.io") ->
  run merging (getConfigLocation (H := Concrete.Concrete.env)) tt w = (Done ("kubeless", "kubeless-config"), tt, w).
Proof. intros E. cbn in *. by rewrite E. Qed.

Lemma update_reaches_pod_witness :
  exists w1 f, run merging UpdateWaySample.update tt UpdateWaySample.before = (Done tt, tt, w1) /\
    w_store w1 KFunction !! ("default", "foo") = Some f /\
    exists w2 s2, run merging (UpdateWaySample.react f) (UpdatedSample.memory f) (UpdatedSample.informed w1)
        = (Done true, s2, w2) /\
      pod_gets merging f "foo.py" UpdateWaySample.source w2.
Proof.
  destruct (update_reaches_pod (H := DeploySample.runtimes) (H0 := Concrete.Concrete.ranges)
      (H1 := Concrete.Concrete.env) (H3 := Numbered.json) (H6 := Concrete.Concrete.registry_json)
      (H10 := DeploySample.quantities) (H11 := Numbered.json_function) (Render0 := DeploySample.texts) merging
      UpdateWaySample.given "foo" controller UpdateWaySample.before UpdateWaySample.old UpdateWaySample.source "" "" "")
    as (w1 & f & Hrun & Hst & (r & Hp) & Hgo).
  - vm_compute. reflexivity.
  - apply updated_updatable; [exact UpdatedSample.old_as_deployed|vm_compute; reflexivity|].
    vm_compute. discriminate.
  - exact before_clear.
  - split; [reflexivity|discriminate|vm_compute; right; left|by vm_compute|vm_compute; by eexists].
  - split. eexists "kubeless", "kubeless-config", DeploySample.config_map, "[]", _.
    split; [apply config_location; vm_compute; reflexivity|]. split; [vm_compute; reflexivity|].
    split; [reflexivity|]. split; [reflexivity|left; reflexivity].
  - split; [discriminate|]. split; vm_compute; reflexivity.
  - exact (no_file_given merging UpdateWaySample.before).
  - exists w1, f. split; [exact Hrun|]. split; [exact Hst|].
    destruct (Hgo (UpdatedSample.informed w1) (UpdatedSample.memory f) 1%positive
        "default/foo" "foo.py") as (w2 & s2 & E & _ & Hpod & _).
    + intros k ns n. reflexivity.
    + reflexivity.
    + reflexivity.
    + exact (updated_ready _ _ _ UpdatedSample.old_as_deployed Hp).
    + exists w2, s2. split; [exact E|exact Hpod].
Defined.
