(* ===== verification/Autoscaling.v ===== *)
(** * From an autoscaling rule to the cluster

    [autoscale create] and [autoscale delete] only write the rule into the
    function; the controller notices and puts the autoscaler there or takes it
    away.  Command line, server, event, queue and controller together. *)
From S2P Require Import Prelude GoStrings GoProg KubeTypes World LangRuntime Memory K8sUtil.
From S2P Require Import PodSpec Ensure EnsureSpec Controller Scaling Patching Deployed Fulfil Converge Worker.
From S2P Require Import Flags FunctionCmd FunctionRun CommandSafety Autoscale TriggerSafety CommandRuns EndToEnd Redeploy.
From S2P Require Concrete Registry MergeServer.

(** An update that changes a function's specification gives it a new resource
    version. *)
Class FunctionVersions {W} (H : handler resp W) `{!ApiServer H} : Prop := {
  api_update_version w ns f old f' :
    stored w KFunction ns (f_name f) = Some old -> om_DeletionTimestamp (f_Meta f) = None ->
    f_Spec f <> f_Spec old ->
    fst (H (AUpdate KFunction ns f) w) = Ok f' ->
    om_ResourceVersion (f_Meta f') <> om_ResourceVersion (f_Meta old) }.

(** The two commands that change a rule. *)
Inductive rule_command := CreateRule | DeleteRule.

(** ** The command *)
Section Command.
Context {W : Type} (H : handler resp W) `{!ApiServer H} `{!Clients H}.
Context `{OsEnv} `{ParseQuantity}.
Context (given : flags) (name : string) (w : W).

Let ns := string_flag given "namespace" "".

Definition rule_run (c : rule_command) : go unit unit :=
  match c with
  | CreateRule => autoscaleCreateCmd (flags_of autoscale_create_flags given) [name]
  | DeleteRule => autoscaleDeleteCmd (flags_of namespace_flags given) [name]
  end.

(** The command is given a sensible rule, or there is one to delete; [hpa] is
    the rule that the function is to have. *)
Definition rule_asked (c : rule_command) (old : Function_) (hpa : HPA) : Prop :=
  match c with
  | CreateRule =>
      let min := int32_flag given "min" 1 in let max := int32_flag given "max" 1 in
      let metric := string_flag given "metric" "cpu" in
      (0 < min <= max)%Z /\ metric ∈ ["cpu"; "qps"] /\
      getHorizontalAutoscaleDefinition name ns metric min max (string_flag given "value" "") (f_labels old) = Ok hpa
  | DeleteRule => hpa_name (autoscaler old) <> "" /\ hpa = zero_hpa
  end.

(** What the server stores of the function with its new rule. *)
Lemma run_put_rule old hpa :
  stored w KFunction ns name = Some old -> f_name old = name -> f_namespace old = ns ->
  om_DeletionTimestamp (f_Meta old) = None ->
  exists f w', H (AUpdate KFunction ns (f_set_hpa old hpa)) w = (Ok f, w') /\
    run H (fatal_with "" (UpdateFunctionCustomResource (f_set_hpa old hpa))) tt w = (Done tt, tt, w') /\
    accepts KFunction (f_set_hpa old hpa) f /\ stored w' KFunction ns name = Some f /\
    same_but stored KFunction ns name w w'.
Proof.
  intros Hst Hn Hns Hdel.
  destruct (api_update w KFunction ns (f_set_hpa old hpa) old) as (f & w' & E & Ha & Hst' & Hb);
    [by change (obj_name KFunction (f_set_hpa old hpa)) with (f_name old); rewrite Hn|by split; [right|]|].
  exists f, w'. split; [exact E|]. change (obj_name KFunction (f_set_hpa old hpa)) with (f_name old) in *.
  rewrite Hn in *. unfold finalized in Hst'. cbn in Hst'. rewrite Hdel in Hst'. split; [|done].
  unfold fatal_with. rewrite run_bind, run_attempt. unfold UpdateFunctionCustomResource, must, kUpdate, call.
  cbn. change (f_namespace (f_set_hpa old hpa)) with (f_namespace old). by rewrite Hns, E.
Qed.

Lemma run_find_function old : stored w KFunction ns name = Some old ->
  run H (find_function name ns) tt w = (Done old, tt, w).
Proof.
  intros Hst. unfold find_function. by rewrite run_bind, run_attempt, (run_GetFunction H name w ns old Hst).
Qed.

Lemma run_rule c old hpa (Hns : ns <> "") (Hst : stored w KFunction ns name = Some old)
    (Hn : f_name old = name /\ f_namespace old = ns) (Hdel : om_DeletionTimestamp (f_Meta old) = None)
    (Hasked : rule_asked c old hpa) :
  exists f w', H (AUpdate KFunction ns (f_set_hpa old hpa)) w = (Ok f, w') /\
    run H (rule_run c) tt w = (Done tt, tt, w') /\
    accepts KFunction (f_set_hpa old hpa) f /\ stored w' KFunction ns name = Some f /\
    same_but stored KFunction ns name w w'.
Proof.
  destruct Hn as [Hn Hfns]. destruct (run_put_rule old hpa Hst Hn Hfns Hdel) as (f & w' & E & Eput & Hrest).
  exists f, w'. split; [exact E|]. split; [|exact Hrest].
  change (goes H w (Done tt, tt, w') (rule_run c)). unfold rule_run.
  destruct c; [destruct Hasked as ([Hmin Hmax] & Hmetric & Hdef)|destruct Hasked as [Hname ->]].
  - unfold autoscaleCreateCmd. eapply goes_bind; [done|]. flag_step.
    eapply goes_bind. { unfold or_default_namespace. fold ns. by rewrite (proj2 (streq_false _ _) Hns). }
    eapply goes_bind; [by apply run_find_function|]. flag_step.
    rewrite (proj2 (Z.leb_gt _ _) Hmin). eapply goes_bind; [done|]. flag_step.
    rewrite (proj2 (Z.ltb_ge _ _) Hmax). eapply goes_bind; [done|]. flag_step.
    eapply goes_bind with (a := tt).
    { apply elem_of_cons in Hmetric as [->|Hmetric]; [done|]. by apply list_elem_of_singleton in Hmetric as ->. }
    flag_step. eapply goes_bind; [apply run_fatal_with; fold ns; rewrite run_lift, Hdef; done|].
    eapply goes_bind; [by apply run_fatal_with, run_kubeless_client|]. exact Eput.
  - unfold autoscaleDeleteCmd. eapply goes_bind; [done|]. flag_step.
    eapply goes_bind. { unfold or_default_namespace. fold ns. by rewrite (proj2 (streq_false _ _) Hns). }
    eapply goes_bind; [by apply run_find_function|]. fold (autoscaler old).
    rewrite (proj2 (streq_false _ _) Hname). cbn [negb].
    eapply goes_bind; [by apply run_fatal_with, run_kubeless_client|]. exact Eput.
Qed.

End Command.

(** ** The whole way *)
Section Whole.
Context `{YamlRuntimes} `{MapRange} `{OsEnv} `{IntOrStringValue} `{JsonDeployment} `{Mergo}
  `{UrlParse} `{Registry.RegistryJson} `{CacheKeys} `{YamlDeployment} `{SemanticEqual} `{ParseQuantity}.
Context {W : Type} (H' : handler resp W) `{!ApiServer H'} `{!Clients H'} `{!WorkQueue H'} `{!QueueApart H'}
  `{!FunctionVersions H'}.
Context (given : flags) (name : string).
Implicit Types (w : W) (s : mem).

Let ns := string_flag given "namespace" "".

(** A controller, with the informer's store in [s], that can serve [f]. *)
Record can_serve (c : FunctionController) s (p : positive) (key : string) (f : Function_) : Prop := {
  cs_cached : m_heap s !! p = Some f;
  cs_key : MetaNamespaceKeyFunc (f_Meta f) = Ok key /\ SplitMetaNamespaceKey key = Ok (f_namespace f, f_name f);
  cs_named : f_name f <> "" /\ om_UID (f_Meta f) <> "";
  cs_config : mget (config_Data c) "deployment" = None /\ mstr (config_Data c) "enable-build-step" <> "true";
  cs_source : (exists data, configMapData f (m_lr s) = Ok data) /\ sourced (m_lr s) f }.

(** The names of the function's objects are the controller's, and so is the
    one of the autoscaler that [hpa] asks for or that it does without. *)
Definition room (c : FunctionController) (old : Function_) (hpa : HPA) w : Prop :=
  available H' old w /\ scalable H' c (f_set_hpa old hpa) w.

(** The rule is not the one that the function has. *)
Definition another_rule (old : Function_) (hpa : HPA) : Prop :=
  autoscaler old <> hpa /\ DeepEqual_hpa (autoscaler old) hpa = false.

(** What the cluster has for the rule. *)
Definition rule_applied (c : FunctionController) (verb : rule_command) (hpa : HPA) (f : Function_) w : Prop :=
  match verb with
  | CreateRule =>
      exists h d, stored w KHPA ns name = Some h /\ hpa_Spec h = hpa_Spec hpa /\
        om_OwnerReferences (hpa_Meta h) = function_owner f /\
        ref_Kind (hs_ScaleTargetRef (hpa_Spec h)) = "Deployment" /\ ref_Name (hs_ScaleTargetRef (hpa_Spec h)) = name /\
        stored w KDeployment ns name = Some d /\
        (custom_metric f = true -> exists sm, stored w KServiceMonitor ns name = Some sm)
  | DeleteRule => stored w KHPA ns name = None /\ (hasSm c = true -> stored w KServiceMonitor ns name = None)
  end.

Lemma room_renewed c old hpa f w w' :
  f_name f = f_name old -> f_namespace f = f_namespace old -> autoscaler f = hpa ->
  (forall k ns n, k <> KFunction -> stored w' k ns n = stored w k ns n) -> room c old hpa w ->
  available H' f w' /\ scalable H' c f w'.
Proof.
  intros Hn Hns <- Hsame. unfold room, available, ours_or_absent, deployment_free, scalable, wants_autoscaler,
    custom_metric, removable. change (f_name (f_set_hpa old (autoscaler f))) with (f_name old).
  change (f_namespace (f_set_hpa old (autoscaler f))) with (f_namespace old).
  change (autoscaler (f_set_hpa old (autoscaler f))) with (autoscaler f). by rewrite Hn, Hns, !Hsame.
Qed.

Lemma rule_changes old hpa f :
  another_rule old hpa -> f_Spec f = f_Spec (f_set_hpa old hpa) ->
  om_ResourceVersion (f_Meta f) <> om_ResourceVersion (f_Meta old) -> functionObjChanged old f = true.
Proof.
  intros [_ Hne] Hspec Hv. unfold functionObjChanged. destruct (negb _); [done|].
  rewrite (proj2 (streq_false _ _)) by congruence. cbv zeta. rewrite Hspec. destruct (_ || _); [done|].
  cbn [f_set_hpa f_Spec fs_HorizontalPodAutoscaler]. fold (autoscaler old). rewrite Hne. cbn. by rewrite orb_true_r.
Qed.

(** What [scaled] says of the rule that a command asked for. *)
Lemma scaled_applied c verb old hpa f d w w' :
  rule_asked given name verb old hpa -> autoscaler f = hpa -> f_name f = name -> f_namespace f = ns -> name <> "" ->
  stored w' KDeployment ns name = Some d -> scaled H' c f (function_owner f) w w' ->
  rule_applied c verb hpa f w'.
Proof.
  intros Hasked Ha Hn Hns Hne Hd. unfold scaled, wants_autoscaler. rewrite Ha, Hn, Hns.
  destruct verb; [destruct Hasked as ([Hmin Hmax] & _ & Hdef)|destruct Hasked as [_ ->]].
  - destruct (rule_valid old _ _ _ _ _ _ _ Hmin Hmax Hdef) as ([_ _ [Hk Ht] _] & En & Ens).
    rewrite Ht, En, Ens, (proj2 (streq_false _ _) Hne). cbn [negb andb]. intros ((h & Hh & Hspec & Hown & _) & Hsm).
    exists h, d. rewrite Hspec. split_and!; [done..|by rewrite Ht| |]; [done|]. intros Hc. by rewrite Hc in Hsm.
  - cbn. intros [Hh Hsm]. split; [done|]. intros Hc. by rewrite Hc in Hsm.
Qed.

(** C4. A rule that is created or deleted on the command line takes effect.  On
    a lawful server [autoscale create] with bounds in order and a metric that
    has a value, or [autoscale delete] of a rule that is there, puts the new
    rule into the function and changes nothing else; the event of the change is
    not dropped, and an idle controller that can serve the function ends its
    next step normally, with the queue drained: after a creation the cluster
    has the autoscaler, owned by the function, with the bounds and the metric
    of the flags, its target is the function's deployment, which is there, and
    so is the service monitor of a custom metric; after a deletion the cluster
    has neither autoscaler nor, where the controller makes them, monitor. *)
Theorem autoscale_takes_effect c verb w old hpa (Hns : ns <> "")
    (Hold : stored w KFunction ns name = Some old) (Hnames : f_name old = name /\ f_namespace old = ns)
    (Halive : om_DeletionTimestamp (f_Meta old) = None)
    (Hasked : rule_asked given name verb old hpa) (Hnew : another_rule old hpa) (Hroom : room c old hpa w) :
  exists w1 f, run H' (rule_run given name verb) tt w = (Done tt, tt, w1) /\
    stored w1 KFunction ns name = Some f /\ f_Spec f = f_Spec (f_set_hpa old hpa) /\
    same_but stored KFunction ns name w w1 /\
    forall w1' s p key, same_objects H' w1 w1' -> pending w1' = [] ->
      fst (H' (IndexerGetByKey key) w1') = Ok (Some p) -> can_serve c s p key f ->
      exists w2 s2, run H' (UpdateFunc old f;; processNextItem c) s w1' = (Done true, s2, w2) /\
        pending w2 = [] /\ rule_applied c verb hpa f w2.
Proof.
  destruct (run_rule H' given name w verb old hpa Hns Hold Hnames Halive Hasked)
    as (f & w1 & Eput & Hrun & [(Hn & _ & _ & _ & _ & Hdel & Hfns) Hspec] & Hst & Hb).
  destruct Hnames as [En Ens]. change (f_name f = f_name old) in Hn.
  assert (Hfns' : f_namespace f = f_namespace old) by (apply Hfns; change (f_namespace old <> ""); congruence).
  assert (Hauto : autoscaler f = hpa) by (unfold autoscaler; by rewrite Hspec).
  assert (Hchanged : functionObjChanged old f = true).
  { eapply rule_changes; [done|exact Hspec|]. eapply (api_update_version w ns (f_set_hpa old hpa)).
    - change (f_name (f_set_hpa old hpa)) with (f_name old). by rewrite En.
    - exact Halive.
    - intros E. destruct Hnew as [Hne _]. apply Hne. unfold autoscaler. by rewrite <- E.
    - exact (f_equal fst Eput). }
  exists w1, f. do 4 (split; [done|]). intros w1' s p key Hsame Hidle Hidx [Hp [Hkey Hsplit] Hnamed Hcfg [[data Hdata] Hsrc]].
  destruct (run_event H' c key s w1' Hidle) as (w0 & Hsame0 & Hidx0 & Hgo).
  destruct (room_renewed c old hpa f w w0 Hn Hfns' Hauto) as [Hav Hsc]; [|done|].
  { intros k ns' n' Hk. rewrite Hsame0, Hsame. by eapply other_kind. }
  destruct (processItem_provides_with H' (fun _ => True) c key _ _ p f data s w0 Hsplit)
    as (w' & s' & E & [_ _ (d & Hd & _)] & _ & _ & Hscaled & _).
  { by rewrite Hidx0, Hidx. }
  { by rewrite Hsame0, Hsame, Hfns', Hn, En, Ens. }
  { intros ? ? ? ? _ _ _. apply ensures_true. }
  { split; [split; [done|]|done..|by split|done|done]. simpl in Hdel. rewrite Halive in Hdel.
    by destruct (om_DeletionTimestamp (f_Meta f)). }
  destruct (Hgo s' w' E) as (w2 & E2 & Hsame2 & Hp2).
  exists w2, s'. split; [by rewrite (UpdateFunc_key old f key Hkey Hchanged)|]. split; [done|].
  rewrite Hfns', Hn, En, Ens in Hd.
  assert (Happ : rule_applied c verb hpa f w').
  { eapply scaled_applied; try done; [congruence|congruence|]. rewrite <- En, <- Hn. apply Hnamed. }
  revert Happ. unfold rule_applied. by rewrite !Hsame2.
Qed.

End Whole.

(** ** A function that gets a rule *)
Import MergeServer Concrete.Concrete.

#[export] Instance merging_versions : FunctionVersions merging.
Proof.
  split. intros w ns f old f' Hst Hdel _. change (w_store w KFunction !! (ns, f_name f) = Some old) in Hst.
  change (merging (AUpdate KFunction ns f) w) with (update_function ns f w). unfold update_function, finalized.
  cbn [obj obj_meta] in *. rewrite Hst, Hdel. destruct (stale KFunction old f); [done|]. intros [= <-]. apply longer_differs.
Qed.

Module RuleSample.
(** The function was deployed and processed; now it is to scale by its load. *)
Definition before : world := UpdateWaySample.before.
Definition old : Function_ := UpdateWaySample.old.
Definition given : flags :=
  {[ "namespace" := FString "default"; "min" := FInt32 2; "max" := FInt32 4; "value" := FString "50" ]}.
Definition create : go unit unit := rule_run (H0 := env) (H1 := DeploySample.quantities) given "foo" CreateRule.
Definition rule : HPA :=
  match getHorizontalAutoscaleDefinition (H := DeploySample.quantities) "foo" "default" "cpu" 2 4 "50" (f_labels old) with
  | Ok h => h
  | Error _ => zero_hpa
  end.
Definition created : world := snd (run merging create tt before).
Definition function : Function_ := default zero_function (w_store created KFunction !! ("default", "foo")).
Definition react : go mem bool :=
  UpdateFunc old function;; processNextItem (H := DeploySample.runtimes) (H1 := env) (H3 := Numbered.json) controller.
End RuleSample.

Lemma rule_room : room (H3 := Numbered.json) merging controller RuleSample.old RuleSample.rule RuleSample.before.
Proof.
  split; [exact (proj1 before_clear)|].
  unfold scalable. replace (wants_autoscaler (f_set_hpa RuleSample.old RuleSample.rule)) with true by (vm_compute; reflexivity).
  split; [vm_compute; discriminate|]. split; [reflexivity|]. split; [intros Hc; vm_compute in Hc; discriminate|].
  intros h Hh. vm_compute in Hh. discriminate.
Qed.

Lemma rule_can_serve :
  can_serve (H := DeploySample.runtimes) controller (UpdatedSample.memory RuleSample.function) 1%positive "default/foo"
    RuleSample.function.
Proof.
  split; [apply lookup_singleton_eq|split; vm_compute; reflexivity|split; vm_compute; discriminate|split; by vm_compute|].
  split; [eexists; vm_compute; reflexivity|]. split; [do 2 eexists; vm_compute; reflexivity|]. right. exists test_runtimes.
  assert (fs_Runtime (f_Spec RuleSample.function) = "python2.7") as Ert by (vm_compute; reflexivity).
  split; rewrite ?Ert.
  - do 2 eexists. vm_compute. reflexivity.
  - vm_compute. reflexivity.
  - right. eexists. vm_compute. reflexivity.
  - by eexists.
  - intros S. reflexivity.
  - eexists. split; [reflexivity|].
    replace (base_volumes RuleSample.function) with [{| vol_Name := "foo"; vol_Source := EmptyDir |};
      {| vol_Name := "foo-deps"; vol_Source := ConfigMapSource "foo" |}] by (vm_compute; reflexivity).
    by apply (bool_decide_unpack _).
Qed.

Lemma autoscale_takes_effect_witness :
  fst (fst (run merging RuleSample.create tt RuleSample.before)) = Done tt /\
  exists w2 s2, run merging RuleSample.react (UpdatedSample.memory RuleSample.function)
      (UpdatedSample.informed RuleSample.created) = (Done true, s2, w2) /\
    exists h, w_store w2 KHPA !! ("default", "foo") = Some h /\ hs_MaxReplicas (hpa_Spec h) = 4%Z.
Proof.
  destruct (autoscale_takes_effect (H := DeploySample.runtimes) (H0 := Concrete.Concrete.ranges)
      (H1 := Concrete.Concrete.env) (H3 := Numbered.json) (H6 := Concrete.Concrete.registry_json)
      (H10 := DeploySample.quantities) merging RuleSample.given "foo" controller CreateRule RuleSample.before
      RuleSample.old RuleSample.rule) as (w1 & f & Hrun & Hst & _ & _ & Hgo).
  - discriminate.
  - vm_compute. reflexivity.
  - split; vm_compute; reflexivity.
  - vm_compute. reflexivity.
  - split; [split; vm_compute; congruence|]. split; [left|vm_compute; reflexivity].
  - split; [vm_compute; discriminate|vm_compute; reflexivity].
  - exact rule_room.
  - change (run merging RuleSample.create tt RuleSample.before = (Done tt, tt, w1)) in Hrun.
    assert (w1 = RuleSample.created) as -> by (unfold RuleSample.created; by rewrite Hrun).
    assert (f = RuleSample.function) as -> by (symmetry; exact (f_equal (default zero_function) Hst)).
    split; [by rewrite Hrun|].
    destruct (Hgo (UpdatedSample.informed RuleSample.created) (UpdatedSample.memory RuleSample.function) 1%positive "default/foo")
      as (w2 & s2 & E & _ & h & d & Hh & Hspec & _).
    + intros k ns n. reflexivity.
    + reflexivity.
    + reflexivity.
    + exact rule_can_serve.
    + exists w2, s2. split; [exact E|]. exists h. split; [exact Hh|]. rewrite Hspec. vm_compute. reflexivity.
Defined.
