(* ===== verification/Undeploy.v ===== *)
(** * From a delete to an empty cluster

    [delete] only marks a function that has the controller's finalizer; the
    controller notices the mark, takes the function's objects away and lets the
    resource go.  Command line, server, event, queue and controller together. *)
From S2P Require Import Prelude GoStrings GoProg KubeTypes World LangRuntime Memory K8sUtil.
From S2P Require Import PodSpec Ensure Controller Reconcile Deletion Worker Fulfil.
From S2P Require Import Flags FunctionCmd FunctionRun CommandSafety CommandRuns EndToEnd.
From S2P Require Concrete Registry.

(** The function as it is marked: it keeps its identity and finalizers. *)
Record marked (f f' : Function_) : Prop := {
  mk_identity : f_name f' = f_name f /\ f_namespace f' = f_namespace f /\ om_UID (f_Meta f') = om_UID (f_Meta f);
  mk_finalizers : om_Finalizers (f_Meta f') = om_Finalizers (f_Meta f);
  mk_time : om_DeletionTimestamp (f_Meta f') <> None }.

(** A deletion of an object that a finalizer holds marks it. *)
Class Finalizers {W} (H : handler resp W) `{!ApiServer H} : Prop := {
  api_mark w ns n f :
    stored w KFunction ns n = Some f -> om_Finalizers (f_Meta f) <> [] -> om_DeletionTimestamp (f_Meta f) = None ->
    exists f' w', H (ADelete KFunction ns n) w = (Ok tt, w') /\ marked f f' /\
      stored w' KFunction ns n = Some f' /\ same_but stored KFunction ns n w w' }.

Section Undeploy.
Context `{YamlRuntimes} `{MapRange} `{OsEnv} `{IntOrStringValue} `{JsonDeployment} `{Mergo}
  `{UrlParse} `{Registry.RegistryJson} `{CacheKeys} `{YamlDeployment} `{SemanticEqual}.
Context {W : Type} (H' : handler resp W) `{!ApiServer H'} `{!Clients H'} `{!WorkQueue H'} `{!QueueApart H'}
  `{!Finalizers H'}.
Context (given : flags) (name : string).
Implicit Types (w : W) (s : mem).

Let ns := string_flag given "namespace" "".

(** A function that the controller has taken care of. *)
Record deployed_function (f : Function_) : Prop := {
  df_name : f_name f = name /\ f_namespace f = ns /\ plain name;
  df_alive : om_DeletionTimestamp (f_Meta f) = None;
  df_finalizer : FunctionObjHasFinalizer f functionFinalizer = true }.

Lemma run_delete w f (Hns : ns <> "") (Hst : stored w KFunction ns name = Some f)
    (Hfin : om_Finalizers (f_Meta f) <> []) (Hdel : om_DeletionTimestamp (f_Meta f) = None) :
  exists w' f', run H' (deleteCmd (flags_of namespace_flags given) [name]) tt w = (Done tt, tt, w') /\
    marked f f' /\ stored w' KFunction ns name = Some f' /\ same_but stored KFunction ns name w w'.
Proof.
  destruct (api_mark w ns name f Hst Hfin Hdel) as (f' & w' & E & Hm & Hst' & Hb).
  exists w', f'. split; [|done].
  change (goes H' w (Done tt, tt, w') (deleteCmd (flags_of namespace_flags given) [name])).
  unfold deleteCmd. eapply goes_bind; [done|]. flag_step.
  eapply goes_bind. { unfold or_default_namespace. fold ns. by rewrite (proj2 (streq_false _ _) Hns). }
  eapply goes_bind; [by apply run_fatal_with, run_kubeless_client|].
  unfold goes, fatal_with. rewrite run_bind, run_attempt.
  unfold DeleteFunctionCustomResource, must, kDelete, call. cbn. fold ns. by rewrite E.
Qed.

Lemma marked_changed f f' : marked f f' -> om_DeletionTimestamp (f_Meta f) = None -> functionObjChanged f f' = true.
Proof.
  intros [_ _ Ht] Hd. unfold functionObjChanged. rewrite Hd.
  by destruct (om_DeletionTimestamp (f_Meta f')).
Qed.

Lemma unpinned_same w w' :
  (forall k ns' n', k <> KFunction -> stored w' k ns' n' = stored w k ns' n') -> unpinned H' w -> unpinned H' w'.
Proof. intros Hs Hw k ns' n' o Hk. rewrite Hs by done. by apply Hw. Qed.

(** C3. Deleting a function takes away what the controller made for it.  On a
    lawful server [delete] marks a function that has the controller's
    finalizer and changes nothing else; the event of the mark is not dropped,
    and an idle controller that gets it ends its next step normally, with the
    queue drained: the function's objects are gone, every other object is as
    it was before the command, and the resource is without the finalizer, and
    gone when it had no other, so that the name is free for a function to be
    deployed again. *)
Theorem delete_removes c w f
    (Hst : stored w KFunction ns name = Some f) (Hf : deployed_function f) (Hns : ns <> "") (Hw : unpinned H' w) :
  exists w1 f', run H' (deleteCmd (flags_of namespace_flags given) [name]) tt w = (Done tt, tt, w1) /\
    marked f f' /\ stored w1 KFunction ns name = Some f' /\ same_but stored KFunction ns name w w1 /\
    forall w1' s p key, same_objects H' w1 w1' -> pending w1' = [] ->
      fst (H' (IndexerGetByKey key) w1') = Ok (Some p) -> m_heap s !! p = Some f' ->
      MetaNamespaceKeyFunc (f_Meta f') = Ok key -> SplitMetaNamespaceKey key = Ok (ns, name) ->
      exists w2, run H' (UpdateFunc f f';; processNextItem c) s w1' = (Done true, s, w2) /\ pending w2 = [] /\
        (forall k ns' n', (k, ns', n') <> (KFunction, ns, name) ->
           stored w2 k ns' n' =
           match stored w k ns' n' with
           | Some o => if removes c ns name k ns' n' o then None else Some o
           | None => None
           end) /\
        (forall f2, stored w2 KFunction ns name = Some f2 -> FunctionObjHasFinalizer f2 functionFinalizer = false) /\
        (remove_finalizer functionFinalizer (om_Finalizers (f_Meta f)) = [] ->
           stored w2 KFunction ns name = None).
Proof.
  destruct Hf as [(Hn & Hfns & Hplain) Hdel Hfin].
  assert (Hne : om_Finalizers (f_Meta f) <> []).
  { intros E. unfold FunctionObjHasFinalizer in Hfin. by rewrite E in Hfin. }
  destruct (run_delete w f Hns Hst Hne Hdel) as (w1 & f' & Hrun & Hm & Hst1 & Hb1).
  exists w1, f'. do 4 (split; [done|]). intros w1' s p key Hsame Hidle Hidx Hp Hkey Hsplit.
  pose proof Hm as [(Hn' & Hns' & _) Hfin' Htime].
  assert (Hnames : f_name f' = name /\ f_namespace f' = ns) by (split; congruence). destruct Hnames as [En Ens].
  assert (Hother : forall k ns' n', k <> KFunction -> stored w1' k ns' n' = stored w k ns' n').
  { intros k ns' n' Hk. rewrite Hsame. apply Hb1. congruence. }
  destruct (run_event H' c key s w1' Hidle) as (w0 & Hsame0 & Hidx0 & Hgo).
  destruct (processItem_deletes H' c key ns p f' f' s w0) as (w' & E & Hrest & Hoff & Hgone);
    [by rewrite En|by rewrite En|done|by rewrite Hidx0, Hidx|done|done| | | |by split; [right|]|].
  { unfold FunctionObjHasFinalizer in *. by rewrite Hfin'. }
  { eapply unpinned_same; [|exact Hw]. intros. by rewrite Hsame0, Hother. }
  { rewrite En, Hsame0, Hsame. exact Hst1. }
  destruct (Hgo s w' E) as (w2 & E2 & Hsame2 & Hp2). rewrite En in *.
  exists w2. split_and!; [|done| | |].
  - rewrite (UpdateFunc_key f f' key Hkey) by by apply marked_changed. exact E2.
  - intros k ns' n' Hne'. rewrite Hsame2, Hrest by done. rewrite Hsame0, Hsame, Hb1 by done. done.
  - intros f2. rewrite Hsame2. apply Hoff.
  - rewrite <- Hfin'. rewrite Hsame2. exact Hgone.
Qed.

End Undeploy.

(** ** A function on its way out *)
Import Concrete.Concrete.

#[export] Program Instance serve_finalizers : Finalizers serve.
Next Obligation.
  intros w ns n f Hst Hfin Hdel. change (w_store w KFunction !! (ns, n) = Some f) in Hst.
  set (f' := f_set_meta f (meta_set_deleted (f_Meta f) (Some (Ptr 0 1%Z)))).
  exists f', (w_put w KFunction ns n f'). split_and!.
  - cbn [serve]. cbn [obj] in *. rewrite Hst. cbn. by destruct (om_Finalizers (f_Meta f)).
  - by split.
  - apply w_put_same.
  - intros k' ns' n'. apply w_put_other.
Qed.

Definition unheld (k : kind) (w : world) : bool :=
  forallb (fun kv => match om_Finalizers (obj_meta k kv.2) with [] => true | _ => false end)
    (map_to_list (w_store w k)).

Lemma unheld_unpinned w : (forall k, k <> KFunction -> unheld k w = true) -> unpinned serve w.
Proof.
  intros Hw k ns n o Hk Hst. change (w_store w k !! (ns, n) = Some o) in Hst.
  specialize (Hw k Hk). unfold unheld in Hw. rewrite forallb_forall in Hw.
  specialize (Hw ((ns, n), o)). rewrite <- list_elem_of_In, elem_of_map_to_list in Hw. specialize (Hw Hst).
  simpl in Hw. by destruct (om_Finalizers (obj_meta k o)).
Qed.

Module AwaySample.
(** The cluster after the function was deployed and processed. *)
Definition processed : world := snd (run serve WaySample.step WaySample.memory WaySample.informed).
Definition function : Function_ := default zero_function (w_store processed KFunction !! ("default", "foo")).
Definition given : flags := {[ "namespace" := FString "default" ]}.
Definition delete_ : go unit unit := deleteCmd (H := env) (flags_of namespace_flags given) ["foo"].
Definition informed (w : world) : world :=
  w_set_queue (w_set_indexer w {[ "default/foo" := 1%positive ]}) {| q_items := []; q_requeues := ∅ |}.
Definition memory (f : Function_) : mem := Mem {[ 1%positive := f ]} test_runtimes.
Definition react (f : Function_) : go mem bool :=
  UpdateFunc function f;; processNextItem (H := DeploySample.runtimes) (H1 := env) controller.
End AwaySample.

Lemma processed_unpinned : unpinned serve AwaySample.processed.
Proof. apply unheld_unpinned. intros k Hk. destruct k; [done|vm_compute; reflexivity..]. Qed.

Lemma processed_function :
  stored (H := serve) AwaySample.processed KFunction "default" "foo" = Some AwaySample.function /\
  om_Finalizers (f_Meta AwaySample.function) = [functionFinalizer] /\
  deployed_function AwaySample.given "foo" AwaySample.function.
Proof.
  split; [vm_compute; reflexivity|]. split; [vm_compute; reflexivity|].
  split; [split; [vm_compute; reflexivity|split; [vm_compute; reflexivity|split; lacks_done]]|vm_compute; reflexivity..].
Qed.

Lemma delete_removes_witness :
  exists w1 f', run serve AwaySample.delete_ tt AwaySample.processed = (Done tt, tt, w1) /\
    exists w2, run serve (AwaySample.react f') (AwaySample.memory f') (AwaySample.informed w1)
        = (Done true, AwaySample.memory f', w2) /\
      w_store w2 KFunction !! ("default", "foo") = None /\ w_store w2 KDeployment !! ("default", "foo") = None.
Proof.
  destruct processed_function as (Hst & Hfin & Hdep).
  destruct (delete_removes (H := DeploySample.runtimes) (H0 := Concrete.Concrete.ranges) (H1 := Concrete.Concrete.env)
    (H6 := Concrete.Concrete.registry_json) serve AwaySample.given "foo" controller AwaySample.processed
    AwaySample.function Hst Hdep) as (w1 & f' & Hrun & Hm & _ & _ & Hgo).
  - discriminate.
  - exact processed_unpinned.
  - exists w1, f'. split; [exact Hrun|].
    destruct (df_name _ _ _ Hdep) as (En & Ens & _). destruct Hm as [(En' & Ens' & _) _ _]. rewrite En in En'. rewrite Ens in Ens'.
    destruct (Hgo (AwaySample.informed w1) (AwaySample.memory f') 1%positive "default/foo") as (w2 & E & _ & Hrest & _ & Hgone).
    + intros k ns n. reflexivity.
    + reflexivity.
    + reflexivity.
    + reflexivity.
    + unfold f_name, f_namespace in *. simpl. unfold cache_keys. simpl. by rewrite Ens', En'.
    + reflexivity.
    + exists w2. split; [exact E|]. split.
      * apply Hgone. by rewrite Hfin.
      * pose proof (Hrest KDeployment "default" "foo") as Hd. destruct (stored AwaySample.processed KDeployment "default" "foo"); apply Hd; congruence.
Defined.
